(* ===== verification/_CoqProject ===== *)
-Q . S2P
Prelude.v
GoStrings.v
PathUtil.v
Metadata.v
MemStore.v
Cache.v
Locks.v
RedisLocks.v
Auth.v
Links.v
Backends.v
LocalFS.v
InternalProxy.v
Erasure.v
RaftStore.v
GoTime.v
Json.v
RaftText.v
RaftTextSpec.v
RaftNode.v
Sql.v
Sqlite.v
SqliteSpec.v
Postgres.v
PostgresSpec.v
RedisStore.v
RedisStoreSpec.v
Engine.v
EngineSpec.v
Handlers.v
HandlerSpec.v
Config.v
ConfigSpec.v
Startup.v
StartupSpec.v
RateLimit.v
RateLimitSpec.v
WebSocket.v
WebSocketSpec.v
Router.v
S3.v
S3Spec.v
LogSanitize.v
Server.v
Metrics.v
MetricsSpec.v
App.v
AppTransfer.v
ErasureCluster.v
LocalFSSpec.v
Threads.v
EngineThreads.v
EngineThreadsSpec.v
EngineRecordsSpec.v
EngineReadsSpec.v
Cluster.v
Workers.v
Migrations.v
