(* ===== verification/Prelude.v ===== *)
(** * CallFS: a verification development

    CallFS is a REST file system: an HTTP API over an engine that keeps a
    metadata record per path in a store, the contents in storage backends, and
    optionally erasure-coded shards on several instances.  This library models
    the server's Go code as functions and proves what each part promises to the
    parts above it, up to the router and the start of the program.

    ** The program and the files

    - src/internal/pathutil, src/server/handlers/path_utils.go: PathUtil.v
      ([PathUtil]: Clean, SafeJoin, ValidatePath; [PathUtils]: ParseFilePath).
    - src/metadata/store.go: Metadata.v (records, the [Store] interface, its
      contract [StoreSpec] and [CleanupSpec]); MemStore.v is a reference store
      for concrete evaluations and stands for no code.
    - src/metadata/raft: RaftStore.v ([Raft]: the commands and the replicated state
      machine [Apply]/[Snapshot]/[Restore]); RaftText.v (the JSON texts of log
      entries, forwarded commands and snapshots), RaftTextSpec.v; RaftNode.v (the
      store operations on leader and follower, which hand texts to the log and to
      the leader, the forwarding endpoint of src/cmd/main.go, AddVoter).
    - src/metadata/sqlite and src/metadata/postgres (with the schema of
      src/metadata/schema): Sqlite.v, Postgres.v over Sql.v (connections,
      transactions, LIKE) and GoTime.v (the text of times); theorems in
      SqliteSpec.v, PostgresSpec.v.
    - src/metadata/redis: RedisStore.v over Json.v (the documents), theorems in
      RedisStoreSpec.v.
    - src/core/cache.go: Cache.v; src/locks: Locks.v ([LocalLocks], the lock
      interface with its contract) and RedisLocks.v.
    - src/auth: Auth.v ([ApiKeys], [Unix]); src/links: Links.v.
    - src/backends: Backends.v (the [Storage] interface, the noop adapter, the
      HTTP client), LocalFS.v (as a backend of the engine: LocalFSSpec.v),
      InternalProxy.v, S3.v (theorems in S3Spec.v, with
      the contract [FileStorage] of a backend of whole files).
    - src/erasure: Erasure.v (codec, placement, manager).
    - src/core (engine): Engine.v, its theorems in EngineSpec.v; the same
      operations as threads that can be interleaved: EngineThreads.v over
      Threads.v (programs of atomic actions, schedules, rules for them), theorems
      in EngineThreadsSpec.v (locks, steps), EngineRecordsSpec.v (records) and
      EngineReadsSpec.v (what reads answer);
      src/core/log/sanitize.go: LogSanitize.v.
    - src/server/handlers, src/server/middleware/auth.go: Handlers.v, its
      theorems in HandlerSpec.v; src/server/handlers/websocket_transfer.go:
      WebSocket.v, WebSocketSpec.v; src/server/middleware/ratelimit.go and
      security.go: RateLimit.v, RateLimitSpec.v; src/server/router.go: Router.v.
    - src/config: Config.v, ConfigSpec.v; src/cmd/main.go: Startup.v (with
      NewRaftStore), StartupSpec.v, and Server.v (the root handler: the router
      behind the muxes with the internal endpoints), and Migrations.v (main with its
      commands, and RunMigrations of src/metadata/schema).  App.v: the server that
      runServer puts together from a configuration, all of the above in one, and the
      server of the metrics beside it;
      AppTransfer.v: what is transferred through it.
    - src/metrics and the code that counts (src/server/router.go,
      src/server/handlers/get_file.go and list_directory.go, src/links/manager.go,
      src/core/file_operations.go): Metrics.v, theorems in MetricsSpec.v.  The calls
      on the metrics are a trace of events beside the state.
    - two instances together, one asking the other through src/backends/internalproxy
      and src/server/router.go: Cluster.v; any number of instances that keep shards for
      each other, through the shard endpoints: ErasureCluster.v.
    - the background goroutines of src/core/cache.go, src/locks/local_manager.go,
      src/links/background_cleanup.go and src/server/middleware/ratelimit.go:
      Workers.v.
    - this file and GoStrings.v: Go's errors, results and state passing, and
      what the code uses of packages strings, strconv, unicode/utf8, hex and
      filepath.

    The router calls the middlewares and the handlers; the handlers call the
    engine; the engine calls the store, the lock manager, the backends, the proxy
    to other instances and the erasure manager, each through an interface that is
    a record of operations here ([Store], [LockManager], [Storage], ...).
    Definitions keep the names of the code.

    ** How the code is read

    A function that changes something is a state-passing function ([St]) over
    the world [W] of the components it can reach; [W] is a parameter of each
    component, so that they compose on one world.  [Metadata] values are Coq
    records; where the code hands out a pointer that is written to later, the
    record is returned (Engine.v says where).  Errors are values ([gerr], [Res]).
    Times and integers are [Z], with the wrap-around of 64-bit arithmetic where
    input can reach it (Auth.v, Config.v, LogSanitize.v).  Strings are byte
    strings; [range] over a string decodes UTF-8 (GoStrings.v).  The SQL
    statements are functions on tables with the constraints of the schema, the Lua
    scripts are functions on keys.  runServer is a program with deferred calls
    whose trace of events the theorems talk about (Startup.v).  What the code does
    not decide itself is an argument of the definitions: the clock, random bytes,
    the order in which a map is iterated over and goroutines end, the sizes of
    reads, package os, the HTTP client, the database connections, the Redis server,
    the S3 SDK, the configuration library, the router library, the rate limiters,
    the raft, Reed-Solomon and hash libraries, the Prometheus registry; their documented behaviour is a
    named class ([FSLaws], [CryptoLaws], [S3Laws], [RouterLaws], [RegistryLaws], ...) with a
    concrete instance on which the witnesses evaluate.

    ** What the theorems show

    - Interfaces: every shipped store implements the contract of metadata.Store for
      what it can carry: the Raft leader all of it on arguments that JSON can carry
      ([StoreSpecOn], [raft_leader_refines]); the SQLite, PostgreSQL and Redis stores
      its record part for the records they can hold ([RecordSpec], [sqlite_records_refine],
      [postgres_records_refine], [redis_records_refine]), with exact listings.
      [StoreSpec] is the contract without these limits, which the theorems of the
      engine and of the handlers take of their store.  The
      S3 adapter implements [FileStorage] ([s3_refines], [s3_list_directory]); it
      and the local adapter on a directory without links keep the contract of the
      transfer theorems ([s3_content_env], [localfs_content_env]); the
      engine's theorems hold over any store, lock manager and backends that keep
      their contracts; the handlers' theorems hold over the engine's.
    - End to end: the servers that a loaded configuration gives serve only who
      knows a key of it or the secret of the cluster ([app_serves_known]; the listener
      of the metrics serves its page to everybody), files by
      the mode of their record ([app_grants_by_mode]), and what was put through it can be got
      through it ([app_put_then_get]); requests are mediated by the whole server ([server_mediates]),
      through the router ([router_mediates], [router_authenticates]), by every file
      handler ([handlers_mediated]) and by the websocket transfer ([ws_mediated]); what is uploaded can be downloaded
      ([upload_then_download], [ws_upload_then_download]).
    - Instances with erasure coding: what one stores any other reads back from the
      shards that are left ([erasure_any_instance]); the server hands their requests
      to the shard endpoint ([root_serves_shards]).  The shards are on the local
      disks: with shard_backend s3 the endpoint serves another place than the manager uses.
    - Two instances that share the metadata store (Cluster.v; the world of the
      second engine is the whole state of the first instance, and what the proxy
      sends goes through the router and the handlers there): what one stores the
      other serves ([cluster_upload_then_download]), and a file is updated and
      deleted through either ([cluster_update_then_download],
      [cluster_delete_everywhere]).  The network delivers what is sent to the URL
      of a path without characters to escape ([Reachable]).  What does not hold:
      [cluster_update_blocks_itself], [cluster_stale_length].
    - Engine, one request at a time: the cache is transparent, creation keeps the
      tree closed under parents, deletion removes one record, no lock is left behind.
    - Engine, requests interleaved at every call to a component ([engine_thread_alone]:
      a thread alone is the function of Engine.v): in every schedule locks exclude each
      other ([engine_lock_exclusion]), a path is created once
      ([engine_creates_once]), the tree stays closed as long as nobody deletes
      ([engine_tree_concurrent]), reads answer only what was stored at some moment
      ([engine_reads_stored]) and every request ends by its own steps
      ([engine_wait_free]).  What does not hold is shown on schedules:
      [engine_stale_read], [engine_orphan], [engine_lost_content].
    - Workers: a clean-up goroutine whose channel is closed ends ([worker_stops]); that
      of the rate limiter never does ([limiter_never_returns]).
    - Raft: replicas agree, snapshots catch up through their texts
      ([raft_snapshot_text]), links are single-use, keys match.
    - Configuration and start-up: the validation is exact, loaded configurations
      are valid, the server closes what it opened and serves only when it is ready,
      a node with the secret of the cluster can join it; running the migrations
      closes the database and succeeds exactly when every step did.
    - Metrics: counting changes no answer and never panics ([metrics_transparent]),
      the series of the requests is exact ([requests_total_exact]), those of the links
      keep their balance ([link_counters_balance]); what a handler counts for a
      missing file is not what it answers ([get_missing_counted_403]).
    - Rate limiting: the bounded table decides as a limiter per client would.
    - Links, locks, authentication, Unix permissions, local file system
      atomicity, cache bounds, erasure coding round trip and loss tolerance.
    - Some theorems state behaviour that differs from what comments, documents or
      tests say, on concrete runs or in general; their comments tell the difference.

    ** Bounds

    [ensureParentDirectories] recurs on the accessibility of the length of the path,
    which filepath.Dir shortens ([Dir_shorter]); it takes at most 8 (2^n - 1) actions
    for [n] directories above the path ([ensure_steps_pow], [levels_names]).
    Fuel: the UTF-8 decoder has the length of the string; the octal printer 22 digits, which hold 64 bits; the
    wait for leadership forty looks, which at 200 ms each reach the deadline of
    eight seconds ([waitFuel_enough]); the download loop of the websocket one round per byte and
    one more, and every read of the model returns a byte or the end; the listing of
    the S3 adapter an argument, and any number above that of the objects is enough
    ([s3_list_directory]).  Every other function is structurally recursive.

    ** Not modelled

    Log lines and Close of the clients of databases, which only call libraries; the
    generated API documentation (src/docs/docs.go is one string) and the health check
    of the tests (tests/integration), which are not part of the server; the wrapper
    type of src/core/log/logger.go, which has no code.  The calls on metrics in
    handlers other than those of Metrics.v are those of CreateFile and of the link manager,
    which MetricsSpec.v takes one by one.  The handlers of the model return: a panic is
    an outcome only of the recovery around the internal endpoints (Server.v).

    Concurrency is modelled where components race on purpose (links: interleaved
    checks and consumptions; locks; shard goroutines; requests and clean-ups of the
    rate limiter; workers beside their component) and between engine operations.
    There a call to a component is one atomic action, a call of the erasure manager
    included, and the leases of locks do not run out during a request; peers that a
    request is forwarded to may create the records of a file that they are sent, and
    delete the record of one that they are to delete ([PeerEnv]).  The writes of a
    websocket are attempts that the connection takes or refuses.  Handlers and the single operations of a store are not cut into
    smaller actions.  A snapshot with null records, which is never written, has no
    state of the model. *)
From stdpp Require Export base gmap sets list strings pretty sorting.
From Stdlib Require Export ZArith Lia.

#[global] Set Default Goal Selector "!".
#[global] Arguments String.append !s1 s2 / : simpl nomatch.

(** ** Error values

    Go's errors are interface values compared with [==].  The sentinel errors
    of the packages are constructors; [fmt.Errorf] without [%w] and
    [errors.New] are [EMsg]; [fmt.Errorf("...: %w", err)] is [EWrap].
    Only the format string is kept of a message, not the values printed
    into it. *)
Inductive gerr : Type :=
| ErrNotFound | ErrAlreadyExists | ErrForbidden
| ErrAuthenticationFailed | ErrPermissionDenied | ErrInvalidToken
| ErrLinkInvalid | ErrLinkExpired | ErrLinkNotFound
| ErrInsufficientShards | ErrShardCorrupted | ErrInvalidProfile | ErrShardNotFound
| EMsg (msg : string)
| EWrap (msg : string) (inner : gerr).

#[global] Instance gerr_eq_dec : EqDecision gerr.
Proof. solve_decision. Defined.

(** [errors.Is target]: the target occurs in the chain of wrapped errors. *)
Fixpoint errors_Is (e target : gerr) : bool :=
  bool_decide (e = target) ||
  match e with EWrap _ i => errors_Is i target | _ => false end.

(** [err.Error()]: the text of an error. *)
Fixpoint errorText (e : gerr) : string :=
  match e with
  | ErrNotFound => "metadata not found"
  | ErrAlreadyExists => "metadata already exists"
  | ErrForbidden => "access forbidden"
  | ErrAuthenticationFailed => "authentication failed"
  | ErrPermissionDenied => "permission denied"
  | ErrInvalidToken => "invalid token"
  | ErrLinkInvalid => "link is invalid or has been used"
  | ErrLinkExpired => "link has expired"
  | ErrLinkNotFound => "link not found"
  | ErrInsufficientShards => "erasure: insufficient shards for reconstruction (code 3050)"
  | ErrShardCorrupted => "erasure: shard checksum mismatch (code 3051)"
  | ErrInvalidProfile => "erasure: invalid erasure profile parameters (code 3054)"
  | ErrShardNotFound => "erasure: shard not found on this node (code 3055)"
  | EMsg m => m
  | EWrap m e' => m +:+ ": " +:+ errorText e'
  end%string.

(** ** Results: Go's [(value, error)] pairs *)
Inductive Res (A : Type) : Type :=
| Ok (a : A)
| Err (e : gerr).
Arguments Ok {A} a.
Arguments Err {A} e.

Definition res_bind {A B} (r : Res A) (k : A -> Res B) : Res B :=
  match r with Ok a => k a | Err e => Err e end.

Definition res_wrap {A} (msg : string) (r : Res A) : Res A :=
  match r with Ok a => Ok a | Err e => Err (EWrap msg e) end.

Definition is_Ok {A} (r : Res A) : bool := match r with Ok _ => true | Err _ => false end.

Declare Scope go_scope.
Delimit Scope go_scope with go.
Notation "'let!' x ':=' r 'in' k" := (res_bind r (fun x => k))
  (at level 10, x pattern, r at level 100, k at level 200) : go_scope.

(** ** State passing

    A statement that can change the state [S] is a function [S -> S * A].
    [do x <- m; k] runs [m] and goes on with its value; [try x <- m; k] is
    [x, err := m; if err != nil { return err }]; [wrap "msg" in x <- m; k] wraps the error as
    [fmt.Errorf("msg: %w", err)]. *)
Definition St (S A : Type) : Type := S -> S * A.
Definition ret {S A} (a : A) : St S A := fun s => (s, a).
Definition bind {S A B} (m : St S A) (k : A -> St S B) : St S B :=
  fun s => let '(s', a) := m s in k a s'.
Definition try_bind {S A B} (m : St S (Res A)) (wrap : gerr -> gerr) (k : A -> St S (Res B))
  : St S (Res B) :=
  fun s => match m s with
           | (s', Ok a) => k a s'
           | (s', Err e) => (s', Err (wrap e))
           end.
(** [gets f]: read the state. *)
Definition gets {S A} (f : S -> A) : St S A := fun s => (s, f s).

Notation "'do' x <- m ; k" := (bind m (fun x => k))
  (at level 10, x pattern, m at level 100, k at level 200) : go_scope.
Notation "'try' x <- m ; k" := (try_bind m (fun e => e) (fun x => k))
  (at level 10, x pattern, m at level 100, k at level 200) : go_scope.
Notation "'wrap' msg 'in' x <- m ; k" := (try_bind m (EWrap msg) (fun x => k))
  (at level 10, msg at level 0, x pattern, m at level 100, k at level 200) : go_scope.

(** [respects R m]: running [m] relates the states before and after by [R]. *)
Definition respects {S A} (R : S -> S -> Prop) (m : St S A) : Prop :=
  forall s s' a, m s = (s', a) -> R s s'.

(** [triple P m Q]: from a state of [P], [m] ends in a state of [Q] for its value. *)
Definition triple {S A} (P : S -> Prop) (m : St S A) (Q : A -> S -> Prop) : Prop :=
  forall s s' a, m s = (s', a) -> P s -> Q a s'.

(** ** Proof automation *)

Create HintDb callfs.
Create HintDb respects.

(** Split the conditionals and matches of the goal or of a hypothesis. *)
Ltac case_if_in H :=
  match type of H with
  | context [if ?b then _ else _] => destruct b eqn:?
  | context [match ?x with _ => _ end] => destruct x eqn:?
  end.

Ltac case_goal :=
  match goal with
  | |- context [if ?b then _ else _] => destruct b eqn:?
  | |- context [match ?x with _ => _ end] => destruct x eqn:?
  end.

(** Turn boolean equations into propositions. *)
Ltac to_prop :=
  repeat match goal with
  | H : (_ && _)%bool = true |- _ => apply andb_true_iff in H as [? ?]
  | H : (_ || _)%bool = false |- _ => apply orb_false_iff in H as [? ?]
  | H : negb _ = true |- _ => apply negb_true_iff in H
  | H : negb _ = false |- _ => apply negb_false_iff in H
  | H : bool_decide _ = true |- _ => apply bool_decide_eq_true_1 in H
  | H : bool_decide _ = false |- _ => apply bool_decide_eq_false_1 in H
  | H : String.eqb _ _ = true |- _ => apply String.eqb_eq in H
  | H : String.eqb _ _ = false |- _ => apply String.eqb_neq in H
  | H : (_ =? _)%Z = true |- _ => apply Z.eqb_eq in H
  | H : (_ =? _)%Z = false |- _ => apply Z.eqb_neq in H
  | H : (_ <? _)%Z = true |- _ => apply Z.ltb_lt in H
  | H : (_ <? _)%Z = false |- _ => apply Z.ltb_ge in H
  | H : (_ <=? _)%Z = true |- _ => apply Z.leb_le in H
  | H : (_ <=? _)%Z = false |- _ => apply Z.leb_gt in H
  end.

(** ** Generic lemmas *)

Lemma res_bind_Ok {A B} (r : Res A) (k : A -> Res B) b :
  res_bind r k = Ok b -> exists a, r = Ok a /\ k a = Ok b.
Proof. destruct r; simpl; [eauto | discriminate]. Qed.

Lemma list_prefix_app_l {A} (l k1 k2 : list A) : l `prefix_of` k1 -> l `prefix_of` k1 ++ k2.
Proof. intros [x ->]. exists (x ++ k2). by rewrite <- app_assoc. Qed.

Lemma filter_all {A} (P : A -> Prop) `{forall x, Decision (P x)} (l : list A) :
  Forall P l -> filter P l = l.
Proof.
  induction 1; [done |]. rewrite filter_cons_True by done. by f_equal.
Qed.
#[export] Hint Resolve list_prefix_app_l : callfs.

(** Rules for [respects]. *)
Section Respects.
Context {S : Type} (R : S -> S -> Prop) `{!PreOrder R}.

Lemma respects_ret {A} (a : A) : respects R (ret a).
Proof. unfold respects, ret. intros s s' b H. by injection H as <- <-. Qed.

Lemma respects_gets {A} (f : S -> A) : respects R (gets f).
Proof. unfold respects, gets. intros s s' b H. by injection H as <- <-. Qed.

Lemma respects_bind {A B} (m : St S A) (k : A -> St S B) :
  respects R m -> (forall a, respects R (k a)) -> respects R (bind m k).
Proof.
  intros Hm Hk s s' b. unfold bind. destruct (m s) as [s1 a] eqn:E. intros H.
  etrans; [by eapply Hm | by eapply Hk].
Qed.

Lemma respects_try {A B} (m : St S (Res A)) f (k : A -> St S (Res B)) :
  respects R m -> (forall a, respects R (k a)) -> respects R (try_bind m f k).
Proof.
  intros Hm Hk s s' b. unfold try_bind. destruct (m s) as [s1 [a | e]] eqn:E; intros H.
  - etrans; [by eapply Hm | by eapply Hk].
  - injection H as <- <-. by eapply Hm.
Qed.
End Respects.
#[export] Hint Resolve respects_ret respects_gets respects_bind respects_try : respects.

(** Rules for [triple]. *)
Section Triples.
Context {S : Type}.

Lemma triple_ret {A} (P : S -> Prop) (a : A) (Q : A -> S -> Prop) :
  (forall s, P s -> Q a s) -> triple P (ret a) Q.
Proof. intros H s s' b E. unfold ret in E. injection E as <- <-. apply H. Qed.

Lemma triple_bind {A B} P (R : A -> S -> Prop) (Q : B -> S -> Prop) (m : St S A) (k : A -> St S B) :
  triple P m R -> (forall a, triple (R a) (k a) Q) -> triple P (bind m k) Q.
Proof.
  intros Hm Hk s s' b. unfold bind. destruct (m s) as [s1 a] eqn:E. intros H HP.
  eapply Hk; [exact H | by eapply Hm].
Qed.

Lemma triple_try {A B} P (R : Res A -> S -> Prop) (Q : Res B -> S -> Prop)
    (m : St S (Res A)) f (k : A -> St S (Res B)) :
  triple P m R -> (forall a, triple (R (Ok a)) (k a) Q) ->
  (forall er s, R (Err er) s -> Q (Err (f er)) s) -> triple P (try_bind m f k) Q.
Proof.
  intros Hm Hk He s s' b. unfold try_bind. destruct (m s) as [s1 [a | er]] eqn:E; intros H HP.
  - eapply Hk; [exact H | by eapply Hm].
  - injection H as <- <-. apply He. by eapply Hm.
Qed.

(** A fact that the precondition gives. *)
Lemma triple_pure {A} (F : Prop) P (Q : A -> S -> Prop) (m : St S A) :
  (forall s, P s -> F) -> (F -> triple P m Q) -> triple P m Q.
Proof. intros HF Hm s s' a E HP. by eapply Hm; [eapply HF | |]. Qed.

Lemma triple_conseq {A} (P P' : S -> Prop) (Q Q' : A -> S -> Prop) (m : St S A) :
  (forall s, P' s -> P s) -> triple P m Q -> (forall a s, Q a s -> Q' a s) -> triple P' m Q'.
Proof. intros Hp Hm Hq s s' a E HP. eapply Hq, Hm; [exact E | auto]. Qed.
End Triples.
