(* ===== verification/GoStrings.v ===== *)
(** * Go's string, strconv and filepath functions

    The part of Go's standard library the program calls on strings.  A Go
    string is a sequence of bytes: [string] of 8-bit [ascii]. *)
From S2P Require Import Prelude.
From Stdlib Require Import Ascii String.
Open Scope string_scope.
Open Scope bool_scope.

(** ** Package strings *)

Fixpoint str_drop (n : nat) (s : string) : string :=
  match n, s with
  | O, _ => s
  | S n', String _ s' => str_drop n' s'
  | S _, EmptyString => EmptyString
  end.

Fixpoint str_take (n : nat) (s : string) : string :=
  match n, s with
  | O, _ => EmptyString
  | S n', String c s' => String c (str_take n' s')
  | S _, EmptyString => EmptyString
  end.

Fixpoint HasPrefix (s p : string) : bool :=
  match p, s with
  | EmptyString, _ => true
  | String c p', String d s' => Ascii.eqb c d && HasPrefix s' p'
  | String _ _, EmptyString => false
  end.

Definition TrimPrefix (s p : string) : string :=
  if HasPrefix s p then str_drop (String.length p) s else s.

Definition HasSuffix (s p : string) : bool :=
  Nat.leb (String.length p) (String.length s)
  && String.eqb (str_drop (String.length s - String.length p) s) p.

Definition TrimSuffix (s p : string) : string :=
  if HasSuffix s p then str_take (String.length s - String.length p) s else s.

Fixpoint Contains (s sub : string) : bool :=
  HasPrefix s sub ||
  match s with EmptyString => false | String _ s' => Contains s' sub end.

(** [strings.Split(s, sep)] for a one-byte separator: never empty. *)
Fixpoint split_on (sep : ascii) (s : string) : list string :=
  match s with
  | EmptyString => [EmptyString]
  | String c s' =>
      if Ascii.eqb c sep then EmptyString :: split_on sep s'
      else match split_on sep s' with
           | h :: t => String c h :: t
           | [] => [String c EmptyString]
           end
  end.

(** [strings.Join(l, sep)]. *)
Fixpoint join_with (sep : string) (l : list string) : string :=
  match l with
  | [] => EmptyString
  | [x] => x
  | x :: xs => x +:+ sep +:+ join_with sep xs
  end.

(** [strings.LastIndex(s, c)] for a one-byte [c]; -1 when absent. *)
Fixpoint LastIndex (s : string) (c : ascii) : Z :=
  match s with
  | EmptyString => -1
  | String d s' =>
      let r := LastIndex s' c in
      if (0 <=? r)%Z then (r + 1)%Z else if Ascii.eqb d c then 0 else -1
  end.

(** [strings.Index(s, c)] for a one-byte [c]; -1 when absent. *)
Fixpoint IndexByte (s : string) (c : ascii) : Z :=
  match s with
  | EmptyString => -1
  | String d s' =>
      if Ascii.eqb d c then 0
      else let r := IndexByte s' c in if (0 <=? r)%Z then (r + 1)%Z else -1
  end.

(** Go slices [s[:i]] and [s[i:]] for an index in range. *)
Definition slice_to (s : string) (i : Z) : string := str_take (Z.to_nat i) s.
Definition slice_from (s : string) (i : Z) : string := str_drop (Z.to_nat i) s.

(** [strings.TrimLeft(s, c)] and [strings.TrimRight(s, c)], one-byte cutset. *)
Fixpoint TrimLeft (s : string) (c : ascii) : string :=
  match s with
  | String d s' => if Ascii.eqb d c then TrimLeft s' c else s
  | EmptyString => EmptyString
  end.

Fixpoint TrimRight (s : string) (c : ascii) : string :=
  match s with
  | EmptyString => EmptyString
  | String d s' =>
      let r := TrimRight s' c in
      if Ascii.eqb d c && String.eqb r EmptyString then EmptyString else String d r
  end.

(** [strings.ReplaceAll(s, old, new)] for a one-byte [old]. *)
Fixpoint replace_byte (s : string) (old : ascii) (new : string) : string :=
  match s with
  | EmptyString => EmptyString
  | String c s' => (if Ascii.eqb c old then new else String c EmptyString) +:+ replace_byte s' old new
  end.

Definition lower_byte (c : ascii) : ascii :=
  let n := N_of_ascii c in
  if (65 <=? n)%N && (n <=? 90)%N then ascii_of_N (n + 32) else c.

(** [strings.ToLower] on the ASCII letters; other bytes are kept. *)
Fixpoint ToLower (s : string) : string :=
  match s with
  | EmptyString => EmptyString
  | String c s' => String (lower_byte c) (ToLower s')
  end.

(** ** UTF-8: the runes of a string, as [for _, r := range s] sees them *)

Definition zbyte (c : ascii) : Z := Z.of_N (N_of_ascii c).
Definition RuneError : Z := 65533.

Definition is_cont (b : Z) : bool := (128 <=? b)%Z && (b <=? 191)%Z.
Definition in_rng (lo hi b : Z) : bool := (lo <=? b)%Z && (b <=? hi)%Z.

(** Decode the first rune: the rune and the number of bytes it takes.  An
    invalid encoding is [RuneError] of width 1. *)
Definition DecodeRune (s : string) : Z * nat :=
  match s with
  | EmptyString => (RuneError, 0%nat)
  | String c0 r0 =>
      let b0 := zbyte c0 in
      if (b0 <? 128)%Z then (b0, 1%nat)
      else
        match r0 with
        | EmptyString => (RuneError, 1%nat)
        | String c1 r1 =>
            let b1 := zbyte c1 in
            if in_rng 194 223 b0 then
              if is_cont b1 then (Z.lor (Z.shiftl (Z.land b0 31) 6) (Z.land b1 63), 2%nat)
              else (RuneError, 1%nat)
            else if in_rng 224 239 b0 then
              let lo := if (b0 =? 224)%Z then 160%Z else 128%Z in
              let hi := if (b0 =? 237)%Z then 159%Z else 191%Z in
              match r1 with
              | String c2 _ =>
                  let b2 := zbyte c2 in
                  if in_rng lo hi b1 && is_cont b2 then
                    (Z.lor (Z.shiftl (Z.land b0 15) 12)
                       (Z.lor (Z.shiftl (Z.land b1 63) 6) (Z.land b2 63)), 3%nat)
                  else (RuneError, 1%nat)
              | EmptyString => (RuneError, 1%nat)
              end
            else if in_rng 240 244 b0 then
              let lo := if (b0 =? 240)%Z then 144%Z else 128%Z in
              let hi := if (b0 =? 244)%Z then 143%Z else 191%Z in
              match r1 with
              | String c2 (String c3 _) =>
                  let b2 := zbyte c2 in
                  let b3 := zbyte c3 in
                  if in_rng lo hi b1 && is_cont b2 && is_cont b3 then
                    (Z.lor (Z.shiftl (Z.land b0 7) 18)
                       (Z.lor (Z.shiftl (Z.land b1 63) 12)
                          (Z.lor (Z.shiftl (Z.land b2 63) 6) (Z.land b3 63))), 4%nat)
                  else (RuneError, 1%nat)
              | _ => (RuneError, 1%nat)
              end
            else (RuneError, 1%nat)
        end
  end.

(** The runes with the bytes they came from; [fuel] is the byte length. *)
Fixpoint rune_chunks (fuel : nat) (s : string) : list (Z * string) :=
  match fuel with
  | O => []
  | S f =>
      match s with
      | EmptyString => []
      | _ => let '(r, w) := DecodeRune s in (r, str_take w s) :: rune_chunks f (str_drop w s)
      end
  end.
Definition runes (s : string) : list (Z * string) := rune_chunks (String.length s) s.

(** [unicode.IsSpace]. *)
Definition IsSpace (r : Z) : bool :=
  in_rng 9 13 r || (r =? 32)%Z || (r =? 133)%Z || (r =? 160)%Z || (r =? 5760)%Z
  || in_rng 8192 8202 r || (r =? 8232)%Z || (r =? 8233)%Z || (r =? 8239)%Z
  || (r =? 8287)%Z || (r =? 12288)%Z.

Fixpoint drop_spaces (l : list (Z * string)) : list (Z * string) :=
  match l with
  | (r, b) :: l' => if IsSpace r then drop_spaces l' else l
  | [] => []
  end.

(** [strings.TrimSpace]. *)
Definition TrimSpace (s : string) : string :=
  join_with "" (map snd (rev (drop_spaces (rev (drop_spaces (runes s)))))).

(** ** Package strconv *)

Definition digit_of (base : Z) (c : ascii) : option Z :=
  let d := (zbyte c - 48)%Z in
  if (0 <=? d)%Z && (d <? base)%Z && (d <=? 9)%Z then Some d else None.

Fixpoint parse_digits (base acc : Z) (s : string) : option Z :=
  match s with
  | EmptyString => Some acc
  | String c s' =>
      match digit_of base c with
      | Some d => parse_digits base (acc * base + d) s'
      | None => None
      end
  end.

Definition parse_nat_digits (base : Z) (s : string) : option Z :=
  match s with EmptyString => None | _ => parse_digits base 0 s end.

(** [strconv.Atoi] on a 64-bit platform. *)
Definition Atoi (s : string) : option Z :=
  let '(neg, body) :=
    match s with
    | String c s' =>
        if Ascii.eqb c "-" then (true, s') else if Ascii.eqb c "+" then (false, s') else (false, s)
    | EmptyString => (false, s)
    end in
  match parse_nat_digits 10 body with
  | None => None
  | Some n =>
      let v := if neg then (- n)%Z else n in
      if (- 2 ^ 63 <=? v)%Z && (v <? 2 ^ 63)%Z then Some v else None
  end.

(** [strconv.ParseUint(s, base, 32)] for a base up to ten. *)
Definition ParseUint32 (s : string) (base : Z) : option Z :=
  match parse_nat_digits base s with
  | Some n => if (n <? 2 ^ 32)%Z then Some n else None
  | None => None
  end.

(** ["%d"] and [strconv.Itoa]. *)
Definition Itoa (n : Z) : string := pretty n.

(** [hex.EncodeToString], and [fmt.Sprintf] with the verb x on bytes. *)
Definition hexDigit (n : nat) : ascii := ascii_of_nat (if n <? 10 then 48 + n else 87 + n)%nat.
Fixpoint EncodeToString (b : string) : string :=
  match b with
  | "" => ""
  | String c rest =>
      let n := nat_of_ascii c in String (hexDigit (n / 16)) (String (hexDigit (n mod 16)) (EncodeToString rest))
  end.

(** ** Package filepath (Unix) *)

Definition slash : ascii := "/"%char.

(** The components of a path, as [filepath.Clean] reads them: [stack] holds
    the components kept so far, the last one first. *)
Fixpoint clean_comps (rooted : bool) (stack comps : list string) : list string :=
  match comps with
  | [] => rev stack
  | c :: cs =>
      if String.eqb c "" || String.eqb c "." then clean_comps rooted stack cs
      else if String.eqb c ".." then
        match stack with
        | [] => clean_comps rooted (if rooted then [] else [".."]) cs
        | t :: stack' =>
            if String.eqb t ".." then clean_comps rooted (".." :: stack) cs
            else clean_comps rooted stack' cs
        end
      else clean_comps rooted (c :: stack) cs
  end.

Definition render_path (rooted : bool) (cs : list string) : string :=
  if rooted then "/" +:+ join_with "/" cs
  else match cs with [] => "." | _ => join_with "/" cs end.

Definition filepath_IsAbs (p : string) : bool := HasPrefix p "/".

Definition path_comps (p : string) : list string :=
  clean_comps (filepath_IsAbs p) [] (split_on slash p).

Definition filepath_Clean (p : string) : string :=
  render_path (filepath_IsAbs p) (path_comps p).

(** [filepath.Join(a, b)]. *)
Definition filepath_Join (a b : string) : string :=
  if String.eqb a "" then (if String.eqb b "" then "" else filepath_Clean b)
  else filepath_Clean (a +:+ "/" +:+ b).

Definition filepath_Dir (p : string) : string :=
  filepath_Clean (slice_to p (LastIndex p slash + 1)).

Definition filepath_Base (p : string) : string :=
  if String.eqb p "" then "."
  else
    let q := TrimRight p slash in
    let b := slice_from q (LastIndex q slash + 1) in
    if String.eqb b "" then "/" else b.

Fixpoint strip_common (a b : list string) : list string * list string :=
  match a, b with
  | x :: a', y :: b' => if String.eqb x y then strip_common a' b' else (a, b)
  | _, _ => (a, b)
  end.

(** [filepath.Rel(base, targ)]. *)
Definition filepath_Rel (base targ : string) : Res string :=
  if negb (Bool.eqb (filepath_IsAbs base) (filepath_IsAbs targ)) then
    Err (EMsg "Rel: can't make relative")
  else
    match strip_common (path_comps base) (path_comps targ) with
    | ([], []) => Ok "."
    | (rb, rt) =>
        match rb with
        | b :: _ =>
            if String.eqb b ".." then Err (EMsg "Rel: can't make relative")
            else Ok (join_with "/" (map (fun _ => "..") rb ++ rt)%list)
        | [] => Ok (join_with "/" rt)
        end
    end.

(** ** Facts about these functions *)

(** A file name: what a normalised path has between its slashes. *)
Definition no_slash (s : string) : bool := negb (Contains s "/").
Definition plain_name (s : string) : bool :=
  negb (String.eqb s "") && negb (String.eqb s ".") && negb (String.eqb s "..") && no_slash s.

Lemma str_app_nil_r (s : string) : s +:+ "" = s.
Proof. induction s as [|c s IH]; [done |]. cbn. by rewrite IH. Qed.

Lemma str_app_assoc (a b c : string) : a +:+ (b +:+ c) = (a +:+ b) +:+ c.
Proof. induction a as [|x a IH]; [done |]. cbn. by rewrite IH. Qed.

Lemma str_drop_app (a b : string) : str_drop (String.length a) (a +:+ b) = b.
Proof. induction a; done. Qed.

Lemma str_take_app (a b : string) : str_take (String.length a) (a +:+ b) = a.
Proof. induction a as [|c a IH]; [by destruct b |]. cbn. by rewrite IH. Qed.

Lemma str_length_app (a b : string) :
  String.length (a +:+ b) = (String.length a + String.length b)%nat.
Proof. induction a; cbn; lia. Qed.

Lemma EncodeToString_length (b : string) : String.length (EncodeToString b) = 2 * String.length b.
Proof. induction b as [| c b IH]; [done | cbn [EncodeToString String.length]; lia]. Qed.

Lemma HasPrefix_app (p s : string) : HasPrefix (p +:+ s) p = true.
Proof.
  induction p as [|c p IH]; [by destruct s |]. cbn. by rewrite Ascii.eqb_refl.
Qed.

Lemma HasPrefix_inv (s p : string) : HasPrefix s p = true -> exists r, s = p +:+ r.
Proof.
  revert s. induction p as [|c p IH]; intros s H; [by exists s |].
  destruct s as [|d s]; cbn in H; [done |]. apply andb_true_iff in H as [E H].
  apply Ascii.eqb_eq in E as ->. destruct (IH _ H) as [r ->]. by exists r.
Qed.

Lemma TrimPrefix_app (p s : string) : TrimPrefix (p +:+ s) p = s.
Proof. unfold TrimPrefix. by rewrite HasPrefix_app, str_drop_app. Qed.

Lemma HasSuffix_app (s p : string) : HasSuffix (s +:+ p) p = true.
Proof.
  unfold HasSuffix. rewrite str_length_app.
  replace (String.length s + String.length p - String.length p)%nat with (String.length s) by lia.
  rewrite str_drop_app, String.eqb_refl.
  apply andb_true_iff. split; [| done]. apply Nat.leb_le. lia.
Qed.

Lemma TrimSuffix_app (s p : string) : TrimSuffix (s +:+ p) p = s.
Proof.
  unfold TrimSuffix. rewrite HasSuffix_app, str_length_app.
  replace (String.length s + String.length p - String.length p)%nat with (String.length s) by lia.
  apply str_take_app.
Qed.

Lemma no_slash_cons c s :
  no_slash (String c s) = negb (Ascii.eqb slash c) && no_slash s.
Proof.
  unfold no_slash, slash. destruct s; cbn; by rewrite ?andb_true_r, ?orb_false_r, ?negb_orb.
Qed.

Lemma split_on_no_slash (s : string) : Forall (fun c => no_slash c = true) (split_on slash s).
Proof.
  induction s as [|c s IH]; cbn; [by repeat constructor |].
  destruct (Ascii.eqb c slash) eqn:E; [by constructor |].
  destruct (split_on slash s) as [|h t]; inversion IH; subst; constructor; try done;
    rewrite no_slash_cons, Ascii.eqb_sym, E; cbn; auto.
Qed.

Lemma split_on_app_slash (a s : string) :
  no_slash a = true -> split_on slash (a +:+ "/" +:+ s) = a :: split_on slash s.
Proof.
  induction a as [|c a IH]; intros H; cbn; [done |].
  rewrite no_slash_cons in H. apply andb_true_iff in H as [E H]. apply negb_true_iff in E.
  rewrite Ascii.eqb_sym, E. cbn in IH. by rewrite IH.
Qed.

Lemma split_on_plain (a : string) : no_slash a = true -> split_on slash a = [a].
Proof.
  induction a as [|c a IH]; intros H; cbn; [done |].
  rewrite no_slash_cons in H. apply andb_true_iff in H as [E H]. apply negb_true_iff in E.
  by rewrite Ascii.eqb_sym, E, IH.
Qed.

(** Splitting undoes joining. *)
Lemma split_join (l : list string) :
  l <> [] -> Forall (fun c => no_slash c = true) l -> split_on slash (join_with "/" l) = l.
Proof.
  intros Hne Hall. induction Hall as [|x l Hx Hl IH]; [done |].
  destruct l as [|y l]; cbn [join_with]; [by apply split_on_plain |].
  rewrite split_on_app_slash by done. f_equal. by apply IH.
Qed.

Lemma plain_name_spec s :
  plain_name s = true <-> s <> "" /\ s <> "." /\ s <> ".." /\ no_slash s = true.
Proof.
  unfold plain_name. rewrite !andb_true_iff, !negb_true_iff, !String.eqb_neq. tauto.
Qed.

(** The components kept by [clean_comps]: plain names, after a run of [".."]
    that only a relative path can have. *)
Definition dots_then_names (rooted : bool) (l : list string) : Prop :=
  exists n names, l = (replicate n ".." ++ names)%list
    /\ Forall (fun c => plain_name c = true) names /\ (rooted = true -> n = 0%nat).

Lemma dots_then_names_snoc rooted l c :
  dots_then_names rooted l -> plain_name c = true -> dots_then_names rooted (l ++ [c])%list.
Proof.
  intros (n & names & -> & Hn & Hr) Hc. exists n, (names ++ [c])%list.
  rewrite app_assoc. split; [done |]. split; [| done]. by apply Forall_app_2; [| constructor].
Qed.

Lemma dots_then_names_pop rooted l c :
  dots_then_names rooted (l ++ [c])%list -> c <> ".." -> dots_then_names rooted l.
Proof.
  intros (n & names & Heq & Hn & Hr) Hc.
  destruct names as [|x names] using rev_ind.
  - rewrite app_nil_r in Heq. destruct n as [|n]; [by destruct l |].
    replace (S n) with (n + 1)%nat in Heq by lia.
    rewrite replicate_add in Heq. apply app_inj_tail in Heq as [_ ->]. done.
  - rewrite app_assoc in Heq. apply app_inj_tail in Heq as [-> _].
    exists n, names. apply Forall_app in Hn as [? _]. done.
Qed.

Lemma clean_comps_shape rooted stack comps :
  dots_then_names rooted (rev stack) ->
  Forall (fun c => no_slash c = true) comps ->
  dots_then_names rooted (clean_comps rooted stack comps).
Proof.
  intros Hst Hcs. revert stack Hst.
  induction Hcs as [|c comps Hc Hcs IH]; intros stack Hst; cbn; [done |].
  destruct (String.eqb c "" || String.eqb c ".") eqn:E1; [by apply IH |].
  destruct (String.eqb c "..") eqn:E2.
  - destruct stack as [|t stack].
    + apply IH. destruct rooted; cbn; [done |].
      exists 1%nat, []. repeat split; [by constructor | done].
    + destruct (String.eqb t "..") eqn:E3; to_prop; subst; apply IH.
      * cbn in *. destruct Hst as (n & names & Heq & Hn & Hr).
        destruct names as [|x names] using rev_ind.
        { rewrite app_nil_r in Heq. exists (S n), [].
          rewrite Heq, app_nil_r. replace (S n) with (n + 1)%nat by lia.
          rewrite replicate_add. cbn. split; [done |]. split; [done |].
          intros Hrt. specialize (Hr Hrt). subst n. by destruct (rev stack). }
        rewrite app_assoc in Heq. apply app_inj_tail in Heq as [_ <-].
        apply Forall_app in Hn as [_ Hx]. inversion Hx as [|? ? Hx1]; subst.
        by apply plain_name_spec in Hx1 as (_ & _ & ? & _).
      * cbn in Hst. by eapply dots_then_names_pop.
  - to_prop. apply IH. cbn. apply dots_then_names_snoc; [done |]. by apply plain_name_spec.
Qed.

Lemma path_comps_shape (p : string) : dots_then_names (filepath_IsAbs p) (path_comps p).
Proof.
  apply clean_comps_shape; [| apply split_on_no_slash].
  exists 0%nat, []. repeat split; by try constructor.
Qed.

Lemma dots_then_names_no_slash rooted l :
  dots_then_names rooted l -> Forall (fun c => no_slash c = true) l.
Proof.
  intros (n & names & -> & Hn & _). apply Forall_app_2.
  - induction n; cbn; [by constructor |]. by constructor.
  - eapply Forall_impl; [exact Hn |]. intros x Hx. by apply plain_name_spec in Hx as (_ & _ & _ & ?).
Qed.

Lemma clean_comps_names rooted stack names :
  Forall (fun c => plain_name c = true) names ->
  clean_comps rooted stack names = (rev stack ++ names)%list.
Proof.
  intros H. revert stack. induction H as [|c names Hc Hn IH]; intros stack; cbn; [by rewrite app_nil_r |].
  apply plain_name_spec in Hc as (H1 & H2 & H3 & _).
  apply String.eqb_neq in H1, H2, H3. rewrite H1, H2, H3. cbn. rewrite IH. cbn.
  by rewrite <- app_assoc.
Qed.

Lemma clean_comps_dots n names stack :
  Forall (fun c => c = "..") stack ->
  Forall (fun c => plain_name c = true) names ->
  clean_comps false stack (replicate n ".." ++ names)%list
  = (rev stack ++ replicate n ".." ++ names)%list.
Proof.
  intros Hs Hn. revert stack Hs. induction n as [|n IH]; intros stack Hs; cbn.
  { by apply clean_comps_names. }
  destruct stack as [|t stack].
  - cbn. rewrite IH; [done | by repeat constructor].
  - inversion Hs; subst. cbn. rewrite IH; [| by repeat constructor].
    cbn. by rewrite <- !app_assoc.
Qed.

(** Normalised components are a fixed point of normalisation. *)
Lemma clean_comps_fix rooted l :
  dots_then_names rooted l -> clean_comps rooted [] l = l.
Proof.
  intros (n & names & -> & Hn & Hr). destruct rooted.
  - rewrite (Hr eq_refl). by apply clean_comps_names.
  - by rewrite clean_comps_dots.
Qed.

Lemma dots_then_names_head rooted c l :
  dots_then_names rooted (c :: l) -> c <> "" /\ no_slash c = true.
Proof.
  intros (n & names & Heq & Hn & _). destruct n as [|n]; cbn in Heq.
  - destruct names; inversion Heq; subst. inversion Hn as [|? ? Hc]; subst.
    by apply plain_name_spec in Hc as (? & _ & _ & ?).
  - inversion Heq; subst. done.
Qed.

Lemma IsAbs_cons x s : filepath_IsAbs (String x s) = Ascii.eqb slash x.
Proof.
  unfold filepath_IsAbs.
  change (HasPrefix (String x s) "/") with (Ascii.eqb slash x && HasPrefix s "").
  destruct s; by rewrite andb_true_r.
Qed.

Lemma relative_render_not_abs c l :
  c <> "" -> no_slash c = true -> filepath_IsAbs (join_with "/" (c :: l)) = false.
Proof.
  intros Hne Hns. destruct c as [|x c]; [done |].
  rewrite no_slash_cons in Hns. apply andb_true_iff in Hns as [E _]. apply negb_true_iff in E.
  destruct l; cbn [join_with String.append]; by rewrite IsAbs_cons.
Qed.

Lemma render_path_abs rooted l :
  dots_then_names rooted l -> filepath_IsAbs (render_path rooted l) = rooted.
Proof.
  intros Hl. destruct rooted; cbn; [by destruct (join_with "/" l) |].
  destruct l as [|c l]; [done |]. apply dots_then_names_head in Hl as [? ?].
  by apply relative_render_not_abs.
Qed.

Lemma path_comps_render rooted l :
  dots_then_names rooted l -> path_comps (render_path rooted l) = l.
Proof.
  intros Hl. unfold path_comps. rewrite (render_path_abs rooted l Hl).
  pose proof (dots_then_names_no_slash _ _ Hl) as Hns.
  destruct rooted; cbn.
  - destruct l as [|c l]; [done |].
    rewrite split_join by done. by apply clean_comps_fix.
  - destruct l as [|c l]; [done |]. rewrite split_join by done. by apply clean_comps_fix.
Qed.

(** [filepath.Clean] keeps the components and the rootedness of a path. *)
Lemma path_comps_Clean (p : string) : path_comps (filepath_Clean p) = path_comps p.
Proof. apply path_comps_render, path_comps_shape. Qed.

Lemma IsAbs_Clean (p : string) : filepath_IsAbs (filepath_Clean p) = filepath_IsAbs p.
Proof. apply render_path_abs, path_comps_shape. Qed.

Lemma strip_common_spec (a b a' b' : list string) :
  strip_common a b = (a', b') -> exists c, a = (c ++ a')%list /\ b = (c ++ b')%list.
Proof.
  revert b a' b'. induction a as [|x a IH]; intros b a' b' H.
  - exists []. by inversion H.
  - destruct b as [|y b]; [exists []; by inversion H |]. cbn in H.
    destruct (String.eqb x y) eqn:E; [| exists []; by inversion H].
    to_prop. subst. destruct (IH _ _ _ H) as (c & -> & ->). by exists (y :: c).
Qed.

(** *** Components of joined paths *)

Lemma split_on_nonempty sep s : split_on sep s <> [].
Proof. destruct s as [|c s]; cbn; [done |]. destruct (Ascii.eqb c sep); [done |]. by destruct (split_on sep s). Qed.

Lemma split_on_app (a b : string) :
  split_on slash (a +:+ "/" +:+ b) = (split_on slash a ++ split_on slash b)%list.
Proof.
  induction a as [|c a IH]; [done |]. cbn in *. rewrite IH.
  destruct (Ascii.eqb c slash); [done |].
  pose proof (split_on_nonempty slash a). by destruct (split_on slash a).
Qed.

Lemma clean_comps_app rooted stack l1 l2 :
  clean_comps rooted stack (l1 ++ l2)%list
  = clean_comps rooted (rev (clean_comps rooted stack l1)) l2.
Proof.
  revert stack. induction l1 as [|c l1 IH]; intros stack; cbn; [by rewrite rev_involutive |].
  destruct (String.eqb c "" || String.eqb c "."); [apply IH |].
  destruct (String.eqb c ".."); [| apply IH].
  destruct stack as [|t stack]; [apply IH |]. destruct (String.eqb t ".."); apply IH.
Qed.

Lemma IsAbs_app (a b : string) : a <> "" -> filepath_IsAbs (a +:+ b) = filepath_IsAbs a.
Proof. destruct a; [done |]. intros _. cbn [String.append]. by rewrite !IsAbs_cons. Qed.

(** Joining plain names onto a directory appends them to its components. *)
Lemma path_comps_Join_names (a : string) (names : list string) :
  a <> "" -> Forall (fun c => plain_name c = true) names ->
  path_comps (filepath_Join a (join_with "/" names)) = (path_comps a ++ names)%list.
Proof.
  intros Ha Hn. unfold filepath_Join. apply String.eqb_neq in Ha as E. rewrite E.
  rewrite path_comps_Clean. unfold path_comps.
  rewrite IsAbs_app, split_on_app, clean_comps_app by done.
  destruct names as [|n names]; [cbn [join_with split_on clean_comps String.eqb orb]; by rewrite rev_involutive, app_nil_r |].
  rewrite split_join; [| done |].
  - by rewrite clean_comps_names, rev_involutive.
  - eapply Forall_impl; [exact Hn |]. intros x Hx. by apply plain_name_spec in Hx as (_ & _ & _ & ?).
Qed.

Lemma IsAbs_Join (a b : string) : a <> "" -> filepath_IsAbs (filepath_Join a b) = filepath_IsAbs a.
Proof.
  intros Ha. unfold filepath_Join. apply String.eqb_neq in Ha as E. rewrite E.
  by rewrite IsAbs_Clean, IsAbs_app.
Qed.

Lemma join_snoc (cs : list string) (n : string) :
  join_with "/" (cs ++ [n])%list
  = match cs with [] => n | _ => (join_with "/" cs +:+ "/") +:+ n end.
Proof.
  induction cs as [|c cs IH]; [done |].
  destruct cs as [|d cs]; [cbn [app join_with]; by rewrite str_app_assoc |].
  cbn [app join_with] in *. rewrite IH. by rewrite !str_app_assoc.
Qed.

Lemma LastIndex_no_slash (n : string) : no_slash n = true -> LastIndex n slash = (-1)%Z.
Proof.
  induction n as [|c n IH]; [done |]. intros H. rewrite no_slash_cons in H.
  apply andb_true_iff in H as [E H]. apply negb_true_iff in E.
  cbn [LastIndex]. rewrite IH by done. cbn. by rewrite Ascii.eqb_sym, E.
Qed.

Lemma LastIndex_app (a n : string) :
  no_slash n = true -> LastIndex ((a +:+ "/") +:+ n) slash = Z.of_nat (String.length a).
Proof.
  intros Hn. induction a as [|c a IH]; cbn [String.append LastIndex].
  - rewrite LastIndex_no_slash by done. done.
  - rewrite IH. cbn [String.length]. case_match; [lia |]. to_prop. lia.
Qed.

Lemma TrimRight_no_slash (n : string) : no_slash n = true -> TrimRight n slash = n.
Proof.
  induction n as [|c n IH]; [done |]. intros H. rewrite no_slash_cons in H.
  apply andb_true_iff in H as [E H]. apply negb_true_iff in E.
  cbn. rewrite IH by done. by rewrite Ascii.eqb_sym, E.
Qed.

Lemma TrimRight_app (a n : string) :
  n <> "" -> no_slash n = true -> TrimRight (a +:+ n) slash = a +:+ n.
Proof.
  intros Hne Hn. induction a as [|c a IH]; [by apply TrimRight_no_slash |].
  cbn. rewrite IH. destruct (a +:+ n) eqn:E; [| by rewrite andb_false_r].
  exfalso. destruct a; destruct n; done.
Qed.

(** A normalised non-root path is a directory part and a name. *)
Lemma render_snoc rooted cs n :
  render_path rooted (cs ++ [n])%list
  = match cs, rooted with
    | [], true => ("" +:+ "/") +:+ n
    | [], false => n
    | _, _ => (render_path rooted cs +:+ "/") +:+ n
    end.
Proof.
  unfold render_path. rewrite join_snoc.
  destruct cs as [|c cs]; destruct rooted; cbn [app]; try done.
Qed.

Lemma Base_render rooted cs n :
  plain_name n = true -> filepath_Base (render_path rooted (cs ++ [n])%list) = n.
Proof.
  intros Hp. apply plain_name_spec in Hp as (Hne & _ & _ & Hns).
  apply String.eqb_neq in Hne as E.
  assert (Hb : forall a, filepath_Base ((a +:+ "/") +:+ n) = n).
  { intros a. unfold filepath_Base. rewrite TrimRight_app by done.
    rewrite LastIndex_app by done.
    replace (String.eqb ((a +:+ "/") +:+ n) "") with false by (by destruct a).
    unfold slice_from.
    replace (Z.to_nat (Z.of_nat (String.length a) + 1)) with (String.length (a +:+ "/"))
      by (rewrite str_length_app; cbn; lia).
    rewrite str_drop_app. by rewrite E. }
  rewrite render_snoc. destruct cs as [|c cs]; [destruct rooted; [apply Hb |] | apply Hb].
  unfold filepath_Base. rewrite E, TrimRight_no_slash, LastIndex_no_slash by done.
  change (slice_from n (-1 + 1)) with n. by rewrite E.
Qed.

Lemma Dir_split (a n : string) :
  no_slash n = true -> filepath_Dir ((a +:+ "/") +:+ n) = filepath_Clean (a +:+ "/").
Proof.
  intros Hn. unfold filepath_Dir. rewrite LastIndex_app by done. unfold slice_to.
  replace (Z.to_nat (Z.of_nat (String.length a) + 1)) with (String.length (a +:+ "/"))
    by (rewrite str_length_app; cbn; lia).
  by rewrite str_take_app.
Qed.

Lemma Clean_trailing_slash (a : string) :
  a <> "" -> filepath_Clean (a +:+ "/") = filepath_Clean a.
Proof.
  intros Ha. unfold filepath_Clean, path_comps. rewrite IsAbs_app by done.
  replace (a +:+ "/") with (a +:+ "/" +:+ "") by done.
  rewrite split_on_app, clean_comps_app. cbn. by rewrite rev_involutive.
Qed.

(** [filepath.Dir] of a normalised absolute path drops the last component. *)
Lemma Dir_render cs n :
  Forall (fun c => plain_name c = true) cs -> plain_name n = true ->
  filepath_Dir (render_path true (cs ++ [n])%list) = render_path true cs.
Proof.
  intros Hcs Hn. apply plain_name_spec in Hn as (_ & _ & _ & Hns).
  rewrite render_snoc. destruct cs as [|c cs]; [by rewrite Dir_split |].
  rewrite Dir_split, Clean_trailing_slash by done.
  assert (Hd : dots_then_names true (c :: cs)).
  { exists 0%nat, (c :: cs). split; [done |]. split; done. }
  unfold filepath_Clean. by rewrite path_comps_render, render_path_abs.
Qed.
