(* ===== verification/PathUtil.v ===== *)
(** * Path handling: internal/pathutil and server/handlers/path_utils.go *)
From S2P Require Import Prelude GoStrings.
From Stdlib Require Import Ascii String.
Open Scope string_scope.
Open Scope bool_scope.
Open Scope go_scope.

(** ** internal/pathutil/sanitize.go *)
Module PathUtil.

(** The loop of [Clean] over the parts: false when the depth goes negative. *)
Fixpoint depth_loop (depth : Z) (parts : list string) : bool :=
  match parts with
  | [] => true
  | part :: rest =>
      if String.eqb part "" || String.eqb part "." then depth_loop depth rest
      else if String.eqb part ".." then
        if (depth - 1 <? 0)%Z then false else depth_loop (depth - 1) rest
      else depth_loop (depth + 1) rest
  end.

Definition Clean (path : string) : Res string :=
  if String.eqb path "" then Ok "/"
  else if filepath_IsAbs path && negb (String.eqb path "/") then Err ErrForbidden
  else
    let pathToClean := "/" +:+ TrimPrefix path "/" in
    let cleaned := filepath_Clean pathToClean in
    if negb (HasPrefix cleaned "/") then Err ErrForbidden
    else if String.eqb cleaned "/" then Ok cleaned
    else if depth_loop 0 (split_on slash (TrimPrefix path "/")) then Ok cleaned
    else Err ErrForbidden.

(** [filepath.Rel(cleanRoot, target)] fails or starts with "..". *)
Definition escapes (cleanRoot target : string) : bool :=
  match filepath_Rel cleanRoot target with
  | Err _ => true
  | Ok rel => HasPrefix rel ".."
  end.

(** [EvalSymlinks] reads the file system: an argument of the model. *)
Definition SafeJoin (EvalSymlinks : string -> option string) (root rel : string) : Res string :=
  let cleanRoot := filepath_Clean root in
  let! cleanRel := Clean rel in
  let joined := filepath_Join cleanRoot (TrimPrefix cleanRel "/") in
  match EvalSymlinks joined with
  | None =>
      let dir := filepath_Dir joined in
      let structural := if escapes cleanRoot joined then Err ErrForbidden else Ok joined in
      if negb (String.eqb dir cleanRoot) then
        match EvalSymlinks dir with
        | Some resolvedDir =>
            if escapes cleanRoot resolvedDir then Err ErrForbidden
            else Ok (filepath_Join resolvedDir (filepath_Base joined))
        | None => structural
        end
      else structural
  | Some resolved => if escapes cleanRoot resolved then Err ErrForbidden else Ok resolved
  end.

(** The character tests of [ValidatePath]. *)
Definition bad_rune (char : Z) : bool :=
  ((char <? 32)%Z && negb (char =? 9)%Z)
  || in_rng 8234 8238 char
  || in_rng 8294 8297 char.

Definition ValidatePath (path : string) : Res unit :=
  if String.eqb path "" then Err (EMsg "path cannot be empty")
  else if Contains path (String "000" "") then Err ErrForbidden
  else if existsb (fun rb => bad_rune (fst rb)) (runes path) then Err ErrForbidden
  else let! _ := Clean path in Ok tt.

(** *** Behaviour of [Clean] *)

(** The normal form of an accepted path: "/" and plain names. *)
Definition canonical (p : string) : Prop :=
  exists names, p = render_path true names /\ Forall (fun c => plain_name c = true) names.

Lemma rooted_names p : filepath_IsAbs p = true -> Forall (fun c => plain_name c = true) (path_comps p).
Proof.
  intros H. pose proof (path_comps_shape p) as Hs. rewrite H in Hs.
  destruct Hs as (n & names & Heq & Hn & H0). rewrite (H0 eq_refl) in Heq. cbn in Heq. by rewrite Heq.
Qed.

Lemma Clean_rooted_canonical s : canonical (filepath_Clean ("/" +:+ s)).
Proof.
  assert (Ha : filepath_IsAbs ("/" +:+ s) = true) by apply IsAbs_cons.
  exists (path_comps ("/" +:+ s)). split; [| by apply rooted_names].
  unfold filepath_Clean. by rewrite Ha.
Qed.

Lemma render_rooted_prefix l : HasPrefix (render_path true l) "/" = true.
Proof. apply (HasPrefix_app "/"). Qed.

Lemma Clean_Ok_inv p c :
  Clean p = Ok c -> c = filepath_Clean ("/" +:+ TrimPrefix p "/").
Proof.
  unfold Clean. destruct (String.eqb p "") eqn:E1; [to_prop; subst; by intros [= <-] |].
  destruct (filepath_IsAbs p && negb (String.eqb p "/")); [done |].
  destruct (negb _); [done |]. destruct (String.eqb _ "/"); [by intros [= <-] |].
  destruct (depth_loop _ _); by intros [= <-].
Qed.

Lemma Clean_canonical p c : Clean p = Ok c -> canonical c.
Proof. intros ->%Clean_Ok_inv. apply Clean_rooted_canonical. Qed.

(** How many levels the first [k] parts of a path climb. *)
Definition part_height (part : string) : Z :=
  if String.eqb part "" || String.eqb part "." then 0
  else if String.eqb part ".." then -1 else 1.
Definition height (parts : list string) : Z := foldr (fun p a => (part_height p + a)%Z) 0%Z parts.

Lemma height_cons p parts : height (p :: parts) = (part_height p + height parts)%Z.
Proof. done. Qed.

Lemma depth_loop_spec parts d :
  (0 <= d)%Z ->
  depth_loop d parts = true <-> (forall k, (0 <= d + height (take k parts))%Z).
Proof.
  revert d. induction parts as [|p parts IH]; intros d Hd.
  { split; [intros _ k; destruct k; cbn; lia | done]. }
  assert (Hstep : forall d', d' = (d + part_height p)%Z ->
    (forall k, (0 <= d + height (take k (p :: parts)))%Z)
    <-> (forall k, (0 <= d' + height (take k parts))%Z)).
  { intros d' ->. split; intros H k.
    - specialize (H (S k)). cbn [take] in H. rewrite height_cons in H. lia.
    - destruct k as [|k]; [cbn; lia |]. specialize (H k). cbn [take]. rewrite height_cons. lia. }
  cbn [depth_loop]. unfold part_height in Hstep.
  destruct (String.eqb p "" || String.eqb p ".").
  { rewrite IH by done. symmetry. apply Hstep. lia. }
  destruct (String.eqb p "..").
  - rewrite (Hstep (d - 1)%Z) by lia. destruct (d - 1 <? 0)%Z eqn:E; to_prop.
    + split; [done |]. intros H. specialize (H 0%nat). rewrite take_0 in H.
      change (height []) with 0%Z in H. lia.
    + by rewrite IH by lia.
  - rewrite IH by lia. symmetry. apply Hstep. lia.
Qed.

(** [Clean] accepts a relative path exactly when it resolves to the root or
    no prefix of it climbs above the root, and then returns the lexically
    cleaned absolute path. *)
Lemma Clean_relative p :
  p <> "" -> filepath_IsAbs p = false ->
  let cleaned := filepath_Clean ("/" +:+ p) in
  (cleaned = "/" \/ (forall k, (0 <= height (take k (split_on slash p)))%Z) ->
    Clean p = Ok cleaned)
  /\ (cleaned <> "/" -> (exists k, (height (take k (split_on slash p)) < 0)%Z) ->
    Clean p = Err ErrForbidden).
Proof.
  intros Hne Habs cleaned. unfold Clean.
  apply String.eqb_neq in Hne as ->. rewrite Habs. cbn [andb].
  assert (Ht : TrimPrefix p "/" = p).
  { unfold TrimPrefix. unfold filepath_IsAbs in Habs. by rewrite Habs. }
  rewrite Ht. fold cleaned.
  assert (Hp : HasPrefix cleaned "/" = true).
  { destruct (Clean_rooted_canonical p) as (l & Hl & _). subst cleaned. rewrite Hl.
    apply render_rooted_prefix. }
  rewrite Hp. cbn [negb]. pose proof (depth_loop_spec (split_on slash p) 0 ltac:(lia)) as Hd.
  split.
  - intros [-> | H]; [done |]. destruct (String.eqb cleaned "/"); [done |].
    rewrite (proj2 Hd) by (intros k; specialize (H k); lia). done.
  - intros Hc [k Hk]. apply String.eqb_neq in Hc as ->.
    destruct (depth_loop 0 (split_on slash p)) eqn:E; [| done].
    pose proof (proj1 Hd eq_refl k). lia.
Qed.

(** *** Containment of [SafeJoin] *)

(** [p] names something at or below the directory [root]. *)
Definition within (root p : string) : Prop :=
  filepath_IsAbs p = filepath_IsAbs root /\ path_comps root `prefix_of` path_comps p.

Lemma join_dotdot_prefix (rb rt : list string) :
  rb <> [] -> HasPrefix (join_with "/" (map (fun _ => "..") rb ++ rt)%list) ".." = true.
Proof. destruct rb as [|b rb]; [done |]. intros _. cbn. by destruct (map _ rb ++ rt)%list. Qed.

(** The relative-path test of the code implies containment. *)
Lemma not_escapes_within root p : escapes root p = false -> within root p.
Proof.
  unfold escapes, filepath_Rel.
  destruct (Bool.eqb (filepath_IsAbs root) (filepath_IsAbs p)) eqn:E; cbn [negb]; [| done].
  apply Bool.eqb_prop in E. split; [done |]. revert H.
  destruct (strip_common (path_comps root) (path_comps p)) as [rb rt] eqn:Es.
  apply strip_common_spec in Es as (c & Hr & Hp). rewrite Hr, Hp.
  destruct rb as [|b rb]; [intros _; rewrite app_nil_r; by exists rt |].
  destruct (String.eqb b ".."); [done |].
  by rewrite join_dotdot_prefix.
Qed.

Lemma render_nonempty r l : dots_then_names r l -> render_path r l <> "".
Proof.
  intros Hl. destruct r; [done |]. destruct l as [|c l]; [done |].
  apply dots_then_names_head in Hl as [? _]. destruct l; cbn; by destruct c.
Qed.

Lemma names_of_no_dotdot r l :
  dots_then_names r l -> ".." ∉ l -> Forall (fun c => plain_name c = true) l.
Proof.
  intros (n & names & -> & Hn & _) Hd. destruct n as [|n]; [done |].
  exfalso. apply Hd. cbn. by left.
Qed.

Lemma within_Join root d n :
  within root d -> plain_name n = true -> within root (filepath_Join d n).
Proof.
  intros [Ha Hp] Hn. destruct (decide (d = "")) as [-> | Hd].
  - apply plain_name_spec in Hn as (Hne & _ & _ & Hns).
    unfold filepath_Join. cbn [String.eqb]. apply String.eqb_neq in Hne as E. rewrite E.
    split.
    + rewrite IsAbs_Clean, <- Ha. destruct n as [|x n]; [done |].
      rewrite no_slash_cons in Hns. apply andb_true_iff in Hns as [E' _]. apply negb_true_iff in E'.
      by rewrite IsAbs_cons.
    + assert (path_comps root = []) as -> by (by apply prefix_nil_inv).
      apply prefix_nil.
  - split; [by rewrite IsAbs_Join |].
    replace n with (join_with "/" [n]) by done.
    rewrite path_comps_Join_names by (done || by constructor).
    by apply list_prefix_app_l.
Qed.

Section SafeJoin.
Context (EvalSymlinks : string -> option string) (root rel cleanRel : string).
Hypothesis Hroot : ".." ∉ path_comps root.
Hypothesis Hrel : Clean rel = Ok cleanRel.

Let joined := filepath_Join (filepath_Clean root) (TrimPrefix cleanRel "/").

Lemma joined_shape :
  exists names, Forall (fun c => plain_name c = true) names
    /\ joined = render_path (filepath_IsAbs root) (path_comps root ++ names)%list.
Proof.
  destruct (Clean_canonical _ _ Hrel) as (names & Hc & Hn).
  exists names. split; [done |]. unfold joined.
  assert (Ht : TrimPrefix cleanRel "/" = join_with "/" names).
  { rewrite Hc. apply (TrimPrefix_app "/"). }
  rewrite Ht. set (r := filepath_Clean root).
  assert (Hr : r <> "") by (apply render_nonempty, path_comps_shape).
  assert (Hj : path_comps (filepath_Join r (join_with "/" names)) = (path_comps root ++ names)%list).
  { rewrite path_comps_Join_names by done. unfold r. by rewrite path_comps_Clean. }
  rewrite <- Hj. unfold filepath_Join. apply String.eqb_neq in Hr as ->.
  unfold filepath_Clean at 1. rewrite path_comps_Clean. f_equal.
  unfold r. rewrite IsAbs_app by (apply render_nonempty, path_comps_shape).
  by rewrite IsAbs_Clean.
Qed.

Lemma joined_base :
  filepath_Dir joined <> filepath_Clean root -> plain_name (filepath_Base joined) = true.
Proof.
  destruct joined_shape as (names & Hn & ->).
  pose proof (names_of_no_dotdot _ _ (path_comps_shape root) Hroot) as Hr.
  destruct (path_comps root ++ names)%list as [|n cs _] eqn:E using rev_ind.
  - apply app_nil in E as [Hpr _]. intros H. exfalso. apply H.
    unfold filepath_Clean. rewrite Hpr. by destruct (filepath_IsAbs root).
  - intros _. assert (Hall : Forall (fun c => plain_name c = true) (cs ++ [n])%list).
    { rewrite <- E. by apply Forall_app_2. }
    apply Forall_app in Hall as [_ Hx]. inversion Hx; subst. by rewrite Base_render.
Qed.
End SafeJoin.

Lemma within_Clean root p : within (filepath_Clean root) p -> within root p.
Proof. unfold within. by rewrite path_comps_Clean, IsAbs_Clean. Qed.

Lemma SafeJoin_contained E root rel p :
  ".." ∉ path_comps root -> SafeJoin E root rel = Ok p -> within root p.
Proof.
  intros Hroot. unfold SafeJoin. destruct (Clean rel) as [cr|] eqn:Hc; [| done]. cbn [res_bind].
  set (joined := filepath_Join _ _). intros H. apply within_Clean.
  destruct (E joined) as [resolved|].
  { destruct (escapes _ resolved) eqn:Ee; [done |]. injection H as <-. by apply not_escapes_within. }
  assert (Hs : (if escapes (filepath_Clean root) joined then Err ErrForbidden else Ok joined) = Ok p ->
    within (filepath_Clean root) p).
  { destruct (escapes _ joined) eqn:Ee; [done |]. intros [= <-]. by apply not_escapes_within. }
  destruct (String.eqb (filepath_Dir joined) (filepath_Clean root)) eqn:Ed; cbn [negb] in H; [auto |].
  destruct (E (filepath_Dir joined)) as [rd|]; [| auto].
  destruct (escapes _ rd) eqn:Ee; [done |]. injection H as <-. to_prop.
  apply within_Join; [by apply not_escapes_within |].
  by apply (joined_base root rel cr).
Qed.
(** *** A root without symbolic links *)

Lemma strip_common_app (a l : list string) : strip_common a (a ++ l)%list = ([], l).
Proof. induction a as [| x a IH]; cbn; [by destruct l | by rewrite String.eqb_refl]. Qed.

Lemma dots_prefix x r : plain_name x = true -> HasPrefix (x +:+ ("/" +:+ r)) ".." = HasPrefix x "..".
Proof.
  intros Hx. apply plain_name_spec in Hx as (H0 & H1 & _ & _).
  destruct x as [| c [| d x]]; [done | |]; cbn [String.append HasPrefix].
  - by destruct (Ascii.eqb_spec "." c) as [<- |].
  - by destruct x.
Qed.

Section NoLinks.
Context (root : string).
Hypothesis Habs : filepath_IsAbs root = true.
Hypothesis Hnames : Forall (fun c => plain_name c = true) (path_comps root).

Abbreviation below l := (render_path true (path_comps root ++ l)%list).

Lemma shape_below l : Forall (fun c => plain_name c = true) l -> dots_then_names true (path_comps root ++ l)%list.
Proof using Hnames. intros Hl. exists 0%nat, (path_comps root ++ l)%list. split; [done |]. split; [by apply Forall_app_2 | done]. Qed.

Lemma comps_below l : Forall (fun c => plain_name c = true) l -> path_comps (below l) = (path_comps root ++ l)%list.
Proof using Hnames. intros Hl. by apply path_comps_render, shape_below. Qed.

(** Below the root the relative path begins as the names do. *)
Lemma escapes_below l : Forall (fun c => plain_name c = true) l ->
  escapes (filepath_Clean root) (below l) = match l with [] => false | x :: _ => HasPrefix x ".." end.
Proof.
  intros Hl. unfold escapes, filepath_Rel. rewrite IsAbs_Clean, path_comps_Clean, Habs, render_path_abs, comps_below, strip_common_app
    by (done || by apply shape_below).
  cbn [Bool.eqb negb]. destruct l as [| x l]; [done |]. destruct l as [| y l]; [done |].
  apply Forall_cons in Hl as [Hx _]. apply (dots_prefix x (join_with "/" (y :: l)) Hx).
Qed.

Lemma Join_below l n : Forall (fun c => plain_name c = true) l -> plain_name n = true ->
  filepath_Join (below l) n = below (l ++ [n]).
Proof.
  intros Hl Hn. assert (Hne : below l <> "") by done. unfold filepath_Join.
  apply String.eqb_neq in Hne as E. rewrite E. unfold filepath_Clean. f_equal.
  - by rewrite IsAbs_app, render_path_abs by (done || by apply shape_below).
  - replace n with (join_with "/" [n]) at 1 by done.
    pose proof (path_comps_Join_names (below l) [n] Hne (Forall_cons_2 _ _ _ Hn (Forall_nil_2 _))) as H.
    unfold filepath_Join in H. rewrite E, path_comps_Clean, comps_below in H by done. by rewrite H, <- app_assoc.
Qed.

(** When nothing below the root is a link and the root is there, resolving the
    links changes nothing. *)
Lemma SafeJoin_plain E rel :
  (forall p q, E p = Some q -> q = p) -> E (filepath_Clean root) = Some (filepath_Clean root) ->
  SafeJoin E root rel = SafeJoin (fun _ => None) root rel.
Proof.
  intros HE Hr. unfold SafeJoin. destruct (Clean rel) as [cr | er] eqn:Hc; [| done]. cbn [res_bind].
  destruct (joined_shape root rel cr Hc) as (names & Hn & Hj). rewrite Habs in Hj. rewrite Hj.
  assert (Hclean : filepath_Clean root = below []) by (unfold filepath_Clean; by rewrite Habs, app_nil_r).
  destruct (E (below names)) as [q |] eqn:Eq; [apply HE in Eq as ->; by destruct (negb _) |].
  destruct names as [| n ns _] using rev_ind; [by rewrite <- Hclean, Hr in Eq |].
  apply Forall_app in Hn as [Hns Hn]. apply Forall_cons in Hn as [Hn _]. rewrite app_assoc.
  rewrite Dir_render, Base_render by (done || by apply Forall_app_2). rewrite <- app_assoc.
  destruct (negb _) eqn:Ed; [| done]. destruct (E (below ns)) as [q |] eqn:Eq'; [| done]. apply HE in Eq' as ->.
  rewrite Join_below, !escapes_below by (done || (apply Forall_app_2; [done | by constructor])).
  destruct ns as [| x ns]; [| done]. rewrite <- Hclean, String.eqb_refl in Ed. done.
Qed.
End NoLinks.

End PathUtil.

(** ** server/handlers/path_utils.go *)
Module PathUtils.
Import PathUtil.

Record PathInfo := mkPathInfo {
  FullPath : string;
  ParentPath : string;
  Name : string;
  IsDirectory : bool;
  IsInvalid : bool;
}.

Definition rootInfo : PathInfo := mkPathInfo "/" "/" "" true false.
Definition invalidInfo : PathInfo := mkPathInfo "/" "/" "" true true.

Definition backslash : string := String "092" "".

Definition ParseFilePath (urlPath : string) : PathInfo :=
  let urlPath := TrimPrefix urlPath "/" in
  let isDirectory := HasSuffix urlPath "/" in
  let cleanPath := TrimSuffix urlPath "/" in
  if String.eqb cleanPath "" || String.eqb cleanPath "." then rootInfo
  else if Contains cleanPath backslash then invalidInfo
  else
    match ValidatePath cleanPath with
    | Err _ => invalidInfo
    | Ok _ =>
        let fullPath := "/" +:+ cleanPath in
        let fullPath := if isDirectory then fullPath +:+ "/" else fullPath in
        let lastSlash := LastIndex cleanPath slash in
        if (0 <=? lastSlash)%Z then
          mkPathInfo fullPath
            (if (lastSlash =? 0)%Z then "/" else "/" +:+ slice_to cleanPath lastSlash)
            (slice_from cleanPath (lastSlash + 1)) isDirectory false
        else mkPathInfo fullPath "/" cleanPath isDirectory false
    end.

(** The path the handlers hand to the engine: no trailing slash. *)
Definition enginePath (pi : PathInfo) : string :=
  if IsDirectory pi && negb (String.eqb (FullPath pi) "/")
  then TrimSuffix (FullPath pi) "/" else FullPath pi.

(** What a request path denotes, for every input of [ParseFilePath]. *)
Definition request_path (urlPath : string) : string :=
  TrimSuffix (TrimPrefix urlPath "/") "/".

Lemma ParseFilePath_cases u :
  let c := request_path u in
  let pi := ParseFilePath u in
  (pi = rootInfo /\ (c = "" \/ c = "."))
  \/ (pi = invalidInfo /\ c <> "" /\ (Contains c backslash = true \/ exists e, ValidatePath c = Err e))
  \/ (IsInvalid pi = false /\ c <> "" /\ c <> "." /\ ValidatePath c = Ok tt
      /\ FullPath pi = (if IsDirectory pi then ("/" +:+ c) +:+ "/" else "/" +:+ c)
      /\ enginePath pi = "/" +:+ c).
Proof.
  cbn zeta. unfold request_path, ParseFilePath. set (c := TrimSuffix _ _).
  destruct (String.eqb c "" || String.eqb c ".") eqn:E1.
  { left. split; [done |]. apply orb_true_iff in E1 as [?|?]; to_prop; auto. }
  apply orb_false_iff in E1 as [E1 E2]. to_prop.
  destruct (Contains c backslash) eqn:E3; [right; left; auto |].
  destruct (ValidatePath c) as [[]|e] eqn:E4; [| right; left; eauto].
  right; right. set (isDir := HasSuffix _ _).
  assert (He : forall pp n, enginePath (mkPathInfo
      (if isDir then ("/" +:+ c) +:+ "/" else "/" +:+ c) pp n isDir false) = "/" +:+ c).
  { intros pp n. unfold enginePath. cbn [IsDirectory FullPath]. destruct isDir; [| done].
    assert (("/" +:+ c) +:+ "/" <> "/") as Hne by (by destruct c).
    apply String.eqb_neq in Hne as ->. cbn [andb negb]. apply TrimSuffix_app. }
  destruct (0 <=? LastIndex c slash)%Z; rewrite He; cbn; auto 10.
Qed.

Lemma str_take_drop n s : str_take n s +:+ str_drop n s = s.
Proof. revert s. induction n as [|n IH]; intros [|c s]; cbn; [done .. |]. by rewrite IH. Qed.
End PathUtils.

(** ** Parents are shorter *)

(** The space that components take with a slash each. *)
Definition room (cs : list string) : nat := sum_list_with (fun c => S (String.length c)) cs.

Lemma room_rev cs : room (rev cs) = room cs.
Proof. induction cs as [| c cs IH]; [done |]. unfold room in *. cbn. rewrite sum_list_with_app. cbn. lia. Qed.
Lemma room_split s : room (split_on slash s) = S (String.length s).
Proof.
  induction s as [| c s IH]; [done |]. cbn [split_on String.length]. destruct (Ascii.eqb c slash); [by cbn; rewrite <- IH |].
  destruct (split_on slash s) as [| h t] eqn:E; [done |]. cbn in IH |- *. lia.
Qed.
Lemma room_join cs : cs <> [] -> S (String.length (join_with "/" cs)) = room cs.
Proof.
  intros H. induction cs as [| c [| d cs] IH]; [done | cbn; lia |].
  change (join_with "/" (c :: d :: cs)) with (c +:+ "/" +:+ join_with "/" (d :: cs)).
  change (room (c :: d :: cs)) with (S (String.length c) + room (d :: cs)). rewrite <- IH by done.
  rewrite !str_length_app. cbn. lia.
Qed.
Lemma room_clean rooted stack comps : room (clean_comps rooted stack comps) <= room stack + room comps.
Proof.
  revert stack. induction comps as [| c cs IH]; intros stack; cbn [clean_comps]; [rewrite room_rev; lia |].
  change (room (c :: cs)) with (S (String.length c) + room cs).
  unfold room in *. repeat case_goal; to_prop; subst; (etransitivity; [apply IH |]); cbn; lia.
Qed.
Lemma Clean_length p : p <> "" -> String.length (filepath_Clean p) <= String.length p.
Proof.
  intros Hp. unfold filepath_Clean, render_path, path_comps. destruct p as [| c s]; [done |].
  pose proof (IsAbs_cons c s) as Ha.
  destruct (filepath_IsAbs (String c s)).
  - symmetry in Ha. apply Ascii.eqb_eq in Ha as <-. cbn [split_on]. rewrite Ascii.eqb_refl. cbn [clean_comps String.eqb orb].
    pose proof (room_clean true [] (split_on slash s)) as Hr. rewrite room_split in Hr. rewrite str_length_app. cbn in *.
    destruct (clean_comps true [] (split_on slash s)) as [| d l] eqn:E; [cbn; lia |].
    rewrite <- room_join in Hr by done. lia.
  - pose proof (room_clean false [] (split_on slash (String c s))) as Hr. rewrite room_split in Hr.
    destruct (clean_comps false [] _) as [| d l] eqn:E; [cbn; lia |].
    rewrite <- room_join in Hr by done. cbn in Hr |- *. lia.
Qed.


(** A path has no slash, or something before the last. *)
Lemma path_last_slash p : no_slash p = true \/ exists a n, p = (a +:+ "/") +:+ n /\ no_slash n = true.
Proof.
  induction p as [| c s [Hs | (a & n & -> & Hn)]]; [by left | |].
  - rewrite no_slash_cons, Hs, andb_true_r. destruct (Ascii.eqb_spec slash c) as [<- |]; [right; by exists "", s | by left].
  - right. by exists (String c a), n.
Qed.

(** [filepath.Dir] shortens a path until it is the root or the current directory:
    why the recursion over the parents of a path ends. *)
Definition atTop (parentPath : string) : bool := String.eqb parentPath "/" || String.eqb parentPath ".".
Lemma Dir_shorter path : atTop (filepath_Dir path) = false -> String.length (filepath_Dir path) < String.length path.
Proof.
  unfold atTop. destruct (path_last_slash path) as [Hn | (a & n & -> & Hn)].
  - unfold filepath_Dir. rewrite LastIndex_no_slash by done. by destruct path.
  - rewrite Dir_split by done. destruct (String.eqb_spec a "") as [-> | Ha]; [done |]. rewrite Clean_trailing_slash by done.
    intros _. pose proof (Clean_length a Ha). rewrite !str_length_app. cbn. lia.
Qed.

(** The lengths of paths are well-founded; the first steps compute. *)
Definition length_ends (path : string) : Acc lt (String.length path) := Acc_intro_generator 32 lt_wf (String.length path).
