(* ===== verification/Metadata.v ===== *)
(** * The metadata model: metadata/store.go

    The records of package metadata, the [Store] interface as a record of
    operations on an abstract world, and the contract a store promises to
    the engine, the authorizer and the link manager. *)
From S2P Require Import Prelude GoStrings.
From Stdlib Require Import Ascii String.
Open Scope string_scope.
Open Scope bool_scope.

(** [time.Time] and [time.Duration]: nanoseconds; 0 is Go's zero time. *)
Abbreviation Time := Z (only parsing).
Abbreviation Duration := Z (only parsing).
Definition Second : Duration := 1000000000%Z.
Definition Minute : Duration := (60 * Second)%Z.
Definition Hour : Duration := (60 * Minute)%Z.
Definition After (t u : Time) : bool := (u <? t)%Z.
Definition Before (t u : Time) : bool := (t <? u)%Z.

Record Metadata := mkMetadata {
  md_ID : Z;
  md_ParentID : option Z;
  md_Name : string;
  md_Path : string;
  md_Type : string;
  md_Size : Z;
  md_Mode : string;
  md_UID : Z;
  md_GID : Z;
  md_ATime : Time;
  md_MTime : Time;
  md_CTime : Time;
  md_BackendType : string;
  md_ErasureCoded : bool;
  md_CallFSInstanceID : option string;
  md_SymlinkTarget : option string;
  md_CreatedAt : Time;
  md_UpdatedAt : Time;
}.

Record SingleUseLink := mkLink {
  lk_ID : Z;
  lk_Token : string;
  lk_FilePath : string;
  lk_Status : string;
  lk_ExpiresAt : Time;
  lk_UsedAt : option Time;
  lk_UsedByIP : option string;
  lk_HMACSignature : string;
  lk_CreatedAt : Time;
  lk_UpdatedAt : Time;
}.

Record ErasureShardInfo := mkShardInfo {
  si_Index : Z;
  si_InstanceID : string;
  si_BackendType : string;
  si_Path : string;
  si_Size : Z;
  si_Checksum : string;
}.

Record ErasureFileInfo := mkErasureInfo {
  ei_FilePath : string;
  ei_OriginalSize : Z;
  ei_DataShards : Z;
  ei_ParityShards : Z;
  ei_ShardSize : Z;
  ei_Shards : list ErasureShardInfo;
}.

#[global] Instance Metadata_eq_dec : EqDecision Metadata.
Proof. solve_decision. Defined.
#[global] Instance SingleUseLink_eq_dec : EqDecision SingleUseLink.
Proof. solve_decision. Defined.
#[global] Instance ErasureShardInfo_eq_dec : EqDecision ErasureShardInfo.
Proof. solve_decision. Defined.

(** Field assignments [md.F = v]. *)
Definition set_Path (v : string) (m : Metadata) : Metadata :=
  mkMetadata (md_ID m) (md_ParentID m) (md_Name m) v (md_Type m) (md_Size m) (md_Mode m)
    (md_UID m) (md_GID m) (md_ATime m) (md_MTime m) (md_CTime m) (md_BackendType m)
    (md_ErasureCoded m) (md_CallFSInstanceID m) (md_SymlinkTarget m) (md_CreatedAt m) (md_UpdatedAt m).
Definition set_Type (v : string) (m : Metadata) : Metadata :=
  mkMetadata (md_ID m) (md_ParentID m) (md_Name m) (md_Path m) v (md_Size m) (md_Mode m)
    (md_UID m) (md_GID m) (md_ATime m) (md_MTime m) (md_CTime m) (md_BackendType m)
    (md_ErasureCoded m) (md_CallFSInstanceID m) (md_SymlinkTarget m) (md_CreatedAt m) (md_UpdatedAt m).
Definition set_Size (v : Z) (m : Metadata) : Metadata :=
  mkMetadata (md_ID m) (md_ParentID m) (md_Name m) (md_Path m) (md_Type m) v (md_Mode m)
    (md_UID m) (md_GID m) (md_ATime m) (md_MTime m) (md_CTime m) (md_BackendType m)
    (md_ErasureCoded m) (md_CallFSInstanceID m) (md_SymlinkTarget m) (md_CreatedAt m) (md_UpdatedAt m).
Definition set_MTime (v : Time) (m : Metadata) : Metadata :=
  mkMetadata (md_ID m) (md_ParentID m) (md_Name m) (md_Path m) (md_Type m) (md_Size m) (md_Mode m)
    (md_UID m) (md_GID m) (md_ATime m) v (md_CTime m) (md_BackendType m)
    (md_ErasureCoded m) (md_CallFSInstanceID m) (md_SymlinkTarget m) (md_CreatedAt m) (md_UpdatedAt m).
Definition set_CallFSInstanceID (v : option string) (m : Metadata) : Metadata :=
  mkMetadata (md_ID m) (md_ParentID m) (md_Name m) (md_Path m) (md_Type m) (md_Size m) (md_Mode m)
    (md_UID m) (md_GID m) (md_ATime m) (md_MTime m) (md_CTime m) (md_BackendType m)
    (md_ErasureCoded m) v (md_SymlinkTarget m) (md_CreatedAt m) (md_UpdatedAt m).
Definition set_CreatedAt (v : Time) (m : Metadata) : Metadata :=
  mkMetadata (md_ID m) (md_ParentID m) (md_Name m) (md_Path m) (md_Type m) (md_Size m) (md_Mode m)
    (md_UID m) (md_GID m) (md_ATime m) (md_MTime m) (md_CTime m) (md_BackendType m)
    (md_ErasureCoded m) (md_CallFSInstanceID m) (md_SymlinkTarget m) v (md_UpdatedAt m).
Definition set_UpdatedAt (v : Time) (m : Metadata) : Metadata :=
  mkMetadata (md_ID m) (md_ParentID m) (md_Name m) (md_Path m) (md_Type m) (md_Size m) (md_Mode m)
    (md_UID m) (md_GID m) (md_ATime m) (md_MTime m) (md_CTime m) (md_BackendType m)
    (md_ErasureCoded m) (md_CallFSInstanceID m) (md_SymlinkTarget m) (md_CreatedAt m) v.

(** A composite literal [&metadata.Metadata{Name: .., Type: .., ...}]: the
    fields that are not named have their zero value. *)
Definition newMetadata (name type mode : string) (uid gid : Z) (backend : string) (t : Time)
  : Metadata :=
  mkMetadata 0 None name "" type 0 mode uid gid t t t backend false None None 0 0.

(** ** The [Store] interface

    [W] is the world the store lives in.  A call that can change something
    returns the next world.  [Create] and [Update] get a pointer and some
    stores write to the record behind it: they also return the record the
    caller sees afterwards. *)
Record Store (W : Type) := mkStore {
  st_Get : string -> W -> Res Metadata;
  st_Create : Metadata -> W -> W * (Metadata * Res unit);
  st_Update : Metadata -> W -> W * (Metadata * Res unit);
  st_Delete : string -> W -> W * Res unit;
  st_ListChildren : string -> W -> Res (list Metadata);
  st_GetSingleUseLink : string -> W -> Res SingleUseLink;
  st_CreateSingleUseLink : SingleUseLink -> W -> W * Res unit;
  st_UpdateSingleUseLink : string -> string -> option Time -> option string -> W -> W * Res unit;
  st_CleanupExpiredLinks : Time -> W -> W * Res Z;
  st_CleanupUsedLinks : Time -> W -> W * Res Z;
}.
Arguments st_Get {W}. Arguments st_Create {W}. Arguments st_Update {W}. Arguments st_Delete {W}.
Arguments st_ListChildren {W}. Arguments st_GetSingleUseLink {W}.
Arguments st_CreateSingleUseLink {W}. Arguments st_UpdateSingleUseLink {W}.
Arguments st_CleanupExpiredLinks {W}. Arguments st_CleanupUsedLinks {W}.

(** [ErasureMetadataStore]. *)
Record ErasureMetadataStore (W : Type) := mkErasureStore {
  es_CreateErasureInfo : string -> ErasureFileInfo -> W -> W * Res unit;
  es_GetErasureInfo : string -> W -> Res ErasureFileInfo;
  es_DeleteErasureInfo : string -> W -> W * Res unit;
}.
Arguments es_CreateErasureInfo {W}. Arguments es_GetErasureInfo {W}. Arguments es_DeleteErasureInfo {W}.

(** The parent of a stored path: [pathDir] of metadata/raft/store.go. *)
Definition pathDir (p : string) : string :=
  if String.eqb p "/" then "/"
  else
    let lastSlash := LastIndex p slash in
    if (lastSlash <=? 0)%Z then "/" else slice_to p lastSlash.

Lemma last_slash q : no_slash q = true \/ exists d n, q = (d +:+ "/") +:+ n /\ no_slash n = true.
Proof.
  induction q as [| c q [IH | (d & n & -> & Hn)]]; [by left | |].
  - destruct (Ascii.eqb_spec slash c) as [<- | E].
    + right. by exists "", q.
    + left. rewrite no_slash_cons, IH. by apply Ascii.eqb_neq in E as ->.
  - right. by exists (String c d), n.
Qed.

Lemma pathDir_app d n :
  no_slash n = true -> pathDir ((d +:+ "/") +:+ n) = (if String.eqb d "" then "/" else d).
Proof.
  intros Hn. unfold pathDir. destruct (String.eqb_spec ((d +:+ "/") +:+ n) "/") as [E | _].
  { destruct d as [| c d]; [done |]. exfalso. by destruct d. }
  rewrite LastIndex_app by done. unfold slice_to. rewrite Nat2Z.id.
  destruct d as [| c d]; [done |].
  destruct (Z.leb_spec (Z.of_nat (String.length (String c d))) 0) as [H | _]; [cbn in H; lia |].
  by rewrite <- str_app_assoc, str_take_app.
Qed.

Lemma pathDir_no_slash q : no_slash q = true -> pathDir q = "/".
Proof.
  intros H. unfold pathDir. destruct (String.eqb q "/"); [done |]. by rewrite LastIndex_no_slash.
Qed.

(** The paths whose parent is a directory other than the root. *)
Lemma pathDir_iff p q :
  p <> "" -> p <> "/" -> pathDir q = p <-> exists n, q = (p +:+ "/") +:+ n /\ no_slash n = true.
Proof.
  intros H0 H1. split.
  - intros E. destruct (last_slash q) as [Hq | (d & n & -> & Hn)].
    + by rewrite pathDir_no_slash in E.
    + rewrite pathDir_app in E by done. destruct (String.eqb d ""); [done |]. subst. by exists n.
  - intros (n & -> & Hn). rewrite pathDir_app by done. by apply String.eqb_neq in H0 as ->.
Qed.

(** An absolute path without a double slash at its start. *)
Definition absolute (q : string) : Prop := exists t, q = String "/" t /\ HasPrefix t "/" = false.

Lemma pathDir_root q :
  absolute q -> pathDir q = "/" <-> exists n, q = String "/" n /\ no_slash n = true.
Proof.
  intros (t & -> & Ht). split.
  - intros E. exists t. split; [done |].
    destruct (last_slash t) as [Hq | (d & n & -> & Hn)]; [done |].
    change (String "/" ((d +:+ "/") +:+ n)) with ((String "/" d +:+ "/") +:+ n) in E.
    rewrite pathDir_app in E by done. cbn in E. injection E as ->. by destruct n.
  - intros (n & [= ->] & Hn). by apply (pathDir_app "").
Qed.

(** The abstract state of a store: what its operations promise to callers. *)
Record StoreView := mkView {
  view_md : gmap string Metadata;
  view_links : gmap string SingleUseLink;
}.

(** Two records that differ at most in the fields a store fills in: the ids
    and the creation and update times. *)
Definition same_file (a b : Metadata) : Prop :=
  (md_Name a, md_Path a, md_Type a, md_Size a, md_Mode a, md_UID a, md_GID a, md_MTime a,
   md_BackendType a, md_ErasureCoded a, md_CallFSInstanceID a, md_SymlinkTarget a) =
  (md_Name b, md_Path b, md_Type b, md_Size b, md_Mode b, md_UID b, md_GID b, md_MTime b,
   md_BackendType b, md_ErasureCoded b, md_CallFSInstanceID b, md_SymlinkTarget b).

Lemma same_file_path a b : same_file a b -> md_Path b = md_Path a.
Proof. unfold same_file. congruence. Qed.

(** The contract of the metadata and link operations, as the comments of the
    interface state it: [view] reads the abstract state off the world, and the
    contract holds in the worlds where the store is [serving]. *)
Class StoreSpec {W : Type} (store : Store W) (view : W -> StoreView) (serving : W -> Prop) : Prop := {
  spec_Get : forall p w, serving w ->
    st_Get store p w = match view_md (view w) !! p with Some md => Ok md | None => Err ErrNotFound end;
  spec_Create : forall md w w' md' r, serving w -> st_Create store md w = (w', (md', r)) ->
    serving w' /\ view_links (view w') = view_links (view w) /\
    match view_md (view w) !! md_Path md with
    | Some _ => r = Err ErrAlreadyExists /\ view_md (view w') = view_md (view w)
    | None => r = Ok tt /\ view_md (view w') = <[md_Path md := md']> (view_md (view w))
              /\ same_file md md'
    end;
  spec_Update : forall md w w' md' r, serving w -> st_Update store md w = (w', (md', r)) ->
    serving w' /\ view_links (view w') = view_links (view w) /\
    match view_md (view w) !! md_Path md with
    | None => r = Err ErrNotFound /\ view_md (view w') = view_md (view w)
    | Some _ => r = Ok tt /\ view_md (view w') = <[md_Path md := md']> (view_md (view w))
                /\ same_file md md'
    end;
  spec_Delete : forall p w w' r, serving w -> st_Delete store p w = (w', r) ->
    serving w' /\ view_links (view w') = view_links (view w) /\
    match view_md (view w) !! p with
    | None => r = Err ErrNotFound /\ view_md (view w') = view_md (view w)
    | Some _ => r = Ok tt /\ view_md (view w') = delete p (view_md (view w))
    end;
  spec_ListChildren : forall p w, serving w ->
    exists l, st_ListChildren store p w = Ok l /\
      forall md, md ∈ l <->
        exists q, view_md (view w) !! q = Some md /\ md_Path md <> "/" /\ pathDir (md_Path md) = p;
  spec_GetLink : forall t w, serving w ->
    st_GetSingleUseLink store t w =
      match view_links (view w) !! t with Some l => Ok l | None => Err ErrNotFound end;
  spec_CreateLink : forall l w w' r, serving w -> st_CreateSingleUseLink store l w = (w', r) ->
    serving w' /\ view_md (view w') = view_md (view w) /\
    match view_links (view w) !! lk_Token l with
    | Some _ => r = Err ErrAlreadyExists /\ view_links (view w') = view_links (view w)
    | None => r = Ok tt /\ view_links (view w') = <[lk_Token l := l]> (view_links (view w))
    end;
  (** compare-and-set on the status *)
  spec_UpdateLink : forall t st ua ip w w' r, serving w ->
    st_UpdateSingleUseLink store t st ua ip w = (w', r) ->
    serving w' /\ view_md (view w') = view_md (view w) /\
    match view_links (view w) !! t with
    | Some l =>
        if String.eqb (lk_Status l) "active" then
          r = Ok tt /\ exists l', view_links (view w') = <[t := l']> (view_links (view w))
            /\ lk_Status l' = st /\ lk_UsedAt l' = ua /\ lk_UsedByIP l' = ip
            /\ lk_FilePath l' = lk_FilePath l /\ lk_ExpiresAt l' = lk_ExpiresAt l
        else r = Err ErrNotFound /\ view_links (view w') = view_links (view w)
    | None => r = Err ErrNotFound /\ view_links (view w') = view_links (view w)
    end;
}.

(** The same contract for a store that can carry only some records: it says
    nothing about what happens to a text, a record, a link or a time outside
    [text], [record], [link] and [time].  Reads are not restricted. *)
Class StoreSpecOn {W : Type} (store : Store W) (view : W -> StoreView) (serving : W -> Prop)
    (text : string -> Prop) (record : Metadata -> Prop) (link : SingleUseLink -> Prop) (time : Time -> Prop) : Prop := {
  on_Get : forall p w, serving w ->
    st_Get store p w = match view_md (view w) !! p with Some md => Ok md | None => Err ErrNotFound end;
  on_ListChildren : forall p w, serving w ->
    exists l, st_ListChildren store p w = Ok l /\
      forall md, md ∈ l <-> exists q, view_md (view w) !! q = Some md /\ md_Path md <> "/" /\ pathDir (md_Path md) = p;
  on_GetLink : forall t w, serving w ->
    st_GetSingleUseLink store t w = match view_links (view w) !! t with Some l => Ok l | None => Err ErrNotFound end;
  on_Create : forall md w w' md' r, serving w -> record md -> st_Create store md w = (w', (md', r)) ->
    serving w' /\ view_links (view w') = view_links (view w) /\
    match view_md (view w) !! md_Path md with
    | Some _ => r = Err ErrAlreadyExists /\ view_md (view w') = view_md (view w)
    | None => r = Ok tt /\ view_md (view w') = <[md_Path md := md']> (view_md (view w)) /\ same_file md md'
    end;
  on_Update : forall md w w' md' r, serving w -> record md -> st_Update store md w = (w', (md', r)) ->
    serving w' /\ view_links (view w') = view_links (view w) /\
    match view_md (view w) !! md_Path md with
    | None => r = Err ErrNotFound /\ view_md (view w') = view_md (view w)
    | Some _ => r = Ok tt /\ view_md (view w') = <[md_Path md := md']> (view_md (view w)) /\ same_file md md'
    end;
  on_Delete : forall p w w' r, serving w -> text p -> st_Delete store p w = (w', r) ->
    serving w' /\ view_links (view w') = view_links (view w) /\
    match view_md (view w) !! p with
    | None => r = Err ErrNotFound /\ view_md (view w') = view_md (view w)
    | Some _ => r = Ok tt /\ view_md (view w') = delete p (view_md (view w))
    end;
  on_CreateLink : forall l w w' r, serving w -> link l -> st_CreateSingleUseLink store l w = (w', r) ->
    serving w' /\ view_md (view w') = view_md (view w) /\
    match view_links (view w) !! lk_Token l with
    | Some _ => r = Err ErrAlreadyExists /\ view_links (view w') = view_links (view w)
    | None => r = Ok tt /\ view_links (view w') = <[lk_Token l := l]> (view_links (view w))
    end;
  on_UpdateLink : forall t st ua ip w w' r, serving w ->
    text t -> text st -> (forall u, ua = Some u -> time u) -> (forall a, ip = Some a -> text a) ->
    st_UpdateSingleUseLink store t st ua ip w = (w', r) ->
    serving w' /\ view_md (view w') = view_md (view w) /\
    match view_links (view w) !! t with
    | Some l =>
        if String.eqb (lk_Status l) "active" then
          r = Ok tt /\ exists l', view_links (view w') = <[t := l']> (view_links (view w))
            /\ lk_Status l' = st /\ lk_UsedAt l' = ua /\ lk_UsedByIP l' = ip
            /\ lk_FilePath l' = lk_FilePath l /\ lk_ExpiresAt l' = lk_ExpiresAt l
        else r = Err ErrNotFound /\ view_links (view w') = view_links (view w)
    | None => r = Err ErrNotFound /\ view_links (view w') = view_links (view w)
    end;
}.

(** What the cleanup operations promise: they remove links only, expired ones
    or ones used before the given time. *)
Class CleanupSpec {W : Type} (store : Store W) (view : W -> StoreView) (serving : W -> Prop) : Prop := {
  spec_CleanupExpired : forall b w w' r, serving w -> st_CleanupExpiredLinks store b w = (w', r) ->
    serving w' /\ view_md (view w') = view_md (view w) /\ view_links (view w') ⊆ view_links (view w) /\
    forall t l, view_links (view w) !! t = Some l -> view_links (view w') !! t = None ->
      (lk_ExpiresAt l < b)%Z;
  spec_CleanupUsed : forall b w w' r, serving w -> st_CleanupUsedLinks store b w = (w', r) ->
    serving w' /\ view_md (view w') = view_md (view w) /\ view_links (view w') ⊆ view_links (view w) /\
    forall t l, view_links (view w) !! t = Some l -> view_links (view w') !! t = None ->
      lk_Status l = "used" /\ exists u, lk_UsedAt l = Some u /\ (u < b)%Z;
}.

(** A weaker contract for the metadata records, for stores that do not keep
    every field: [created] is what a store keeps of a created record and
    [updated w old new] what it keeps of an update; [good] says for which paths and
    [ok] which records it takes in a world.  [StoreSpec] is the case in which nothing is lost. *)
Class RecordSpec {W : Type} (store : Store W) (view : W -> gmap string Metadata) (serving : W -> Prop)
    (good : string -> Prop)
    (ok : Metadata -> W -> Prop) (created : Metadata -> Metadata)
    (updated : W -> Metadata -> Metadata -> Metadata)
    : Prop := {
  rec_Get : forall p w, serving w -> good p ->
    st_Get store p w = match view w !! p with Some md => Ok md | None => Err ErrNotFound end;
  rec_Create : forall md w w' md' r, serving w -> ok md w -> st_Create store md w = (w', (md', r)) ->
    serving w' /\
    match view w !! md_Path md with
    | Some _ => r = Err ErrAlreadyExists /\ view w' = view w
    | None => r = Ok tt /\ view w' = <[md_Path md := created md']> (view w) /\ same_file md md'
    end;
  rec_Update : forall md w w' md' r, serving w -> ok md w -> st_Update store md w = (w', (md', r)) ->
    serving w' /\
    match view w !! md_Path md with
    | None => r = Err ErrNotFound /\ view w' = view w
    | Some old => r = Ok tt /\ view w' = <[md_Path md := updated w old md']> (view w) /\ same_file md md'
    end;
  rec_Delete : forall p w w' r, serving w -> good p -> st_Delete store p w = (w', r) ->
    serving w' /\
    match view w !! p with
    | None => r = Err ErrNotFound /\ view w' = view w
    | Some _ => r = Ok tt /\ view w' = delete p (view w)
    end;
}.

#[global] Instance StoreSpec_RecordSpec {W} (store : Store W) view serving :
  StoreSpec store view serving ->
  RecordSpec store (fun w => view_md (view w)) serving (fun _ => True)
    (fun _ _ => True) id (fun _ _ md => md).
Proof.
  intros H. split.
  - intros p w Hw _. by apply spec_Get.
  - intros md w w' md' r Hw _ E. by destruct (spec_Create md w w' md' r Hw E) as (? & _ & ?).
  - intros md w w' md' r Hw _ E. destruct (spec_Update md w w' md' r Hw E) as (? & _ & Hm).
    by destruct (view_md (view w) !! md_Path md).
  - intros p w w' r Hw _ E. by destruct (spec_Delete p w w' r Hw E) as (? & _ & ?).
Qed.
