(* ===== verification/MemStore.v ===== *)
(** * A reference store

    The contract [StoreSpec] as an executable implementation over finite maps,
    inside any world that has a [StoreView].  It stands for no code of the
    repository: the theorems over an arbitrary store are instantiated with it
    where they are evaluated on concrete inputs. *)
From S2P Require Import Prelude GoStrings Metadata.
From Stdlib Require Import Ascii String.
Open Scope string_scope.
Open Scope bool_scope.

Section MemStore.
Context {W : Type} (get : W -> StoreView) (put : StoreView -> W -> W).
Hypothesis get_put : forall v w, get (put v w) = v.

Definition mem_children (p : string) (w : W) : list Metadata :=
  filter (fun md => md_Path md <> "/" /\ pathDir (md_Path md) = p) (map_to_list (view_md (get w))).*2.

Definition mem_update_link (t st : string) (ua : option Time) (ip : option string) (w : W) : W * Res unit :=
  match view_links (get w) !! t with
  | Some l =>
      if String.eqb (lk_Status l) "active" then
        let l' := mkLink (lk_ID l) (lk_Token l) (lk_FilePath l) st (lk_ExpiresAt l) ua ip
                    (lk_HMACSignature l) (lk_CreatedAt l) (lk_UpdatedAt l) in
        (put (mkView (view_md (get w)) (<[t := l']> (view_links (get w)))) w, Ok tt)
      else (w, Err ErrNotFound)
  | None => (w, Err ErrNotFound)
  end.

Definition mem_cleanup (P : SingleUseLink -> bool) (w : W) : W * Res Z :=
  let links := view_links (get w) in
  let kept := filter (fun kl : string * SingleUseLink => P kl.2 = false) links in
  (put (mkView (view_md (get w)) kept) w, Ok (Z.of_nat (size links - size kept))).

Definition memStore : Store W := mkStore W
  (fun p w => match view_md (get w) !! p with Some md => Ok md | None => Err ErrNotFound end)
  (fun md w => match view_md (get w) !! md_Path md with
               | Some _ => (w, (md, Err ErrAlreadyExists))
               | None => (put (mkView (<[md_Path md := md]> (view_md (get w))) (view_links (get w))) w, (md, Ok tt))
               end)
  (fun md w => match view_md (get w) !! md_Path md with
               | None => (w, (md, Err ErrNotFound))
               | Some _ => (put (mkView (<[md_Path md := md]> (view_md (get w))) (view_links (get w))) w, (md, Ok tt))
               end)
  (fun p w => match view_md (get w) !! p with
              | None => (w, Err ErrNotFound)
              | Some _ => (put (mkView (delete p (view_md (get w))) (view_links (get w))) w, Ok tt)
              end)
  (fun p w => Ok (mem_children p w))
  (fun t w => match view_links (get w) !! t with Some l => Ok l | None => Err ErrNotFound end)
  (fun l w => match view_links (get w) !! lk_Token l with
              | Some _ => (w, Err ErrAlreadyExists)
              | None => (put (mkView (view_md (get w)) (<[lk_Token l := l]> (view_links (get w)))) w, Ok tt)
              end)
  mem_update_link
  (fun before => mem_cleanup (fun l => Before (lk_ExpiresAt l) before && String.eqb (lk_Status l) "active"))
  (fun before => mem_cleanup (fun l => String.eqb (lk_Status l) "used" &&
                                       match lk_UsedAt l with Some u => Before u before | None => false end)).

Lemma memStore_spec : StoreSpec memStore get (fun _ => True).
Proof.
  split; cbn [memStore st_Get st_Create st_Update st_Delete st_ListChildren st_GetSingleUseLink
              st_CreateSingleUseLink st_UpdateSingleUseLink].
  - done.
  - intros md w w' md' r _. destruct (view_md (get w) !! md_Path md) eqn:E; intros H;
      injection H as <- <- <-; rewrite ?get_put; done.
  - intros md w w' md' r _. destruct (view_md (get w) !! md_Path md) eqn:E; intros H;
      injection H as <- <- <-; rewrite ?get_put; done.
  - intros p w w' r _. destruct (view_md (get w) !! p) eqn:E; intros H;
      injection H as <- <-; rewrite ?get_put; done.
  - intros p w _. exists (mem_children p w). split; [done |]. intros md. unfold mem_children.
    rewrite list_elem_of_filter, list_elem_of_fmap. split.
    + intros [[Hne Hd] ([q md'] & -> & Hin)]. apply elem_of_map_to_list in Hin. by exists q.
    + intros (q & Hq & Hne & Hd). split; [done |]. exists (q, md). split; [done |].
      by apply elem_of_map_to_list.
  - done.
  - intros l w w' r _. destruct (view_links (get w) !! lk_Token l) eqn:E; intros H;
      injection H as <- <-; rewrite ?get_put; done.
  - intros t st ua ip w w' r _. unfold mem_update_link.
    destruct (view_links (get w) !! t) as [l |] eqn:E; [| by intros H; injection H as <- <-].
    destruct (String.eqb (lk_Status l) "active"); intros H; injection H as <- <-; [| done].
    rewrite get_put. split; [done |]. split; [done |]. split; [done |]. eexists. by split.
Qed.

Lemma mem_cleanup_spec P w w' r :
  mem_cleanup P w = (w', r) ->
  view_md (get w') = view_md (get w) /\ view_links (get w') ⊆ view_links (get w) /\
  forall t l, view_links (get w) !! t = Some l -> view_links (get w') !! t = None -> P l = true.
Proof.
  unfold mem_cleanup. intros H; injection H as <- <-. rewrite get_put. cbn [view_md view_links].
  split; [done |]. split; [apply map_filter_subseteq |].
  intros t l Hl Hn. apply map_lookup_filter_None in Hn as [Hn | Hn]; [congruence |].
  specialize (Hn _ Hl). cbn in Hn. by destruct (P l).
Qed.

Lemma memStore_cleanup_spec : CleanupSpec memStore get (fun _ => True).
Proof.
  split; cbn [memStore st_CleanupExpiredLinks st_CleanupUsedLinks]; intros b w w' r _ H;
    apply mem_cleanup_spec in H as (Hm & Hs & Hd); (split; [done |]); (split; [done |]); (split; [done |]).
  - intros t l Hl Hn. specialize (Hd _ _ Hl Hn). apply andb_true_iff in Hd as [Hd _].
    unfold Before in Hd. to_prop. done.
  - intros t l Hl Hn. specialize (Hd _ _ Hl Hn). apply andb_true_iff in Hd as [Hst Hd].
    destruct (lk_UsedAt l) as [u |]; [| done]. unfold Before in Hd. to_prop. by split; [| exists u].
Qed.
End MemStore.

(** The store alone in the world. *)
Definition viewStore : Store StoreView := memStore id (fun v _ => v).
#[global] Instance viewStore_spec : StoreSpec viewStore id (fun _ => True).
Proof. by apply memStore_spec. Qed.
#[global] Instance viewStore_cleanup_spec : CleanupSpec viewStore id (fun _ => True).
Proof. by apply memStore_cleanup_spec. Qed.
