(* ===== verification/Cache.v ===== *)
(** * The metadata cache of the engine: core/cache.go

    [MetadataCache] holds the entries as a finite map.  Go iterates over a map
    in an unspecified order, so the operations that iterate take the order as
    a list of the entries ([evictOneEntry], [InvalidatePrefix],
    [performCleanup]); [range_of] states that a list is such an order.  Every reading of the clock is an argument.

    [Get] clones the record it returns, so a caller cannot change a cached
    record through the result of [Get]; the model keeps values. *)
From S2P Require Import Prelude GoStrings Metadata.
From Stdlib Require Import Ascii String.
Open Scope string_scope.
Open Scope bool_scope.

Module Cache.

Record CacheEntry := mkEntry {
  ce_Metadata : Metadata;
  ce_ExpiresAt : Time;
}.

Definition IsExpired (now : Time) (e : CacheEntry) : bool := After now (ce_ExpiresAt e).

Abbreviation entries := (gmap string CacheEntry) (only parsing).

Record MetadataCache := mkCache {
  mc_cache : entries;
  mc_ttl : Duration;
  mc_maxSize : Z;
}.

Definition NewMetadataCache (ttl : Duration) (maxSize : Z) : MetadataCache :=
  mkCache ∅ ttl maxSize.

Definition with_cache (c : MetadataCache) (m : entries) : MetadataCache :=
  mkCache m (mc_ttl c) (mc_maxSize c).

Definition Get (now : Time) (path : string) (c : MetadataCache) : option Metadata :=
  match mc_cache c !! path with
  | None => None
  | Some entry => if IsExpired now entry then None else Some (ce_Metadata entry)
  end.

(** The first loop of [evictOneEntry]: the first expired entry of the
    iteration order. *)
Fixpoint find_expired (now : Time) (order : list (string * CacheEntry)) : option string :=
  match order with
  | [] => None
  | (path, entry) :: rest =>
      if After now (ce_ExpiresAt entry) then Some path else find_expired now rest
  end.

Definition evictOneEntry (now : Time) (order : list (string * CacheEntry)) (c : MetadataCache)
  : MetadataCache :=
  match find_expired now order with
  | Some path => with_cache c (delete path (mc_cache c))
  | None =>
      match order with
      | (path, _) :: _ => with_cache c (delete path (mc_cache c))
      | [] => c
      end
  end.

Definition Set_ (evictNow now : Time) (order : list (string * CacheEntry)) (path : string) (md : Metadata)
    (c : MetadataCache) : MetadataCache :=
  let c := if (mc_maxSize c <=? Z.of_nat (size (mc_cache c)))%Z
           then evictOneEntry evictNow order c else c in
  with_cache c (<[path := mkEntry md (now + mc_ttl c)%Z]> (mc_cache c)).

Definition Invalidate (path : string) (c : MetadataCache) : MetadataCache :=
  with_cache c (delete path (mc_cache c)).

Definition prefix_match (prefix path : string) : bool :=
  String.eqb path prefix || HasPrefix path (prefix +:+ "/").

Definition InvalidatePrefix (prefix : string) (order : list (string * CacheEntry))
    (c : MetadataCache) : MetadataCache :=
  with_cache c
    (fold_left (fun m '(path, _) => if prefix_match prefix path then delete path m else m)
               order (mc_cache c)).

Definition performCleanup (now : Time) (order : list (string * CacheEntry)) (c : MetadataCache)
  : MetadataCache :=
  with_cache c
    (fold_left (fun m '(path, entry) => if After now (ce_ExpiresAt entry) then delete path m else m)
               order (mc_cache c)).

(** ** Lemmas *)

(** A list is an iteration order of a cache. *)
Definition range_of (order : list (string * CacheEntry)) (c : MetadataCache) : Prop :=
  order ≡ₚ map_to_list (mc_cache c).

(** A loop that deletes the entries that satisfy [P] leaves the others. *)
Lemma range_delete_lookup (P : string -> CacheEntry -> bool) order (m : entries) p :
  fold_left (fun m '(path, entry) => if P path entry then delete path m else m) order m !! p =
  if existsb (fun '(q, e) => String.eqb q p && P q e) order then None else m !! p.
Proof.
  revert m; induction order as [| [q e] order IH]; intros m; [done |].
  cbn [fold_left existsb]. rewrite IH.
  destruct (P q e), (String.eqb_spec q p) as [-> | Hn]; cbn [andb orb].
  - by rewrite lookup_delete_eq; destruct (existsb _ _).
  - by rewrite lookup_delete_ne.
  - done.
  - done.
Qed.

Lemma range_delete_order (P : string -> CacheEntry -> bool) order (c : MetadataCache) p :
  range_of order c ->
  fold_left (fun m '(path, entry) => if P path entry then delete path m else m) order (mc_cache c) !! p =
  match mc_cache c !! p with Some e => if P p e then None else Some e | None => None end.
Proof.
  intros Hr. rewrite range_delete_lookup.
  destruct (existsb _ order) eqn:E.
  - apply existsb_exists in E as ([q e] & Hin & HP). to_prop; subst q.
    apply list_elem_of_In in Hin. rewrite Hr in Hin. apply elem_of_map_to_list in Hin. rewrite Hin.
    by replace (P p e) with true.
  - destruct (mc_cache c !! p) as [e |] eqn:L; [| done].
    destruct (P p e) eqn:HP; [| done]. exfalso.
    apply not_true_iff_false in E. apply E, existsb_exists. exists (p, e). split.
    + apply list_elem_of_In. rewrite Hr. by apply elem_of_map_to_list.
    + by rewrite String.eqb_refl, HP.
Qed.

Lemma lookup_InvalidatePrefix prefix order c p :
  range_of order c ->
  mc_cache (InvalidatePrefix prefix order c) !! p =
  if prefix_match prefix p then None else mc_cache c !! p.
Proof.
  intros Hr. unfold InvalidatePrefix. cbn [mc_cache with_cache].
  rewrite (range_delete_order (fun p _ => prefix_match prefix p)) by done.
  by destruct (mc_cache c !! p), (prefix_match prefix p).
Qed.

Lemma lookup_performCleanup now order c p :
  range_of order c ->
  mc_cache (performCleanup now order c) !! p =
  match mc_cache c !! p with Some e => if IsExpired now e then None else Some e | None => None end.
Proof.
  intros Hr. unfold performCleanup. cbn [mc_cache with_cache].
  by rewrite (range_delete_order (fun _ e => After now (ce_ExpiresAt e))).
Qed.

Lemma find_expired_spec now order :
  match find_expired now order with
  | Some p => exists e, (p, e) ∈ order /\ IsExpired now e = true
  | None => Forall (fun x => IsExpired now x.2 = false) order
  end.
Proof.
  induction order as [| [p e] order IH]; cbn; [constructor |].
  destruct (After now (ce_ExpiresAt e)) eqn:E.
  - exists e. by split; [left |].
  - destruct (find_expired now order) as [q |].
    + destruct IH as (e' & ? & ?). exists e'. by split; [right |].
    + by constructor.
Qed.

(** [evictOneEntry] removes exactly one entry of a non-empty cache, an expired
    one if there is one. *)
Lemma evictOneEntry_spec now order c :
  range_of order c -> mc_cache c <> ∅ ->
  exists p e, mc_cache c !! p = Some e /\
    mc_cache (evictOneEntry now order c) = delete p (mc_cache c) /\
    (IsExpired now e = false -> forall q e', mc_cache c !! q = Some e' -> IsExpired now e' = false).
Proof.
  intros Hr Hne. unfold evictOneEntry. pose proof (find_expired_spec now order) as F.
  destruct (find_expired now order) as [p |].
  - destruct F as (e & Hin & He). rewrite Hr in Hin. apply elem_of_map_to_list in Hin.
    exists p, e. split; [done |]. split; [done |]. congruence.
  - destruct order as [| [p e] order].
    + exfalso. apply Hne, map_to_list_empty_iff. unfold range_of in Hr. symmetry in Hr. by apply Permutation_nil_r in Hr.
    + exists p, e. assert (Hin : (p, e) ∈ (p, e) :: order) by left.
      rewrite Hr in Hin. apply elem_of_map_to_list in Hin.
      split; [done |]. split; [done |]. intros _ q e' Hq.
      apply elem_of_map_to_list in Hq. rewrite <- Hr in Hq.
      rewrite Forall_forall in F. by apply (F (q, e')).
Qed.

Lemma evictOneEntry_sub now order c p e :
  mc_cache (evictOneEntry now order c) !! p = Some e -> mc_cache c !! p = Some e.
Proof.
  unfold evictOneEntry. destruct (find_expired now order) as [q |].
  { cbn. intros H. by apply lookup_delete_Some in H as [_ ?]. }
  destruct order as [| [q ?] ?]; [done |]. cbn. intros H. by apply lookup_delete_Some in H as [_ ?].
Qed.

Lemma ttl_evictOneEntry now order c : mc_ttl (evictOneEntry now order c) = mc_ttl c.
Proof. unfold evictOneEntry. destruct (find_expired now order); [done |]. by destruct order as [| [] ?]. Qed.
Lemma maxSize_evictOneEntry now order c : mc_maxSize (evictOneEntry now order c) = mc_maxSize c.
Proof. unfold evictOneEntry. destruct (find_expired now order); [done |]. by destruct order as [| [] ?]. Qed.

(** What [Set_] stores: the new entry, and otherwise only old entries. *)
Lemma lookup_Set enow now order path md c p e :
  mc_cache (Set_ enow now order path md c) !! p = Some e ->
  (p = path /\ ce_Metadata e = md /\ ce_ExpiresAt e = (now + mc_ttl c)%Z) \/ mc_cache c !! p = Some e.
Proof.
  unfold Set_. cbn [mc_cache with_cache]. intros H.
  apply lookup_insert_Some in H as [[<- <-] | [_ H]].
  - left. cbn. by destruct (_ <=? _)%Z; rewrite ?ttl_evictOneEntry.
  - right. destruct (_ <=? _)%Z; [by apply evictOneEntry_sub in H | done].
Qed.

Lemma lookup_Set_same enow now order path md c :
  mc_cache (Set_ enow now order path md c) !! path = Some (mkEntry md (now + mc_ttl c)%Z).
Proof.
  unfold Set_. cbn [mc_cache with_cache]. rewrite lookup_insert_eq.
  by destruct (_ <=? _)%Z; rewrite ?ttl_evictOneEntry.
Qed.

(** The bound of the cache. *)
Definition bounded (c : MetadataCache) : Prop :=
  (0 < mc_maxSize c)%Z /\ (Z.of_nat (size (mc_cache c)) <= mc_maxSize c)%Z.

Lemma bounded_sub c (m : entries) : m ⊆ mc_cache c -> bounded c -> bounded (with_cache c m).
Proof.
  intros Hs [? ?]. split; [done |]. cbn [mc_cache with_cache mc_maxSize].
  apply map_subseteq_size in Hs. lia.
Qed.

Lemma size_insert_le (m : entries) k v : size (<[k := v]> m) <= S (size m).
Proof. rewrite map_size_insert. destruct (m !! k); unfold id; lia. Qed.

Lemma bounded_Set enow now order path md c :
  range_of order c -> bounded c -> bounded (Set_ enow now order path md c).
Proof.
  intros Hr [Hpos Hle]. unfold Set_, bounded.
  destruct (_ <=? _)%Z eqn:E; to_prop; cbn [mc_cache with_cache mc_maxSize].
  - destruct (evictOneEntry_spec enow order c) as (p & e & Hp & Hm & _); [done | |].
    { intros Hemp. rewrite Hemp, map_size_empty in E. lia. }
    rewrite maxSize_evictOneEntry, Hm. split; [done |].
    pose proof (size_insert_le (delete p (mc_cache c)) path
                  (mkEntry md (now + mc_ttl (evictOneEntry enow order c))%Z)) as Hi.
    rewrite map_size_delete, Hp in Hi.
    assert (size (mc_cache c) <> 0) by (rewrite map_size_ne_0_lookup; eauto). lia.
  - split; [done |]. pose proof (size_insert_le (mc_cache c) path
                  (mkEntry md (now + mc_ttl c)%Z)). lia.
Qed.

Lemma sub_delete_loop (P : string -> CacheEntry -> bool) order c :
  range_of order c ->
  fold_left (fun m '(path, entry) => if P path entry then delete path m else m) order (mc_cache c)
    ⊆ mc_cache c.
Proof.
  intros Hr. apply map_subseteq_spec. intros p e. rewrite range_delete_order by done.
  destruct (mc_cache c !! p) as [e' |]; [| done]. by destruct (P p e').
Qed.

(** ** The cache as a whole: its operations, and what they keep *)

Inductive op :=
| OSet (now : Time) (path : string) (md : Metadata)
| OInvalidate (path : string)
| OInvalidatePrefix (prefix : string)
| OCleanup (now : Time).

(** One operation, with some iteration order of the map. *)
Inductive step : MetadataCache -> op -> MetadataCache -> Prop :=
| step_set c enow now path md order :
    range_of order c -> step c (OSet now path md) (Set_ enow now order path md c)
| step_invalidate c path : step c (OInvalidate path) (Invalidate path c)
| step_prefix c prefix order :
    range_of order c -> step c (OInvalidatePrefix prefix) (InvalidatePrefix prefix order c)
| step_cleanup c now order :
    range_of order c -> step c (OCleanup now) (performCleanup now order c).

Inductive steps : MetadataCache -> list op -> MetadataCache -> Prop :=
| steps_nil c : steps c [] c
| steps_cons c o c' os c'' : step c o c' -> steps c' os c'' -> steps c (o :: os) c''.

Lemma step_bounded c o c' : step c o c' -> bounded c -> bounded c'.
Proof.
  intros []; intros Hb.
  - by apply bounded_Set.
  - apply bounded_sub; [apply delete_subseteq | done].
  - apply bounded_sub; [by apply (sub_delete_loop (fun p _ => prefix_match prefix p)) | done].
  - apply bounded_sub; [by apply (sub_delete_loop (fun _ e => After now (ce_ExpiresAt e))) | done].
Qed.

(** Whatever sequence of operations runs on a new cache with a positive
    [maxSize], in whatever order Go iterates over the map, the cache never
    holds more than [maxSize] entries. *)
Theorem cache_bounded ttl maxSize os c :
  (0 < maxSize)%Z -> steps (NewMetadataCache ttl maxSize) os c ->
  (Z.of_nat (size (mc_cache c)) <= maxSize)%Z.
Proof.
  intros Hpos Hs.
  assert (Hall : forall c0, steps c0 os c -> bounded c0 ->
            bounded c /\ mc_maxSize c = mc_maxSize c0).
  { clear Hs. intros c0 Hs. induction Hs as [| c0 o c1 os c2 H1 H2 IH]; [done |].
    intros Hb. apply (step_bounded _ _ _ H1) in Hb. destruct (IH Hb) as [? ->].
    split; [done |]. destruct H1; try done. unfold Set_. cbn [mc_maxSize with_cache].
    destruct (_ <=? _)%Z; [by rewrite maxSize_evictOneEntry | done]. }
  destruct (Hall _ Hs) as [[_ Hle] Heq].
  - split; [done |]. cbn [NewMetadataCache mc_cache mc_maxSize]. rewrite map_size_empty. lia.
  - by rewrite Heq in Hle.
Qed.

Definition w_md (path : string) : Metadata := set_Path path (newMetadata "a" "file" "0644" 0 0 "localfs" 0).

Lemma cache_bounded_witness :
  (Z.of_nat (size (mc_cache (Set_ 1 1 [("/a", mkEntry (w_md "/a") 7)] "/b" (w_md "/b")
     (Set_ 0 0 [] "/a" (w_md "/a") (NewMetadataCache 7 1))))) <= 1)%Z.
Proof.
  apply (cache_bounded 7 1 [OSet 0 "/a" (w_md "/a"); OSet 1 "/b" (w_md "/b")]); [done |].
  econstructor; [apply step_set; vm_compute; reflexivity |]. econstructor; [apply step_set; vm_compute; reflexivity | constructor].
Defined.

(** The last operation of a history that says something about [path] (a
    [Set] of it, or a removal), [None] if there is none. *)
Fixpoint last_set (path : string) (os : list op) : option (Metadata * Time) :=
  match os with
  | [] => None
  | o :: rest =>
      match last_set path rest with
      | Some r => Some r
      | None =>
          if existsb (fun o => match o with
                      | OInvalidate p => String.eqb p path
                      | OInvalidatePrefix pre => prefix_match pre path
                      | _ => false end) rest then None
          else match o with OSet now p md => if String.eqb p path then Some (md, now) else None | _ => None end
      end
  end.

Lemma step_ttl c o c' : step c o c' -> mc_ttl c' = mc_ttl c.
Proof.
  intros []; try done. unfold Set_. cbn [mc_ttl with_cache].
  destruct (_ <=? _)%Z; [by rewrite ttl_evictOneEntry | done].
Qed.

(** What one operation leaves under [path]. *)
Lemma step_lookup c o c' path e :
  step c o c' -> mc_cache c' !! path = Some e ->
  match o with
  | OSet now p md =>
      if String.eqb p path then e = mkEntry md (now + mc_ttl c)%Z else mc_cache c !! path = Some e
  | OInvalidate p => p <> path /\ mc_cache c !! path = Some e
  | OInvalidatePrefix pre => prefix_match pre path = false /\ mc_cache c !! path = Some e
  | OCleanup _ => mc_cache c !! path = Some e
  end.
Proof.
  intros [c0 enow now p md order Hr | c0 p | c0 pre order Hr | c0 now order Hr] H.
  - destruct (String.eqb_spec p path) as [-> | Hn].
    + rewrite lookup_Set_same in H. by injection H.
    + apply lookup_Set in H as [[-> _] | H]; done.
  - unfold Invalidate in H. cbn [mc_cache with_cache] in H. by apply lookup_delete_Some in H.
  - rewrite lookup_InvalidatePrefix in H by done. by destruct (prefix_match pre path).
  - rewrite lookup_performCleanup in H by done.
    destruct (mc_cache c0 !! path) as [e' |]; [| done]. by destruct (IsExpired now e').
Qed.

Lemma steps_last os c0 c path e :
  steps c0 os c -> mc_cache c !! path = Some e ->
  match last_set path os with
  | Some (md, t) => e = mkEntry md (t + mc_ttl c0)%Z
  | None => mc_cache c0 !! path = Some e /\
            existsb (fun o => match o with
                      | OInvalidate p => String.eqb p path
                      | OInvalidatePrefix pre => prefix_match pre path
                      | _ => false end) os = false
  end.
Proof.
  intros Hs. induction Hs as [| c0 o c1 os c2 H1 H2 IH]; [done |]. intros He.
  specialize (IH He). cbn [last_set]. destruct (last_set path os) as [[md t] |].
  { by rewrite (step_ttl _ _ _ H1) in IH. }
  destruct IH as [IH Hno]. rewrite Hno. apply (step_lookup _ _ _ _ _ H1) in IH.
  destruct o as [now p md | p | pre | now]; cbn [existsb orb]; try by rewrite Hno.
  - destruct (String.eqb p path); [done | by rewrite Hno].
  - destruct IH as [Hn IH]. apply String.eqb_neq in Hn. by rewrite Hn.
  - destruct IH as [Hn IH]. by rewrite Hn.
Qed.

(** A record the cache returns is the one that was stored last under the
    path, after which the path was not invalidated, and it was stored at most
    [ttl] ago: eviction and cleanup can only lose entries. *)
Theorem cache_get_fresh ttl maxSize os c now path md :
  steps (NewMetadataCache ttl maxSize) os c -> Get now path c = Some md ->
  exists t, last_set path os = Some (md, t) /\ (now <= t + ttl)%Z.
Proof.
  intros Hs Hg. unfold Get in Hg. destruct (mc_cache c !! path) as [e |] eqn:He; [| done].
  destruct (IsExpired now e) eqn:Hexp; [done |]. injection Hg as <-.
  pose proof (steps_last _ _ _ _ _ Hs He) as Hl.
  destruct (last_set path os) as [[md t] |].
  - subst e. exists t. split; [done |]. unfold IsExpired, After in Hexp. cbn in Hexp. to_prop. lia.
  - destruct Hl as [Hl _]. done.
Qed.

Lemma cache_get_fresh_witness :
  exists t, last_set "/b" [OSet 0 "/a" (w_md "/a"); OSet 1 "/b" (w_md "/b")] = Some (w_md "/b", t)
            /\ (8 <= t + 7)%Z.
Proof.
  apply (cache_get_fresh 7 1 [OSet 0 "/a" (w_md "/a"); OSet 1 "/b" (w_md "/b")]
    (Set_ 1 1 [("/a", mkEntry (w_md "/a") 7)] "/b" (w_md "/b")
       (Set_ 0 0 [] "/a" (w_md "/a") (NewMetadataCache 7 1))) 8).
  - econstructor; [apply step_set; vm_compute; reflexivity |]. econstructor; [apply step_set; vm_compute; reflexivity | constructor].
  - vm_compute. reflexivity.
Defined.

(** [InvalidatePrefix("/")] drops the entry of the root and nothing else
    (but for paths that start with "//"): the children of the root stay
    cached, although every absolute path lies below "/". *)
Theorem cache_InvalidatePrefix_root order c p :
  range_of order c -> HasPrefix p "//" = false ->
  mc_cache (InvalidatePrefix "/" order c) !! p = if String.eqb p "/" then None else mc_cache c !! p.
Proof.
  intros Hr Hp. rewrite lookup_InvalidatePrefix by done. unfold prefix_match.
  change ("/" +:+ "/") with "//". rewrite Hp. by rewrite orb_false_r.
Qed.

Lemma cache_InvalidatePrefix_root_witness :
  mc_cache (InvalidatePrefix "/" [("/a", mkEntry (w_md "/a") 7)]
    (Set_ 0 0 [] "/a" (w_md "/a") (NewMetadataCache 7 1))) !! "/a" = Some (mkEntry (w_md "/a") 7).
Proof.
  rewrite (cache_InvalidatePrefix_root [("/a", mkEntry (w_md "/a") 7)]
             (Set_ 0 0 [] "/a" (w_md "/a") (NewMetadataCache 7 1)) "/a"); [reflexivity | vm_compute; reflexivity | reflexivity].
Defined.

End Cache.
