(* ===== verification/Locks.v ===== *)
(** * The lock managers: locks/

    The [Manager] interface as a record of operations on an abstract world and
    the contract its callers rely on; [LocalManager] over an explicit map, with
    every clock reading and random value an argument. *)
From S2P Require Import Prelude GoStrings Metadata.
From Stdlib Require Import Ascii String.
Open Scope string_scope.
Open Scope bool_scope.

Record LockManager (W : Type) := mkLockManager {
  lm_Acquire : string -> St W (Res bool);
  lm_Release : string -> St W (Res unit);
}.
Arguments lm_Acquire {W}. Arguments lm_Release {W}.

(** What a client relies on.  [held w k]: somebody holds [k] in [w].  A lock
    that is granted was free, no other lock becomes held, and after a release
    without error the lock is not held. *)
Class LockSpec {W} (lm : LockManager W) (held : W -> string -> Prop) : Prop := {
  spec_Acquire : forall k w w' r, lm_Acquire lm k w = (w', r) ->
    (r = Ok true -> ~ held w k) /\
    forall k', held w' k' -> held w k' \/ (r = Ok true /\ k' = k);
  spec_Release : forall k w w' r, lm_Release lm k w = (w', r) ->
    forall k', held w' k' -> held w k' /\ (r = Ok tt -> k' <> k);
}.

(** A manager whose leases do not run out: a lock that is granted was free and is held
    from then on, and only its own release takes a lock away. *)
Class LeaseSpec {W} (lm : LockManager W) (held : W -> string -> Prop) : Prop := {
  lease_Acquire : forall k w w' r, lm_Acquire lm k w = (w', r) ->
    (forall k', held w k' -> held w' k') /\ (r = Ok true -> ~ held w k /\ held w' k);
  lease_Release : forall k w w' r, lm_Release lm k w = (w', r) ->
    forall k', k' <> k -> held w k' -> held w' k';
}.

Module LocalLocks.

Definition localLockTTL : Duration := (30 * Second)%Z.

Record lockEntry := mkLockEntry {
  le_expiry : Time;
  le_ownerID : string;
}.

Abbreviation locks := (gmap string lockEntry) (only parsing).

(** [ctxDone] is [ctx.Err()] when the context is done; [owner] the result of
    [generateOwnerID]; [now] and [now'] the two readings of the clock. *)
Definition Acquire (ctxDone : option gerr) (owner : Res string) (now now' : Time) (key : string)
    (m : locks) : locks * Res bool :=
  match ctxDone with
  | Some e => (m, Err e)
  | None =>
      let stillHeld :=
        match m !! key with Some entry => Before now (le_expiry entry) | None => false end in
      if stillHeld then (m, Ok false)
      else
        match owner with
        | Err e => (m, Err (EWrap "failed to generate lock owner ID" e))
        | Ok ownerID => (<[key := mkLockEntry (now' + localLockTTL)%Z ownerID]> m, Ok true)
        end
  end.

Definition Release (now : Time) (key : string) (m : locks) : locks * Res unit :=
  match m !! key with
  | None => (m, Ok tt)
  | Some entry => if After now (le_expiry entry) then (m, Ok tt) else (delete key m, Ok tt)
  end.

Definition Close (m : locks) : locks * Res unit := (∅, Ok tt).

(** One tick of [cleanupLoop], in the order [order] of the map. *)
Definition cleanup (now : Time) (order : list (string * lockEntry)) (m : locks) : locks :=
  fold_left (fun m '(key, entry) => if After now (le_expiry entry) then delete key m else m) order m.

(** [generateOwnerID]: [rand.Read] of 8 bytes, in hexadecimal. *)
Definition generateOwnerID (hexEncode : string -> string) (randRead : Res string) : Res string :=
  match randRead with Err e => Err e | Ok b => Ok (hexEncode b) end.

Definition mustGenerateID (hexEncode : string -> string) (randRead : Res string) : string :=
  match generateOwnerID hexEncode randRead with Err _ => "local" | Ok id => id end.

(** ** Histories

    The callers and the cleanup goroutine run one at a time (the mutex), each
    call at a time not before the previous one. *)
Inductive event :=
| EvAcquire (ctxDone : option gerr) (owner : Res string) (key : string) (granted : bool)
| EvRelease (key : string)
| EvCleanup.

Inductive history : Time -> locks -> list (Time * event) -> Time -> locks -> Prop :=
| hist_nil t m t' : (t <= t')%Z -> history t m [] t' m
| hist_acquire t m c o now now' key m' r evs t' m'' :
    (t <= now <= now')%Z -> Acquire c o now now' key m = (m', r) ->
    history now' m' evs t' m'' ->
    history t m ((now', EvAcquire c o key (match r with Ok true => true | _ => false end)) :: evs) t' m''
| hist_release t m now key m' r evs t' m'' :
    (t <= now)%Z -> Release now key m = (m', r) -> history now m' evs t' m'' ->
    history t m ((now, EvRelease key) :: evs) t' m''
| hist_cleanup t m now order evs t' m'' :
    (t <= now)%Z -> order ≡ₚ map_to_list m -> history now (cleanup now order m) evs t' m'' ->
    history t m ((now, EvCleanup) :: evs) t' m''.

Definition releases (key : string) (evs : list (Time * event)) : bool :=
  existsb (fun '(_, e) => match e with EvRelease k => String.eqb k key | _ => false end) evs.

Lemma cleanup_keeps now order (m : locks) key entry :
  NoDup order.*1 -> (forall e, (key, e) ∈ order -> e = entry) ->
  m !! key = Some entry -> (now <= le_expiry entry)%Z ->
  cleanup now order m !! key = Some entry.
Proof.
  unfold cleanup. revert m. induction order as [| [k e] order IH]; intros m Hnd Hin Hm Hle; [done |].
  cbn [fold_left]. cbn in Hnd. apply NoDup_cons in Hnd as [_ Hnd].
  apply IH; [done | intros; apply Hin; by right | | done].
  destruct (After now (le_expiry e)) eqn:Ha; [| done].
  rewrite lookup_delete_ne; [done |]. intros ->.
  rewrite (Hin e) in Ha by left. unfold After in Ha. to_prop. lia.
Qed.

(** An entry stays until its expiry, unless it is released. *)
Lemma history_keeps t m evs t' m' key entry :
  history t m evs t' m' -> releases key evs = false -> m !! key = Some entry ->
  (t' < le_expiry entry)%Z -> m' !! key = Some entry.
Proof.
  intros H. induction H as [t m t' Hle | t m c o now now' key0 m' r evs t' m'' Ht Ha Hh IH
    | t m now key0 m' r evs t' m'' Ht Hr Hh IH | t m now order evs t' m'' Ht Hp Hh IH];
    intros Hrel Hm Hexp; [done | | |]; cbn [releases existsb] in Hrel;
    assert (Htt : forall a b c d e, history a b c d e -> (a <= d)%Z) by
      (clear; intros ? ? ? ? ? Hx; induction Hx; lia);
    apply Htt in Hh.
  - apply IH; [done | | done]. unfold Acquire in Ha.
    destruct c; [by injection Ha as <- <- |].
    destruct (String.eqb_spec key0 key) as [-> | Hne].
    + rewrite Hm in Ha. unfold Before in Ha.
      replace (now <? le_expiry entry)%Z with true in Ha by (symmetry; apply Z.ltb_lt; lia).
      by injection Ha as <- <-.
    + destruct (match m !! key0 with Some _ => _ | None => _ end); [by injection Ha as <- <- |].
      destruct o; injection Ha as <- <-; [| done]. by rewrite lookup_insert_ne.
  - apply orb_false_iff in Hrel as [Hk Hrel]. to_prop.
    apply IH; [done | | done]. unfold Release in Hr.
    destruct (m !! key0); [| by injection Hr as <- <-].
    destruct (After now _); injection Hr as <- <-; [done |]. by rewrite lookup_delete_ne.
  - apply IH; [done | | done]. apply cleanup_keeps; [| | done | lia].
    + rewrite Hp. apply NoDup_fst_map_to_list.
    + intros e He. rewrite Hp in He. apply elem_of_map_to_list in He. congruence.
Qed.

Lemma Acquire_granted c o now now' key m m' :
  Acquire c o now now' key m = (m', Ok true) ->
  (forall entry, m !! key = Some entry -> (le_expiry entry <= now)%Z) /\
  exists owner, m' !! key = Some (mkLockEntry (now' + localLockTTL)%Z owner).
Proof.
  unfold Acquire. destruct c; [done |].
  destruct (match m !! key with Some _ => _ | None => _ end) eqn:E; [done |].
  destruct o as [owner |]; [| done]. intros H. injection H as <-. split.
  - intros entry He. rewrite He in E. unfold Before in E. to_prop. lia.
  - exists owner. apply lookup_insert_eq.
Qed.

(** C14: Mutual exclusion of the in-process lock manager: when a lock granted
    at time [t1] is granted again at [t2], either the key was released in
    between or at least [localLockTTL] (30s) went by. *)
Theorem local_lock_exclusion key c1 o1 n1 t1 m0 m1 evs c2 o2 n2 t2 m2 m3 :
  Acquire c1 o1 n1 t1 key m0 = (m1, Ok true) ->
  history t1 m1 evs n2 m2 ->
  Acquire c2 o2 n2 t2 key m2 = (m3, Ok true) ->
  releases key evs = false ->
  (t1 + localLockTTL <= n2)%Z.
Proof.
  intros H1 Hh H2 Hrel. apply Acquire_granted in H1 as (_ & owner & Hm).
  destruct (decide (n2 < t1 + localLockTTL)%Z) as [Hlt |]; [| lia].
  apply (history_keeps _ _ _ _ _ _ _ Hh Hrel) in Hm; [| done].
  apply Acquire_granted in H2 as [H2 _]. by apply H2 in Hm.
Qed.

Definition w_granted : locks := <["f" := mkLockEntry (0 + localLockTTL)%Z "aa"]> ∅.

Lemma local_lock_exclusion_witness : (0 + localLockTTL <= 31 * Second)%Z.
Proof.
  apply (local_lock_exclusion "f" None (Ok "aa") 0 0 ∅ w_granted []
           None (Ok "bb") (31 * Second)%Z (31 * Second)%Z w_granted
           (<["f" := mkLockEntry (61 * Second)%Z "bb"]> w_granted));
    [reflexivity | constructor; vm_compute; discriminate | reflexivity | reflexivity].
Defined.

(** [Release] never compares owners: while a lock is held (an [Acquire]
    is refused), a [Release] of the key, whoever calls it (say, an earlier
    holder whose own lock ran out), frees the lock for the next caller. *)
Theorem local_release_ignores_owner (m : locks) key entry now owner :
  m !! key = Some entry -> (now < le_expiry entry)%Z ->
  (Acquire None (Ok owner) now now key m).2 = Ok false /\
  (Acquire None (Ok owner) now now key (Release now key m).1).2 = Ok true.
Proof.
  intros Hm Hlt. unfold Release, Acquire. rewrite Hm. unfold After, Before.
  rewrite (proj2 (Z.ltb_lt _ _) Hlt), (proj2 (Z.ltb_ge _ _)) by lia.
  split; [done |]. cbn [fst]. by rewrite lookup_delete_eq.
Qed.

(** "aa" acquires at 0 and its lock runs out, "bb" acquires at 31s, "aa"
    releases at 32s: "cc" gets the lock that "bb" still holds. *)
Lemma local_release_ignores_owner_witness :
  let m := (Acquire None (Ok "bb") (31 * Second) (31 * Second) "f"
             (Acquire None (Ok "aa") 0 0 "f" ∅).1).1 in
  (Acquire None (Ok "cc") (32 * Second) (32 * Second) "f" m).2 = Ok false /\
  (Acquire None (Ok "cc") (32 * Second) (32 * Second) "f" (Release (32 * Second) "f" m).1).2 = Ok true.
Proof.
  intros m. apply (local_release_ignores_owner m "f" (mkLockEntry (61 * Second)%Z "bb") (32 * Second)%Z "cc");
    reflexivity.
Defined.

(** ** The manager against the interface *)

(** The part of the world a [LocalManager] reads: its map, the clock and the
    random generator. *)
Record LocalWorld := mkLocalWorld {
  lw_locks : locks;
  lw_now : Time;
  lw_rand : Res string;
}.

Definition localManager : LockManager LocalWorld :=
  mkLockManager LocalWorld
    (fun key w => let '(m, r) := Acquire None (lw_rand w) (lw_now w) (lw_now w) key (lw_locks w) in
                  (mkLocalWorld m (lw_now w) (lw_rand w), r))
    (fun key w => let '(m, r) := Release (lw_now w) key (lw_locks w) in
                  (mkLocalWorld m (lw_now w) (lw_rand w), r)).

Definition local_held (w : LocalWorld) (k : string) : Prop :=
  exists entry, lw_locks w !! k = Some entry /\ (lw_now w < le_expiry entry)%Z.

#[global] Instance localManager_spec : LockSpec localManager local_held.
Proof.
  split.
  - intros k w w' r. cbn. unfold Acquire.
    destruct (lw_locks w !! k) as [e |] eqn:E;
      [destruct (Before (lw_now w) (le_expiry e)) eqn:Eb |].
    { intros H; injection H as <- <-. split; [done | by left]. }
    all: destruct (lw_rand w) as [o |] eqn:Er; intros H; injection H as <- <-;
      (split; [| intros k' (e' & He' & Hlt); cbn in *]); try done;
      try (by left; exists e').
    + intros _ (e' & He' & Hlt). unfold Before in Eb. to_prop. rewrite E in He'. injection He' as <-. lia.
    + apply lookup_insert_Some in He' as [[<- _] | [_ He']]; [by right | left; by exists e'].
    + intros _ (e' & He' & Hlt). congruence.
    + apply lookup_insert_Some in He' as [[<- _] | [_ He']]; [by right | left; by exists e'].
  - intros k w w' r. cbn. unfold Release.
    destruct (lw_locks w !! k) as [e |] eqn:E;
      [destruct (After (lw_now w) (le_expiry e)) eqn:Ea |];
      intros H; injection H as <- <-; intros k' (e' & He' & Hlt); cbn in *.
    + split; [by exists e' |]. intros _ ->. rewrite E in He'. injection He' as <-.
      unfold After in Ea. to_prop. lia.
    + apply lookup_delete_Some in He' as [Hne He']. split; [by exists e' | congruence].
    + split; [by exists e' |]. intros _ ->. congruence.
Qed.

(** While the clock stands still no lease runs out. *)
#[global] Instance localManager_lease : LeaseSpec localManager local_held.
Proof.
  split.
  - intros k w w' r. pose proof (fun w' r H => proj1 (spec_Acquire (lm := localManager) k w w' r H)) as Hfree.
    specialize (Hfree w' r). revert Hfree. cbn. unfold Acquire.
    destruct (match lw_locks w !! k with Some _ => _ | None => _ end) eqn:Eh; [by intros _ [= <- <-] |].
    destruct (lw_rand w) as [o |]; [| by intros _ [= <- <-]]. intros Hfree [= <- <-]. specialize (Hfree eq_refl eq_refl).
    assert (Hnow : (lw_now w < lw_now w + localLockTTL)%Z) by (unfold localLockTTL, Second; lia).
    split; [| intros _; split; [done |]; eexists; cbn; by rewrite lookup_insert_eq].
    intros k' (en & He & Hlt). destruct (decide (k' = k)) as [-> | Hne]; [exfalso; apply Hfree; by exists en |].
    exists en. cbn. by rewrite lookup_insert_ne.
  - intros k w w' r. cbn. unfold Release. destruct (lw_locks w !! k) as [e |]; [destruct (After _ _) |];
      intros [= <- <-] k' Hne (en & He & Hlt); exists en; cbn; [done | by rewrite lookup_delete_ne | done].
Qed.

End LocalLocks.

