(* ===== verification/RedisLocks.v ===== *)
(** * The Redis lock manager: locks/redis_manager.go

    [RedisManager] over a Redis server, which is a parameter; the Lua script of
    [Release] is modelled over the server's [get] and [del]. *)
From S2P Require Import Prelude GoStrings Metadata Locks.
From Stdlib Require Import Ascii String.
Open Scope string_scope.
Open Scope bool_scope.

Module RedisLocks.

(** The Redis server: [SET key value NX EX ttl], the [get] and [del] a script
    calls, and [evalErr], the error of an [EVAL] that did not run. *)
Record RedisServer (W : Type) := mkRedis {
  rd_SetNX : string -> string -> Duration -> St W (Res bool);
  rd_get : string -> W -> option string;
  rd_del : string -> St W Z;
  rd_evalErr : W -> option gerr;
}.
Arguments rd_SetNX {W}. Arguments rd_get {W}. Arguments rd_del {W}. Arguments rd_evalErr {W}.

Record RedisManager := mkManager {
  rm_ttl : Duration;
  rm_ownerID : string;
}.

(** [NewRedisManager]: the result of the [PING] and of [rand.Read]. *)
Definition NewRedisManager (ping : Res unit) (randRead : Res string) (hexEncode : string -> string)
  : Res RedisManager :=
  match ping with
  | Err e => Err (EWrap "failed to connect to Redis" e)
  | Ok _ =>
      match randRead with
      | Err e => Err (EWrap "failed to generate owner ID" e)
      | Ok ownerBytes => Ok (mkManager (30 * Second)%Z (hexEncode ownerBytes))
      end
  end.

Section RedisManager.
Context {W : Type} (srv : RedisServer W) (m : RedisManager).

Definition lockKey (key : string) : string := "callfs:lock:" +:+ key.

Definition Acquire (key : string) : St W (Res bool) := fun w =>
  match rd_SetNX srv (lockKey key) (rm_ownerID m) (rm_ttl m) w with
  | (w', Err e) => (w', Err (EWrap "failed to acquire lock for key" e))
  | (w', Ok acquired) => (w', Ok acquired)
  end.

(** The script: delete the key if its value is the owner. *)
Definition luaRelease (k owner : string) : St W Z := fun w =>
  match rd_get srv k w with
  | Some v => if String.eqb v owner then rd_del srv k w else (w, 0%Z)
  | None => (w, 0%Z)
  end.

Definition Release (key : string) : St W (Res unit) := fun w =>
  match rd_evalErr srv w with
  | Some e => (w, Err (EWrap "failed to release lock for key" e))
  | None => let '(w', deleted) := luaRelease (lockKey key) (rm_ownerID m) w in (w', Ok tt)
  end.

(** [clientClose]: [client.Close()]. *)
Definition Close (clientClose : St W (Res unit)) : St W (Res unit) := clientClose.

Definition redisLockManager : LockManager W := mkLockManager W Acquire Release.
End RedisManager.

(** The documented behaviour of the server, in the worlds in which no key
    expires: NX sets an absent key only, [get] reads and [del] removes. *)
Class RedisLaws {W} (srv : RedisServer W) (db : W -> gmap string string) : Prop := {
  law_setnx : forall k v ttl w w' r, rd_SetNX srv k v ttl w = (w', r) ->
    match r with
    | Ok true => db w !! k = None /\ db w' = <[k := v]> (db w)
    | Ok false => is_Some (db w !! k) /\ db w' = db w
    | Err _ => db w' = db w
    end;
  law_get : forall k w, rd_get srv k w = db w !! k;
  law_del : forall k w w' n, rd_del srv k w = (w', n) -> db w' = delete k (db w);
}.

Section Owners.
Context {W : Type} (srv : RedisServer W) (db : W -> gmap string string) `{!RedisLaws srv db}.

Lemma redis_release_db m key w w' r :
  Release srv m key w = (w', r) ->
  match db w !! lockKey key with
  | Some v => if String.eqb v (rm_ownerID m) && is_Ok r then db w' = delete (lockKey key) (db w)
              else db w' = db w
  | None => db w' = db w
  end.
Proof.
  unfold Release, luaRelease. rewrite law_get.
  destruct (rd_evalErr srv w).
  { intros H; injection H as <- <-. destruct (db w !! _); [| done]. by rewrite andb_false_r. }
  destruct (db w !! lockKey key) as [v |]; [| by intros H; injection H as <- <-].
  destruct (String.eqb v (rm_ownerID m)).
  - destruct (rd_del srv (lockKey key) w) as [w1 n] eqn:E. intros H; injection H as <- <-.
    by apply law_del in E.
  - by intros H; injection H as <- <-.
Qed.

(** The Redis manager releases only its own locks: a key whose value is
    another manager's owner id survives [Release], whatever the call returns. *)
Theorem redis_release_owner m key other w w' r :
  Release srv m key w = (w', r) -> db w !! lockKey key = Some other -> other <> rm_ownerID m ->
  db w' = db w.
Proof.
  intros H Hk Hne. apply redis_release_db in H. rewrite Hk in H.
  apply String.eqb_neq in Hne. by rewrite Hne in H.
Qed.

End Owners.

(** A server that keeps its keys in a map and never fails. *)
Definition mapServer : RedisServer (gmap string string) :=
  mkRedis _ (fun k v _ w => match w !! k with Some _ => (w, Ok false) | None => (<[k := v]> w, Ok true) end)
    (fun k w => w !! k)
    (fun k w => (delete k w, match w !! k with Some _ => 1%Z | None => 0%Z end))
    (fun _ => None).

#[global] Instance mapServer_laws : RedisLaws mapServer id.
Proof.
  split.
  - intros k v ttl w w' r. cbn. destruct (w !! k) eqn:E; intros H; injection H as <- <-; by rewrite ?E.
  - done.
  - intros k w w' n H. by injection H.
Qed.

Lemma redis_release_owner_witness :
  (Release mapServer (mkManager (30 * Second)%Z "A") "file:/x"
     {[ "callfs:lock:file:/x" := "B" ]}).1 = ({[ "callfs:lock:file:/x" := "B" ]} : gmap string string).
Proof.
  exact (redis_release_owner mapServer id (mkManager (30 * Second)%Z "A") "file:/x" "B"
           {[ "callfs:lock:file:/x" := "B" ]}
           (Release mapServer (mkManager (30 * Second)%Z "A") "file:/x" {[ "callfs:lock:file:/x" := "B" ]}).1
           (Ok tt) eq_refl eq_refl ltac:(discriminate)).
Defined.

(** A lock is held by the manager when the key carries its owner id. *)
Definition redis_held {W} (db : W -> gmap string string) (m : RedisManager) (w : W) (k : string) : Prop :=
  db w !! lockKey k = Some (rm_ownerID m).

Lemma lockKey_inj k k' : lockKey k = lockKey k' -> k = k'.
Proof. unfold lockKey. cbn. congruence. Qed.

#[global] Instance redisLockManager_spec {W} (srv : RedisServer W) db `{!RedisLaws srv db} m :
  LockSpec (redisLockManager srv m) (redis_held db m).
Proof.
  split; cbn [redisLockManager lm_Acquire lm_Release]; unfold redis_held.
  - intros k w w' r. unfold Acquire.
    destruct (rd_SetNX srv (lockKey k) (rm_ownerID m) (rm_ttl m) w) as [w1 r1] eqn:E.
    apply law_setnx in E. destruct r1 as [[|] | e]; intros H; injection H as <- <-.
    + destruct E as [Hn ->]. split; [by rewrite Hn |].
      intros k' Hv. apply lookup_insert_Some in Hv as [[Hk _] | [_ Hv]]; [| by left].
      right. by apply lockKey_inj in Hk.
    + destruct E as [_ ->]. split; [done | by left].
    + rewrite E. split; [done | by left].
  - intros k w w' r H k' Hv. apply (redis_release_db srv db) in H.
    destruct (db w !! lockKey k) as [v |] eqn:E.
    + destruct (String.eqb_spec v (rm_ownerID m)) as [-> | Hne]; cbn [andb] in H.
      * destruct r as [[] | e]; cbn [is_Ok] in H; rewrite H in Hv.
        -- apply lookup_delete_Some in Hv as [Hk Hv]. split; [done | congruence].
        -- done.
      * rewrite H in Hv. split; [done |]. intros _ ->. congruence.
    + rewrite H in Hv. split; [done |]. intros _ ->. congruence.
Qed.

#[global] Instance redisLockManager_lease {W} (srv : RedisServer W) db `{!RedisLaws srv db} m :
  LeaseSpec (redisLockManager srv m) (redis_held db m).
Proof.
  split; cbn [redisLockManager lm_Acquire lm_Release]; unfold redis_held.
  - intros k w w' r. unfold Acquire.
    destruct (rd_SetNX srv (lockKey k) (rm_ownerID m) (rm_ttl m) w) as [w1 r1] eqn:E.
    apply law_setnx in E. destruct r1 as [[|] | e]; intros H; injection H as <- <-.
    + destruct E as [Hn ->]. rewrite Hn, lookup_insert_eq. split; [| done]. intros k' Hk'.
      rewrite lookup_insert_ne; [done |]. intros ->%lockKey_inj. congruence.
    + by destruct E as [_ ->].
    + by rewrite E.
  - intros k w w' r H k' Hne Hv. apply (redis_release_db srv db) in H.
    assert (Hk : lockKey k <> lockKey k') by (by intros ->%lockKey_inj).
    destruct (db w !! lockKey k); [destruct (String.eqb _ _ && is_Ok r) |]; rewrite H; [| done | done].
    by rewrite lookup_delete_ne.
Qed.

End RedisLocks.
