(* ===== verification/Auth.v ===== *)
(** * Authentication and authorization: auth/

    [APIKeyAuthenticator] as the map from keys to user ids, [UnixAuthorizer]
    over the [Store] interface, and the [Authorizer] interface the handlers
    use. *)
From S2P Require Import Prelude GoStrings Metadata MemStore.
From Stdlib Require Import Ascii String.
Open Scope string_scope.
Open Scope bool_scope.

Inductive PermissionType := ReadPerm | WritePerm | DeletePerm.
#[global] Instance PermissionType_eq_dec : EqDecision PermissionType.
Proof. solve_decision. Defined.

(** The [Authenticator] and [Authorizer] interfaces.  An authorizer reads the world. *)
Definition Authenticator : Type := string -> Res string.
Definition Authorizer (W : Type) : Type := string -> string -> PermissionType -> W -> Res unit.

Module ApiKeys.

(** The loop over the configured keys: the index counts the non-empty ones. *)
Fixpoint add_keys (keys : list string) (userIndex : Z) (validKeys : gmap string string)
  : gmap string string :=
  match keys with
  | [] => validKeys
  | key :: rest =>
      if negb (String.eqb key "")
      then add_keys rest (userIndex + 1) (<[key := "api-user-" +:+ Itoa userIndex]> validKeys)
      else add_keys rest userIndex validKeys
  end.

Definition NewAPIKeyAuthenticator (keys : list string) (internalProxySecret : string)
  : gmap string string :=
  let validKeys := add_keys keys 1 ∅ in
  if negb (String.eqb internalProxySecret "")
  then <[internalProxySecret := "internal-proxy"]> validKeys
  else validKeys.

(** The token behind an Authorization header. *)
Definition headerToken (token : string) : string := TrimSpace (TrimPrefix token "Bearer ").

(** The loop over all keys, in the order [order] of the map: the last match
    counts ([subtle.ConstantTimeCompare] is equality). *)
Fixpoint scan_keys (token : string) (order : list (string * string)) (found : option string)
  : option string :=
  match order with
  | [] => found
  | (key, uid) :: rest => scan_keys token rest (if String.eqb token key then Some uid else found)
  end.

Definition Authenticate (order : list (string * string)) (token : string) : Res string :=
  let token := headerToken token in
  if String.eqb token "" then Err ErrAuthenticationFailed
  else match scan_keys token order None with
       | None => Err ErrAuthenticationFailed
       | Some foundUID => Ok foundUID
       end.

(** ** Lemmas *)

Lemma scan_keys_spec token order found :
  NoDup order.*1 ->
  scan_keys token order found =
  match (list_to_map order : gmap string string) !! token with Some uid => Some uid | None => found end.
Proof.
  revert found. induction order as [| [k u] order IH]; intros found Hnd; [done |].
  cbn in Hnd. apply NoDup_cons in Hnd as [Hk Hnd]. cbn [scan_keys list_to_map foldr].
  rewrite IH by done. destruct (String.eqb_spec token k) as [-> | Hne].
  - rewrite not_elem_of_list_to_map_1 by done. cbn. by rewrite lookup_insert_eq.
  - cbn. by rewrite lookup_insert_ne by congruence.
Qed.

Lemma Authenticate_lookup (validKeys : gmap string string) order token :
  order ≡ₚ map_to_list validKeys -> validKeys !! "" = None ->
  Authenticate order token =
  match validKeys !! headerToken token with Some uid => Ok uid | None => Err ErrAuthenticationFailed end.
Proof.
  intros Hp He. unfold Authenticate.
  assert (Hnd : NoDup order.*1) by (rewrite Hp; apply NoDup_fst_map_to_list).
  destruct (String.eqb_spec (headerToken token) "") as [-> | _]; [by rewrite He |].
  rewrite scan_keys_spec by done.
  assert (Hl : (list_to_map order : gmap string string) = validKeys).
  { rewrite <- (list_to_map_to_list validKeys). by apply list_to_map_proper. }
  rewrite Hl. by destruct (validKeys !! headerToken token).
Qed.

(** Which users [add_keys] adds. *)
Lemma add_keys_lookup keys i (m : gmap string string) k uid :
  add_keys keys i m !! k = Some uid ->
  m !! k = Some uid \/
  (k <> "" /\ k ∈ keys /\
   exists j, (i <= j < i + Z.of_nat (List.length keys))%Z /\ uid = "api-user-" +:+ Itoa j).
Proof.
  revert i m. induction keys as [| key keys IH]; intros i m H; [by left |].
  cbn [add_keys] in H. destruct (String.eqb_spec key "") as [-> | Hne]; cbn [negb] in H.
  - apply IH in H as [H | (Hk & Hin & j & Hj & ->)]; [by left |].
    right. split; [done |]. split; [by right |]. exists j. cbn [List.length]. split; [lia | done].
  - apply IH in H as [H | (Hk & Hin & j & Hj & ->)].
    + apply lookup_insert_Some in H as [[<- <-] | [_ H]]; [| by left].
      right. split; [done |]. split; [by left |]. exists i. cbn [List.length]. split; [lia | done].
    + right. split; [done |]. split; [by right |]. exists j. cbn [List.length]. split; [lia | done].
Qed.

Lemma add_keys_mono keys i (m : gmap string string) k :
  is_Some (m !! k) -> is_Some (add_keys keys i m !! k).
Proof.
  revert i m. induction keys as [| key keys IH]; intros i m H; [done |]. cbn [add_keys].
  destruct (negb _); apply IH; [| done]. rewrite lookup_insert_is_Some'. by right.
Qed.

Lemma add_keys_all keys i (m : gmap string string) k :
  k ∈ keys -> k <> "" -> is_Some (add_keys keys i m !! k).
Proof.
  intros Hin Hne. revert i m. induction keys as [| key keys IH]; intros i m.
  - by apply elem_of_nil in Hin.
  - cbn [add_keys]. apply elem_of_cons in Hin as [<- | Hin].
    + apply String.eqb_neq in Hne. rewrite Hne. cbn [negb]. apply add_keys_mono.
      rewrite lookup_insert_eq. by exists ("api-user-" +:+ Itoa i).
    + destruct (negb _); by apply IH.
Qed.

Lemma new_empty keys secret : NewAPIKeyAuthenticator keys secret !! "" = None.
Proof.
  unfold NewAPIKeyAuthenticator.
  assert (Ha : add_keys keys 1 ∅ !! "" = None).
  { destruct (add_keys keys 1 ∅ !! "") eqn:E; [| done].
    by apply add_keys_lookup in E as [E | [E _]]. }
  destruct (String.eqb_spec secret "") as [-> | Hne]; cbn [negb]; [done |].
  by rewrite lookup_insert_ne.
Qed.

Lemma api_user_not_proxy x : "api-user-" +:+ x <> "internal-proxy".
Proof. cbn. congruence. Qed.

(** C34: The authenticator accepts exactly the tokens that are configured: the
    token of an accepted header is a configured API key or the internal
    secret, every non-empty configured one is accepted, and only the internal
    secret authenticates as "internal-proxy". *)
Theorem authenticate_exact keys secret order header :
  order ≡ₚ map_to_list (NewAPIKeyAuthenticator keys secret) ->
  let token := headerToken header in
  (is_Ok (Authenticate order header) = true <-> token <> "" /\ (token ∈ keys \/ token = secret)) /\
  (Authenticate order header = Ok "internal-proxy" <-> token <> "" /\ token = secret) /\
  (is_Ok (Authenticate order header) = false -> Authenticate order header = Err ErrAuthenticationFailed).
Proof.
  intros Hp token. rewrite (Authenticate_lookup _ _ _ Hp) by apply new_empty.
  fold token. unfold NewAPIKeyAuthenticator.
  destruct (String.eqb_spec secret "") as [-> | Hs]; cbn [negb].
  - destruct (add_keys keys 1 ∅ !! token) as [u |] eqn:E.
    + apply add_keys_lookup in E as [E | (Hne & Hin & j & _ & ->)]; [done |].
      split; [split; [by auto | done] |]. split; [| done].
      split; [intros H; injection H; intros; by destruct (api_user_not_proxy (Itoa j)) | by intros []].
    + split; [| split; [split; [done | by intros []] | done]].
      split; [done |]. intros [Hne [Hin | ->]]; [| done].
      destruct (add_keys_all keys 1 ∅ token Hin Hne). congruence.
  - destruct (String.eqb_spec secret token) as [-> | Hn].
    + rewrite lookup_insert_eq. repeat split; try done; by auto.
    + rewrite lookup_insert_ne by done. destruct (add_keys keys 1 ∅ !! token) as [u |] eqn:E.
      * apply add_keys_lookup in E as [E | (Hne & Hin & j & _ & ->)]; [done |].
        split; [split; [by auto | done] |]. split; [| done].
        split; [intros H; injection H; intros; by destruct (api_user_not_proxy (Itoa j)) |].
        intros [_ ?]; congruence.
      * split; [| split; [split; [done | intros []; congruence] | done]].
        split; [done |]. intros [Hne [Hin | ->]]; [| done].
        destruct (add_keys_all keys 1 ∅ token Hin Hne). congruence.
Qed.

Lemma authenticate_exact_witness :
  is_Ok (Authenticate [("k1", "api-user-1"); ("s", "internal-proxy")] "Bearer k1") = true <->
  headerToken "Bearer k1" <> "" /\ (headerToken "Bearer k1" ∈ ["k1"; ""] \/ headerToken "Bearer k1" = "s").
Proof.
  apply (authenticate_exact ["k1"; ""] "s" [("k1", "api-user-1"); ("s", "internal-proxy")] "Bearer k1").
  vm_compute. reflexivity.
Defined.

(** Distinct indexes for distinct keys. *)
Lemma add_keys_inj keys i (m : gmap string string) k1 k2 uid :
  (forall k1 k2 u, m !! k1 = Some u -> m !! k2 = Some u -> k1 = k2) ->
  (forall k j, m !! k = Some ("api-user-" +:+ Itoa j) -> (j < i)%Z) ->
  add_keys keys i m !! k1 = Some uid -> add_keys keys i m !! k2 = Some uid -> k1 = k2.
Proof.
  revert i m. induction keys as [| key keys IH]; intros i m Hinj Hlt; [apply Hinj |].
  cbn [add_keys]. destruct (negb _); [| by apply IH]. apply IH.
  - intros a b u Ha Hb.
    apply lookup_insert_Some in Ha as [[<- Ha] | [Hna Ha]], Hb as [[<- Hb] | [Hnb Hb]].
    + done.
    + subst u. apply Hlt in Hb. lia.
    + subst u. apply Hlt in Ha. lia.
    + by apply (Hinj _ _ u).
  - intros k j Hk. apply lookup_insert_Some in Hk as [[<- Hk] | [_ Hk]].
    + cbn in Hk. injection Hk as Hk. apply (inj pretty) in Hk. lia.
    + apply Hlt in Hk. lia.
Qed.

(** Two headers that authenticate as the same user carry the same token:
    no two API keys, and no API key and the internal secret, share a user. *)
Theorem authenticate_users_distinct keys secret order h1 h2 uid :
  order ≡ₚ map_to_list (NewAPIKeyAuthenticator keys secret) ->
  Authenticate order h1 = Ok uid -> Authenticate order h2 = Ok uid ->
  headerToken h1 = headerToken h2.
Proof.
  intros Hp. rewrite !(Authenticate_lookup _ _ _ Hp) by apply new_empty.
  unfold NewAPIKeyAuthenticator.
  assert (Hinj : forall k1 k2 u, add_keys keys 1 ∅ !! k1 = Some u -> add_keys keys 1 ∅ !! k2 = Some u -> k1 = k2).
  { intros k1 k2 u. by apply add_keys_inj. }
  assert (Hnp : forall k, add_keys keys 1 ∅ !! k <> Some "internal-proxy").
  { intros k E. apply add_keys_lookup in E as [E | (_ & _ & j & _ & E)]; [done |].
    symmetry in E. by apply api_user_not_proxy in E. }
  set (m := if negb (String.eqb secret "") then _ else _).
  destruct (m !! headerToken h1) as [u |] eqn:E1; [| done].
  destruct (m !! headerToken h2) as [u2 |] eqn:E2; [| done].
  intros H1 H2. injection H1 as ->. injection H2 as ->. unfold m in *.
  destruct (negb (String.eqb secret "")); [| by apply (Hinj _ _ uid)].
  apply lookup_insert_Some in E1 as [[<- E1] | [Hn1 E1]], E2 as [[<- E2] | [Hn2 E2]].
  - done.
  - subst uid. by apply Hnp in E2.
  - subst uid. by apply Hnp in E1.
  - by apply (Hinj _ _ uid).
Qed.

Lemma authenticate_users_distinct_witness :
  headerToken "Bearer k1" = headerToken "k1 ".
Proof.
  apply (authenticate_users_distinct ["k1"; "k2"] ""
    [("k2", "api-user-2"); ("k1", "api-user-1")] "Bearer k1" "k1 " "api-user-1");
    [vm_compute; apply perm_swap || reflexivity | reflexivity | reflexivity].
Defined.

End ApiKeys.

Module Unix.

Definition parseModeBits (mode : string) : Res Z :=
  if String.eqb mode "0644" then Ok 420%Z
  else if String.eqb mode "0755" then Ok 493%Z
  else if String.eqb mode "0777" then Ok 511%Z
  else if String.eqb mode "0600" then Ok 384%Z
  else match ParseUint32 (TrimPrefix mode "0") 8 with
       | Some n => Ok n
       | None => Err (EMsg "strconv.ParseUint")
       end.

(** Go's [int] arithmetic wraps at 64 bits. *)
Definition int64 (z : Z) : Z := ((z + 2 ^ 63) mod 2 ^ 64 - 2 ^ 63)%Z.

(** The uid, which is also the gid, of a user id. *)
Definition userIDs (userID : string) : Z :=
  if String.eqb userID "root" then 0%Z
  else if HasPrefix userID "api-user-" then
    match Atoi (TrimPrefix userID "api-user-") with
    | Some n => int64 (1000 + n)
    | None => 1000%Z
    end
  else 1000%Z.

(** The bit of the mode that decides: owner, then group, then other. *)
Definition permBits (mode : Z) (bit : Z) (userUID userGID : Z) (md : Metadata) : Z :=
  if (userUID =? md_UID md)%Z then Z.land (Z.shiftr mode 6) bit
  else if (userGID =? md_GID md)%Z then Z.land (Z.shiftr mode 3) bit
  else Z.land mode bit.

Definition perm_bit (perm : PermissionType) : Z :=
  match perm with ReadPerm => 4 | WritePerm => 2 | DeletePerm => 2 end.

Definition checkUnixPermissions (md : Metadata) (userID : string) (perm : PermissionType) : Res unit :=
  match parseModeBits (md_Mode md) with
  | Err _ => Err (EMsg "invalid mode format")
  | Ok mode =>
      let userUID := userIDs userID in
      let userGID := userIDs userID in
      let bits := permBits mode (perm_bit perm) userUID userGID md in
      if (userUID =? 0)%Z then Ok tt
      else if (bits =? 0)%Z then Err ErrPermissionDenied
      else Ok tt
  end.

Section Authorizer.
Context {W : Type} (store : Store W).

Definition checkParentPermission (userID path : string) (perm : PermissionType) (w : W) : Res unit :=
  let lastSlash := LastIndex path slash in
  if (lastSlash <=? 0)%Z then
    match st_Get store "/" w with
    | Err e => if bool_decide (e = ErrNotFound) then Ok tt
               else Err (EWrap "failed to get root metadata" e)
    | Ok parentMd => checkUnixPermissions parentMd userID perm
    end
  else
    let parentPath := slice_to path lastSlash in
    let parentPath := if String.eqb parentPath "" then "/" else parentPath in
    match st_Get store parentPath w with
    | Err e => if bool_decide (e = ErrNotFound) then Err ErrNotFound
               else Err (EWrap "failed to get parent metadata" e)
    | Ok parentMd => checkUnixPermissions parentMd userID perm
    end.

Definition Authorize : Authorizer W := fun userID path perm w =>
  match st_Get store path w with
  | Err e =>
      if bool_decide (e = ErrNotFound) then
        match perm with
        | WritePerm => checkParentPermission userID path WritePerm w
        | _ => Err ErrNotFound
        end
      else Err (EWrap "failed to get metadata for authorization" e)
  | Ok md => checkUnixPermissions md userID perm
  end.

(** ** What the authorizer decides, over any store that meets its contract *)

Context (view : W -> StoreView) (serving : W -> Prop) `{!StoreSpec store view serving}.

Lemma checkParent_spec userID path perm w :
  serving w ->
  checkParentPermission userID path perm w =
  match view_md (view w) !! pathDir path with
  | Some md => checkUnixPermissions md userID perm
  | None => if (LastIndex path slash <=? 0)%Z then Ok tt else Err ErrNotFound
  end.
Proof.
  intros Hs. unfold checkParentPermission, pathDir.
  destruct (String.eqb_spec path "/") as [-> | Hne].
  { cbn -[st_Get]. rewrite spec_Get by done. by destruct (view_md (view w) !! "/"). }
  destruct (_ <=? 0)%Z eqn:E.
  { rewrite spec_Get by done. by destruct (view_md (view w) !! "/"). }
  set (pp := slice_to path (LastIndex path slash)).
  assert (Hpp : String.eqb pp "" = false).
  { apply String.eqb_neq. unfold pp, slice_to. to_prop. destruct path as [| a path]; [cbn in E; lia |].
    destruct (Z.to_nat (LastIndex (String a path) slash)) eqn:En; [lia | done]. }
  rewrite Hpp, spec_Get by done. by destruct (view_md (view w) !! pp).
Qed.

(** The record whose mode decides a request: that of the path or, to write
    to a path that has none, that of the parent. *)
Definition governing (path : string) (perm : PermissionType) (w : W) : option Metadata :=
  match view_md (view w) !! path with
  | Some md => Some md
  | None => match perm with WritePerm => view_md (view w) !! pathDir path | _ => None end
  end.

(** The bit of the mode that grants [perm] to a uid (= gid). *)
Definition grant_bit (uid : Z) (perm : PermissionType) (md : Metadata) : Z :=
  ((if (uid =? md_UID md)%Z then 6 else if (uid =? md_GID md)%Z then 3 else 0)
   + (match perm with ReadPerm => 2 | _ => 1 end))%Z.

Lemma land_pow2_zero (x k : Z) : (0 <= k)%Z -> (Z.land x (2 ^ k) =? 0)%Z = negb (Z.testbit x k).
Proof.
  intros Hk. destruct (Z.testbit x k) eqn:E; cbn [negb].
  - apply Z.eqb_neq. intros H. assert (Hb : Z.testbit (Z.land x (2 ^ k)) k = true).
    { by rewrite Z.land_spec, E, Z.pow2_bits_true. }
    by rewrite H, Z.bits_0 in Hb.
  - apply Z.eqb_eq, Z.bits_inj'. intros n Hn. rewrite Z.land_spec, Z.bits_0, Z.pow2_bits_eqb by done.
    destruct (Z.eqb_spec k n) as [<- | _]; [by rewrite E | apply andb_false_r].
Qed.

Lemma check_bits md userID perm :
  checkUnixPermissions md userID perm =
  match parseModeBits (md_Mode md) with
  | Err _ => Err (EMsg "invalid mode format")
  | Ok mode => if (userIDs userID =? 0)%Z || Z.testbit mode (grant_bit (userIDs userID) perm md)
               then Ok tt else Err ErrPermissionDenied
  end.
Proof.
  unfold checkUnixPermissions. destruct (parseModeBits (md_Mode md)) as [mode |]; [| done].
  destruct (userIDs userID =? 0)%Z; [done |]. cbn [orb].
  assert (Hb : permBits mode (perm_bit perm) (userIDs userID) (userIDs userID) md =
    let k := if (userIDs userID =? md_UID md)%Z then 6%Z
             else if (userIDs userID =? md_GID md)%Z then 3%Z else 0%Z in
    Z.land (Z.shiftr mode k) (2 ^ match perm with ReadPerm => 2 | _ => 1 end)).
  { unfold permBits. destruct perm, (userIDs userID =? md_UID md)%Z, (userIDs userID =? md_GID md)%Z; by rewrite ?Z.shiftr_0_r. }
  rewrite Hb. cbv zeta. rewrite land_pow2_zero by (by destruct perm).
  rewrite Z.shiftr_spec by (by destruct perm). unfold grant_bit.
  rewrite Z.add_comm. by destruct (Z.testbit mode _).
Qed.

Lemma Authorize_granted userID path perm w :
  serving w ->
  Authorize userID path perm w = Ok tt <->
  match governing path perm w with
  | Some md => exists mode, parseModeBits (md_Mode md) = Ok mode /\
      (userIDs userID = 0%Z \/ Z.testbit mode (grant_bit (userIDs userID) perm md) = true)
  | None => perm = WritePerm /\ view_md (view w) !! "/" = None /\ (LastIndex path slash <= 0)%Z
  end.
Proof.
  intros Hs. unfold Authorize, governing. rewrite spec_Get by done.
  assert (Hc : forall md, checkUnixPermissions md userID perm = Ok tt <->
    exists mode, parseModeBits (md_Mode md) = Ok mode /\
      (userIDs userID = 0%Z \/ Z.testbit mode (grant_bit (userIDs userID) perm md) = true)).
  { intros md. rewrite check_bits. destruct (parseModeBits (md_Mode md)) as [mode |].
    - destruct (_ || _)%bool eqn:E.
      + split; [intros _ | done]. exists mode. split; [done |].
        apply orb_true_iff in E as [E | E]; to_prop; auto.
      + split; [done |]. intros (m & Hm & Hd). injection Hm as <-. to_prop.
        destruct Hd; congruence.
    - split; [done |]. by intros (m & Hm & _). }
  destruct (view_md (view w) !! path) as [md |] eqn:Ep; [apply Hc |].
  rewrite bool_decide_eq_true_2 by done. destruct perm; [by split; [| intros []] | | by split; [| intros []]].
  rewrite checkParent_spec by done.
  destruct (view_md (view w) !! pathDir path) as [md |] eqn:Ed; [apply Hc |].
  destruct (_ <=? 0)%Z eqn:E; to_prop.
  - split; [| done]. intros _. split; [done |]. split; [| done].
    revert Ed. unfold pathDir. destruct (String.eqb path "/"); [done |].
    by rewrite (proj2 (Z.leb_le _ _) E).
  - split; [done |]. intros (_ & _ & ?). lia.
Qed.

(** C26: Over a store that meets its contract, a request is granted exactly
    when a record governs it (the path's, or for a write to a path without
    record the parent's), the record's mode parses, and the user is root or
    the owner, group or other bit of the mode that applies to the user is set.
    The one exception is a write to a root-level path while the root has no
    record, which is granted. *)
Theorem authorize_granted_iff userID path perm w :
  serving w ->
  Authorize userID path perm w = Ok tt <->
  match governing path perm w with
  | Some md => exists mode, parseModeBits (md_Mode md) = Ok mode /\
      (userIDs userID = 0%Z \/ Z.testbit mode (grant_bit (userIDs userID) perm md) = true)
  | None => perm = WritePerm /\ view_md (view w) !! "/" = None /\ (LastIndex path slash <= 0)%Z
  end.
Proof. apply Authorize_granted. Qed.
End Authorizer.

Lemma authorize_granted_iff_witness :
  let md := set_Path "/d" (newMetadata "d" "directory" "0755" 1001 1001 "localfs" 0) in
  let w := mkView {[ "/d" := md ]} ∅ in
  Authorize viewStore "api-user-1" "/d/new" WritePerm w = Ok tt /\
  Authorize viewStore "api-user-2" "/d/new" WritePerm w <> Ok tt.
Proof.
  intros md w. split.
  - apply (authorize_granted_iff viewStore id (fun _ => True) "api-user-1" "/d/new" WritePerm w I).
    vm_compute. eexists. by split; [| right].
  - intros H. apply (authorize_granted_iff viewStore id (fun _ => True) "api-user-2" "/d/new" WritePerm w I) in H.
    vm_compute in H. destruct H as (mode & Hm & [H | H]); [done |]. by injection Hm as <-.
Defined.

(** ** Which uid an authenticated user has *)

Lemma parse_pretty_go (x : N) (s : string) :
  parse_digits 10 0 (pretty_N_go x s) = parse_digits 10 (Z.of_N x) s.
Proof.
  revert s. induction (N.lt_wf_0 x) as [x _ IH]. intros s.
  destruct (decide (x = 0%N)) as [-> | Hne]; [by rewrite pretty_N_go_0 |].
  rewrite pretty_N_go_step by lia. rewrite IH by (apply N.div_lt; lia).
  assert (Hlt : (x mod 10 < 10)%N) by (by apply N.mod_lt).
  assert (Hd : digit_of 10 (pretty_N_char (x mod 10)) = Some (Z.of_N (x mod 10))).
  { remember (x mod 10)%N as d. clear -Hlt.
    destruct d as [| p]; [done |].
    do 4 (destruct p as [p | p |]; try done; try lia). }
  cbn [parse_digits]. rewrite Hd. f_equal.
  pose proof (N.div_mod x 10). lia.
Qed.

Lemma Atoi_Itoa (n : Z) : (0 < n < 2 ^ 63)%Z -> Atoi (Itoa n) = Some n.
Proof.
  intros Hn. destruct n as [| p |]; try lia. unfold Itoa.
  change (pretty (Z.pos p)) with (pretty (N.pos p)).
  assert (Hp : parse_digits 10 0 (pretty (N.pos p)) = Some (Z.pos p)).
  { unfold pretty, pretty_N. rewrite decide_False by done. by rewrite parse_pretty_go. }
  destruct (pretty (N.pos p)) as [| c s] eqn:E; [done |].
  assert (Hc : is_Some (digit_of 10 c)).
  { cbn [parse_digits] in Hp. by destruct (digit_of 10 c). }
  unfold Atoi. destruct (Ascii.eqb_spec c "-") as [-> | _]; [by destruct Hc |].
  destruct (Ascii.eqb_spec c "+") as [-> | _]; [by destruct Hc |].
  unfold parse_nat_digits. rewrite Hp.
  rewrite (proj2 (Z.leb_le _ _)), (proj2 (Z.ltb_lt _ _)) by lia. done.
Qed.

Lemma userIDs_api n : (0 < n < 2 ^ 62)%Z -> userIDs ("api-user-" +:+ Itoa n) = (1000 + n)%Z.
Proof.
  intros Hn. unfold userIDs. rewrite HasPrefix_app, TrimPrefix_app.
  change (String.eqb ("api-user-" +:+ Itoa n) "root") with false. cbv iota.
  rewrite Atoi_Itoa by lia. unfold int64. rewrite Z.mod_small; lia.
Qed.

(** No API key makes its holder root: a user the authenticator returns
    has uid 1000 (the internal proxy) or 1000+i for the i-th key, never 0, so
    no authenticated request bypasses the permission bits. *)
Theorem authenticated_never_root keys secret order header uid :
  order ≡ₚ map_to_list (ApiKeys.NewAPIKeyAuthenticator keys secret) ->
  (Z.of_nat (List.length keys) < 2 ^ 62 - 1)%Z ->
  ApiKeys.Authenticate order header = Ok uid ->
  (uid = "internal-proxy" /\ userIDs uid = 1000%Z) \/
  exists i, (1 <= i <= Z.of_nat (List.length keys))%Z /\ uid = "api-user-" +:+ Itoa i /\
            userIDs uid = (1000 + i)%Z.
Proof.
  intros Hp Hlen. rewrite (ApiKeys.Authenticate_lookup _ _ _ Hp) by apply ApiKeys.new_empty.
  destruct (ApiKeys.NewAPIKeyAuthenticator keys secret !! _) as [u |] eqn:E; [| done].
  intros H. injection H as ->. unfold ApiKeys.NewAPIKeyAuthenticator in E.
  assert (Ha : forall k, ApiKeys.add_keys keys 1 ∅ !! k = Some uid ->
     exists i, (1 <= i <= Z.of_nat (List.length keys))%Z /\ uid = "api-user-" +:+ Itoa i /\
            userIDs uid = (1000 + i)%Z).
  { intros k Hk. apply ApiKeys.add_keys_lookup in Hk as [Hk | (_ & _ & j & Hj & ->)]; [done |].
    exists j. split; [lia |]. split; [done |]. apply userIDs_api. lia. }
  destruct (negb _); [| right; by eapply Ha].
  apply lookup_insert_Some in E as [[_ <-] | [_ E]]; [by left | right; by eapply Ha].
Qed.

Lemma authenticated_never_root_witness :
  ("api-user-2" = "internal-proxy" /\ userIDs "api-user-2" = 1000%Z) \/
  exists i, (1 <= i <= 2)%Z /\ "api-user-2" = "api-user-" +:+ Itoa i /\ userIDs "api-user-2" = (1000 + i)%Z.
Proof.
  apply (authenticated_never_root ["k1"; "k2"] "" [("k1", "api-user-1"); ("k2", "api-user-2")] "Bearer k2");
    [vm_compute; apply perm_swap || reflexivity | done | reflexivity].
Defined.

(** The records the handlers create (uid and gid 1000, mode "0644") deny
    writing and deleting to every API user, the one who created them
    included, because API users have uids from 1001 on; reading is granted. *)
Theorem api_user_denied_default_mode md n :
  md_Mode md = "0644" -> md_UID md = 1000%Z -> md_GID md = 1000%Z -> (0 < n < 2 ^ 62)%Z ->
  let user := "api-user-" +:+ Itoa n in
  checkUnixPermissions md user WritePerm = Err ErrPermissionDenied /\
  checkUnixPermissions md user DeletePerm = Err ErrPermissionDenied /\
  checkUnixPermissions md user ReadPerm = Ok tt.
Proof.
  intros Hm Hu Hg Hn user. unfold user. rewrite !check_bits, Hm, userIDs_api by done.
  unfold grant_bit. rewrite Hu, Hg.
  rewrite !(proj2 (Z.eqb_neq (1000 + n) _)) by lia. done.
Qed.

Lemma api_user_denied_default_mode_witness :
  checkUnixPermissions (newMetadata "a" "file" "0644" 1000 1000 "localfs" 0) "api-user-1" WritePerm
    = Err ErrPermissionDenied.
Proof.
  apply (api_user_denied_default_mode (newMetadata "a" "file" "0644" 1000 1000 "localfs" 0) 1);
    [reflexivity | reflexivity | reflexivity | lia].
Defined.

End Unix.
