(* ===== verification/Links.v ===== *)
(** * Single-use download links: links/

    [LinkManager] over the [Store] interface, the cleanup worker, and the
    protocol of concurrent downloads.  SHA-256, HMAC, the URL-safe base64
    encoding and the random generator are parameters. *)
From S2P Require Import Prelude GoStrings Metadata MemStore.
From Stdlib Require Import Ascii String.
Open Scope string_scope.
Open Scope bool_scope.
Open Scope go_scope.

Module Links.

(** [crypto/hmac] over SHA-256, [sha256.Sum256] and [base64.URLEncoding]. *)
Record Crypto := mkCrypto {
  hmac_sum : string -> string -> string;
  sha256 : string -> string;
  base64 : string -> string;
}.

(** The URL-safe base64 alphabet has no dot. *)
Class CryptoLaws (c : Crypto) : Prop := {
  base64_no_dot : forall s, IndexByte (base64 c s) "."%char = (-1)%Z;
}.

(** [NewLinkManager] (a nil store or logger is a value the types exclude):
    the hashed secret key. *)
Definition NewLinkManager (c : Crypto) (secretKey : string) : Res string :=
  if String.eqb secretKey "" then Err (EMsg "secret key cannot be empty")
  else Ok (sha256 c secretKey).

Definition TruncateToken (token : string) : string :=
  if (Z.of_nat (String.length token) <=? 8)%Z then token else slice_to token 8 +:+ "...".

Section Manager.
Context {W : Type} (store : Store W) (c : Crypto) (secretKey : string).

Definition sign (tokenID filePath : string) : string :=
  base64 c (hmac_sum c secretKey (tokenID +:+ filePath)).

(** [now] and [now'] are the two readings of the clock; [randRead] the random bytes. *)
Definition GenerateLink (randRead : Res string) (now now' : Time) (filePath : string)
    (expiryDuration : Duration) : St W (Res string) := fun w =>
  match randRead with
  | Err e => (w, Err (EWrap "failed to generate token" e))
  | Ok tokenIDBytes =>
      let tokenID := base64 c tokenIDBytes in
      let signature := sign tokenID filePath in
      let token := tokenID +:+ "." +:+ signature in
      let link := mkLink 0 token filePath "active" (now + expiryDuration)%Z None None signature now' 0 in
      match st_CreateSingleUseLink store link w with
      | (w', Err e) => (w', Err (EWrap "failed to store link" e))
      | (w', Ok _) => (w', Ok token)
      end
  end.

Definition verifySignature (token filePath : string) : bool :=
  let dotIndex := IndexByte token "."%char in
  if (dotIndex =? -1)%Z then false
  else
    let tokenID := slice_to token dotIndex in
    let providedSignature := slice_from token (dotIndex + 1) in
    let expectedSignature := sign tokenID filePath in
    String.eqb providedSignature expectedSignature.

(** The first part of [ValidateAndInvalidateLink]: read the record and check it. *)
Definition checkLink (now : Time) (token : string) (w : W) : Res string :=
  match st_GetSingleUseLink store token w with
  | Err e => if errors_Is e ErrNotFound then Err ErrLinkNotFound
             else Err (EWrap "failed to retrieve link" e)
  | Ok link =>
      if After now (lk_ExpiresAt link) then Err ErrLinkExpired
      else if negb (String.eqb (lk_Status link) "active") then Err ErrLinkInvalid
      else if negb (verifySignature token (lk_FilePath link)) then Err ErrLinkInvalid
      else Ok (lk_FilePath link)
  end.

(** The second part: mark the link as used. *)
Definition consumeLink (now : Time) (token userIP filePath : string) : St W (Res string) := fun w =>
  match st_UpdateSingleUseLink store token "used" (Some now) (Some userIP) w with
  | (w', Err _) => (w', Err ErrLinkInvalid)
  | (w', Ok _) => (w', Ok filePath)
  end.

Definition ValidateAndInvalidateLink (now now' : Time) (token userIP : string) : St W (Res string) :=
  try filePath <- gets (checkLink now token);
  consumeLink now' token userIP filePath.

(** ** background_cleanup.go *)

Definition cleanupExpiredLinks (now : Time) : St W (Res Z) :=
  wrap "failed to cleanup expired links" in count <- st_CleanupExpiredLinks store now;
  ret (Ok count).

Definition cleanupUsedLinks (now : Time) : St W (Res Z) :=
  let olderThan := (now - 24 * Hour)%Z in
  wrap "failed to cleanup used links" in count <- st_CleanupUsedLinks store olderThan;
  ret (Ok count).

(** One tick of the worker: both results are only logged. *)
Definition cleanupLinks (now now' : Time) : St W unit :=
  do _ <- cleanupExpiredLinks now;
  do _ <- cleanupUsedLinks now';
  ret tt.

(** ** The manager over a store that meets its contract *)

Context (view : W -> StoreView) (serving : W -> Prop) `{!StoreSpec store view serving}.

Abbreviation links_of w := (view_links (view w)).

Definition active (token : string) (w : W) : bool :=
  match links_of w !! token with Some l => String.eqb (lk_Status l) "active" | None => false end.

Lemma checkLink_Ok now token w path :
  serving w -> checkLink now token w = Ok path ->
  exists l, links_of w !! token = Some l /\ (now <= lk_ExpiresAt l)%Z /\ lk_Status l = "active" /\
            verifySignature token path = true /\ path = lk_FilePath l.
Proof.
  intros Hs. unfold checkLink. rewrite spec_GetLink by done.
  destruct (links_of w !! token) as [l |]; [| done].
  unfold After. destruct (_ <? now)%Z eqn:E1; [done |].
  destruct (String.eqb (lk_Status l) "active") eqn:E2; [| done]. cbn [negb].
  destruct (verifySignature token (lk_FilePath l)) eqn:E3; [| done]. cbn [negb].
  intros H. injection H as <-. to_prop. exists l. repeat split; [lia | done | done].
Qed.

Lemma consumeLink_spec now token ip path w w' r :
  serving w -> consumeLink now token ip path w = (w', r) ->
  serving w' /\ view_md (view w') = view_md (view w) /\
  (if active token w
   then r = Ok path /\ active token w' = false /\ (forall t, t <> token -> links_of w' !! t = links_of w !! t)
   else r = Err ErrLinkInvalid /\ links_of w' = links_of w).
Proof.
  intros Hs. unfold consumeLink.
  destruct (st_UpdateSingleUseLink _ _ _ _ _ _) as [w1 r1] eqn:E.
  apply spec_UpdateLink in E as (Hs' & Hmd & E); [| done]. unfold active.
  destruct (links_of w !! token) as [l |] eqn:El.
  - destruct (String.eqb (lk_Status l) "active").
    + destruct E as (-> & l' & Hl & Hst & _). intros H; injection H as <- <-.
      split; [done |]. split; [done |]. rewrite Hl, lookup_insert_eq, Hst.
      split; [done |]. split; [done |]. intros t Ht. by rewrite lookup_insert_ne.
    + destruct E as [-> Hl]. intros H; injection H as <- <-. done.
  - destruct E as [-> Hl]. intros H; injection H as <- <-. done.
Qed.

Lemma active_ext token w w' : links_of w' !! token = links_of w !! token -> active token w' = active token w.
Proof. unfold active. by intros ->. Qed.

Lemma GenerateLink_spec rnd now now' path d w w' r :
  serving w -> GenerateLink rnd now now' path d w = (w', r) ->
  serving w' /\ view_md (view w') = view_md (view w) /\
  match r with
  | Ok token => links_of w !! token = None /\
      exists l, links_of w' = <[token := l]> (links_of w) /\ lk_FilePath l = path /\
                lk_Status l = "active" /\ lk_ExpiresAt l = (now + d)%Z /\
                exists bytes, rnd = Ok bytes /\ token = base64 c bytes +:+ "." +:+ sign (base64 c bytes) path
  | Err _ => links_of w' = links_of w
  end.
Proof.
  intros Hs. unfold GenerateLink. destruct rnd as [bytes |]; [| by intros H; injection H as <- <-].
  destruct (st_CreateSingleUseLink _ _ _) as [w1 r1] eqn:E.
  apply spec_CreateLink in E as (Hs' & Hmd & E); [| done]. cbn [lk_Token] in E.
  destruct (links_of w !! _) eqn:El; destruct E as [-> Hl]; intros H; injection H as <- <-; [done |].
  split; [done |]. split; [done |]. split; [done |]. eexists. split; [done |].
  repeat split. by exists bytes.
Qed.

(** ** Token round trip *)

Lemma IndexByte_app (a s : string) (ch : ascii) :
  IndexByte a ch = (-1)%Z -> IndexByte (a +:+ String ch s) ch = Z.of_nat (String.length a).
Proof.
  induction a as [| x a IH]; cbn -[Z.of_nat Z.add].
  - intros _. by rewrite Ascii.eqb_refl.
  - destruct (Ascii.eqb x ch); [done |]. intros H.
    destruct (0 <=? IndexByte a ch)%Z eqn:E; to_prop; [lia |].
    assert (Hge : forall b, (-1 <= IndexByte b ch)%Z).
    { clear. induction b as [| y b IH]; cbn -[Z.add]; [lia |]. destruct (Ascii.eqb y ch); [lia |].
      destruct (_ <=? _)%Z eqn:E; to_prop; lia. }
    rewrite IH by (specialize (Hge a); lia).
    destruct (0 <=? Z.of_nat (String.length a))%Z eqn:E'; to_prop; lia.
Qed.

Lemma slice_from_dot (a s : string) (ch : ascii) :
  slice_from (a +:+ String ch s) (Z.of_nat (String.length a) + 1) = s.
Proof.
  unfold slice_from. replace (Z.to_nat _) with (S (String.length a)) by lia.
  induction a as [| x a IH]; [by destruct s | done].
Qed.

Lemma verify_generated `{!CryptoLaws c} bytes path :
  verifySignature (base64 c bytes +:+ "." +:+ sign (base64 c bytes) path) path = true.
Proof.
  unfold verifySignature. change ("." +:+ ?x) with (String "."%char x).
  rewrite IndexByte_app by apply base64_no_dot.
  destruct (_ =? -1)%Z eqn:E; to_prop; [lia |].
  unfold slice_to. rewrite Nat2Z.id, str_take_app, slice_from_dot. apply String.eqb_refl.
Qed.


(** What validation accepts: it returns a path exactly when the token has
    a record in the store that is active, has not expired and carries that path, the
    signature in the token is the one computed for the path, and then the link is
    no longer active; an unknown token gives [ErrLinkNotFound]. *)
Theorem link_validate_iff now now' token ip w :
  serving w ->
  (forall path, (ValidateAndInvalidateLink now now' token ip w).2 = Ok path <->
     exists l, links_of w !! token = Some l /\ lk_FilePath l = path /\ lk_Status l = "active" /\
               (now <= lk_ExpiresAt l)%Z /\ verifySignature token path = true) /\
  (links_of w !! token = None -> (ValidateAndInvalidateLink now now' token ip w).2 = Err ErrLinkNotFound) /\
  (is_Ok (ValidateAndInvalidateLink now now' token ip w).2 = true ->
     active token (ValidateAndInvalidateLink now now' token ip w).1 = false).
Proof.
  intros Hs. unfold ValidateAndInvalidateLink, try_bind, gets.
  destruct (checkLink now token w) as [path |] eqn:Hc.
  - apply checkLink_Ok in Hc as (l & Hl & Ht & Hst & Hv & ->); [| done].
    destruct (consumeLink now' token ip (lk_FilePath l) w) as [w1 r] eqn:E.
    apply consumeLink_spec in E as (_ & _ & E); [| done].
    assert (Ha : active token w = true) by (unfold active; rewrite Hl; by apply String.eqb_eq).
    rewrite Ha in E. destruct E as (-> & Hn & _). cbn [fst snd]. split; [| by rewrite Hl].
    intros path. split; [intros H; injection H as <-; by exists l |].
    intros (l' & Hl' & <- & _). congruence.
  - cbn [fst snd]. split; [| split; [| done]].
    + intros path. split; [done |]. intros (l & Hl & <- & Hst & Ht & Hv).
      unfold checkLink in Hc. rewrite spec_GetLink in Hc by done.
      rewrite Hl, Hst, Hv in Hc. unfold After in Hc.
      by rewrite (proj2 (Z.ltb_ge _ _)) in Hc by lia.
    + intros Hn. unfold checkLink in Hc. rewrite spec_GetLink in Hc by done. rewrite Hn in Hc.
      change (errors_Is ErrNotFound ErrNotFound) with true in Hc. cbv iota in Hc. by injection Hc as <-.
Qed.

(** ** Concurrent downloads

    A request first reads and checks its link, later it consumes it; requests,
    link generation and everything else that uses the store interleave at
    these steps.  [pending] holds the requests between the two. *)
Inductive levent :=
| Generated (token : string)
| Checked (rid : nat) (token : string)
| Consumed (token : string)
| Refused (rid : nat)
| Env.

Abbreviation pending := (gmap nat (string * string)) (only parsing).

Inductive lstep : W * pending -> levent -> W * pending -> Prop :=
| ls_generate rnd now now' path d w w' ps token :
    GenerateLink rnd now now' path d w = (w', Ok token) -> lstep (w, ps) (Generated token) (w', ps)
| ls_generate_fail rnd now now' path d w w' ps e :
    GenerateLink rnd now now' path d w = (w', Err e) -> lstep (w, ps) Env (w', ps)
| ls_check rid now token path w ps :
    ps !! rid = None -> checkLink now token w = Ok path ->
    lstep (w, ps) (Checked rid token) (w, <[rid := (token, path)]> ps)
| ls_check_fail rid now token e w ps :
    ps !! rid = None -> checkLink now token w = Err e -> lstep (w, ps) (Refused rid) (w, ps)
| ls_consume rid now ip token path w w' ps :
    ps !! rid = Some (token, path) -> consumeLink now token ip path w = (w', Ok path) ->
    lstep (w, ps) (Consumed token) (w', delete rid ps)
| ls_consume_fail rid now ip token path w w' ps e :
    ps !! rid = Some (token, path) -> consumeLink now token ip path w = (w', Err e) ->
    lstep (w, ps) (Refused rid) (w', delete rid ps)
| ls_env w w' ps :
    serving w' -> links_of w' ⊆ links_of w -> lstep (w, ps) Env (w', ps).

Inductive lrun : W * pending -> list levent -> W * pending -> Prop :=
| lrun_nil s : lrun s [] s
| lrun_cons s e s' es s'' : lstep s e s' -> lrun s' es s'' -> lrun s (e :: es) s''.

Definition count_ev (f : levent -> bool) (es : list levent) : Z :=
  Z.of_nat (List.length (List.filter f es)).
Definition is_consumed (t : string) (e : levent) : bool :=
  match e with Consumed t' => String.eqb t' t | _ => false end.
Definition is_generated (t : string) (e : levent) : bool :=
  match e with Generated t' => String.eqb t' t | _ => false end.

Lemma count_ev_cons f e es : count_ev f (e :: es) = (Z.b2z (f e) + count_ev f es)%Z.
Proof. unfold count_ev. cbn. destruct (f e); cbn [List.length Z.b2z]; lia. Qed.

(** One step keeps the balance of generations and consumptions. *)
Lemma lstep_balance s e s' t :
  serving s.1 -> lstep s e s' -> serving s'.1 /\
  (Z.b2z (is_consumed t e) + Z.b2z (active t s'.1) <= Z.b2z (is_generated t e) + Z.b2z (active t s.1))%Z.
Proof.
  intros Hs H. destruct H as [rnd now now' path d w w' ps token H | rnd now now' path d w w' ps er H
    | rid now token path w ps Hn H | rid now token er w ps Hn H | rid now ip token path w w' ps Hp H
    | rid now ip token path w w' ps er Hp H | w w' ps Hs' H]; cbn [fst] in *.
  - apply GenerateLink_spec in H as (Hs' & _ & Hn & l & Hl & _ & _ & _); [| done].
    split; [done |]. cbn [is_consumed is_generated].
    destruct (String.eqb_spec token t) as [-> | Hne].
    + cbn. assert (Hna : active t w = false) by (unfold active; by rewrite Hn).
      rewrite Hna. destruct (active t w'); cbn; lia.
    + rewrite (active_ext t w w'); [done |]. by rewrite Hl, lookup_insert_ne.
  - apply GenerateLink_spec in H as (Hs' & _ & Hl); [| done]. split; [done |].
    rewrite (active_ext t w w'); [done | by rewrite Hl].
  - done.
  - done.
  - apply consumeLink_spec in H as (Hs' & _ & H); [| done]. split; [done |].
    cbn [is_consumed is_generated]. destruct (active token w) eqn:Ea; [| by destruct H].
    destruct H as (_ & Ha' & Hl). destruct (String.eqb_spec token t) as [-> | Hne].
    + rewrite Ea, Ha'. done.
    + rewrite (active_ext t w w'); [done |]. by apply Hl.
  - apply consumeLink_spec in H as (Hs' & _ & H); [| done]. split; [done |].
    destruct (active token w) eqn:Ea; [by destruct H |]. destruct H as [_ Hl].
    cbn. rewrite (active_ext t w w'); [done | by rewrite Hl].
  - split; [done |]. cbn. unfold active. destruct (links_of w' !! t) as [l |] eqn:E.
    + rewrite (lookup_weaken _ _ _ _ E H). done.
    + destruct (links_of w !! t) as [l |]; [destruct (String.eqb _ _) |]; cbn; lia.
Qed.

(** C21: A token is consumed at most once per generation, however the checks,
    the consumptions, the generations and the cleanups of concurrent requests
    interleave: the compare-and-set of the store serializes them. *)
Theorem link_consumed_once w ps es w' ps' t :
  serving w -> lrun (w, ps) es (w', ps') ->
  (count_ev (is_consumed t) es <= count_ev (is_generated t) es + Z.b2z (active t w))%Z.
Proof.
  intros Hs H. enough (serving w' /\ (count_ev (is_consumed t) es + Z.b2z (active t w') <=
      count_ev (is_generated t) es + Z.b2z (active t w))%Z) by (destruct (active t w'); cbn in *; lia).
  change w with (w, ps).1 in Hs |- *. change w' with (w', ps').1.
  induction H as [s | s e s' es s'' H1 H2 IH]; [done |].
  destruct (lstep_balance _ _ _ t Hs H1) as [Hs' Hb]. destruct (IH Hs') as [? ?]. split; [done |].
  rewrite !count_ev_cons. lia.
Qed.

(** A tick of the cleanup worker never takes away a link that can still be
    used, nor the record of a link that was used in the last 24 hours; it
    leaves the file metadata alone. *)
Theorem link_cleanup_safe `{!CleanupSpec store view serving} now now' w w' token l :
  serving w -> (now <= now')%Z -> cleanupLinks now now' w = (w', tt) ->
  view_md (view w') = view_md (view w) /\ links_of w' ⊆ links_of w /\
  (links_of w !! token = Some l -> (now <= lk_ExpiresAt l)%Z ->
   (forall u, lk_UsedAt l = Some u -> (now' - 24 * Hour <= u)%Z) ->
   links_of w' !! token = Some l).
Proof.
  intros Hs Hle. unfold cleanupLinks, bind, cleanupExpiredLinks, cleanupUsedLinks, try_bind, ret.
  destruct (st_CleanupExpiredLinks store now w) as [w1 r1] eqn:E1.
  apply spec_CleanupExpired in E1 as (Hs1 & Hm1 & Hsub1 & Hd1); [| done].
  destruct (st_CleanupUsedLinks store (now' - 24 * Hour) w1) as [w2 r2] eqn:E2.
  destruct (spec_CleanupUsed _ _ _ _ Hs1 E2) as (Hs2 & Hm2 & Hsub2 & Hd2).
  assert (Hres : links_of w2 ⊆ links_of w /\ view_md (view w2) = view_md (view w) /\
    (links_of w !! token = Some l -> (now <= lk_ExpiresAt l)%Z ->
     (forall u, lk_UsedAt l = Some u -> (now' - 24 * Hour <= u)%Z) -> links_of w2 !! token = Some l)).
  { split; [by trans (links_of w1) |]. split; [by rewrite Hm2 |]. intros Hl Hexp Hu.
    destruct (links_of w1 !! token) as [l1 |] eqn:El1; [| specialize (Hd1 _ _ Hl El1); lia].
    assert (l1 = l) as -> by (pose proof (lookup_weaken _ _ _ _ El1 Hsub1); congruence).
    destruct (links_of w2 !! token) as [l2 |] eqn:El2.
    - pose proof (lookup_weaken _ _ _ _ El2 Hsub2). congruence.
    - destruct (Hd2 _ _ El1 El2) as (_ & u & Hu' & ?). specialize (Hu _ Hu'). lia. }
  destruct r1; rewrite E2; destruct r2; intros H; injection H as <-; tauto.
Qed.

End Manager.

(** ** Concrete instances *)

(** A stand-in for the cryptographic library: an injective encoding without dots. *)
Definition toy : Crypto :=
  mkCrypto (fun k m => k +:+ m) id (fun s => replace_byte s "."%char "-").

Lemma IndexByte_app_none (a b : string) ch :
  IndexByte a ch = (-1)%Z -> IndexByte b ch = (-1)%Z -> IndexByte (a +:+ b) ch = (-1)%Z.
Proof.
  assert (Hge : forall b, (-1 <= IndexByte b ch)%Z).
  { clear. induction b as [| y b IH]; cbn -[Z.add]; [lia |]. destruct (Ascii.eqb y ch); [lia |].
    destruct (_ <=? _)%Z eqn:E; to_prop; lia. }
  induction a as [| x a IH]; [done |]. cbn -[Z.add]. destruct (Ascii.eqb x ch); [done |].
  intros Ha Hb. pose proof (Hge a). destruct (0 <=? IndexByte a ch)%Z eqn:E; to_prop; [lia |].
  rewrite IH by (done || lia). done.
Qed.

#[global] Instance toy_laws : CryptoLaws toy.
Proof.
  split. intros s. induction s as [| x s IH]; [done |]. unfold toy. cbn [base64 replace_byte].
  apply IndexByte_app_none; [| done]. destruct (Ascii.eqb x ".") eqn:E; [done |]. cbn. by rewrite E.
Qed.

Definition w_token : string := "ab-.kab-/f".
Definition w_generated : StoreView :=
  (GenerateLink viewStore toy "k" (Ok "ab.") 0 0 "/f" 60 (mkView ∅ ∅)).1.


Lemma link_validate_iff_witness :
  (ValidateAndInvalidateLink viewStore toy "k" 1 1 w_token "1.2.3.4" (mkView ∅ ∅)).2 = Err ErrLinkNotFound.
Proof.
  by apply (link_validate_iff viewStore toy "k" id (fun _ => True) 1 1 w_token "1.2.3.4" (mkView ∅ ∅)).
Defined.

(** Two requests check the link before either consumes it. *)
Lemma link_consumed_once_witness :
  (count_ev (is_consumed w_token)
     [Generated w_token; Checked 0 w_token; Checked 1 w_token; Consumed w_token; Refused 1] <=
   count_ev (is_generated w_token)
     [Generated w_token; Checked 0 w_token; Checked 1 w_token; Consumed w_token; Refused 1]
   + Z.b2z (active id w_token (mkView ∅ ∅)))%Z.
Proof.
  pose (w2 := (consumeLink viewStore 2 w_token "1.2.3.4" "/f" w_generated).1).
  apply (link_consumed_once viewStore toy "k" id (fun _ => True) (mkView ∅ ∅) ∅
           _ w2 (delete 1 (delete 0 (<[1 := (w_token, "/f")]> (<[0 := (w_token, "/f")]> ∅))))); [done |].
  econstructor; [apply (ls_generate _ _ _ _ _ (Ok "ab.") 0 0 "/f" 60); reflexivity |].
  econstructor; [apply (ls_check _ _ _ _ _ 0 1 w_token "/f"); reflexivity |].
  econstructor; [apply (ls_check _ _ _ _ _ 1 1 w_token "/f"); reflexivity |].
  econstructor; [apply (ls_consume _ _ _ _ _ 0 2 "1.2.3.4" w_token "/f"); reflexivity |].
  econstructor; [apply (ls_consume_fail _ _ _ _ _ 1 2 "1.2.3.4" w_token "/f" w2 w2 _ ErrLinkInvalid); reflexivity |].
  constructor.
Defined.

Lemma link_cleanup_safe_witness :
  view_links (cleanupLinks viewStore 60 60 w_generated).1 !! w_token = view_links w_generated !! w_token.
Proof.
  apply (link_cleanup_safe viewStore id (fun _ => True) 60 60 w_generated _ w_token
    (mkLink 0 w_token "/f" "active" 60 None None "kab-/f" 0 0)); [done | lia | reflexivity | reflexivity | cbn; lia | done].
Defined.

End Links.
