(* ===== verification/Backends.v ===== *)
(** * Storage backends: backends/

    The [Storage] interface as a record of operations, the noop adapter, and
    the HTTP client that the adapters and the erasure manager are given. *)
From S2P Require Import Prelude GoStrings Metadata.
From Stdlib Require Import Ascii String.
Open Scope string_scope.
Open Scope bool_scope.
Open Scope go_scope.

(** An [io.Reader]: the bytes it delivers and the error it ends with, if any. *)
Record Reader := mkReader {
  rd_data : string;
  rd_err : option gerr;
}.
Definition bytesReader (data : string) : Reader := mkReader data None.

(** A [context.Context], as far as backends read it: the instance id that
    [internalproxy.WithInstanceID] stored. *)
Definition Ctx : Type := option string.
Definition background : Ctx := None.
Definition WithInstanceID (ctx : Ctx) (instanceID : string) : Ctx := Some instanceID.

Record Storage (W : Type) := mkStorage {
  sg_Open : Ctx -> string -> St W (Res Reader);
  sg_Create : Ctx -> string -> Reader -> Z -> St W (Res unit);
  sg_Update : Ctx -> string -> Reader -> Z -> St W (Res unit);
  sg_Delete : Ctx -> string -> St W (Res unit);
  sg_Stat : Ctx -> string -> St W (Res Metadata);
  sg_ListDirectory : Ctx -> string -> St W (Res (list Metadata));
  sg_CreateDirectory : Ctx -> string -> St W (Res unit);
}.
Arguments sg_Open {W}. Arguments sg_Create {W}. Arguments sg_Update {W}. Arguments sg_Delete {W}.
Arguments sg_Stat {W}. Arguments sg_ListDirectory {W}. Arguments sg_CreateDirectory {W}.

(** ** backends/noop *)
Module Noop.
Definition noopStorage (W : Type) : Storage W := mkStorage W
  (fun _ _ => ret (Err (EMsg "backend not enabled: cannot open file")))
  (fun _ _ _ _ => ret (Err (EMsg "backend not enabled: cannot create file")))
  (fun _ _ _ _ => ret (Err (EMsg "backend not enabled: cannot update file")))
  (fun _ _ => ret (Err (EMsg "backend not enabled: cannot delete file")))
  (fun _ _ => ret (Err (EMsg "backend not enabled: cannot stat file")))
  (fun _ _ => ret (Err (EMsg "backend not enabled: cannot list directory")))
  (fun _ _ => ret (Err (EMsg "backend not enabled: cannot create directory"))).
End Noop.

(** ** The HTTP client *)

Record HttpRequest := mkHttpRequest {
  hq_Method : string;
  hq_URL : string;
  hq_Auth : string;
  hq_ContentType : string;
  hq_Body : option Reader;
  hq_ContentLength : Z;
}.
Record HttpResponse := mkHttpResponse {
  hr_Status : Z;
  hr_Header : string -> string;
  hr_Body : string;
}.
(** [http.NewRequest] and [client.Do]: the error of one of them, or the response. *)
Record HttpClient (W : Type) := mkHttpClient {
  hc_NewRequest : HttpRequest -> Res unit;
  hc_Do : HttpRequest -> St W (Res HttpResponse);
}.
Arguments hc_NewRequest {W}. Arguments hc_Do {W}.

