(* ===== verification/LocalFS.v ===== *)
(** * The local file system backend: backends/localfs/

    [LocalFSAdapter] over the calls of package os, which are a parameter; what
    the file system promises is [FSLaws]. *)
From S2P Require Import Prelude GoStrings PathUtil Metadata Auth Backends.
From Stdlib Require Import Ascii String.
Open Scope string_scope.
Open Scope bool_scope.
Open Scope go_scope.

Module LocalFS.

(** [os.FileInfo] and, when the platform has it, [syscall.Stat_t]; the platforms
    call the two times [Atim] and [Ctim] or [Atimespec] and [Ctimespec]. *)
Record Timespec := mkTimespec { ts_Sec : Z; ts_Nsec : Z }.
Record Stat_t := mkStat { stat_Mode : Z; stat_Uid : Z; stat_Gid : Z; stat_Atim : Timespec; stat_Ctim : Timespec }.
Record FileInfo := mkFileInfo {
  fi_Name : string;
  fi_Size : Z;
  fi_ModTime : Time;
  fi_IsDir : bool;
  fi_Sys : option Stat_t;
}.

(** The calls of package os (and [filepath.EvalSymlinks]) the adapter makes.
    [os_Copy tmp r] is [io.Copy] of the reader into the open file. *)
Record OS (W : Type) := mkOS {
  os_EvalSymlinks : W -> string -> option string;
  os_IsNotExist : gerr -> bool;
  os_Open : string -> St W (Res Reader);
  os_MkdirAll : string -> St W (Res unit);
  os_CreateTemp : string -> string -> St W (Res string);
  os_Copy : string -> Reader -> St W (Res unit);
  os_Sync : string -> St W (Res unit);
  os_Chmod : string -> Z -> St W (Res unit);
  os_Lstat : W -> string -> Res FileInfo;
  os_Stat : W -> string -> Res FileInfo;
  os_Rename : string -> string -> St W (Res unit);
  os_Remove : string -> St W (Res unit);
  os_ReadDir : string -> W -> Res (list string);
}.
Arguments os_EvalSymlinks {W}. Arguments os_IsNotExist {W}. Arguments os_Open {W}.
Arguments os_MkdirAll {W}. Arguments os_CreateTemp {W}. Arguments os_Copy {W}. Arguments os_Sync {W}.
Arguments os_Chmod {W}. Arguments os_Lstat {W}. Arguments os_Stat {W}. Arguments os_Rename {W}.
Arguments os_Remove {W}. Arguments os_ReadDir {W}.

(** ["%o"]. *)
Fixpoint octal_go (fuel : nat) (n : Z) (acc : string) : string :=
  match fuel with
  | O => acc
  | S f =>
      let acc := String (ascii_of_N (Z.to_N (48 + n mod 8))) acc in
      if (n / 8 =? 0)%Z then acc else octal_go f (n / 8) acc
  end.
Definition octal (n : Z) : string := octal_go 22 n "".

(** [time.Unix]. *)
Definition time_Unix (sec nsec : Z) : Time := (sec * Second + nsec)%Z.

(** The two times, on each platform; on BSD the fields are converted to 64 bits, which
    keeps their values. *)
Definition extractTimestamps (stat : Stat_t) : Time * Time :=
  (time_Unix (ts_Sec (stat_Atim stat)) (ts_Nsec (stat_Atim stat)), time_Unix (ts_Sec (stat_Ctim stat)) (ts_Nsec (stat_Ctim stat))).
Definition int64 (z : Z) : Z := ((z + 2 ^ 63) mod 2 ^ 64 - 2 ^ 63)%Z.
Definition extractTimestamps_darwin (stat : Stat_t) : Time * Time :=
  let atime := time_Unix (ts_Sec (stat_Atim stat)) (ts_Nsec (stat_Atim stat)) in
  let ctime := time_Unix (ts_Sec (stat_Ctim stat)) (ts_Nsec (stat_Ctim stat)) in
  (atime, ctime).
Definition extractTimestamps_bsd (stat : Stat_t) : Time * Time :=
  let atime := time_Unix (int64 (ts_Sec (stat_Atim stat))) (int64 (ts_Nsec (stat_Atim stat))) in
  let ctime := time_Unix (int64 (ts_Sec (stat_Ctim stat))) (int64 (ts_Nsec (stat_Ctim stat))) in
  (atime, ctime).
Definition extractTimestamps_openbsd (stat : Stat_t) : Time * Time :=
  let atime := time_Unix (int64 (ts_Sec (stat_Atim stat))) (int64 (ts_Nsec (stat_Atim stat))) in
  let ctime := time_Unix (int64 (ts_Sec (stat_Ctim stat))) (int64 (ts_Nsec (stat_Ctim stat))) in
  (atime, ctime).
(** On Windows there is no such structure, and nothing calls it there. *)
Definition extractTimestamps_windows (now : Time) : Time * Time := (now, now).

Definition extractUnixMetadata (info : FileInfo) : string * Z * Z * Time * Time :=
  let mode := if fi_IsDir info then "0755" else "0644" in
  match fi_Sys info with
  | Some stat =>
      let '(atime, ctime) := extractTimestamps stat in
      ("0" +:+ octal (Z.land (stat_Mode stat) 511), stat_Uid stat, stat_Gid stat, atime, ctime)
  | None => (mode, 1000%Z, 1000%Z, fi_ModTime info, fi_ModTime info)
  end.

Definition extractUnixMetadata_windows (info : FileInfo) : string * Z * Z * Time * Time :=
  let mode := if fi_IsDir info then "0755" else "0644" in
  (mode, 1000%Z, 1000%Z, fi_ModTime info, fi_ModTime info).

(** A file as a platform without the structure shows it. *)
Definition withoutSys (info : FileInfo) : FileInfo :=
  mkFileInfo (fi_Name info) (fi_Size info) (fi_ModTime info) (fi_IsDir info) None.

Definition in_int64 (z : Z) : Prop := (- 2 ^ 63 <= z < 2 ^ 63)%Z.
Definition timespec_ok (ts : Timespec) : Prop := in_int64 (ts_Sec ts) /\ in_int64 (ts_Nsec ts).

Lemma int64_id z : in_int64 z -> int64 z = z.
Proof. unfold in_int64, int64. intros H. rewrite Z.mod_small; lia. Qed.

(** The platforms agree on what they tell of a file, so that the adapter of one is
    that of all; Windows is the platform without the structure. *)
Lemma platforms_agree info stat :
  timespec_ok (stat_Atim stat) -> timespec_ok (stat_Ctim stat) ->
  extractTimestamps_darwin stat = extractTimestamps stat /\ extractTimestamps_bsd stat = extractTimestamps stat /\
  extractTimestamps_openbsd stat = extractTimestamps stat /\
  extractUnixMetadata_windows info = extractUnixMetadata (withoutSys info).
Proof.
  intros [H1 H2] [H3 H4]. unfold extractTimestamps_bsd, extractTimestamps_openbsd. rewrite !int64_id by done. done.
Qed.

Section LocalFSAdapter.
Context {W : Type} (os : OS W) (rootPath : string).

Definition NewLocalFSAdapter : St W (Res unit) :=
  wrap "failed to create root path" in _ <- os_MkdirAll os rootPath;
  fun w => match os_Stat os w rootPath with
           | Err e => (w, Err (EWrap "root path is not accessible" e))
           | Ok _ => (w, Ok tt)
           end.

(** [fullPath, err := pathutil.SafeJoin(a.rootPath, path); if err != nil { return ErrForbidden }] *)
Definition withFullPath {A} (path : string) (k : string -> St W (Res A)) : St W (Res A) := fun w =>
  match PathUtil.SafeJoin (os_EvalSymlinks os w) rootPath path with
  | Err _ => (w, Err ErrForbidden)
  | Ok fullPath => k fullPath w
  end.

(** [if os.IsNotExist(err) { return ErrNotFound }; return fmt.Errorf(...)] *)
Definition notExist {A} (msg : string) (e : gerr) : Res A :=
  if os_IsNotExist os e then Err ErrNotFound else Err (EWrap msg e).

Definition Open (ctx : Ctx) (path : string) : St W (Res Reader) :=
  withFullPath path (fun fullPath w =>
    match os_Open os fullPath w with
    | (w', Err e) => (w', notExist "failed to open file" e)
    | (w', Ok file) => (w', Ok file)
    end).

(** [os.Remove(tmpPath)] whose result is ignored, then the error. *)
Definition dropTemp {A} (tmpPath : string) (e : gerr) : St W (Res A) :=
  do _ <- os_Remove os tmpPath; ret (Err e).

(** The common part of [Create] and [Update]: the parent directory, a
    temporary file beside the target with the content, synced and chmodded; the
    continuation gets the temporary path. *)
Definition writeTemp (tmpErr fullPath : string) (reader : Reader) (k : string -> St W (Res unit))
  : St W (Res unit) :=
  wrap "failed to create parent directory" in _ <- os_MkdirAll os (filepath_Dir fullPath);
  wrap tmpErr in tmpPath <- os_CreateTemp os (filepath_Dir fullPath) ".callfs-tmp-*";
  do r <- os_Copy os tmpPath reader;
  match r with
  | Err e => dropTemp tmpPath (EWrap "failed to write file content" e)
  | Ok _ =>
      do r <- os_Sync os tmpPath;
      match r with
      | Err e => dropTemp tmpPath (EWrap "failed to fsync file" e)
      | Ok _ =>
          do r <- os_Chmod os tmpPath 420;
          match r with
          | Err e => dropTemp tmpPath (EWrap "failed to set file permissions" e)
          | Ok _ => k tmpPath
          end
      end
  end.

Definition renameTemp (tmpPath fullPath : string) : St W (Res unit) :=
  do r <- os_Rename os tmpPath fullPath;
  match r with
  | Err e => dropTemp tmpPath (EWrap "failed to rename temp file" e)
  | Ok _ => ret (Ok tt)
  end.

Definition Create (ctx : Ctx) (path : string) (reader : Reader) (size : Z) : St W (Res unit) :=
  withFullPath path (fun fullPath =>
    writeTemp "failed to create temp file" fullPath reader (fun tmpPath w =>
      match os_Lstat os w fullPath with
      | Ok _ => dropTemp tmpPath ErrAlreadyExists w
      | Err _ => renameTemp tmpPath fullPath w
      end)).

Definition Update (ctx : Ctx) (path : string) (reader : Reader) (size : Z) : St W (Res unit) :=
  withFullPath path (fun fullPath =>
    writeTemp "failed to create temp file for update" fullPath reader (fun tmpPath =>
      renameTemp tmpPath fullPath)).

Definition Delete (ctx : Ctx) (path : string) : St W (Res unit) :=
  withFullPath path (fun fullPath w =>
    match os_Remove os fullPath w with
    | (w', Err e) => (w', notExist "failed to delete" e)
    | (w', Ok _) => (w', Ok tt)
    end).

Definition Stat (ctx : Ctx) (path : string) : St W (Res Metadata) :=
  withFullPath path (fun fullPath w =>
    match os_Stat os w fullPath with
    | Err e => (w, notExist "failed to stat" e)
    | Ok info =>
        let type := if fi_IsDir info then "directory" else "file" in
        let '(mode, uid, gid, atime, ctime) := extractUnixMetadata info in
        (w, Ok (mkMetadata 0 None (fi_Name info) path type (fi_Size info) mode uid gid
                  atime (fi_ModTime info) ctime "localfs" false None None 0 0))
    end).

(** The loop of [ListDirectory]: entries whose [Stat] fails are left out. *)
Fixpoint statAll (ctx : Ctx) (path : string) (entries : list string) : St W (list Metadata) :=
  match entries with
  | [] => ret []
  | name :: rest =>
      do r <- Stat ctx (filepath_Join path name);
      do children <- statAll ctx path rest;
      match r with
      | Err _ => ret children
      | Ok childMd => ret (childMd :: children)
      end
  end.

Definition ListDirectory (ctx : Ctx) (path : string) : St W (Res (list Metadata)) :=
  withFullPath path (fun fullPath w =>
    match os_ReadDir os fullPath w with
    | Err e => (w, notExist "failed to read directory" e)
    | Ok entries => let '(w', children) := statAll ctx path entries w in (w', Ok children)
    end).

Definition CreateDirectory (ctx : Ctx) (path : string) : St W (Res unit) :=
  withFullPath path (fun fullPath w =>
    match os_Stat os w fullPath with
    | Ok info =>
        if negb (fi_IsDir info) then (w, Err (EMsg "path exists as file, not directory"))
        else (w, Ok tt)
    | Err _ =>
        match os_MkdirAll os fullPath w with
        | (w', Err e) => (w', Err (EWrap "failed to create directory" e))
        | (w', Ok _) => (w', Ok tt)
        end
    end).

Definition localStorage : Storage W :=
  mkStorage W Open Create Update Delete Stat ListDirectory CreateDirectory.

(** ** What a file system promises

    [file w p] is the content of the regular file at [p].  No call but [Copy]
    into a file, [Rename] and [Remove] changes the content of a file that
    exists, a temporary file is new, a renamed file replaces the target whole, and a
    failed call changes only the file it was writing. *)
Context (file : W -> string -> option string).

Class FSLaws : Prop := {
  law_MkdirAll : forall d w w' r, os_MkdirAll os d w = (w', r) -> forall p, file w' p = file w p;
  law_CreateTemp : forall d pat w w' r, os_CreateTemp os d pat w = (w', r) ->
    match r with
    | Ok tmp => file w tmp = None /\ file w' tmp = Some "" /\ forall p, p <> tmp -> file w' p = file w p
    | Err _ => forall p, file w' p = file w p
    end;
  law_Copy : forall tmp rd w w' r, file w tmp = Some "" -> os_Copy os tmp rd w = (w', r) ->
    (forall p, p <> tmp -> file w' p = file w p) /\
    (r = Ok tt -> rd_err rd = None /\ file w' tmp = Some (rd_data rd));
  law_Sync : forall tmp w w' r, os_Sync os tmp w = (w', r) -> forall p, file w' p = file w p;
  law_Chmod : forall tmp m w w' r, os_Chmod os tmp m w = (w', r) -> forall p, file w' p = file w p;
  law_Lstat : forall p w, is_Some (file w p) -> is_Ok (os_Lstat os w p) = true;
  law_Rename : forall src dst w w' r, os_Rename os src dst w = (w', r) ->
    match r with
    | Ok _ => file w' dst = file w src /\ forall p, p <> src -> p <> dst -> file w' p = file w p
    | Err _ => forall p, file w' p = file w p
    end;
  law_Remove : forall q w w' r, os_Remove os q w = (w', r) ->
    (r = Ok tt -> file w' q = None) /\ forall p, p <> q -> file w' p = file w p;
  law_Open : forall p w w' r, os_Open os p w = (w', r) ->
    (forall q, file w' q = file w q) /\
    forall rd data, r = Ok rd -> file w p = Some data -> rd = mkReader data None;
}.

Definition keeps_files (w w' : W) : Prop := forall p, is_Some (file w p) -> file w' p = file w p.

Section Atomic.
Context {fs_laws : FSLaws}.

Lemma dropTemp_spec {A} tmp e w w' (r : Res A) :
  dropTemp tmp e w = (w', r) -> r = Err e /\ forall p, p <> tmp -> file w' p = file w p.
Proof.
  unfold dropTemp, bind, ret. destruct (os_Remove os tmp w) as [w1 r1] eqn:E.
  intros H; injection H as <- <-. apply law_Remove in E as [_ E]. done.
Qed.

Lemma writeTemp_spec msg fullPath rd k w w' r :
  writeTemp msg fullPath rd k w = (w', r) ->
  (is_Ok r = false /\ keeps_files w w') \/
  (exists tmp w1, k tmp w1 = (w', r) /\ file w tmp = None /\ rd_err rd = None /\
     file w1 tmp = Some (rd_data rd) /\ forall p, p <> tmp -> file w1 p = file w p).
Proof.
  unfold writeTemp, try_bind, bind.
  destruct (os_MkdirAll os (filepath_Dir fullPath) w) as [w1 [[] | e]] eqn:E1;
    pose proof (law_MkdirAll _ _ _ _ E1) as L1;
    [| intros H; injection H as <- <-; left; split; [done | intros p _; apply L1]].
  destruct (os_CreateTemp os (filepath_Dir fullPath) ".callfs-tmp-*" w1) as [w2 [tmp | e]] eqn:E2;
    pose proof (law_CreateTemp _ _ _ _ _ E2) as L2; cbn in L2;
    [| intros H; injection H as <- <-; left; split; [done | intros p _; by rewrite L2, L1]].
  destruct L2 as (Hnew & Hempty & L2). rewrite L1 in Hnew.
  destruct (os_Copy os tmp rd w2) as [w3 r3] eqn:E3.
  destruct (law_Copy _ _ _ _ _ Hempty E3) as [L3 C3].
  assert (Hw3 : forall p, p <> tmp -> file w3 p = file w p).
  { intros p Hp. by rewrite L3, L2, L1 by done. }
  assert (Hdrop : forall e wx, (forall p, p <> tmp -> file wx p = file w p) ->
    dropTemp tmp e wx = (w', r) -> is_Ok r = false /\ keeps_files w w').
  { intros e wx Hx Hd. apply dropTemp_spec in Hd as [-> Hd]. split; [done |].
    intros p [d Hp]. assert (p <> tmp) by congruence. by rewrite Hd, Hx. }
  destruct r3 as [[] | e]; [| intros H; left; by apply (Hdrop _ _ Hw3) in H].
  destruct (C3 eq_refl) as [Hrd Htmp].
  destruct (os_Sync os tmp w3) as [w4 r4] eqn:E4. pose proof (law_Sync _ _ _ _ E4) as L4.
  assert (Hw4 : forall p, p <> tmp -> file w4 p = file w p) by (intros; by rewrite L4, Hw3).
  destruct r4 as [[] | e]; [| intros H; left; by apply (Hdrop _ _ Hw4) in H].
  destruct (os_Chmod os tmp 420 w4) as [w5 r5] eqn:E5. pose proof (law_Chmod _ _ _ _ _ E5) as L5.
  assert (Hw5 : forall p, p <> tmp -> file w5 p = file w p) by (intros; by rewrite L5, Hw4).
  destruct r5 as [[] | e]; [| intros H; left; by apply (Hdrop _ _ Hw5) in H].
  intros H. right. exists tmp, w5. by rewrite L5, L4.
Qed.

Lemma renameTemp_spec tmp fullPath data w0 w w' r :
  file w0 tmp = None -> file w tmp = Some data -> (forall p, p <> tmp -> file w p = file w0 p) ->
  renameTemp tmp fullPath w = (w', r) ->
  match r with
  | Ok _ => file w' fullPath = Some data /\
            forall p, p <> fullPath -> is_Some (file w0 p) -> file w' p = file w0 p
  | Err _ => keeps_files w0 w'
  end.
Proof.
  intros Hnew Htmp Hw. unfold renameTemp, bind, ret.
  destruct (os_Rename os tmp fullPath w) as [w1 [[] | e]] eqn:E; apply law_Rename in E.
  - destruct E as [Ed E]. intros H; injection H as <- <-. split; [by rewrite Ed |].
    intros p Hp [d Hd]. assert (p <> tmp) by congruence. by rewrite E, Hw.
  - intros H. apply dropTemp_spec in H as [-> H]. intros p [d Hd].
    assert (p <> tmp) by congruence. by rewrite H, E, Hw.
Qed.

(** The outcomes of Update and Create on the file system. *)
Lemma Update_outcome ctx path rd size w w' r :
  Update ctx path rd size w = (w', r) ->
  match r with
  | Ok _ => rd_err rd = None /\ exists fullPath, PathUtil.SafeJoin (os_EvalSymlinks os w) rootPath path = Ok fullPath /\
      file w' fullPath = Some (rd_data rd) /\
      forall p, p <> fullPath -> is_Some (file w p) -> file w' p = file w p
  | Err _ => keeps_files w w'
  end.
Proof.
  unfold Update, withFullPath.
  destruct (PathUtil.SafeJoin _ rootPath path) as [fullPath | e] eqn:Ej;
    [| by intros H; injection H as <- <-].
  intros H. apply writeTemp_spec in H as [[Hr Hk] | (tmp & w1 & H & Hnew & Hrd & Htmp & Hw1)];
    [by destruct r |].
  apply (renameTemp_spec _ _ _ _ _ _ _ Hnew Htmp Hw1) in H. destruct r as [[] | e]; [| done].
  split; [done |]. by exists fullPath.
Qed.

Lemma Create_outcome ctx path rd size w w' r :
  Create ctx path rd size w = (w', r) ->
  keeps_files w w' /\
  (r = Ok tt -> rd_err rd = None /\ exists fullPath,
      PathUtil.SafeJoin (os_EvalSymlinks os w) rootPath path = Ok fullPath /\
      file w fullPath = None /\ file w' fullPath = Some (rd_data rd)).
Proof.
  unfold Create, withFullPath.
  destruct (PathUtil.SafeJoin _ rootPath path) as [fullPath | e] eqn:Ej;
    [| by intros H; injection H as <- <-].
  intros H. apply writeTemp_spec in H as [[Hr Hk] | (tmp & w1 & H & Hnew & Hrd & Htmp & Hw1)];
    [by destruct r |].
  assert (Hnone : is_Ok (os_Lstat os w1 fullPath) = false -> file w fullPath = None).
  { intros Hl. destruct (file w fullPath) as [d |] eqn:Ef; [| done].
    assert (fullPath <> tmp) by congruence.
    rewrite law_Lstat in Hl; [done |]. exists d. by rewrite Hw1. }
  destruct (os_Lstat os w1 fullPath) as [fi | e].
  { apply dropTemp_spec in H as [-> Hd]. split; [| done]. intros p [d Hp].
    assert (p <> tmp) by congruence. by rewrite Hd, Hw1. }
  specialize (Hnone eq_refl).
  apply (renameTemp_spec _ _ _ _ _ _ _ Hnew Htmp Hw1) in H. destruct r as [[] | e']; [| done].
  destruct H as [Hf Hp]. split.
  - intros p [d Hd]. apply Hp; [congruence | by exists d].
  - intros _. split; [done |]. by exists fullPath.
Qed.

(** C25: [Update] of the local backend is atomic and stays below the root: if it
    succeeds, the target, a path below the root, holds exactly what the reader
    delivered and no other file changed; if it fails, at whatever step, every
    file that existed has its old content. *)
Theorem localfs_update_atomic ctx path rd size w w' r :
  ".." ∉ path_comps rootPath ->
  Update ctx path rd size w = (w', r) ->
  match r with
  | Ok _ => rd_err rd = None /\ exists fullPath, PathUtil.within rootPath fullPath /\
      PathUtil.SafeJoin (os_EvalSymlinks os w) rootPath path = Ok fullPath /\
      file w' fullPath = Some (rd_data rd) /\
      forall p, p <> fullPath -> is_Some (file w p) -> file w' p = file w p
  | Err _ => keeps_files w w'
  end.
Proof.
  intros Hroot H. apply Update_outcome in H. destruct r as [u | e]; [| done].
  destruct H as [Hrd (fullPath & Hj & H)]. split; [done |]. exists fullPath. split; [by eapply PathUtil.SafeJoin_contained | done].
Qed.

(** [Create] of the local backend never overwrites: when it succeeds there
    was no file at the target and now it holds what the reader delivered; when
    it fails every existing file has its old content, and an existing target
    always makes it fail. *)
Theorem localfs_create_exclusive ctx path rd size w w' r :
  ".." ∉ path_comps rootPath ->
  Create ctx path rd size w = (w', r) ->
  keeps_files w w' /\
  (r = Ok tt -> rd_err rd = None /\ exists fullPath, PathUtil.within rootPath fullPath /\
      file w fullPath = None /\ file w' fullPath = Some (rd_data rd)).
Proof.
  intros Hroot H. apply Create_outcome in H as [Hk H]. split; [done |]. intros Hr.
  destruct (H Hr) as [Hrd (fullPath & Hj & Hf)]. split; [done |]. exists fullPath. split; [by eapply PathUtil.SafeJoin_contained | done].
Qed.
End Atomic.

End LocalFSAdapter.

(** ** A file system to evaluate on: the files by path *)
Abbreviation memfs := (gmap string string) (only parsing).
Definition enoent : gerr := EMsg "no such file or directory".
Definition mem_info (p : string) (w : memfs) : Res FileInfo :=
  match w !! p with
  | Some d => Ok (mkFileInfo (filepath_Base p) (Z.of_nat (String.length d)) 0 false None)
  | None => Err enoent
  end.
Definition memOS : OS memfs := mkOS memfs
  (fun w p => match w !! p with Some _ => Some p | None => None end)
  (fun e => bool_decide (e = enoent))
  (fun p w => (w, match w !! p with Some d => Ok (bytesReader d) | None => Err enoent end))
  (fun _ w => (w, Ok tt))
  (fun d _ w => let tmp := filepath_Join d ".callfs-tmp-1" in
                match w !! tmp with Some _ => (w, Err (EMsg "file exists")) | None => (<[tmp := ""]> w, Ok tmp) end)
  (fun tmp rd w => (<[tmp := rd_data rd]> w, match rd_err rd with Some e => Err e | None => Ok tt end))
  (fun _ w => (w, Ok tt))
  (fun _ _ w => (w, Ok tt))
  (fun w p => mem_info p w)
  (fun w p => mem_info p w)
  (fun src dst w => match w !! src with
                    | Some d => (<[dst := d]> (delete src w), Ok tt)
                    | None => (w, Err enoent) end)
  (fun p w => match w !! p with Some _ => (delete p w, Ok tt) | None => (w, Err enoent) end)
  (fun _ w => Ok (filepath_Base <$> (map_to_list w).*1)).

#[global] Instance memOS_laws : FSLaws memOS (fun w p => w !! p).
Proof.
  split; cbn [memOS os_MkdirAll os_CreateTemp os_Copy os_Sync os_Chmod os_Lstat os_Rename os_Remove os_Open].
  - intros d w w' r H; by injection H as <- <-.
  - intros d pat w w' r. cbv beta zeta. destruct (w !! filepath_Join d ".callfs-tmp-1") eqn:E; intros H; injection H as <- <-;
      [done |]. split; [done |]. split; [apply lookup_insert_eq |]. intros p Hp. by rewrite lookup_insert_ne.
  - intros tmp rd w w' r _ H; injection H as <- <-. split; [intros p Hp; by rewrite lookup_insert_ne |].
    destruct (rd_err rd); [done |]. by rewrite lookup_insert_eq.
  - intros tmp w w' r H; by injection H as <- <-.
  - intros tmp m w w' r H; by injection H as <- <-.
  - intros p w [d Hd]. unfold mem_info. by rewrite Hd.
  - intros src dst w w' r. destruct (w !! src) as [d |] eqn:E; intros H; injection H as <- <-; [| done].
    rewrite lookup_insert_eq. split; [done |]. intros p Hs Hd. by rewrite lookup_insert_ne, lookup_delete_ne.
  - intros q w w' r. destruct (w !! q) eqn:E; intros H; injection H as <- <-; [| done].
    rewrite lookup_delete_eq. split; [done |]. intros p Hp. by rewrite lookup_delete_ne.
  - intros p w w' r H; injection H as <- <-. split; [done |]. intros rd data Hr Hf. rewrite Hf in Hr. by injection Hr.
Qed.

Lemma localfs_update_atomic_witness :
  (Update memOS "/data" None "a/b" (bytesReader "new") 3 {[ "/data/a/b" := "old" ]}).1 !! "/data/a/b"
    = Some "new".
Proof.
  destruct (localfs_update_atomic memOS "/data" (fun w p => w !! p) None "a/b" (bytesReader "new") 3
     {[ "/data/a/b" := "old" ]} _ (Ok tt) ltac:(apply (bool_decide_unpack _); vm_compute; exact I) eq_refl) as (_ & fp & _ & Hj & H & _).
  vm_compute in Hj. injection Hj as <-. exact H.
Defined.

Lemma localfs_create_exclusive_witness :
  (Create memOS "/data" None "a/b" (bytesReader "new") 3 {[ "/data/a/b" := "old" ]}).1 !! "/data/a/b"
    = Some "old".
Proof.
  apply (localfs_create_exclusive memOS "/data" (fun w p => w !! p) None "a/b" (bytesReader "new") 3
     {[ "/data/a/b" := "old" ]} _ (Err ErrAlreadyExists) ltac:(apply (bool_decide_unpack _); vm_compute; exact I) eq_refl).
  by exists "old".
Defined.

(** ** Modes *)

Definition mode_ok (n : Z) : bool :=
  match Unix.parseModeBits ("0" +:+ octal n) with Ok m => (m =? n)%Z | Err _ => false end.

Lemma mode_ok_all : forallb mode_ok (map Z.of_nat (seq 0 512)) = true.
Proof. vm_compute. reflexivity. Qed.

(** The mode string the local backend derives from the permission bits of
    a file is the one the authorizer parses back to those bits, for every mode. *)
Theorem localfs_mode_roundtrip info stat mode uid gid atime ctime :
  fi_Sys info = Some stat -> extractUnixMetadata info = (mode, uid, gid, atime, ctime) ->
  Unix.parseModeBits mode = Ok (Z.land (stat_Mode stat) 511).
Proof.
  intros Hsys. unfold extractUnixMetadata, extractTimestamps. rewrite Hsys. intros H. injection H as <- _ _ _ _.
  set (n := Z.land (stat_Mode stat) 511).
  assert (Hn : (0 <= n < 512)%Z).
  { unfold n. change 511%Z with (Z.ones 9). rewrite Z.land_ones by done. by apply Z.mod_pos_bound. }
  pose proof mode_ok_all as Hall. rewrite forallb_forall in Hall.
  specialize (Hall n). unfold mode_ok in Hall.
  destruct (Unix.parseModeBits _) as [m |]; [f_equal; apply Z.eqb_eq, Hall | exfalso; discriminate Hall];
    apply in_map_iff; exists (Z.to_nat n); rewrite in_seq; lia.
Qed.

Lemma localfs_mode_roundtrip_witness :
  Unix.parseModeBits "0640" = Ok (Z.land (Z.lor 32768 416) 511).
Proof.
  apply (localfs_mode_roundtrip (mkFileInfo "a" 1 0 false (Some (mkStat (Z.lor 32768 416) 5 6 (mkTimespec 0 0) (mkTimespec 0 0))))
           (mkStat (Z.lor 32768 416) 5 6 (mkTimespec 0 0) (mkTimespec 0 0)) "0640" 5 6 0 0); reflexivity.
Defined.

End LocalFS.

