(* ===== verification/InternalProxy.v ===== *)
(** * The internal proxy backend: backends/internalproxy/

    [InternalProxyAdapter] over an HTTP client, which is a parameter. *)
From S2P Require Import Prelude GoStrings Metadata Backends.
From Stdlib Require Import Ascii String.
Open Scope string_scope.
Open Scope bool_scope.
Open Scope go_scope.

Module InternalProxy.

Record proxiedFileInfo := mkProxied {
  pf_Name : string;
  pf_Path : string;
  pf_Type : string;
  pf_Size : Z;
  pf_Mode : string;
  pf_UID : Z;
  pf_GID : Z;
  pf_MTime : string;
}.

(** The library calls on strings: [url.JoinPath(base, "v1", "files", p)],
    [url.PathEscape], [time.Parse] of an RFC 3339 time, and the JSON decoder of
    a directory listing. *)
Record Codecs := mkCodecs {
  url_JoinPath : string -> string -> Res string;
  url_PathEscape : string -> string;
  time_Parse : string -> option Time;
  json_list : string -> Res (list proxiedFileInfo);
}.

(** The value [strconv.ParseInt(s, 10, 64)] and [strconv.Atoi] return when the
    error is ignored: 0 on a syntax error, the nearest bound on a range error. *)
Definition intValue (s : string) : Z :=
  let '(neg, body) :=
    match s with
    | String c s' =>
        if Ascii.eqb c "-" then (true, s') else if Ascii.eqb c "+" then (false, s') else (false, s)
    | EmptyString => (false, s)
    end in
  match parse_nat_digits 10 body with
  | None => 0%Z
  | Some n => let v := if neg then (- n)%Z else n in Z.max (- 2 ^ 63) (Z.min (2 ^ 63 - 1) v)
  end.

Section Proxy.
Context {W : Type} (client : HttpClient W) (codecs : Codecs)
        (instanceMap : gmap string string) (internalAuthToken : string) (clock : W -> Time).

Definition getInstanceIDFromContext (ctx : Ctx) : string :=
  match ctx with Some id => id | None => "" end.

Definition buildProxyURL (endpoint path : string) : string :=
  let base := TrimRight endpoint slash in
  let cleanPath := TrimLeft path slash in
  match url_JoinPath codecs base cleanPath with
  | Ok result => result
  | Err _ => base +:+ "/v1/files/" +:+ url_PathEscape codecs cleanPath
  end.

(** The statements every [...OnInstance] method starts with: the endpoint of
    the instance, the request, its authorization header, [client.Do]. *)
Definition proxyDo (instanceID path method ctype : string) (body : option Reader) (len : Z)
  : St W (Res HttpResponse) := fun w =>
  match instanceMap !! instanceID with
  | None => (w, Err (EMsg "unknown instance ID"))
  | Some endpoint =>
      let req := mkHttpRequest method (buildProxyURL endpoint path)
                   ("Bearer " +:+ internalAuthToken) ctype body len in
      match hc_NewRequest client req with
      | Err e => (w, Err (EWrap "failed to create request" e))
      | Ok _ =>
          match hc_Do client req w with
          | (w', Err e) => (w', Err (EWrap "failed to proxy request" e))
          | (w', Ok resp) => (w', Ok resp)
          end
      end
  end.

(** The answer to a status that is not one of the expected ones. *)
Definition badStatus {A} (status : Z) : Res A :=
  if (status =? 404)%Z then Err ErrNotFound else Err (EMsg "proxy request failed with status").

Definition OpenFromInstance (instanceID path : string) : St W (Res Reader) :=
  try resp <- proxyDo instanceID path "GET" "" None 0;
  ret (if negb (hr_Status resp =? 200)%Z then badStatus (hr_Status resp)
       else Ok (bytesReader (hr_Body resp))).

Definition requireInstance {A} (ctx : Ctx) (k : string -> St W (Res A)) : St W (Res A) :=
  let instanceID := getInstanceIDFromContext ctx in
  if String.eqb instanceID "" then ret (Err (EMsg "internal proxy requires instance ID in context"))
  else k instanceID.

Definition Open (ctx : Ctx) (path : string) : St W (Res Reader) :=
  requireInstance ctx (fun instanceID => OpenFromInstance instanceID path).

Definition Create (ctx : Ctx) (path : string) (reader : Reader) (size : Z) : St W (Res unit) :=
  ret (Err (EMsg "Create method not supported for internal proxy - files are created locally")).

Definition UpdateOnInstance (instanceID path : string) (reader : Reader) (size : Z) : St W (Res unit) :=
  try resp <- proxyDo instanceID path "PUT" "application/octet-stream" (Some reader)
                (if (0 <? size)%Z then size else 0);
  ret (if negb (hr_Status resp =? 200)%Z && negb (hr_Status resp =? 201)%Z
       then badStatus (hr_Status resp) else Ok tt).

Definition Update (ctx : Ctx) (path : string) (reader : Reader) (size : Z) : St W (Res unit) :=
  requireInstance ctx (fun instanceID => UpdateOnInstance instanceID path reader size).

Definition DeleteOnInstance (instanceID path : string) : St W (Res unit) :=
  try resp <- proxyDo instanceID path "DELETE" "" None 0;
  ret (if negb (hr_Status resp =? 204)%Z then badStatus (hr_Status resp) else Ok tt).

Definition Delete (ctx : Ctx) (path : string) : St W (Res unit) :=
  requireInstance ctx (fun instanceID => DeleteOnInstance instanceID path).

(** [time.Parse] with the clock as default. *)
Definition mtimeOr (now : Time) (s : string) : Time :=
  if String.eqb s "" then now
  else match time_Parse codecs s with Some t => t | None => now end.

Definition statOf (path : string) (resp : HttpResponse) (now : Time) : Metadata :=
  let size := intValue (hr_Header resp "X-CallFS-Size") in
  let uid := intValue (hr_Header resp "X-CallFS-UID") in
  let gid := intValue (hr_Header resp "X-CallFS-GID") in
  let typeHeader := hr_Header resp "X-CallFS-Type" in
  let typeHeader := if String.eqb typeHeader "" then "file" else typeHeader in
  let mTime := mtimeOr now (hr_Header resp "X-CallFS-MTime") in
  let mode := hr_Header resp "X-CallFS-Mode" in
  let mode := if String.eqb mode "" then "0644" else mode in
  let cleanPath := if negb (HasPrefix path "/") then "/" +:+ path else path in
  let name := if String.eqb cleanPath "/" then "/" else filepath_Base cleanPath in
  mkMetadata 0 None name cleanPath typeHeader size mode uid gid mTime mTime mTime "localfs"
    false None None 0 0.

Definition StatOnInstance (instanceID path : string) : St W (Res Metadata) :=
  try resp <- proxyDo instanceID path "HEAD" "" None 0;
  if negb (hr_Status resp =? 200)%Z then ret (badStatus (hr_Status resp))
  else fun w => (w, Ok (statOf path resp (clock w))).

Definition Stat (ctx : Ctx) (path : string) : St W (Res Metadata) :=
  requireInstance ctx (fun instanceID => StatOnInstance instanceID path).

(** One item of a proxied listing. *)
Definition childOf (path : string) (now : Time) (item : proxiedFileInfo) : Metadata :=
  let itemPath := if String.eqb (pf_Path item) ""
                  then "/" +:+ TrimLeft (filepath_Join path (pf_Name item)) slash else pf_Path item in
  let itemPath := if negb (HasPrefix itemPath "/") then "/" +:+ itemPath else itemPath in
  let itemMTime := mtimeOr now (pf_MTime item) in
  let mode := if String.eqb (pf_Mode item) ""
              then (if String.eqb (pf_Type item) "directory" then "0755" else "0644")
              else pf_Mode item in
  mkMetadata 0 None (pf_Name item) itemPath (pf_Type item) (pf_Size item) mode
    (pf_UID item) (pf_GID item) itemMTime itemMTime itemMTime "localfs" false None None 0 0.

Definition ListDirectoryOnInstance (instanceID path : string) : St W (Res (list Metadata)) :=
  try resp <- proxyDo instanceID path "GET" "" None 0;
  if negb (hr_Status resp =? 200)%Z then ret (badStatus (hr_Status resp))
  else match json_list codecs (hr_Body resp) with
       | Err e => ret (Err (EWrap "failed to decode directory listing response" e))
       | Ok fileInfos => fun w => (w, Ok (childOf path (clock w) <$> fileInfos))
       end.

Definition ListDirectory (ctx : Ctx) (path : string) : St W (Res (list Metadata)) :=
  requireInstance ctx (fun instanceID => ListDirectoryOnInstance instanceID path).

Definition CreateDirectory (ctx : Ctx) (path : string) : St W (Res unit) :=
  ret (Err (EMsg "CreateDirectory method not supported for internal proxy - directories are created locally")).

Definition proxyStorage : Storage W :=
  mkStorage W Open Create Update Delete Stat ListDirectory CreateDirectory.

(** A proxied update reports success only when a peer that is configured
    for the instance of the context answered 200 or 201 to a PUT of the
    reader's content with the internal token; 404 becomes [ErrNotFound], and
    without an instance id or for an unknown one no request is sent. *)
Theorem proxy_update_spec ctx path rd size w w' r :
  Update ctx path rd size w = (w', r) ->
  match ctx with
  | None => w' = w /\ is_Ok r = false
  | Some id =>
      match instanceMap !! id with
      | None => w' = w /\ is_Ok r = false
      | Some endpoint =>
          r = Ok tt -> id <> "" /\ exists req resp,
            hc_Do client req w = (w', Ok resp) /\ (hr_Status resp = 200 \/ hr_Status resp = 201)%Z /\
            hq_Method req = "PUT" /\ hq_URL req = buildProxyURL endpoint path /\
            hq_Auth req = "Bearer " +:+ internalAuthToken /\ hq_Body req = Some rd
      end
  end.
Proof.
  unfold Update, requireInstance, getInstanceIDFromContext.
  destruct ctx as [id |]; [| by intros H; injection H as <- <-].
  destruct (String.eqb_spec id "") as [-> | Hne].
  { intros H; injection H as <- <-. by destruct (instanceMap !! ""). }
  unfold UpdateOnInstance, try_bind, proxyDo.
  destruct (instanceMap !! id) as [endpoint |]; [| by intros H; injection H as <- <-].
  destruct (hc_NewRequest client _); [| by intros H; injection H as <- <-].
  destruct (hc_Do client _ w) as [w1 [resp | e]] eqn:Ed; unfold ret;
    [| by intros H; injection H as <- <-].
  destruct (negb _ && negb _)%bool eqn:Es; intros H; injection H as <- <-.
  { unfold badStatus. by destruct (_ =? 404)%Z. }
  intros _. split; [done |]. eexists _, resp. split; [exact Ed |]. split; [| done].
  apply andb_false_iff in Es as [Es | Es]; to_prop; auto.
Qed.

End Proxy.

(** ** NewInternalProxyAdapter *)

(** The client that the adapter asks net/http for. *)
Record ClientConfig := mkClientConfig {
  ForceAttemptHTTP2 : bool;
  MaxIdleConns : Z;
  MaxIdleConnsPerHost : Z;
  MaxConnsPerHost : Z;
  IdleConnTimeout : Duration;
  TLSHandshakeTimeout : Duration;
  ExpectContinueTimeout : Duration;
  DisableCompression : bool;
  InsecureSkipVerify : option bool;
  Timeout : Duration;
}.

Record InternalProxyAdapter (W : Type) := mkAdapter {
  ad_client : HttpClient W;
  ad_instanceMap : gmap string string;
  ad_internalAuthToken : string;
}.

Definition clientConfig (skipTLSVerify : bool) : ClientConfig :=
  mkClientConfig true 256 100 200 (90 * Second)%Z (10 * Second)%Z (1 * Second)%Z true
    (if skipTLSVerify then Some true else None) (30 * Second)%Z.

Definition NewInternalProxyAdapter {W} (newClient : ClientConfig -> HttpClient W) (peerEndpoints : gmap string string)
    (authToken : string) (skipTLSVerify : bool) : Res (InternalProxyAdapter W) :=
  Ok (mkAdapter W (newClient (clientConfig skipTLSVerify)) peerEndpoints authToken).

(** [closeIdle]: [client.CloseIdleConnections()]. *)
Definition Close {W} (closeIdle : St W unit) : St W (Res unit) := do _ <- closeIdle; ret (Ok tt).

(** A client that answers every request with one status. *)
Definition statusClient (st : Z) : HttpClient (list HttpRequest) :=
  mkHttpClient _ (fun _ => Ok tt) (fun q log => (q :: log, Ok (mkHttpResponse st (fun _ => "") ""))).
Definition plainCodecs : Codecs :=
  mkCodecs (fun b p => Ok (b +:+ "/v1/files/" +:+ p)) id (fun _ => None) (fun _ => Ok []).

Definition w_peers : gmap string string := {[ "n2" := "https://n2/" ]}.

Lemma proxy_update_spec_witness :
  exists req resp, hc_Do (statusClient 201) req [] =
    ((Update (statusClient 201) plainCodecs w_peers "tok" (Some "n2") "a" (bytesReader "x") 1 []).1, Ok resp)
    /\ hq_URL req = "https://n2/v1/files/a".
Proof.
  destruct (proxy_update_spec (statusClient 201) plainCodecs w_peers "tok" (Some "n2") "a"
    (bytesReader "x") 1 []
    (Update (statusClient 201) plainCodecs w_peers "tok" (Some "n2") "a" (bytesReader "x") 1 []).1
    (Ok tt) eq_refl eq_refl) as (_ & req & resp & Hd & _ & _ & Hu & _).
  exists req, resp. split; [exact Hd | exact Hu].
Defined.

End InternalProxy.
