(* ===== verification/Erasure.v ===== *)
(** * Erasure coding: erasure/

    Placement, the Reed-Solomon codec and the manager that stores, retrieves
    and deletes erasure-coded files.  The Reed-Solomon library, SHA-256, the
    local backend, the HTTP client and the metadata store are parameters.

    The manager starts one goroutine per shard.  A goroutine's backend call
    and its critical section are one step here, and the order in which the
    goroutines of a call take their step is an argument. *)
From S2P Require Import Prelude GoStrings Metadata Backends.
From Stdlib Require Import Ascii String.
Open Scope string_scope.
Open Scope bool_scope.
Open Scope go_scope.

Module Erasure.

(** ** metadata.go *)
Record ErasureProfile := mkProfile {
  ep_DataShards : Z;
  ep_ParityShards : Z;
  ep_ShardSize : Z;
}.
Record StoreOptions := mkStoreOptions {
  so_DataShards : Z;
  so_ParityShards : Z;
  so_Instances : list string;
}.
Record ShardEndpoint := mkShardEndpoint {
  sp_Index : Z;
  sp_Endpoint : string;
  sp_Size : Z;
  sp_Checksum : string;
}.
Record ChunkManifest := mkManifest {
  cm_Path : string;
  cm_OriginalSize : Z;
  cm_Profile : ErasureProfile;
  cm_Shards : list ShardEndpoint;
}.
(** The [ShardInfo] and [ErasureFileInfo] of package erasure have the fields
    of those of package metadata, into which [StoreFile] copies them. *)
Abbreviation ShardInfo := ErasureShardInfo.

(** ** placement.go: [RoundRobinPlacement.AssignShards] *)
Definition orderedInstances (currentInstanceID : string) (availableInstances : list string) : list string :=
  currentInstanceID :: List.filter (fun inst => negb (String.eqb inst currentInstanceID)) availableInstances.

Definition AssignShards (totalShards : nat) (currentInstanceID : string)
    (availableInstances : list string) : list string :=
  match availableInstances with
  | [] => repeat currentInstanceID totalShards
  | _ =>
      let ordered := orderedInstances currentInstanceID availableInstances in
      map (fun i => nth (i mod List.length ordered) ordered "") (seq 0 totalShards)
  end.

(** ** codec.go *)

(** github.com/klauspost/reedsolomon.  A shard that is missing is an empty
    slice. *)
Record ReedSolomon := mkRS {
  rs_New : Z -> Z -> Res unit;
  rs_Split : Z -> Z -> string -> Res (list string);
  rs_Encode : Z -> Z -> list string -> Res (list string);
  rs_Reconstruct : Z -> Z -> list string -> Res (list string);
  rs_Verify : Z -> Z -> list string -> Res bool;
}.

Definition concat_str (l : list string) : string := join_with "" l.

Definition Encode (rs : ReedSolomon) (data : string) (profile : ErasureProfile) : Res (list string) :=
  let d := ep_DataShards profile in
  let p := ep_ParityShards profile in
  if (d <? 1)%Z || (p <? 1)%Z then Err ErrInvalidProfile
  else
    let! _ := res_wrap "erasure: failed to create encoder" (rs_New rs d p) in
    let! shards := res_wrap "erasure: failed to split data" (rs_Split rs d p data) in
    res_wrap "erasure: failed to encode parity" (rs_Encode rs d p shards).

(** [originalSize] is not negative: it is stored as a length. *)
Definition Decode (rs : ReedSolomon) (shards : list string) (profile : ErasureProfile) (originalSize : Z)
  : Res string :=
  let d := ep_DataShards profile in
  let p := ep_ParityShards profile in
  if (d <? 1)%Z || (p <? 1)%Z then Err ErrInvalidProfile
  else
    let! _ := res_wrap "erasure: failed to create decoder" (rs_New rs d p) in
    let! shards := res_wrap "erasure: reconstruction failed" (rs_Reconstruct rs d p shards) in
    let! ok := res_wrap "erasure: verification failed" (rs_Verify rs d p shards) in
    if negb ok then Err ErrShardCorrupted
    else
      let buf := concat_str (take (Z.to_nat d) shards) in
      if (Z.of_nat (String.length buf) <? originalSize)%Z then Err ErrInsufficientShards
      else Ok (slice_to buf originalSize).

(** ** manager.go *)

(** [config.ErasureConfig], the fields the manager reads. *)
Record ErasureConfig := mkErasureConfig {
  ec_DataShards : Z;
  ec_ParityShards : Z;
  ec_ShardBackend : string;
}.

Record Manager (W : Type) := mkManager {
  m_rs : ReedSolomon;
  (** [ShardChecksum] is the hex digest of SHA-256; [m_hashPrefix] the hex of its first 8 bytes. *)
  m_ShardChecksum : string -> string;
  m_hashPrefix : string -> string;
  m_erasureStore : ErasureMetadataStore W;
  m_localBackend : Storage W;
  m_config : ErasureConfig;
  m_instanceID : string;
  m_peerEndpoints : gmap string string;
  m_internalToken : string;
  m_httpClient : HttpClient W;
}.
Arguments m_rs {W}. Arguments m_ShardChecksum {W}. Arguments m_hashPrefix {W}.
Arguments m_erasureStore {W}. Arguments m_localBackend {W}. Arguments m_config {W}.
Arguments m_instanceID {W}. Arguments m_peerEndpoints {W}. Arguments m_internalToken {W}.
Arguments m_httpClient {W}.

(** [NewManager], with what the model passes in for the libraries.  The endpoints in
    the second result are warned about: the token travels over plain HTTP. *)
Definition NewManager {W} (rs : ReedSolomon) (ShardChecksum hashPrefix : string -> string) (httpClient : HttpClient W)
    (erasureStore : ErasureMetadataStore W) (localBackend : Storage W) (cfg : ErasureConfig) (instanceID : string)
    (peerEndpoints : gmap string string) (internalToken : string) : Manager W * list (string * string) :=
  (mkManager W rs ShardChecksum hashPrefix erasureStore localBackend cfg instanceID peerEndpoints internalToken httpClient,
   List.filter (fun '(_, ep) => HasPrefix ep "http://") (map_to_list peerEndpoints)).

Section Manager.
Context {W : Type} (m : Manager W).

(** [NewManager] takes the own endpoint from the peer map (the zero value if absent). *)
Definition endpointOf (id : string) : string :=
  match m_peerEndpoints m !! id with Some ep => ep | None => "" end.
Definition selfEndpoint : string := endpointOf (m_instanceID m).

Definition extractShardPrefix (shardPath : string) : string :=
  let trimmed := TrimPrefix shardPath ".erasure/" in
  let lastSlash := LastIndex trimmed slash in
  if (lastSlash <? 0)%Z then trimmed else slice_to trimmed lastSlash.

Definition readLocalShard (ctx : Ctx) (shardPath : string) : St W (Res string) :=
  try reader <- sg_Open (m_localBackend m) ctx shardPath;
  ret (match rd_err reader with Some e => Err e | None => Ok (rd_data reader) end).

(** The request to the shard endpoint of a peer. *)
Definition shardRequest (method endpoint prefix : string) (index : Z) (ctype : string)
    (body : option string) : HttpRequest :=
  mkHttpRequest method
    (TrimRight endpoint slash +:+ "/v1/internal/shards/" +:+ prefix +:+ "/" +:+ Itoa index)
    ("Bearer " +:+ m_internalToken m) ctype (bytesReader <$> body)
    (match body with Some d => Z.of_nat (String.length d) | None => 0 end).

Definition shardDo (instanceID : string) (mk : string -> HttpRequest) : St W (Res HttpResponse) := fun w =>
  match m_peerEndpoints m !! instanceID with
  | None => (w, Err (EMsg "no endpoint for instance"))
  | Some endpoint =>
      match hc_NewRequest (m_httpClient m) (mk endpoint) with
      | Err e => (w, Err e)
      | Ok _ => hc_Do (m_httpClient m) (mk endpoint) w
      end
  end.

Definition storeRemoteShard (instanceID hashPrefix : string) (index : Z) (data : string) : St W (Res unit) :=
  try resp <- shardDo instanceID (fun ep =>
      shardRequest "PUT" ep hashPrefix index "application/octet-stream" (Some data));
  ret (if negb (hr_Status resp =? 200)%Z && negb (hr_Status resp =? 201)%Z
       then Err (EMsg "remote shard store failed with status") else Ok tt).


Definition maxShardReadBytes : Z := Z.shiftl 256 20.

Definition fetchRemoteShard (instanceID shardPrefix : string) (index : Z) : St W (Res string) :=
  try resp <- shardDo instanceID (fun ep => shardRequest "GET" ep shardPrefix index "" None);
  ret (if negb (hr_Status resp =? 200)%Z then Err (EMsg "remote shard fetch failed with status")
       else Ok (slice_to (hr_Body resp) maxShardReadBytes)).

Definition deleteRemoteShard (instanceID shardPrefix : string) (index : Z) : St W (Res unit) :=
  try resp <- shardDo instanceID (fun ep => shardRequest "DELETE" ep shardPrefix index "" None);
  ret (if negb (hr_Status resp =? 200)%Z && negb (hr_Status resp =? 204)%Z
       then Err (EMsg "remote shard delete failed with status") else Ok tt).

(** *** StoreFile *)

Definition shardPath (hashPrefix : string) (idx : nat) : string :=
  ".erasure/" +:+ hashPrefix +:+ "/" +:+ Itoa (Z.of_nat idx).

(** The body of the goroutine of shard [idx]: the error, or the shard info. *)
Definition writeShard (ctx : Ctx) (hashPrefix : string) (shards assignments : list string) (idx : nat)
  : St W (Res ShardInfo) :=
  let shard := nth idx shards "" in
  let instanceForShard := nth idx assignments "" in
  let size := Z.of_nat (String.length shard) in
  wrap "failed to store shard" in _ <-
    (if String.eqb instanceForShard (m_instanceID m)
     then sg_Create (m_localBackend m) ctx (shardPath hashPrefix idx) (bytesReader shard) size
     else storeRemoteShard instanceForShard hashPrefix (Z.of_nat idx) shard);
  ret (Ok (mkShardInfo (Z.of_nat idx) instanceForShard (ec_ShardBackend (m_config m))
             (shardPath hashPrefix idx) size (m_ShardChecksum m shard))).

(** The goroutines in the order [order]: [shardInfos], with [None] for the
    zero value, and the first error. *)
Fixpoint writeShards (ctx : Ctx) (hashPrefix : string) (shards assignments : list string)
    (order : list nat) (infos : list (option ShardInfo)) (storeErr : option gerr)
  : St W (list (option ShardInfo) * option gerr) :=
  match order with
  | [] => ret (infos, storeErr)
  | idx :: rest =>
      do r <- writeShard ctx hashPrefix shards assignments idx;
      match r with
      | Err e => writeShards ctx hashPrefix shards assignments rest infos
                   (match storeErr with None => Some e | Some e0 => Some e0 end)
      | Ok si => writeShards ctx hashPrefix shards assignments rest (<[idx := Some si]> infos) storeErr
      end
  end.

(** Delete one shard, locally or on its peer; the result is only logged or ignored. *)
Definition deleteShard (ctx : Ctx) (si : ShardInfo) : St W unit :=
  do _ <- (if String.eqb (si_InstanceID si) (m_instanceID m)
           then sg_Delete (m_localBackend m) ctx (si_Path si)
           else deleteRemoteShard (si_InstanceID si) (extractShardPrefix (si_Path si)) (si_Index si));
  ret tt.

Fixpoint deleteShards (ctx : Ctx) (sis : list ShardInfo) : St W unit :=
  match sis with
  | [] => ret tt
  | si :: rest => do _ <- deleteShard ctx si; deleteShards ctx rest
  end.

(** The cleanup goroutines of [StoreFile]; they run in the background, here
    before the function returns. *)
Definition cleanupShards (infos : list (option ShardInfo)) : St W unit :=
  deleteShards background (omap id infos).

Definition shardCounts (opts : option StoreOptions) : Z * Z :=
  let dataShards := ec_DataShards (m_config m) in
  let parityShards := ec_ParityShards (m_config m) in
  let dataShards := if (dataShards <=? 0)%Z then 4%Z else dataShards in
  let parityShards := if (parityShards <=? 0)%Z then 2%Z else parityShards in
  match opts with
  | None => (dataShards, parityShards)
  | Some o => (if (0 <? so_DataShards o)%Z then so_DataShards o else dataShards,
               if (0 <? so_ParityShards o)%Z then so_ParityShards o else parityShards)
  end.

(** [peerOrder] is the order of the peers in the map. *)
Definition placementInstances (opts : option StoreOptions) (peerOrder : list string) : list string :=
  match opts with
  | Some (mkStoreOptions _ _ (i :: l)) => i :: l
  | _ => m_instanceID m :: List.filter (fun id => negb (String.eqb id (m_instanceID m))) peerOrder
  end.

(** The record of the stored shards; when it cannot be kept the shards go. *)
Definition recordShards (ctx : Ctx) (path : string) (originalSize dataShards parityShards shardSize : Z)
    (shardInfos : list (option ShardInfo)) : St W (Res ErasureFileInfo) :=
  let info := mkErasureInfo path originalSize dataShards parityShards shardSize (omap id shardInfos) in
  do r <- es_CreateErasureInfo (m_erasureStore m) path info;
  match r with
  | Err e => do _ <- cleanupShards shardInfos;
             ret (Err (EWrap "failed to store erasure metadata" e))
  | Ok _ => ret (Ok info)
  end.

Definition StoreFile (peerOrder : list string) (order : list nat) (ctx : Ctx) (path data : string)
    (originalSize : Z) (opts : option StoreOptions) : St W (Res ErasureFileInfo) :=
  if negb (originalSize =? Z.of_nat (String.length data))%Z
  then ret (Err (EMsg "originalSize does not match data length"))
  else
    let '(dataShards, parityShards) := shardCounts opts in
    match Encode (m_rs m) data (mkProfile dataShards parityShards 0) with
    | Err e => ret (Err (EWrap "erasure encode failed" e))
    | Ok shards =>
        let shardSize := match shards with s :: _ => Z.of_nat (String.length s) | [] => 0%Z end in
        let totalShards := Z.to_nat (dataShards + parityShards) in
        let assignments := AssignShards totalShards (m_instanceID m) (placementInstances opts peerOrder) in
        let hashPrefix := m_hashPrefix m data in
        do (shardInfos, storeErr) <-
          writeShards ctx hashPrefix shards assignments order (repeat None totalShards) None;
        match storeErr with
        | Some e => do _ <- cleanupShards shardInfos; ret (Err e)
        | None => recordShards ctx path originalSize dataShards parityShards shardSize shardInfos
        end
    end.

(** *** RetrieveFile *)

Definition fetchShard (ctx : Ctx) (si : ShardInfo) : St W (Res string) :=
  if String.eqb (si_InstanceID si) (m_instanceID m)
  then readLocalShard ctx (si_Path si)
  else fetchRemoteShard (si_InstanceID si) (extractShardPrefix (si_Path si)) (si_Index si).

(** The goroutines in the order [sis].  A fetch that has not ended when
    enough shards have arrived is cancelled and fails, unless it is [late] and
    still delivers.  [None]: an index outside of the slice, a panic. *)
Fixpoint fetchShards (ctx : Ctx) (late : ShardInfo -> bool) (need : Z) (sis : list ShardInfo)
    (shards : list string) (successCount : Z) : St W (option (list string * Z)) :=
  match sis with
  | [] => ret (Some (shards, successCount))
  | si :: rest =>
      if (need <=? successCount)%Z && negb (late si)
      then fetchShards ctx late need rest shards successCount
      else
        do r <- fetchShard ctx si;
        match r with
        | Err _ => fetchShards ctx late need rest shards successCount
        | Ok data =>
            if negb (String.eqb (m_ShardChecksum m data) (si_Checksum si))
            then fetchShards ctx late need rest shards successCount
            else if (si_Index si <? 0)%Z || (Z.of_nat (List.length shards) <=? si_Index si)%Z
            then ret None
            else fetchShards ctx late need rest (<[Z.to_nat (si_Index si) := data]> shards) (successCount + 1)
        end
  end.

(** [order] arranges the shards of the record in the order their goroutines end. *)
Definition RetrieveFile (order : list ShardInfo -> list ShardInfo) (late : ShardInfo -> bool)
    (ctx : Ctx) (path : string) : St W (Res string) := fun w =>
  match es_GetErasureInfo (m_erasureStore m) path w with
  | Err e => (w, Err (EWrap "failed to get erasure info" e))
  | Ok mdInfo =>
      let d := ei_DataShards mdInfo in
      let totalShards := Z.to_nat (d + ei_ParityShards mdInfo) in
      let '(w', r) := fetchShards ctx late d (order (ei_Shards mdInfo)) (repeat "" totalShards) 0 w in
      match r with
      | None => (w', Err (EMsg "panic: index out of range"))
      | Some (shards, successCount) =>
          if (successCount <? d)%Z then (w', Err ErrInsufficientShards)
          else (w', Decode (m_rs m) shards
                      (mkProfile d (ei_ParityShards mdInfo) (ei_ShardSize mdInfo)) (ei_OriginalSize mdInfo))
      end
  end.

(** *** GetManifest, GetShard, DeleteFile *)

Fixpoint manifestShards (path : string) (sis : list ShardInfo) : Res (list ShardEndpoint) :=
  match sis with
  | [] => Ok []
  | si :: rest =>
      let endpoint := if String.eqb (si_InstanceID si) (m_instanceID m) then selfEndpoint
                      else endpointOf (si_InstanceID si) in
      if String.eqb endpoint "" then Err (EMsg "no endpoint found for instance")
      else
        let! eps := manifestShards path rest in
        Ok (mkShardEndpoint (si_Index si)
              (TrimRight endpoint slash +:+ "/v1/shards/" +:+ TrimPrefix path "/" +:+ "/" +:+ Itoa (si_Index si))
              (si_Size si) (si_Checksum si) :: eps)
  end.

Definition GetManifest (path : string) (w : W) : Res ChunkManifest :=
  let! mdInfo := res_wrap "failed to get erasure info" (es_GetErasureInfo (m_erasureStore m) path w) in
  let! eps := manifestShards path (ei_Shards mdInfo) in
  Ok (mkManifest path (ei_OriginalSize mdInfo)
        (mkProfile (ei_DataShards mdInfo) (ei_ParityShards mdInfo) (ei_ShardSize mdInfo)) eps).

Fixpoint getShardLoop (ctx : Ctx) (index : Z) (sis : list ShardInfo) : St W (Res string) :=
  match sis with
  | [] => ret (Err ErrShardNotFound)
  | si :: rest =>
      if (si_Index si =? index)%Z && String.eqb (si_InstanceID si) (m_instanceID m) then
        try data <- readLocalShard ctx (si_Path si);
        ret (if negb (String.eqb (m_ShardChecksum m data) (si_Checksum si))
             then Err (EMsg "shard checksum mismatch: data corrupted on disk") else Ok data)
      else getShardLoop ctx index rest
  end.

Definition GetShard (ctx : Ctx) (path : string) (index : Z) : St W (Res string) := fun w =>
  match es_GetErasureInfo (m_erasureStore m) path w with
  | Err e => (w, Err (EWrap "failed to get erasure info" e))
  | Ok mdInfo => getShardLoop ctx index (ei_Shards mdInfo) w
  end.

Definition DeleteFile (order : list ShardInfo -> list ShardInfo) (ctx : Ctx) (path : string)
  : St W (Res unit) := fun w =>
  match es_GetErasureInfo (m_erasureStore m) path w with
  | Err e => (w, Err (EWrap "failed to get erasure info for delete" e))
  | Ok mdInfo =>
      (wrap "failed to delete erasure metadata" in _ <- es_DeleteErasureInfo (m_erasureStore m) path;
       do _ <- deleteShards ctx (order (ei_Shards mdInfo)); ret (Ok tt)) w
  end.

End Manager.

(** ** Placement *)

Definition count_of (inst : string) (l : list string) : nat :=
  List.length (List.filter (fun a => String.eqb a inst) l).

(** How often a residue occurs below [t]. *)
Lemma residues_below n k t :
  k < n -> exists q r, t = n * q + r /\ r < n /\
    List.length (List.filter (fun i => Nat.eqb (i mod n) k) (seq 0 t)) = q + (if Nat.ltb k r then 1 else 0).
Proof.
  intros Hk. induction t as [| t (q & r & Ht & Hr & IH)].
  { exists 0, 0. cbn. split; [lia |]. split; [lia | done]. }
  rewrite seq_S, List.filter_app, List.length_app, IH. cbn [List.filter plus].
  assert (Hm : t mod n = r).
  { rewrite Ht, Nat.mul_comm, Nat.add_comm, Nat.Div0.mod_add. by apply Nat.mod_small. }
  rewrite Hm. destruct (Nat.eq_dec (S r) n) as [He | He].
  - exists (S q), 0. split; [nia |]. split; [lia |].
    destruct (Nat.eqb_spec r k), (Nat.ltb_spec k r), (Nat.ltb_spec k 0); cbn; lia.
  - exists q, (S r). split; [lia |]. split; [lia |].
    destruct (Nat.eqb_spec r k), (Nat.ltb_spec k r), (Nat.ltb_spec k (S r)); cbn; lia.
Qed.

Lemma count_map_seq (ordered : list string) inst t k :
  NoDup ordered -> ordered !! k = Some inst ->
  count_of inst (map (fun i => nth (i mod List.length ordered) ordered "") (seq 0 t)) =
  List.length (List.filter (fun i => Nat.eqb (i mod List.length ordered) k) (seq 0 t)).
Proof.
  intros Hnd Hk. unfold count_of. induction (seq 0 t) as [| i l IH]; [done |].
  cbn [map List.filter].
  assert (Hlen : i mod List.length ordered < List.length ordered).
  { apply Nat.mod_upper_bound. intros Hz. apply nil_length_inv in Hz. by subst. }
  assert (Hn : ordered !! (i mod List.length ordered) = Some (nth (i mod List.length ordered) ordered "")).
  { rewrite nth_lookup. destruct (ordered !! (i mod List.length ordered)) eqn:E; [done |].
    apply lookup_ge_None in E. lia. }
  destruct (Nat.eqb_spec (i mod List.length ordered) k) as [<- | Hne].
  - rewrite Hn in Hk. injection Hk as ->. rewrite String.eqb_refl. cbn. by rewrite IH.
  - destruct (String.eqb_spec (nth (i mod List.length ordered) ordered "") inst) as [<- | _]; [| done].
    exfalso. apply Hne. by eapply NoDup_lookup.
Qed.

Lemma orderedInstances_nodup cur avail : NoDup avail -> NoDup (orderedInstances cur avail).
Proof.
  intros H. unfold orderedInstances. constructor.
  - rewrite list_elem_of_In, List.filter_In. intros [_ Hx]. by rewrite String.eqb_refl in Hx.
  - apply NoDup_ListNoDup, List.NoDup_filter. by apply NoDup_ListNoDup.
Qed.

(** Placement survives the loss of any one instance: every shard is assigned,
    the first one to the current instance, and if there are enough instances
    ([total <= parity * instances], for distinct ids) then no instance holds more than [parity]
    shards, so at least [total - parity] shards are elsewhere. *)
Theorem placement_tolerates_loss total parity cur avail inst :
  NoDup avail -> avail <> [] -> total <= parity * List.length (orderedInstances cur avail) ->
  let a := AssignShards total cur avail in
  List.length a = total /\ (0 < total -> nth 0 a "" = cur) /\
  Forall (fun x => x = cur \/ x ∈ avail) a /\
  count_of inst a <= parity.
Proof.
  intros Hnd Hne Htot a. unfold AssignShards in a. destruct avail as [| i0 av]; [done |].
  set (ordered := orderedInstances cur (i0 :: av)) in *.
  assert (Hpos : 0 < List.length ordered) by (cbn; lia).
  assert (Hnd' : NoDup ordered) by (by apply orderedInstances_nodup).
  split; [unfold a; by rewrite List.length_map, List.length_seq |].
  split; [intros Ht; unfold a; destruct total; [lia |]; cbn [seq map nth]; by rewrite Nat.Div0.mod_0_l |].
  split.
  - apply Forall_forall. intros x Hx. unfold a in Hx. apply list_elem_of_In, in_map_iff in Hx as (i & <- & _).
    assert (Hi : In (nth (i mod List.length ordered) ordered "") ordered).
    { apply nth_In, Nat.mod_upper_bound. lia. }
    destruct Hi as [Hi | Hi]; [by left |]. right. apply List.filter_In in Hi as [Hi _].
    by apply list_elem_of_In.
  - destruct (decide (inst ∈ ordered)) as [Hin | Hout].
    + apply list_elem_of_lookup_1 in Hin as [k Hk]. unfold a. rewrite (count_map_seq _ _ _ k) by done.
      destruct (residues_below (List.length ordered) k total) as (q & r & Ht & Hr & ->).
      { by eapply lookup_lt_Some. }
      destruct (Nat.ltb_spec k r); nia.
    + assert (Hz : count_of inst a = 0); [| lia]. unfold count_of.
      apply length_zero_iff_nil. destruct (List.filter _ a) as [| x l] eqn:E; [done |].
      assert (Hx : In x (List.filter (fun y => String.eqb y inst) a)) by (rewrite E; by left).
      apply List.filter_In in Hx as [Hx He]. to_prop. subst x. exfalso. apply Hout.
      unfold a in Hx. apply in_map_iff in Hx as (i & <- & _).
      apply list_elem_of_In, nth_In, Nat.mod_upper_bound. lia.
Qed.

Lemma placement_tolerates_loss_witness :
  let a := AssignShards 6 "n1" ["n1"; "n2"; "n3"] in
  List.length a = 6 /\ (0 < 6 -> nth 0 a "" = "n1") /\
  Forall (fun x => x = "n1" \/ x ∈ ["n1"; "n2"; "n3"]) a /\ count_of "n2" a <= 2.
Proof.
  apply (placement_tolerates_loss 6 2 "n1" ["n1"; "n2"; "n3"] "n2");
    [apply (bool_decide_unpack _); vm_compute; exact I | done | cbn; lia].
Defined.

(** ** The codec over the library's documented behaviour *)

Definition present (l : list string) : Z :=
  Z.of_nat (List.length (List.filter (fun s => negb (String.eqb s "")) l)).

(** [part] is [full] with some shards missing. *)
Definition partial_of : list string -> list string -> Prop := Forall2 (fun s q => q = s \/ q = "").

(** [codeword] is what the library calls a complete, verified set of shards. *)
Class RSLaws (rs : ReedSolomon) (codeword : Z -> Z -> list string -> Prop) : Prop := {
  rs_split_law : forall d p data l, (1 <= d)%Z -> (1 <= p)%Z -> rs_New rs d p = Ok tt ->
    rs_Split rs d p data = Ok l ->
    Z.of_nat (List.length l) = (d + p)%Z /\ exists pad, concat_str (take (Z.to_nat d) l) = data +:+ pad;
  rs_encode_law : forall d p l l', (1 <= d)%Z -> (1 <= p)%Z -> rs_New rs d p = Ok tt ->
    rs_Encode rs d p l = Ok l' ->
    List.length l' = List.length l /\ take (Z.to_nat d) l' = take (Z.to_nat d) l /\
    codeword d p l' /\ Forall (fun s => s <> "") l';
  rs_reconstruct_law : forall d p full part, (1 <= d)%Z -> (1 <= p)%Z -> rs_New rs d p = Ok tt ->
    codeword d p full -> partial_of full part -> (d <= present part)%Z ->
    rs_Reconstruct rs d p part = Ok full;
  rs_verify_law : forall d p full, codeword d p full -> rs_Verify rs d p full = Ok true;
}.

Section Codec.
Context (rs : ReedSolomon) (codeword : Z -> Z -> list string -> Prop) {rs_laws : RSLaws rs codeword}.

Lemma Encode_Ok data d p sz shards :
  Encode rs data (mkProfile d p sz) = Ok shards ->
  (1 <= d)%Z /\ (1 <= p)%Z /\ rs_New rs d p = Ok tt /\ Z.of_nat (List.length shards) = (d + p)%Z /\
  codeword d p shards /\ Forall (fun s => s <> "") shards /\
  exists pad, concat_str (take (Z.to_nat d) shards) = data +:+ pad.
Proof.
  unfold Encode. cbn [ep_DataShards ep_ParityShards].
  destruct (_ || _)%bool eqn:Eb; [done |]. to_prop.
  destruct (rs_New rs d p) as [[] |] eqn:En; [| done]. cbn [res_wrap res_bind].
  destruct (rs_Split rs d p data) as [l |] eqn:Es; [| done]. cbn [res_wrap res_bind].
  destruct (rs_Encode rs d p l) as [l' |] eqn:Ee; [| done]. intros Heq; injection Heq as <-.
  apply rs_split_law in Es as [Hl [pad Hp]]; [| lia | lia | done].
  apply rs_encode_law in Ee as (Hl' & Ht & Hc & Hne); [| lia | lia | done].
  repeat split; try done; try lia. exists pad. by rewrite Ht.
Qed.

Lemma Decode_partial data d p sz sz' shards part :
  Encode rs data (mkProfile d p sz) = Ok shards -> partial_of shards part -> (d <= present part)%Z ->
  Decode rs part (mkProfile d p sz') (Z.of_nat (String.length data)) = Ok data.
Proof.
  intros He Hp Hn. apply Encode_Ok in He as (Hd & Hpp & Hnew & Hlen & Hc & Hne & pad & Hcat).
  unfold Decode. cbn [ep_DataShards ep_ParityShards].
  rewrite (proj2 (Z.ltb_ge d 1)), (proj2 (Z.ltb_ge p 1)) by lia. cbn [orb].
  rewrite Hnew. cbn [res_wrap res_bind].
  rewrite (rs_reconstruct_law d p shards part) by done. cbn [res_wrap res_bind].
  rewrite rs_verify_law by done. cbn [res_wrap res_bind negb]. rewrite Hcat.
  rewrite str_length_app, (proj2 (Z.ltb_ge _ _)) by lia.
  unfold slice_to. by rewrite Nat2Z.id, str_take_app.
Qed.

End Codec.

(** The code with one data shard: every shard is a copy of the data. *)
Definition copyRS : ReedSolomon := mkRS
  (fun d p => if (d =? 1)%Z && (1 <=? p)%Z then Ok tt else Err (EMsg "invalid number of shards"))
  (fun d p data => if String.eqb data "" then Err (EMsg "short data") else Ok (data :: repeat "" (Z.to_nat p)))
  (fun d p l => match l with
                | s :: _ => if String.eqb s "" then Err (EMsg "shard size") else Ok (repeat s (List.length l))
                | [] => Err (EMsg "too few shards") end)
  (fun d p l => match List.find (fun s => negb (String.eqb s "")) l with
                | Some s => Ok (repeat s (List.length l))
                | None => Err (EMsg "too few shards given") end)
  (fun _ _ _ => Ok true).

Definition copies (d p : Z) (l : list string) : Prop := exists s, s <> "" /\ l = repeat s (List.length l).

Lemma partial_copies_find s l part :
  l = repeat s (List.length l) -> partial_of l part -> (1 <= present part)%Z ->
  List.find (fun s => negb (String.eqb s "")) part = Some s /\ List.length part = List.length l.
Proof.
  intros Hl Hp. induction Hp as [| x q l part Hx Hp IH]; [unfold present; cbn; lia |].
  cbn [List.length repeat] in Hl. injection Hl as -> Hl. specialize (IH Hl).
  unfold present in *. cbn [List.find List.filter List.length].
  destruct (String.eqb_spec q "") as [-> | Hq]; cbn [negb].
  - intros H. apply IH in H as [-> ->]. done.
  - intros _. destruct Hx as [-> | ->]; [| done]. split; [done |].
    f_equal. symmetry. by eapply Forall2_length.
Qed.

#[global] Instance copyRS_laws : RSLaws copyRS copies.
Proof.
  split; cbn [copyRS rs_New rs_Split rs_Encode rs_Reconstruct rs_Verify].
  - intros d p data l Hd Hp Hn. destruct (_ && _)%bool eqn:E; [| done]. to_prop. subst d.
    destruct (String.eqb data ""); [done |]. intros Heq; injection Heq as <-.
    cbn [List.length]. rewrite repeat_length. split; [lia |]. exists "". cbn. by rewrite str_app_nil_r.
  - intros d p l l' Hd Hp Hn. destruct (_ && _)%bool eqn:E; [| done]. to_prop. subst d.
    destruct l as [| s l]; [done |]. destruct (String.eqb_spec s "") as [-> | Hs]; [done |].
    intros Heq; injection Heq as <-. cbn [List.length]. rewrite repeat_length. split; [done |]. split; [done |]. split.
    + exists s. split; [done |]. cbn [List.length repeat]. by rewrite repeat_length.
    + constructor; [done |]. apply Forall_forall. intros x Hx. apply list_elem_of_In, repeat_spec in Hx. by subst.
  - intros d p full part Hd Hp Hn (s & Hs & Hf) Hpart Hpres.
    destruct (partial_copies_find s full part) as [-> Hlen]; [done | done | lia |].
    by rewrite Hlen, <- Hf.
  - done.
Qed.

(** ** Store and retrieve *)

(** The contract of the erasure part of a metadata store. *)
Class ErasureSpec {W} (es : ErasureMetadataStore W) (eview : W -> gmap string ErasureFileInfo) : Prop := {
  espec_Get : forall p w, es_GetErasureInfo es p w =
    match eview w !! p with Some i => Ok i | None => Err ErrNotFound end;
  espec_Create : forall p i w w', es_CreateErasureInfo es p i w = (w', Ok tt) -> eview w' = <[p := i]> (eview w);
  espec_Delete : forall p w w', es_DeleteErasureInfo es p w = (w', Ok tt) -> eview w' = delete p (eview w);
}.

Section StoreRetrieve.
Context {W : Type} (m : Manager W) (codeword : Z -> Z -> list string -> Prop)
        (eview : W -> gmap string ErasureFileInfo)
        {rs_laws : RSLaws (m_rs m) codeword} {es_spec : ErasureSpec (m_erasureStore m) eview}.

(** The info of a shard that was written. *)
Definition infoOf (hashPrefix : string) (shards assignments : list string) (idx : nat) : ShardInfo :=
  mkShardInfo (Z.of_nat idx) (nth idx assignments "") (ec_ShardBackend (m_config m))
    (shardPath hashPrefix idx) (Z.of_nat (String.length (nth idx shards "")))
    (m_ShardChecksum m (nth idx shards "")).

Lemma writeShard_Ok ctx hp shards asg idx w w' si :
  writeShard m ctx hp shards asg idx w = (w', Ok si) -> si = infoOf hp shards asg idx.
Proof.
  unfold writeShard, try_bind, ret.
  match goal with |- context [(if ?b then ?x else ?y) w] => destruct ((if b then x else y) w) as [w1 [[] | e]] end;
    intros Heq; by injection Heq.
Qed.

Lemma writeShards_err ctx hp shards asg order infos e w w' infos' r :
  writeShards m ctx hp shards asg order infos (Some e) w = (w', (infos', r)) -> r = Some e.
Proof.
  revert infos w. induction order as [| idx order IH]; intros infos w; cbn [writeShards].
  { unfold ret. intros Heq; by injection Heq. }
  unfold bind. destruct (writeShard m ctx hp shards asg idx w) as [w1 [si | e1]]; apply IH.
Qed.

Lemma writeShards_Ok ctx hp shards asg order infos w w' infos' :
  writeShards m ctx hp shards asg order infos None w = (w', (infos', None)) ->
  List.length infos' = List.length infos /\
  forall i, i < List.length infos ->
    infos' !! i = if decide (i ∈ order) then Some (Some (infoOf hp shards asg i)) else infos !! i.
Proof.
  revert infos w. induction order as [| idx order IH]; intros infos w; cbn [writeShards].
  { unfold ret. intros Heq; injection Heq as <- <-. done. }
  unfold bind. destruct (writeShard m ctx hp shards asg idx w) as [w1 [si | e1]] eqn:E;
    [| intros H; by apply writeShards_err in H].
  intros H. apply writeShard_Ok in E as ->. apply IH in H as [Hl H].
  rewrite length_insert in Hl, H. split; [done |]. intros i Hi. rewrite (H i Hi).
  destruct (decide (i ∈ order)) as [Hin | Hout].
  - by rewrite decide_True by (by right).
  - destruct (decide (i = idx)) as [-> | Hne].
    + rewrite decide_True by left. by rewrite list_lookup_insert_eq.
    + rewrite decide_False by (rewrite elem_of_cons; tauto). by rewrite list_lookup_insert_ne.
Qed.

Lemma writeShards_all ctx hp shards asg order n w w' infos' :
  order ≡ₚ seq 0 n ->
  writeShards m ctx hp shards asg order (repeat None n) None w = (w', (infos', None)) ->
  omap id infos' = map (infoOf hp shards asg) (seq 0 n).
Proof.
  intros Hp H. apply writeShards_Ok in H as [Hl H]. rewrite repeat_length in Hl, H.
  assert (Hi : infos' = Some <$> map (infoOf hp shards asg) (seq 0 n)).
  { apply list_eq. intros i. destruct (decide (i < n)) as [Hlt | Hge].
    - rewrite H by done. rewrite decide_True by (rewrite Hp; apply elem_of_seq; lia).
      rewrite !list_lookup_fmap. rewrite lookup_seq_lt by done. done.
    - rewrite !lookup_ge_None_2; [done | |]; rewrite ?length_fmap, ?List.length_map, ?List.length_seq; lia. }
  rewrite Hi. clear. induction (map _ _) as [| x l IH]; [done |]. cbn. by f_equal.
Qed.

(** What [StoreFile] leaves behind when it succeeds. *)
Lemma StoreFile_Ok peers order ctx path data n opts w w1 info :
  order ≡ₚ seq 0 (Z.to_nat ((shardCounts m opts).1 + (shardCounts m opts).2)) ->
  StoreFile m peers order ctx path data n opts w = (w1, Ok info) ->
  exists shards asg, let '(d, p) := shardCounts m opts in
    n = Z.of_nat (String.length data) /\ Encode (m_rs m) data (mkProfile d p 0) = Ok shards /\
    eview w1 !! path = Some info /\
    ei_OriginalSize info = n /\ ei_DataShards info = d /\ ei_ParityShards info = p /\
    ei_Shards info = map (infoOf (m_hashPrefix m data) shards asg) (seq 0 (Z.to_nat (d + p))) /\
    exists w2 infos, writeShards m ctx (m_hashPrefix m data) shards asg order (repeat None (Z.to_nat (d + p))) None w = (w2, (infos, None)) /\
      es_CreateErasureInfo (m_erasureStore m) path info w2 = (w1, Ok tt).
Proof.
  intros Hord. unfold StoreFile. destruct (n =? _)%Z eqn:En; [| done]. cbn [negb]. to_prop.
  destruct (shardCounts m opts) as [d p]. cbn [fst snd] in Hord.
  destruct (Encode _ _ _) as [shards | e] eqn:Ee; [| done].
  set (asg := AssignShards _ _ _). unfold bind at 1.
  destruct (writeShards _ _ _ _ _ _ _ _ w) as [w2 [infos [e |]]] eqn:Ew.
  { unfold bind, ret. by destruct (cleanupShards m infos w2). }
  unfold recordShards, bind. destruct (es_CreateErasureInfo _ _ _ w2) as [w3 [[] | e]] eqn:Ec.
  2: { destruct (cleanupShards m infos w3). by unfold ret. }
  unfold ret. intros Heq; injection Heq as <- <-.
  pose proof (espec_Create _ _ _ _ Ec) as Hv. exists shards, asg. cbn [ei_OriginalSize ei_DataShards ei_ParityShards ei_Shards].
  rewrite Hv, lookup_insert_eq. repeat split; try done; [by eapply writeShards_all | by exists w2, infos].
Qed.

(** In the worlds of [I] the shards of [good] can be read back, and no shard
    that is read has the checksum of the stored one without being it. *)
Definition readable (ctx : Ctx) (I : W -> Prop) (good : nat -> bool) (shards : list string)
    (sis : list ShardInfo) : Prop :=
  forall i si s w w' r, sis !! i = Some si -> shards !! i = Some s -> I w ->
    fetchShard m ctx si w = (w', r) ->
    I w' /\ (good i = true -> r = Ok s) /\
    (forall data, r = Ok data -> m_ShardChecksum m data = m_ShardChecksum m s -> data = s).

Lemma present_insert l i s :
  l !! i = Some "" -> s <> "" -> present (<[i := s]> l) = (present l + 1)%Z.
Proof.
  intros Hi Hs. apply String.eqb_neq in Hs. revert i Hi.
  induction l as [| x l IH]; intros [| i] Hi; [done | done | |]; cbn in Hi.
  - injection Hi as ->. change (<[0 := s]> ("" :: l)) with (s :: l). unfold present.
    cbn [List.filter]. rewrite Hs. cbn [negb List.length String.eqb]. lia.
  - change (<[S i := s]> (x :: l)) with (x :: <[i := s]> l). specialize (IH i Hi). unfold present in *.
    cbn [List.filter]. destruct (negb (String.eqb x "")); cbn [List.length]; lia.
Qed.

Lemma fetchShards_spec ctx late need hp shards asg I good idxs part count w :
  readable ctx I good shards (map (infoOf hp shards asg) (seq 0 (List.length shards))) ->
  Forall (fun s => s <> "") shards -> I w -> NoDup idxs -> Forall (fun i => i < List.length shards) idxs ->
  partial_of shards part -> (forall i, i ∈ idxs -> part !! i = Some "") -> count = present part ->
  exists w' part', fetchShards m ctx late need (map (infoOf hp shards asg) idxs) part count w =
      (w', Some (part', present part')) /\ partial_of shards part' /\
      (Z.min need (count + Z.of_nat (List.length (List.filter good idxs))) <= present part')%Z.
Proof.
  intros Hread Hne. revert part count w.
  induction idxs as [| i idxs IH]; intros part count w HI Hnd Hlt Hpart Hemp ->.
  { exists w, part. cbn. split; [done |]. split; [done | lia]. }
  apply NoDup_cons in Hnd as [Hni Hnd]. apply Forall_cons in Hlt as [Hi Hlt].
  assert (Hlen : List.length part = List.length shards) by (symmetry; by eapply Forall2_length).
  cbn [map fetchShards].
  assert (Hskip : forall w1 (good_i : bool), I w1 -> (good i = true -> good_i = true) ->
     (good_i = true -> (need <= present part)%Z) ->
     exists w' part', fetchShards m ctx late need (map (infoOf hp shards asg) idxs) part (present part) w1 =
      (w', Some (part', present part')) /\ partial_of shards part' /\
      (Z.min need (present part + Z.of_nat (List.length (List.filter good (i :: idxs)))) <= present part')%Z).
  { intros w1 gi HI1 Hg Hc. destruct (IH part (present part) w1) as (w' & part' & -> & Hp & Hm);
      try done; [intros j Hj; apply Hemp; by right |].
    exists w', part'. split; [done |]. split; [done |]. cbn [List.filter].
    destruct (good i); [specialize (Hc (Hg eq_refl)); cbn [List.length]; lia | done]. }
  destruct ((need <=? present part)%Z && negb (late _))%bool eqn:Ecut.
  { apply andb_true_iff in Ecut as [Ecut _]. to_prop. by apply (Hskip w true). }
  unfold bind. destruct (fetchShard m ctx (infoOf hp shards asg i) w) as [w1 r] eqn:Ef.
  destruct (lookup_lt_is_Some_2 shards i Hi) as [s Hs].
  assert (Hnth : nth i shards "" = s) by (rewrite nth_lookup; by rewrite Hs).
  destruct (Hread i (infoOf hp shards asg i) s w w1 r) as (HI1 & Hgood & Hcoll); [| done | done | done |].
  { by rewrite list_lookup_fmap, lookup_seq_lt. }
  destruct r as [data | e].
  2: { apply (Hskip w1 false); [done | intros Hg; by apply Hgood in Hg | done]. }
  cbn [si_Checksum infoOf si_Index]. rewrite Hnth.
  destruct (String.eqb_spec (m_ShardChecksum m data) (m_ShardChecksum m s)) as [Hck | Hck]; cbn [negb].
  2: { apply (Hskip w1 false); [done | | done]. intros Hg. apply Hgood in Hg. injection Hg as ->. done. }
  rewrite (Hcoll data eq_refl Hck). rewrite (proj2 (Z.ltb_ge _ _)), (proj2 (Z.leb_gt _ _)) by lia.
  cbn [orb]. rewrite Nat2Z.id.
  assert (Hsne : s <> "") by (rewrite Forall_forall in Hne; eapply Hne, list_elem_of_lookup_2, Hs).
  assert (Hpi : present (<[i := s]> part) = (present part + 1)%Z).
  { apply present_insert; [apply Hemp; by left | done]. }
  destruct (IH (<[i := s]> part) (present part + 1)%Z w1) as (w' & part' & -> & Hp & Hm); try done.
  - unfold partial_of. apply Forall2_lookup. intros j. destruct (decide (j = i)) as [-> | Hj].
    + rewrite list_lookup_insert_eq by lia. rewrite Hs. constructor. by left.
    + rewrite list_lookup_insert_ne by done. by apply Forall2_lookup.
  - intros j Hj. rewrite list_lookup_insert_ne by (intros ->; done). apply Hemp. by right.
  - exists w', part'. split; [done |]. split; [done |]. cbn [List.filter].
    destruct (good i); cbn [List.length]; lia.
Qed.

(** Reading a file back, by any manager that has the checksums, the code and the record. *)
Lemma RetrieveFile_readable path info data n d p shards asg hp order2 late ctx2 I good w2 :
  Encode (m_rs m) data (mkProfile d p 0) = Ok shards -> n = Z.of_nat (String.length data) ->
  ei_OriginalSize info = n -> ei_DataShards info = d -> ei_ParityShards info = p ->
  ei_Shards info = map (infoOf hp shards asg) (seq 0 (List.length shards)) ->
  eview w2 !! path = Some info -> I w2 -> readable ctx2 I good shards (ei_Shards info) ->
  (d <= Z.of_nat (List.length (List.filter good (seq 0 (List.length shards)))))%Z ->
  order2 (ei_Shards info) ≡ₚ ei_Shards info ->
  exists w3, RetrieveFile m order2 late ctx2 path w2 = (w3, Ok data).
Proof.
  intros Henc -> Hsz Hd Hp Hsh Hv2 HI Hread Hgood Hperm.
  destruct (Encode_Ok _ codeword _ _ _ _ _ Henc) as (Hd1 & Hp1 & _ & Hlen & _ & Hne & _).
  unfold RetrieveFile. rewrite espec_Get, Hv2, Hd, Hp, Hsz. rewrite Hsh in Hread, Hperm |- *.
  assert (Hidx : exists idxs, order2 (map (infoOf hp shards asg) (seq 0 (List.length shards)))
       = map (infoOf hp shards asg) idxs /\ idxs ≡ₚ seq 0 (List.length shards)).
  { apply Permutation_map_inv in Hperm as (idxs & -> & Hpm). exists idxs.
    split; [done | by apply Permutation_sym]. }
  destruct Hidx as (idxs & -> & Hpm).
  replace (Z.to_nat (d + p)) with (List.length shards) by lia.
  destruct (fetchShards_spec ctx2 late d hp shards asg I good idxs
              (repeat "" (List.length shards)) 0 w2) as (w3 & part & -> & Hpart & Hmin); try done.
  - rewrite Hpm. apply NoDup_seq.
  - rewrite Hpm. apply Forall_forall. intros i Hi. apply elem_of_seq in Hi. lia.
  - clear. induction shards; constructor; [by right | done].
  - intros i Hi. rewrite Hpm in Hi. apply elem_of_seq in Hi. clear -Hi. revert i Hi. induction shards as [| x l IH]; intros i Hi; cbn in *; [lia |]. destruct i; [done |]. apply IH. lia.
  - unfold present. clear. induction shards; [done |]. done.
  - exists w3.
    assert (Hcnt : List.length (List.filter good idxs) = List.length (List.filter good (seq 0 (List.length shards)))).
    { clear -Hpm. induction Hpm; cbn; try done; [by destruct (good x); cbn; rewrite ?IHHpm
        | by destruct (good x), (good y) | by etrans]. }
    rewrite (proj2 (Z.ltb_ge _ _)) by lia.
    f_equal. eapply Decode_partial; [done | done | done | lia].
Qed.

(** A stored erasure-coded file is retrieved from the shards that are left:
    after a successful [StoreFile], in any later world that still has the
    file's record and in which at least [DataShards] of its shards can be
    read, [RetrieveFile] returns the stored data, however the fetches are
    ordered and cut short, and whether the other shards are missing, cannot be
    reached or are corrupted (detected by their checksum). *)
Theorem erasure_store_retrieve peers order ctx path data n opts w w1 info :
  order ≡ₚ seq 0 (Z.to_nat ((shardCounts m opts).1 + (shardCounts m opts).2)) ->
  StoreFile m peers order ctx path data n opts w = (w1, Ok info) ->
  eview w1 !! path = Some info /\
  exists shards, Encode (m_rs m) data (mkProfile (ei_DataShards info) (ei_ParityShards info) 0) = Ok shards /\
  forall w2 (I : W -> Prop) good order2 late ctx2,
    eview w2 !! path = Some info -> I w2 -> readable ctx2 I good shards (ei_Shards info) ->
    (ei_DataShards info <= Z.of_nat (List.length (List.filter good (seq 0 (List.length shards)))))%Z ->
    order2 (ei_Shards info) ≡ₚ ei_Shards info ->
    exists w3, RetrieveFile m order2 late ctx2 path w2 = (w3, Ok data).
Proof.
  intros Hord Hst. destruct (StoreFile_Ok _ _ _ _ _ _ _ _ _ _ Hord Hst) as (shards & asg & H).
  destruct (shardCounts m opts) as [d p]. destruct H as (Hn & Henc & Hv & Hsz & Hd & Hp & Hsh & _).
  split; [done |]. exists shards. rewrite Hd, Hp. split; [done |].
  intros w2 I good order2 late ctx2 Hv2 HI Hread Hgood Hperm.
  destruct (Encode_Ok _ codeword _ _ _ _ _ Henc) as (Hd1 & Hp1 & _ & Hlen & _).
  replace (Z.to_nat (d + p)) with (List.length shards) in Hsh by lia. by eapply RetrieveFile_readable.
Qed.

(** [DeleteFile] removes the record before the shards: once it returned
    without error the file cannot be retrieved any more, whatever happened to
    the shards. *)
Theorem erasure_delete_gone order ctx path w w1 :
  (forall l w w', deleteShards m ctx l w = (w', tt) -> eview w' = eview w) ->
  DeleteFile m order ctx path w = (w1, Ok tt) ->
  eview w1 = delete path (eview w) /\
  forall order2 late ctx2, RetrieveFile m order2 late ctx2 path w1 =
    (w1, Err (EWrap "failed to get erasure info" ErrNotFound)).
Proof.
  intros Hframe. unfold DeleteFile. rewrite espec_Get. destruct (eview w !! path); [| done].
  unfold try_bind, bind, ret. destruct (es_DeleteErasureInfo _ _ w) as [w2 [[] | er]] eqn:E; [| done].
  apply espec_Delete in E. destruct (deleteShards _ _ _ w2) as [w3 []] eqn:Ed. apply Hframe in Ed.
  intros Heq; injection Heq as <-. rewrite Ed, E. split; [done |].
  intros order2 late ctx2. unfold RetrieveFile. by rewrite espec_Get, Ed, E, lookup_delete_eq.
Qed.

End StoreRetrieve.

(** ** A concrete system: this node, one peer and the records *)

Record TwoNodes := mkTwoNodes {
  tn_local : gmap string string;
  tn_peer : gmap string string;
  tn_infos : gmap string ErasureFileInfo;
}.

(** A local backend that, like the local file system, refuses to create what exists. *)
Definition tnLocal : Storage TwoNodes := mkStorage TwoNodes
  (fun _ p w => (w, match tn_local w !! p with Some d => Ok (bytesReader d) | None => Err ErrNotFound end))
  (fun _ p rd _ w => match tn_local w !! p with
                     | Some _ => (w, Err ErrAlreadyExists)
                     | None => (mkTwoNodes (<[p := rd_data rd]> (tn_local w)) (tn_peer w) (tn_infos w), Ok tt) end)
  (fun _ p rd _ w => (mkTwoNodes (<[p := rd_data rd]> (tn_local w)) (tn_peer w) (tn_infos w), Ok tt))
  (fun _ p w => (mkTwoNodes (delete p (tn_local w)) (tn_peer w) (tn_infos w), Ok tt))
  (fun _ _ w => (w, Err ErrNotFound)) (fun _ _ w => (w, Ok [])) (fun _ _ w => (w, Ok tt)).

(** The shard endpoint of the peer: a PUT stores, also over an old shard. *)
Definition tnPeer : HttpClient TwoNodes := mkHttpClient TwoNodes (fun _ => Ok tt)
  (fun q w =>
    let resp st body := Ok (mkHttpResponse st (fun _ => "") body) in
    let w' peer := mkTwoNodes (tn_local w) peer (tn_infos w) in
    if String.eqb (hq_Method q) "PUT"
    then (w' (<[hq_URL q := match hq_Body q with Some rd => rd_data rd | None => "" end]> (tn_peer w)), resp 201%Z "")
    else if String.eqb (hq_Method q) "DELETE" then (w' (delete (hq_URL q) (tn_peer w)), resp 204%Z "")
    else (w, match tn_peer w !! hq_URL q with Some d => resp 200%Z d | None => resp 404%Z "" end)).

Definition tnStore : ErasureMetadataStore TwoNodes := mkErasureStore TwoNodes
  (fun p i w => (mkTwoNodes (tn_local w) (tn_peer w) (<[p := i]> (tn_infos w)), Ok tt))
  (fun p w => match tn_infos w !! p with Some i => Ok i | None => Err ErrNotFound end)
  (fun p w => (mkTwoNodes (tn_local w) (tn_peer w) (delete p (tn_infos w)), Ok tt)).

#[global] Instance tnStore_spec : ErasureSpec tnStore tn_infos.
Proof.
  split; [done | |].
  - intros p i w w' H. by injection H as <-.
  - intros p w w' H. by injection H as <-.
Qed.

Definition tnManager : Manager TwoNodes :=
  mkManager TwoNodes copyRS id id tnStore tnLocal (mkErasureConfig 1 2 "localfs") "n1"
    {[ "n1" := "https://n1"; "n2" := "https://n2" ]} "secret" tnPeer.

Definition tn_empty : TwoNodes := mkTwoNodes ∅ ∅ ∅.
Definition tn_store (path : string) (w : TwoNodes) : TwoNodes * Res ErasureFileInfo :=
  StoreFile tnManager ["n2"; "n1"] [2; 0; 1] None path "abc" 3 None w.
Definition tn_stored : TwoNodes := (tn_store "/a" tn_empty).1.
Definition tn_info : ErasureFileInfo := Eval vm_compute in
  match (tn_store "/a" tn_empty).2 with Ok i => i | Err _ => mkErasureInfo "" 0 0 0 0 [] end.

(** The peer lost its shard: the two local ones are enough. *)
Definition tn_lost : TwoNodes := mkTwoNodes (tn_local tn_stored) ∅ (tn_infos tn_stored).

Lemma erasure_store_retrieve_witness :
  exists w3, RetrieveFile tnManager (@rev _) (fun _ => false) None "/a" tn_lost = (w3, Ok "abc").
Proof.
  destruct (erasure_store_retrieve tnManager copies tn_infos ["n2"; "n1"] [2; 0; 1] None "/a" "abc" 3 None
              tn_empty tn_stored tn_info) as (_ & shards & Henc & H).
  { change (_ + _)%Z with 3%Z. cbn. by apply (Permutation_middle [0; 1] [] 2). }
  { vm_compute. reflexivity. }
  vm_compute in Henc. injection Henc as <-.
  apply (H tn_lost (fun w => w = tn_lost) (fun i => negb (Nat.eqb i 1)) (@rev _) (fun _ => false) None).
  - vm_compute. reflexivity.
  - reflexivity.
  - intros i si s w w' r Hi Hs -> Hf.
    destruct i as [| [| [| i]]]; vm_compute in Hi, Hs; try discriminate Hi;
      injection Hi as <-; injection Hs as <-; vm_compute in Hf; injection Hf as <- <-;
      (split; [reflexivity |]); split; intros; try discriminate; congruence.
  - vm_compute. discriminate.
  - symmetry. apply Permutation_rev.
Defined.

Lemma deleteShard_infos ctx l w w' : deleteShards tnManager ctx l w = (w', tt) -> tn_infos w' = tn_infos w.
Proof.
  revert w. induction l as [| si l IH]; intros w; cbn [deleteShards].
  { unfold ret. intros H; by injection H as <-. }
  unfold bind. destruct (deleteShard tnManager ctx si w) as [w1 []] eqn:E. intros H. apply IH in H as ->.
  revert E. unfold deleteShard, bind, ret. destruct (String.eqb _ _).
  - cbn. intros H; by injection H as <-.
  - unfold deleteRemoteShard, shardDo, try_bind, ret. destruct (m_peerEndpoints tnManager !! _).
    + cbn. intros H; by injection H as <-.
    + intros H; by injection H as <-.
Qed.

Lemma erasure_delete_gone_witness :
  RetrieveFile tnManager id (fun _ => true) None "/a" (DeleteFile tnManager id None "/a" tn_stored).1 =
  ((DeleteFile tnManager id None "/a" tn_stored).1, Err (EWrap "failed to get erasure info" ErrNotFound)).
Proof.
  apply (erasure_delete_gone tnManager tn_infos id None "/a" tn_stored); [apply deleteShard_infos |].
  vm_compute. reflexivity.
Defined.

(** Shard paths depend on the content only, so storing the same content
    under a second path fails on the local shards, and the cleanup of the
    failed call deletes the remote shard of the first file, whose record stays. *)
Theorem erasure_same_content_conflict :
  is_Ok (tn_store "/a" tn_empty).2 = true /\
  tn_peer tn_stored !! "https://n2/v1/internal/shards/abc/1" = Some "abc" /\
  (let '(w, r) := tn_store "/b" tn_stored in
   is_Ok r = false /\ tn_infos w = tn_infos tn_stored /\ tn_peer w = ∅).
Proof. vm_compute. repeat split. Qed.

End Erasure.
