(* ===== verification/RaftStore.v ===== *)
(** * The Raft metadata store: the state machine of metadata/raft/store.go

    The replicated state machine ([fsm]), its snapshots and the commands that the
    store submits to it, on the commands themselves; their texts are in RaftText.v,
    the node that submits them in RaftNode.v. *)
From S2P Require Import Prelude GoStrings Metadata.
From Stdlib Require Import Ascii String.
Open Scope string_scope.
Open Scope bool_scope.

Module Raft.

(** ** Data *)

Record Command := mkCommand {
  cmd_Op : string;
  cmd_Path : string;
  cmd_Metadata : option Metadata;
  cmd_Token : string;
  cmd_Link : option SingleUseLink;
  cmd_Status : string;
  cmd_UsedAt : option Time;
  cmd_UsedByIP : option string;
  cmd_Before : option Time;
  cmd_OlderThan : option Time;
  cmd_ErasureInfo : option ErasureFileInfo;
}.

Definition emptyCommand (op : string) : Command :=
  mkCommand op "" None "" None "" None None None None None.

Record CommandResult := mkResult { CleanupCount : Z; ResErr : string }.
Definition okResult : CommandResult := mkResult 0 "".
Definition errResult (e : string) : CommandResult := mkResult 0 e.

Record ForwardApplyResponse := mkForwardResponse { far_CleanupCount : Z; far_Error : string }.

Record state := mkState {
  MetadataByPath : gmap string Metadata;
  LinksByToken : gmap string SingleUseLink;
  ErasureByPath : gmap string ErasureFileInfo;
}.

Definition emptyState : state := mkState ∅ ∅ ∅.

Definition set_md (m : gmap string Metadata) (s : state) : state :=
  mkState m (LinksByToken s) (ErasureByPath s).
Definition set_links (m : gmap string SingleUseLink) (s : state) : state :=
  mkState (MetadataByPath s) m (ErasureByPath s).
Definition set_erasure (m : gmap string ErasureFileInfo) (s : state) : state :=
  mkState (MetadataByPath s) (LinksByToken s) m.

(** ** Deep copies

    A Gallina record has no identity, so a field-by-field copy is the
    identity; the functions are kept to say where the code copies. *)
Definition cloneStringPtr (p : option string) : option string :=
  match p with None => None | Some v => Some v end.
Definition cloneInt64Ptr (p : option Z) : option Z :=
  match p with None => None | Some v => Some v end.
Definition cloneTimePtr (p : option Time) : option Time :=
  match p with None => None | Some v => Some v end.

Definition cloneMetadata (m : Metadata) : Metadata :=
  mkMetadata (md_ID m) (cloneInt64Ptr (md_ParentID m)) (md_Name m) (md_Path m) (md_Type m)
    (md_Size m) (md_Mode m) (md_UID m) (md_GID m) (md_ATime m) (md_MTime m) (md_CTime m)
    (md_BackendType m) (md_ErasureCoded m) (cloneStringPtr (md_CallFSInstanceID m))
    (cloneStringPtr (md_SymlinkTarget m)) (md_CreatedAt m) (md_UpdatedAt m).

Definition cloneLink (l : SingleUseLink) : SingleUseLink :=
  mkLink (lk_ID l) (lk_Token l) (lk_FilePath l) (lk_Status l) (lk_ExpiresAt l)
    (cloneTimePtr (lk_UsedAt l)) (cloneStringPtr (lk_UsedByIP l)) (lk_HMACSignature l)
    (lk_CreatedAt l) (lk_UpdatedAt l).

Definition cloneErasureFileInfo (i : ErasureFileInfo) : ErasureFileInfo :=
  mkErasureInfo (ei_FilePath i) (ei_OriginalSize i) (ei_DataShards i) (ei_ParityShards i)
    (ei_ShardSize i) (map id (ei_Shards i)).

Definition cloneMetadataMap (m : gmap string Metadata) : gmap string Metadata := cloneMetadata <$> m.
Definition cloneLinkMap (m : gmap string SingleUseLink) : gmap string SingleUseLink := cloneLink <$> m.
Definition cloneErasureMap (m : gmap string ErasureFileInfo) : gmap string ErasureFileInfo :=
  cloneErasureFileInfo <$> m.

(** ** The state machine: [fsm.Apply] *)

Definition updateLink (now : Time) (cmd : Command) (l : SingleUseLink) : SingleUseLink :=
  mkLink (lk_ID l) (lk_Token l) (lk_FilePath l) (cmd_Status cmd) (lk_ExpiresAt l)
    (cloneTimePtr (cmd_UsedAt cmd)) (cloneStringPtr (cmd_UsedByIP cmd)) (lk_HMACSignature l)
    (lk_CreatedAt l) now.

Definition expiredLink (before : Time) (l : SingleUseLink) : bool :=
  String.eqb (lk_Status l) "active" && Before (lk_ExpiresAt l) before.

Definition oldUsedLink (olderThan : Time) (l : SingleUseLink) : bool :=
  String.eqb (lk_Status l) "used" &&
  match lk_UsedAt l with Some u => Before u olderThan | None => false end.

(** [for token, link := range m { if doomed(link) { delete(m, token); count++ } }] *)
Definition removeLinks (doomed : SingleUseLink -> bool) (s : state) : state * CommandResult :=
  let gone := filter (fun tl => doomed (snd tl) = true) (LinksByToken s) in
  (set_links (filter (fun tl => doomed (snd tl) = false) (LinksByToken s)) s,
   mkResult (Z.of_nat (size gone)) "").

(** [now] is the reading of [time.Now()] on the replica that applies the
    entry; [data] is the decoded log entry, [None] when decoding fails. *)
Definition Apply (now : Time) (data : option Command) (s : state) : state * CommandResult :=
  match data with
  | None => (s, errResult "invalid_command")
  | Some cmd =>
      let op := cmd_Op cmd in
      if String.eqb op "create_metadata" then
        match cmd_Metadata cmd with
        | None => (s, errResult "metadata_required")
        | Some md =>
            match MetadataByPath s !! md_Path md with
            | Some _ => (s, errResult "already_exists")
            | None => (set_md (<[md_Path md := cloneMetadata md]> (MetadataByPath s)) s, okResult)
            end
        end
      else if String.eqb op "update_metadata" then
        match cmd_Metadata cmd with
        | None => (s, errResult "metadata_required")
        | Some md =>
            match MetadataByPath s !! md_Path md with
            | None => (s, errResult "not_found")
            | Some _ => (set_md (<[md_Path md := cloneMetadata md]> (MetadataByPath s)) s, okResult)
            end
        end
      else if String.eqb op "delete_metadata" then
        match MetadataByPath s !! cmd_Path cmd with
        | None => (s, errResult "not_found")
        | Some _ => (set_md (delete (cmd_Path cmd) (MetadataByPath s)) s, okResult)
        end
      else if String.eqb op "create_link" then
        match cmd_Link cmd with
        | None => (s, errResult "link_required")
        | Some l =>
            match LinksByToken s !! lk_Token l with
            | Some _ => (s, errResult "already_exists")
            | None => (set_links (<[lk_Token l := cloneLink l]> (LinksByToken s)) s, okResult)
            end
        end
      else if String.eqb op "update_link" then
        match LinksByToken s !! cmd_Token cmd with
        | None => (s, errResult "not_found")
        | Some l =>
            if negb (String.eqb (lk_Status l) "active") then (s, errResult "not_found")
            else (set_links (<[cmd_Token cmd := updateLink now cmd l]> (LinksByToken s)) s, okResult)
        end
      else if String.eqb op "cleanup_expired_links" then
        match cmd_Before cmd with
        | None => (s, errResult "before_required")
        | Some b => removeLinks (expiredLink b) s
        end
      else if String.eqb op "cleanup_used_links" then
        match cmd_OlderThan cmd with
        | None => (s, errResult "older_than_required")
        | Some o => removeLinks (oldUsedLink o) s
        end
      else if String.eqb op "create_erasure_info" then
        match cmd_ErasureInfo cmd with
        | None => (s, errResult "erasure_info_required")
        | Some i =>
            match ErasureByPath s !! cmd_Path cmd with
            | Some _ => (s, errResult "already_exists")
            | None => (set_erasure (<[cmd_Path cmd := cloneErasureFileInfo i]> (ErasureByPath s)) s, okResult)
            end
        end
      else if String.eqb op "delete_erasure_info" then
        (set_erasure (delete (cmd_Path cmd) (ErasureByPath s)) s, okResult)
      else (s, errResult "unknown_operation")
  end.

(** A replica applies the entries of the log in order, each at its own time. *)
Fixpoint ApplyLog (log : list (Time * option Command)) (s : state) : state :=
  match log with
  | [] => s
  | (now, data) :: rest => ApplyLog rest (fst (Apply now data s))
  end.

(** ** Snapshots *)

Definition Snapshot (s : state) : state :=
  mkState (cloneMetadataMap (MetadataByPath s)) (cloneLinkMap (LinksByToken s))
    (cloneErasureMap (ErasureByPath s)).

(** A decoded snapshot: a map that is absent (or null) decodes to nil. *)
Record rawState := mkRaw {
  raw_MetadataByPath : option (gmap string Metadata);
  raw_LinksByToken : option (gmap string SingleUseLink);
  raw_ErasureByPath : option (gmap string ErasureFileInfo);
}.

Definition Restore (decoded : option rawState) (s : state) : state * Res unit :=
  match decoded with
  | None => (s, Err (EMsg "failed to decode raft snapshot"))
  | Some r =>
      (mkState (cloneMetadataMap (default ∅ (raw_MetadataByPath r)))
         (cloneLinkMap (default ∅ (raw_LinksByToken r)))
         (cloneErasureMap (default ∅ (raw_ErasureByPath r))), Ok tt)
  end.

(** ** The commands that the store submits *)

Definition createCommand (md : Metadata) : Command :=
  mkCommand "create_metadata" "" (Some (cloneMetadata md)) "" None "" None None None None None.
Definition updateCommand (md : Metadata) : Command :=
  mkCommand "update_metadata" "" (Some (cloneMetadata md)) "" None "" None None None None None.
Definition deleteCommand (path : string) : Command :=
  mkCommand "delete_metadata" path None "" None "" None None None None None.
Definition createLinkCommand (l : SingleUseLink) : Command :=
  mkCommand "create_link" "" None "" (Some (cloneLink l)) "" None None None None None.
Definition updateLinkCommand (token status : string) (usedAt : option Time) (ip : option string) : Command :=
  mkCommand "update_link" "" None token None status usedAt ip None None None.
Definition cleanupExpiredCommand (before : Time) : Command :=
  mkCommand "cleanup_expired_links" "" None "" None "" None None (Some before) None None.
Definition cleanupUsedCommand (olderThan : Time) : Command :=
  mkCommand "cleanup_used_links" "" None "" None "" None None None (Some olderThan) None.
Definition createErasureCommand (filePath : string) (info : ErasureFileInfo) : Command :=
  mkCommand "create_erasure_info" filePath None "" None "" None None None None (Some (cloneErasureFileInfo info)).
Definition deleteErasureCommand (filePath : string) : Command :=
  mkCommand "delete_erasure_info" filePath None "" None "" None None None None None.

(** ** Lemmas on the state machine *)

Lemma cloneMetadata_id m : cloneMetadata m = m.
Proof. destruct m as [? [] ? ? ? ? ? ? ? ? ? ? ? ? [] [] ? ?]; done. Qed.
Lemma cloneLink_id l : cloneLink l = l.
Proof. destruct l as [? ? ? ? ? [] [] ? ? ?]; done. Qed.
Lemma cloneErasureFileInfo_id i : cloneErasureFileInfo i = i.
Proof. destruct i. unfold cloneErasureFileInfo. cbn. by rewrite map_id. Qed.
Lemma cloneStringPtr_id p : cloneStringPtr p = p.
Proof. by destruct p. Qed.
Lemma cloneTimePtr_id (p : option Z) : cloneTimePtr p = p.
Proof. by destruct p. Qed.

Lemma clone_map_id {A} (f : A -> A) (m : gmap string A) : (forall a, f a = a) -> f <$> m = m.
Proof. intros H. rewrite (map_fmap_ext f id m); [apply map_fmap_id |]. done. Qed.

Lemma Snapshot_id s : Snapshot s = s.
Proof.
  destruct s. unfold Snapshot, cloneMetadataMap, cloneLinkMap, cloneErasureMap. cbn.
  by rewrite !clone_map_id by eauto using cloneMetadata_id, cloneLink_id, cloneErasureFileInfo_id.
Qed.

Create Rewrite HintDb raft_clone.
#[export] Hint Rewrite cloneMetadata_id cloneLink_id cloneErasureFileInfo_id cloneStringPtr_id
  cloneTimePtr_id : raft_clone.

(** Case analysis on the command and the lookups of [Apply]. *)
Ltac apply_cases :=
  unfold Apply, removeLinks;
  repeat (case_goal; try done); cbn [fst snd set_md set_links set_erasure MetadataByPath LinksByToken ErasureByPath].

(** What one log entry does to the link of a token. *)
Inductive link_effect (now : Time) (data : option Command) (t : string)
  : option SingleUseLink -> option SingleUseLink -> Prop :=
| le_same o : link_effect now data t o o
| le_create cmd l :
    data = Some cmd -> cmd_Op cmd = "create_link" -> cmd_Link cmd = Some l -> lk_Token l = t ->
    link_effect now data t None (Some l)
| le_update cmd l :
    data = Some cmd -> cmd_Op cmd = "update_link" -> cmd_Token cmd = t ->
    lk_Status l = "active" ->
    link_effect now data t (Some l) (Some (updateLink now cmd l))
| le_cleanup l : link_effect now data t (Some l) None.

Lemma removeLinks_effect now data doomed s t :
  link_effect now data t (LinksByToken s !! t) (LinksByToken (fst (removeLinks doomed s)) !! t).
Proof.
  unfold removeLinks. cbn. rewrite map_lookup_filter.
  destruct (LinksByToken s !! t) as [l|] eqn:E; cbn; [| constructor].
  case_guard; cbn; constructor.
Qed.

Lemma Apply_link_effect now data s t :
  link_effect now data t (LinksByToken s !! t) (LinksByToken (fst (Apply now data s)) !! t).
Proof.
  unfold Apply. destruct data as [cmd|]; [| constructor].
  destruct (String.eqb (cmd_Op cmd) "create_metadata").
  { destruct (cmd_Metadata cmd); [| constructor]. case_match; constructor. }
  destruct (String.eqb (cmd_Op cmd) "update_metadata").
  { destruct (cmd_Metadata cmd); [| constructor]. case_match; constructor. }
  destruct (String.eqb (cmd_Op cmd) "delete_metadata"); [case_match; constructor |].
  destruct (String.eqb (cmd_Op cmd) "create_link") eqn:Ec.
  { destruct (cmd_Link cmd) as [l|] eqn:El; [| constructor].
    destruct (LinksByToken s !! lk_Token l) eqn:E; [constructor |]. cbn.
    rewrite lookup_insert. case_decide as Ht; [| constructor]. subst t. rewrite E, cloneLink_id.
    to_prop. by eapply le_create. }
  destruct (String.eqb (cmd_Op cmd) "update_link") eqn:Eu.
  { destruct (LinksByToken s !! cmd_Token cmd) as [l|] eqn:E; [| constructor].
    destruct (String.eqb (lk_Status l) "active") eqn:Ea; cbn; [| constructor].
    rewrite lookup_insert. case_decide as Ht; [| constructor]. subst t. rewrite E.
    to_prop. by eapply le_update. }
  destruct (String.eqb (cmd_Op cmd) "cleanup_expired_links").
  { destruct (cmd_Before cmd); [apply removeLinks_effect | constructor]. }
  destruct (String.eqb (cmd_Op cmd) "cleanup_used_links").
  { destruct (cmd_OlderThan cmd); [apply removeLinks_effect | constructor]. }
  destruct (String.eqb (cmd_Op cmd) "create_erasure_info").
  { destruct (cmd_ErasureInfo cmd); [| constructor]. case_match; constructor. }
  destruct (String.eqb (cmd_Op cmd) "delete_erasure_info"); constructor.
Qed.

Lemma ApplyLog_app l1 l2 s : ApplyLog (l1 ++ l2)%list s = ApplyLog l2 (ApplyLog l1 s).
Proof. revert s. induction l1 as [|[now d] l1 IH]; intros s; [done |]. apply IH. Qed.

(** *** Well-formedness: every record is stored under its own key *)

Definition wf (s : state) : Prop :=
  map_Forall (fun p md => md_Path md = p) (MetadataByPath s)
  /\ map_Forall (fun t l => lk_Token l = t) (LinksByToken s).

Lemma link_effect_token now data t o o' :
  link_effect now data t o o' ->
  (forall l, o = Some l -> lk_Token l = t) -> forall l, o' = Some l -> lk_Token l = t.
Proof. destruct 1; intros Ho l' Hl'; simplify_eq; eauto. cbn. by apply Ho. Qed.

Lemma Apply_md_wf now data s :
  map_Forall (fun p md => md_Path md = p) (MetadataByPath s) ->
  map_Forall (fun p md => md_Path md = p) (MetadataByPath (fst (Apply now data s))).
Proof.
  intros H. apply_cases; try done;
    try (apply map_Forall_insert_2; [by rewrite cloneMetadata_id | done]).
  by apply map_Forall_delete.
Qed.

Lemma Apply_wf now data s : wf s -> wf (fst (Apply now data s)).
Proof.
  intros [Hm Hl]. split; [by apply Apply_md_wf |].
  intros t l Ht. eapply link_effect_token; [apply (Apply_link_effect now data s t) | | exact Ht].
  intros l' Hl'. by apply (Hl t).
Qed.

Lemma ApplyLog_wf log s : wf s -> wf (ApplyLog log s).
Proof.
  revert s. induction log as [|[now d] log IH]; intros s H; [done |]. cbn. by apply IH, Apply_wf.
Qed.

(** *** Single use *)

(** No entry of the log creates a link with token [t]. *)
Definition no_create (t : string) (log : list (Time * option Command)) : Prop :=
  Forall (fun e => match snd e with
                   | Some cmd => cmd_Op cmd = "create_link" ->
                       match cmd_Link cmd with Some l => lk_Token l <> t | None => True end
                   | None => True
                   end) log.

(** The token is gone or its link is not active. *)
Definition spent (t : string) (s : state) : Prop :=
  match LinksByToken s !! t with Some l => lk_Status l <> "active" | None => True end.

Lemma Apply_spent now data s t :
  no_create t [(now, data)] -> spent t s -> spent t (fst (Apply now data s)).
Proof.
  intros Hn. unfold spent. pose proof (Apply_link_effect now data s t) as He.
  inversion_clear Hn as [|? ? Hc _]; cbn in Hc.
  destruct He as [o | cmd l -> Hop Hl Ht | cmd l -> Hop Ht Ha | l]; try done.
  intros _. specialize (Hc Hop). rewrite Hl in Hc. done.
Qed.

Lemma ApplyLog_spent log s t : no_create t log -> spent t s -> spent t (ApplyLog log s).
Proof.
  intros Hn. revert s. induction Hn as [|[now d] log Hc Hn IH]; intros s Hs; [done |]. cbn.
  apply IH, Apply_spent; [by repeat constructor | done].
Qed.

Lemma update_link_result now cmd s :
  cmd_Op cmd = "update_link" ->
  Apply now (Some cmd) s =
    match LinksByToken s !! cmd_Token cmd with
    | Some l =>
        if String.eqb (lk_Status l) "active"
        then (set_links (<[cmd_Token cmd := updateLink now cmd l]> (LinksByToken s)) s, okResult)
        else (s, errResult "not_found")
    | None => (s, errResult "not_found")
    end.
Proof.
  intros H. unfold Apply. rewrite H. cbn. destruct (LinksByToken s !! cmd_Token cmd) as [l|]; [| done].
  by destruct (String.eqb (lk_Status l) "active").
Qed.

Lemma spent_update_fails now cmd s :
  cmd_Op cmd = "update_link" -> spent (cmd_Token cmd) s ->
  Apply now (Some cmd) s = (s, errResult "not_found").
Proof.
  intros Hop Hs. rewrite update_link_result by done. unfold spent in Hs.
  destruct (LinksByToken s !! cmd_Token cmd) as [l|]; [| done].
  by apply String.eqb_neq in Hs as ->.
Qed.

Lemma update_spends now cmd s :
  cmd_Op cmd = "update_link" -> cmd_Status cmd <> "active" ->
  spent (cmd_Token cmd) (fst (Apply now (Some cmd) s)).
Proof.
  intros Hop Hst. rewrite update_link_result by done. unfold spent.
  destruct (LinksByToken s !! cmd_Token cmd) as [l|] eqn:E; [| by cbn; rewrite E].
  destruct (String.eqb (lk_Status l) "active") eqn:Ea.
  - cbn. by rewrite lookup_insert_eq.
  - cbn. rewrite E. by to_prop.
Qed.

(** *** Replicas: equality up to the time a link was marked *)

Definition link_core (l : SingleUseLink) : SingleUseLink :=
  mkLink (lk_ID l) (lk_Token l) (lk_FilePath l) (lk_Status l) (lk_ExpiresAt l) (lk_UsedAt l)
    (lk_UsedByIP l) (lk_HMACSignature l) (lk_CreatedAt l) 0.

Definition links_equiv (m1 m2 : gmap string SingleUseLink) : Prop :=
  link_core <$> m1 = link_core <$> m2.

Definition state_equiv (s1 s2 : state) : Prop :=
  MetadataByPath s1 = MetadataByPath s2 /\ ErasureByPath s1 = ErasureByPath s2
  /\ links_equiv (LinksByToken s1) (LinksByToken s2).

#[global] Instance state_equiv_equivalence : Equivalence state_equiv.
Proof.
  split.
  - intros s. done.
  - intros s1 s2 (? & ? & ?). done.
  - intros s1 s2 s3 (? & ? & ?) (? & ? & ?). unfold state_equiv, links_equiv in *.
    repeat split; congruence.
Qed.

Lemma links_equiv_lookup m1 m2 t :
  links_equiv m1 m2 ->
  match m1 !! t, m2 !! t with
  | Some l1, Some l2 => link_core l1 = link_core l2
  | None, None => True
  | _, _ => False
  end.
Proof.
  intros H. apply (f_equal (lookup t)) in H. rewrite !lookup_fmap in H.
  destruct (m1 !! t), (m2 !! t); try done. by apply (inj Some) in H.
Qed.

Lemma links_equiv_insert m1 m2 t l1 l2 :
  links_equiv m1 m2 -> link_core l1 = link_core l2 -> links_equiv (<[t := l1]> m1) (<[t := l2]> m2).
Proof. unfold links_equiv. intros H Hl. by rewrite !fmap_insert, H, Hl. Qed.

Lemma links_equiv_filter (doomed : SingleUseLink -> bool) (b : bool) m1 m2 :
  (forall l, doomed (link_core l) = doomed l) -> links_equiv m1 m2 ->
  links_equiv (filter (fun tl => doomed (snd tl) = b) m1) (filter (fun tl => doomed (snd tl) = b) m2).
Proof.
  unfold links_equiv. intros Hd H.
  assert (Hf : forall m : gmap string SingleUseLink,
    link_core <$> filter (fun tl => doomed (snd tl) = b) m
    = filter (fun tl => doomed (snd tl) = b) (link_core <$> m)).
  { intros m. rewrite map_filter_fmap. f_equal. apply map_filter_ext.
    intros i x _. cbn. by rewrite Hd. }
  by rewrite !Hf, H.
Qed.

Lemma links_equiv_size m1 m2 : links_equiv m1 m2 -> size m1 = size m2.
Proof. intros H. rewrite <- (map_size_fmap link_core m1), H. apply map_size_fmap. Qed.

Lemma removeLinks_equiv (doomed : SingleUseLink -> bool) s1 s2 :
  (forall l, doomed (link_core l) = doomed l) -> state_equiv s1 s2 ->
  state_equiv (fst (removeLinks doomed s1)) (fst (removeLinks doomed s2))
  /\ snd (removeLinks doomed s1) = snd (removeLinks doomed s2).
Proof.
  intros Hd (Hm & He & Hl). unfold removeLinks. cbn. repeat split; try done.
  - by apply links_equiv_filter.
  - do 2 f_equal. by apply links_equiv_size, links_equiv_filter.
Qed.

Lemma Apply_equiv n1 n2 data s1 s2 :
  state_equiv s1 s2 ->
  state_equiv (fst (Apply n1 data s1)) (fst (Apply n2 data s2))
  /\ snd (Apply n1 data s1) = snd (Apply n2 data s2).
Proof.
  intros Heq. pose proof Heq as (Hm & He & Hl). unfold Apply.
  destruct data as [cmd|]; [| done]. rewrite Hm, He.
  destruct (String.eqb (cmd_Op cmd) "create_metadata"); [repeat case_match; by repeat split |].
  destruct (String.eqb (cmd_Op cmd) "update_metadata"); [repeat case_match; by repeat split |].
  destruct (String.eqb (cmd_Op cmd) "delete_metadata"); [repeat case_match; by repeat split |].
  destruct (String.eqb (cmd_Op cmd) "create_link").
  { destruct (cmd_Link cmd) as [l|]; [| done].
    pose proof (links_equiv_lookup _ _ (lk_Token l) Hl) as Ht.
    destruct (LinksByToken s1 !! lk_Token l), (LinksByToken s2 !! lk_Token l); try done.
    repeat split; try done. by apply links_equiv_insert. }
  destruct (String.eqb (cmd_Op cmd) "update_link").
  { pose proof (links_equiv_lookup _ _ (cmd_Token cmd) Hl) as Ht.
    destruct (LinksByToken s1 !! cmd_Token cmd) as [l1|], (LinksByToken s2 !! cmd_Token cmd) as [l2|];
      try done.
    assert (lk_Status l1 = lk_Status l2) as Hst by (by injection Ht).
    rewrite <- Hst. destruct (negb _); [done |].
    repeat split; try done. apply links_equiv_insert; [done |].
    unfold link_core in Ht. injection Ht; intros. unfold link_core, updateLink. cbn. congruence. }
  destruct (String.eqb (cmd_Op cmd) "cleanup_expired_links").
  { destruct (cmd_Before cmd); [by apply removeLinks_equiv | done]. }
  destruct (String.eqb (cmd_Op cmd) "cleanup_used_links").
  { destruct (cmd_OlderThan cmd); [by apply removeLinks_equiv | done]. }
  destruct (String.eqb (cmd_Op cmd) "create_erasure_info"); [repeat case_match; by repeat split |].
  destruct (String.eqb (cmd_Op cmd) "delete_erasure_info"); by repeat split.
Qed.

(** The same entries, applied at the replica's own clock readings. *)
Definition same_entries (l1 l2 : list (Time * option Command)) : Prop :=
  Forall2 (fun e1 e2 => snd e1 = snd e2) l1 l2.

#[global] Instance ApplyLog_proper :
  Proper (same_entries ==> state_equiv ==> state_equiv) ApplyLog.
Proof.
  intros l1 l2 Hl. induction Hl as [|[n1 d1] [n2 d2] l1 l2 Hd Hl IH]; intros s1 s2 Hs; [done |].
  cbn in *. subst d2. apply IH. by apply Apply_equiv.
Qed.

(** ** Properties *)

(** Whatever log of commands a replica applies from the empty state, every
    metadata record is stored under its own path and every link under its own
    token. *)
Theorem raft_log_wf (log : list (Time * option Command)) : wf (ApplyLog log emptyState).
Proof. apply ApplyLog_wf. split; apply map_Forall_empty. Qed.

(** C20: once an [update_link] entry has moved a link out of "active", every
    later [update_link] entry for that token is refused, whatever is applied in
    between, as long as no new link is created under the token. *)
Theorem raft_link_single_use now now' cmd cmd' s log :
  cmd_Op cmd = "update_link" -> cmd_Status cmd <> "active" ->
  cmd_Op cmd' = "update_link" -> cmd_Token cmd' = cmd_Token cmd ->
  no_create (cmd_Token cmd) log ->
  let s' := ApplyLog log (fst (Apply now (Some cmd) s)) in
  Apply now' (Some cmd') s' = (s', errResult "not_found").
Proof.
  intros Hop Hst Hop' Ht Hn s'. apply spent_update_fails; [done |]. rewrite Ht.
  by apply ApplyLog_spent, update_spends.
Qed.

Definition demo_link : SingleUseLink :=
  mkLink 1 "tok" "/a" "active" 100 None None "sig" 0 0.
Definition demo_state : state := set_links {["tok" := demo_link]} emptyState.
Definition demo_use : Command := updateLinkCommand "tok" "used" (Some 5%Z) (Some "10.0.0.1").

Lemma raft_link_single_use_witness :
  snd (Apply 5 (Some demo_use) demo_state) = okResult
  /\ snd (Apply 9 (Some demo_use) (ApplyLog [(7%Z, Some (deleteCommand "/a"))]
        (fst (Apply 5 (Some demo_use) demo_state)))) = errResult "not_found".
Proof.
  split; [vm_compute; reflexivity |].
  rewrite (raft_link_single_use 5 9 demo_use demo_use demo_state [(7%Z, Some (deleteCommand "/a"))]);
    [reflexivity | reflexivity | discriminate | reflexivity | reflexivity |].
  repeat constructor; discriminate.
Defined.

(** C32: two replicas that apply the same entries, each at its own clock
    readings, end in states that agree on all metadata, erasure records and
    links, the [UpdatedAt] time of links excepted. *)
Theorem raft_replicas_agree l1 l2 :
  same_entries l1 l2 -> state_equiv (ApplyLog l1 emptyState) (ApplyLog l2 emptyState).
Proof. intros H. by rewrite H. Qed.

Lemma raft_replicas_agree_witness :
  state_equiv
    (ApplyLog [(1%Z, Some (createLinkCommand demo_link)); (2%Z, Some demo_use)] emptyState)
    (ApplyLog [(8%Z, Some (createLinkCommand demo_link)); (9%Z, Some demo_use)] emptyState).
Proof. apply raft_replicas_agree. repeat constructor. Defined.

(** The exception is real: [fsm.Apply] reads the local clock, so replicas
    that apply the same log hold different link records. *)
Theorem raft_replicas_differ_in_UpdatedAt :
  exists l1 l2, same_entries l1 l2 /\ ApplyLog l1 emptyState <> ApplyLog l2 emptyState.
Proof.
  exists [(1%Z, Some (createLinkCommand demo_link)); (2%Z, Some demo_use)],
         [(1%Z, Some (createLinkCommand demo_link)); (3%Z, Some demo_use)].
  split; [by repeat constructor |].
  intros H. apply (f_equal (fun s => lk_UpdatedAt <$> LinksByToken s !! "tok")) in H.
  vm_compute in H. discriminate.
Qed.

(** The persisted snapshot, decoded: every map of it is present. *)
Definition persisted (s : state) : rawState :=
  mkRaw (Some (MetadataByPath s)) (Some (LinksByToken s)) (Some (ErasureByPath s)).

(** A replica that restores a snapshot taken after a prefix of the log and
    then applies the rest is in the state of one that applied the whole log,
    whatever it held before. *)
Theorem raft_snapshot_catch_up l1 l2 old :
  let '(s, r) := Restore (Some (persisted (Snapshot (ApplyLog l1 emptyState)))) old in
  r = Ok tt /\ ApplyLog l2 s = ApplyLog (l1 ++ l2)%list emptyState.
Proof.
  rewrite Snapshot_id, ApplyLog_app. cbn. split; [done |]. f_equal.
  destruct (ApplyLog l1 emptyState) as [m l e]. apply (Snapshot_id (mkState m l e)).
Qed.

End Raft.
