(* ===== verification/GoTime.v ===== *)
(** * Go's package time: calendar dates and the RFC 3339 text of a time

    What the stores use of package time: [Format] and [Parse] with the layout
    [RFC3339Nano].  A time is a number of nanoseconds since January 1, year 1
    (Go's zero time) in UTC; the calendar is the proleptic Gregorian one. *)
From S2P Require Import Prelude GoStrings Metadata.
From Stdlib Require Import Ascii String.
Open Scope string_scope.
Open Scope bool_scope.

Module GoTime.

(** ** Dates *)

Definition isLeap (year : Z) : bool :=
  (year mod 4 =? 0)%Z && (negb (year mod 100 =? 0)%Z || (year mod 400 =? 0)%Z).

(** The days before month [m + 1] of a common year. *)
Definition daysBefore (m : Z) : Z :=
  nth (Z.to_nat m) [0; 31; 59; 90; 120; 151; 181; 212; 243; 273; 304; 334; 365]%Z 365%Z.

Definition daysIn (month year : Z) : Z :=
  if (month =? 2)%Z && isLeap year then 29%Z else (daysBefore month - daysBefore (month - 1))%Z.

(** The days before January 1 of year [y + 1]. *)
Definition yearStart (y : Z) : Z := (365 * y + y / 4 - y / 100 + y / 400)%Z.

(** Days since January 1 of year 1: the year less one, and the day of the year. *)
Definition splitYear (d : Z) : Z * Z :=
  let n400 := (d / 146097)%Z in
  let d := (d mod 146097)%Z in
  let n100 := Z.min 3 (d / 36524) in
  let d := (d - 36524 * n100)%Z in
  let n4 := (d / 1461)%Z in
  let d := (d mod 1461)%Z in
  let n1 := Z.min 3 (d / 365) in
  ((400 * n400 + 100 * n100 + 4 * n4 + n1)%Z, (d - 365 * n1)%Z).

(** The month and the day of a day of the year. *)
Definition monthDay (leap : bool) (yday : Z) : Z * Z :=
  if leap && (yday =? 59)%Z then (2, 29)%Z
  else
    let day := if leap && (59 <? yday)%Z then (yday - 1)%Z else yday in
    let m := (day / 31)%Z in
    if (daysBefore (m + 1) <=? day)%Z then ((m + 2)%Z, (day - daysBefore (m + 1) + 1)%Z)
    else ((m + 1)%Z, (day - daysBefore m + 1)%Z).

Definition yearDay (leap : bool) (month day : Z) : Z :=
  (daysBefore (month - 1) + (if leap && (2 <? month)%Z then 1 else 0) + day - 1)%Z.

Definition secsOf (t : Time) : Z := (t / Second)%Z.
Definition nanosOf (t : Time) : Z := (t mod Second)%Z.
Definition dayOf (t : Time) : Z := (secsOf t / 86400)%Z.
Definition clockOf (t : Time) : Z := (secsOf t mod 86400)%Z.
Definition Year (t : Time) : Z := ((splitYear (dayOf t)).1 + 1)%Z.

(** [time.Date] in UTC, for arguments in their ranges. *)
Definition mkTime (year month day hour min sec nsec : Z) : Time :=
  let d := (yearStart (year - 1) + yearDay (isLeap year) month day)%Z in
  ((d * 86400 + hour * 3600 + min * 60 + sec) * Second + nsec)%Z.

(** ** [t.UTC().Format(time.RFC3339Nano)] *)

Definition digit (d : Z) : string := String (ascii_of_N (Z.to_N (48 + d))) "".

(** [n] with [w] decimal digits. *)
Fixpoint pad (w : nat) (n : Z) : string :=
  match w with
  | O => ""
  | S w' => pad w' (n / 10) +:+ digit (n mod 10)
  end.

(** [appendInt(b, year, 4)]. *)
Definition formatYear (y : Z) : string :=
  if (0 <=? y)%Z && (y <? 10000)%Z then pad 4 y
  else if (y <? 0)%Z && (-10000 <? y)%Z then "-" +:+ pad 4 (- y)
  else Itoa y.

(** The fraction: nothing for a whole second, and no trailing zeros. *)
Definition formatNanos (ns : Z) : string :=
  if (ns =? 0)%Z then "" else "." +:+ TrimRight (pad 9 ns) "0".

Definition FormatRFC3339Nano (t : Time) : string :=
  let '(y, yday) := splitYear (dayOf t) in
  let '(m, d) := monthDay (isLeap (y + 1)) yday in
  let c := clockOf t in
  formatYear (y + 1) +:+ "-" +:+ pad 2 m +:+ "-" +:+ pad 2 d +:+ "T" +:+
  pad 2 (c / 3600) +:+ ":" +:+ pad 2 (c / 60 mod 60) +:+ ":" +:+ pad 2 (c mod 60) +:+
  formatNanos (nanosOf t) +:+ "Z".

#[global] Arguments FormatRFC3339Nano : simpl never.

(** ** [time.Parse(time.RFC3339Nano, s)]

    The strict grammar of [parseRFC3339].  What only the general parser after
    it accepts (a comma before the fraction, a one-digit hour) is an error
    here; no time that the program writes has that form. *)

Definition digitVal (c : ascii) : option Z :=
  if (48 <=? zbyte c)%Z && (zbyte c <=? 57)%Z then Some (zbyte c - 48)%Z else None.

Fixpoint takeDigits (w : nat) (acc : Z) (s : string) : option (Z * string) :=
  match w, s with
  | O, _ => Some (acc, s)
  | S w', String c s' =>
      match digitVal c with Some d => takeDigits w' (acc * 10 + d) s' | None => None end
  | S _, EmptyString => None
  end.

Definition takeUint (w : nat) (lo hi : Z) (s : string) : option (Z * string) :=
  match takeDigits w 0 s with
  | Some (v, s') => if (lo <=? v)%Z && (v <=? hi)%Z then Some (v, s') else None
  | None => None
  end.

Definition eat (c : ascii) (s : string) : option string :=
  match s with
  | String d s' => if Ascii.eqb c d then Some s' else None
  | EmptyString => None
  end.

Fixpoint spanDigits (s : string) : string * string :=
  match s with
  | String c s' =>
      match digitVal c with
      | Some _ => let '(ds, r) := spanDigits s' in (String c ds, r)
      | None => ("", s)
      end
  | EmptyString => ("", "")
  end.

(** The digits of a fraction in units of [10^-n], the ones after [n] cut off. *)
Fixpoint fracValue (n : nat) (ds : string) : Z :=
  match n, ds with
  | S n', String c ds' =>
      (default 0 (digitVal c) * 10 ^ Z.of_nat n' + fracValue n' ds')%Z
  | _, _ => 0%Z
  end.

Definition takeNanos (s : string) : Z * string :=
  match s with
  | String "." s' =>
      let '(ds, r) := spanDigits s' in
      if String.eqb ds "" then (0%Z, s) else (fracValue 9 ds, r)
  | _ => (0%Z, s)
  end.

(** The zone: [Z] or [+hh:mm], in seconds east of UTC. *)
Definition takeZone (s : string) : option Z :=
  if String.eqb s "Z" then Some 0%Z
  else match s with
       | String sign s1 =>
           '(hh, s2) ← takeUint 2 0 23 s1;
           s3 ← eat ":" s2;
           '(mm, s4) ← takeUint 2 0 59 s3;
           let off := ((hh * 60 + mm) * 60)%Z in
           if negb (String.eqb s4 "") then None
           else if Ascii.eqb sign "+" then Some off
           else if Ascii.eqb sign "-" then Some (- off)%Z else None
       | EmptyString => None
       end.

Definition ParseRFC3339Nano (s : string) : option Time :=
  '(year, s) ← takeUint 4 0 9999 s; s ← eat "-" s;
  '(month, s) ← takeUint 2 1 12 s; s ← eat "-" s;
  '(day, s) ← takeUint 2 1 (daysIn month year) s; s ← eat "T" s;
  '(hour, s) ← takeUint 2 0 23 s; s ← eat ":" s;
  '(min, s) ← takeUint 2 0 59 s; s ← eat ":" s;
  '(sec, s) ← takeUint 2 0 59 s;
  let '(nsec, s) := takeNanos s in
  zone ← takeZone s;
  Some (mkTime year month day hour min sec nsec - zone * Second)%Z.

Example format_zero : FormatRFC3339Nano 0 = "0001-01-01T00:00:00Z".
Proof. reflexivity. Qed.
Example format_leap : FormatRFC3339Nano (mkTime 2024 2 29 23 5 9 120300000)
  = "2024-02-29T23:05:09.1203Z".
Proof. reflexivity. Qed.
Example parse_zone : ParseRFC3339Nano "2024-02-29T23:05:09.12+02:30"
  = Some (mkTime 2024 2 29 20 35 9 120000000).
Proof. reflexivity. Qed.
Example parse_bad_day : ParseRFC3339Nano "2023-02-29T23:05:09Z" = None.
Proof. reflexivity. Qed.

(** ** The calendar *)

Lemma isLeap_split a b c e :
  (0 <= b <= 3)%Z -> (0 <= c <= 24)%Z -> (0 <= e <= 3)%Z ->
  isLeap (400 * a + 100 * b + 4 * c + e + 1) = (e =? 3)%Z && (negb (c =? 24)%Z || (b =? 3)%Z).
Proof.
  intros Hb Hc He. unfold isLeap.
  assert (H4 : ((400 * a + 100 * b + 4 * c + e + 1) mod 4 = (e + 1) mod 4)%Z).
  { replace (400 * a + 100 * b + 4 * c + e + 1)%Z with (e + 1 + (100 * a + 25 * b + c) * 4)%Z by lia.
    by rewrite Z.mod_add by lia. }
  assert (H100 : ((400 * a + 100 * b + 4 * c + e + 1) mod 100 = (4 * c + e + 1) mod 100)%Z).
  { replace (400 * a + 100 * b + 4 * c + e + 1)%Z with (4 * c + e + 1 + (4 * a + b) * 100)%Z by lia.
    by rewrite Z.mod_add by lia. }
  assert (H400 : ((400 * a + 100 * b + 4 * c + e + 1) mod 400 = (100 * b + 4 * c + e + 1) mod 400)%Z).
  { replace (400 * a + 100 * b + 4 * c + e + 1)%Z with (100 * b + 4 * c + e + 1 + a * 400)%Z by lia.
    by rewrite Z.mod_add by lia. }
  rewrite H4, H100, H400.
  destruct (Z.eq_dec e 3) as [-> | Hne].
  2:{ rewrite (Z.mod_small (e + 1)) by lia.
      destruct (Z.eqb_spec (e + 1) 0), (Z.eqb_spec e 3); first [done | lia]. }
  change ((3 + 1) mod 4 =? 0)%Z with true. change (3 =? 3)%Z with true. cbn [andb].
  destruct (Z.eq_dec c 24) as [-> | Hc'].
  - change ((4 * 24 + 3 + 1) mod 100 =? 0)%Z with true. change (24 =? 24)%Z with true. cbn [negb orb].
    destruct (Z.eq_dec b 3) as [-> | Hb']; [done |].
    rewrite (Z.mod_small (100 * b + 4 * 24 + 3 + 1)) by lia.
    destruct (Z.eqb_spec (100 * b + 4 * 24 + 3 + 1) 0), (Z.eqb_spec b 3); first [done | lia].
  - rewrite (Z.mod_small (4 * c + 3 + 1)) by lia.
    destruct (Z.eqb_spec (4 * c + 3 + 1) 0), (Z.eqb_spec c 24); first [done | lia].
Qed.

Lemma yearStart_split a b c e :
  (0 <= b <= 3)%Z -> (0 <= c <= 24)%Z -> (0 <= e <= 3)%Z ->
  yearStart (400 * a + 100 * b + 4 * c + e) = (146097 * a + 36524 * b + 1461 * c + 365 * e)%Z.
Proof.
  intros Hb Hc He. unfold yearStart.
  rewrite <- (Z.div_unique (400 * a + 100 * b + 4 * c + e) 4 (100 * a + 25 * b + c) e) by lia.
  rewrite <- (Z.div_unique (400 * a + 100 * b + 4 * c + e) 100 (4 * a + b) (4 * c + e)) by lia.
  rewrite <- (Z.div_unique (400 * a + 100 * b + 4 * c + e) 400 a (100 * b + 4 * c + e)) by lia.
  lia.
Qed.

Definition yearLen (year : Z) : Z := if isLeap year then 366%Z else 365%Z.

Lemma splitYear_spec d y yday :
  splitYear d = (y, yday) -> d = (yearStart y + yday)%Z /\ (0 <= yday < yearLen (y + 1))%Z.
Proof.
  unfold splitYear. intros H. injection H as <- <-.
  pose proof (Z.div_mod d 146097 ltac:(lia)) as E1.
  pose proof (Z.mod_pos_bound d 146097 ltac:(lia)) as B1.
  set (a := (d / 146097)%Z) in *. set (d1 := (d mod 146097)%Z) in *.
  pose proof (Z.div_mod d1 36524 ltac:(lia)) as E2.
  pose proof (Z.mod_pos_bound d1 36524 ltac:(lia)) as B2.
  set (b := Z.min 3 (d1 / 36524)) in *.
  assert (Hb : (0 <= b <= 3)%Z) by lia.
  assert (Hd2 : (0 <= d1 - 36524 * b <= 36524)%Z) by lia.
  assert (Hd2' : (d1 - 36524 * b = 36524)%Z -> b = 3%Z) by lia.
  set (d2 := (d1 - 36524 * b)%Z) in *.
  pose proof (Z.div_mod d2 1461 ltac:(lia)) as E3.
  pose proof (Z.mod_pos_bound d2 1461 ltac:(lia)) as B3.
  set (c := (d2 / 1461)%Z) in *. set (d3 := (d2 mod 1461)%Z) in *.
  assert (Hc : (0 <= c <= 24)%Z) by lia.
  assert (Hc' : c = 24%Z -> (d3 <= 1460)%Z /\ (d3 = 1460%Z -> b = 3%Z)) by lia.
  pose proof (Z.div_mod d3 365 ltac:(lia)) as E4.
  pose proof (Z.mod_pos_bound d3 365 ltac:(lia)) as B4.
  set (e := Z.min 3 (d3 / 365)) in *.
  assert (He : (0 <= e <= 3)%Z) by lia.
  assert (Hd4 : (0 <= d3 - 365 * e <= 365)%Z) by lia.
  assert (Hd4' : (d3 - 365 * e = 365)%Z -> e = 3%Z /\ d3 = 1460%Z) by lia.
  rewrite yearStart_split by done. split; [lia |].
  unfold yearLen. rewrite isLeap_split by done.
  destruct (Z.eqb_spec e 3), (Z.eqb_spec c 24), (Z.eqb_spec b 3); cbn; lia.
Qed.

(** Every day of a year is a date, by cases on the 365 or 366 days. *)
Definition date_ok (leap : bool) (yday : Z) : bool :=
  let '(m, d) := monthDay leap yday in
  (yearDay leap m d =? yday)%Z && (1 <=? m)%Z && (m <=? 12)%Z && (1 <=? d)%Z
  && (d <=? (if (m =? 2)%Z && leap then 29 else daysBefore m - daysBefore (m - 1)))%Z
  && (d <=? 31)%Z.

Lemma monthDay_spec (leap : bool) (yday m d : Z) :
  (0 <= yday < (if leap then 366 else 365))%Z -> monthDay leap yday = (m, d) ->
  yearDay leap m d = yday /\ (1 <= m <= 12)%Z /\
  (1 <= d <= (if (m =? 2)%Z && leap then 29 else daysBefore m - daysBefore (m - 1)))%Z /\ (d <= 31)%Z.
Proof.
  intros Hy E.
  assert (Hall : forallb (fun n => date_ok leap (Z.of_nat n)) (seq 0 (if leap then 366 else 365)) = true)
    by (by destruct leap; vm_compute).
  rewrite forallb_forall in Hall.
  assert (Hok : date_ok leap yday = true).
  { rewrite <- (Z2Nat.id yday) by lia. apply Hall, in_seq. destruct leap; lia. }
  unfold date_ok in Hok. rewrite E in Hok. to_prop. lia.
Qed.

(** ** Digits *)

Lemma digitVal_digit (d : Z) s : (0 <= d <= 9)%Z -> digitVal (ascii_of_N (Z.to_N (48 + d))) = Some d /\
  digit d +:+ s = String (ascii_of_N (Z.to_N (48 + d))) s.
Proof.
  intros H. split; [| done]. unfold digitVal, zbyte. rewrite N_ascii_embedding by lia.
  rewrite Z2N.id by lia.
  destruct (Z.leb_spec 48 (48 + d)), (Z.leb_spec (48 + d) 57); cbn; try lia. f_equal. lia.
Qed.

Lemma mod10 n : (0 <= n mod 10 <= 9)%Z.
Proof. pose proof (Z.mod_pos_bound n 10). lia. Qed.

Lemma pow10_S (w : nat) : (10 ^ Z.of_nat (S w) = 10 * 10 ^ Z.of_nat w)%Z.
Proof. rewrite Nat2Z.inj_succ, Z.pow_succ_r; lia. Qed.

Lemma div10_bound w n : (0 <= n < 10 ^ Z.of_nat (S w))%Z -> (0 <= n / 10 < 10 ^ Z.of_nat w)%Z.
Proof.
  rewrite pow10_S. intros H. split; [apply Z.div_pos; lia |]. apply Z.div_lt_upper_bound; lia.
Qed.

Lemma takeDigits_pad_gen w k n acc s :
  (0 <= n < 10 ^ Z.of_nat w)%Z ->
  takeDigits (w + k) acc (pad w n +:+ s) = takeDigits k (acc * 10 ^ Z.of_nat w + n) s.
Proof.
  revert k n acc s. induction w as [| w IH]; intros k n acc s Hn; cbn [pad].
  { cbn. f_equal. cbn in Hn. lia. }
  rewrite <- str_app_assoc. replace (S w + k)%nat with (w + S k)%nat by lia.
  rewrite IH by by apply div10_bound.
  destruct (digitVal_digit (n mod 10) s (mod10 n)) as [Hv ->]. cbn [takeDigits]. rewrite Hv.
  f_equal. rewrite pow10_S. pose proof (Z.div_mod n 10 ltac:(lia)). lia.
Qed.

Lemma takeUint_pad w lo hi n s :
  (0 <= n < 10 ^ Z.of_nat w)%Z -> (lo <= n <= hi)%Z -> takeUint w lo hi (pad w n +:+ s) = Some (n, s).
Proof.
  intros Hn Hb. unfold takeUint. pose proof (takeDigits_pad_gen w 0 n 0 s Hn) as H.
  rewrite Nat.add_0_r, Z.mul_0_l, Z.add_0_l in H. rewrite H. cbn [takeDigits].
  destruct (Z.leb_spec lo n), (Z.leb_spec n hi); cbn; first [done | lia].
Qed.

Lemma spanDigits_pad w n s :
  spanDigits (pad w n +:+ s) = (pad w n +:+ (spanDigits s).1, (spanDigits s).2).
Proof.
  revert n s. induction w as [| w IH]; intros n s; cbn [pad].
  { change ("" +:+ s) with s. change ("" +:+ (spanDigits s).1) with (spanDigits s).1. by destruct (spanDigits s). }
  rewrite <- !str_app_assoc, IH.
  destruct (digitVal_digit (n mod 10) s (mod10 n)) as [Hv Hd].
  assert (E : spanDigits (digit (n mod 10) +:+ s) = (digit (n mod 10) +:+ (spanDigits s).1, (spanDigits s).2)).
  { rewrite Hd. cbn [spanDigits]. rewrite Hv. by destruct (spanDigits s). }
  by rewrite E.
Qed.

(** ** Round trip *)

Lemma TrimRight_String c s z :
  TrimRight (String c s) z
  = (if String.eqb (TrimRight s z) "" && Ascii.eqb c z then "" else String c (TrimRight s z)).
Proof. cbn. destruct (TrimRight s z); cbn; [by destruct (Ascii.eqb c z) | by destruct (Ascii.eqb c z)]. Qed.

Lemma fracValue_TrimRight n s : fracValue n (TrimRight s "0") = fracValue n s.
Proof.
  revert n. induction s as [| c s IH]; intros n; [done |].
  rewrite TrimRight_String. destruct (String.eqb_spec (TrimRight s "0") "") as [E | E]; cbn [andb].
  - destruct (Ascii.eqb_spec c "0") as [-> | Hc].
    + destruct n as [| n]; [done |]. change (fracValue (S n) "") with 0%Z. cbn [fracValue].
      rewrite <- IH, E. by destruct n.
    + destruct n as [| n]; [done |]. cbn [fracValue]. by rewrite IH.
  - destruct n as [| n]; [done |]. cbn [fracValue]. by rewrite IH.
Qed.

Lemma fracValue_pad_gen w k n s :
  (0 <= n < 10 ^ Z.of_nat w)%Z ->
  fracValue (w + k) (pad w n +:+ s) = (n * 10 ^ Z.of_nat k + fracValue k s)%Z.
Proof.
  revert k n s. induction w as [| w IH]; intros k n s Hn; cbn [pad].
  { cbn in Hn. replace n with 0%Z by lia. done. }
  rewrite <- str_app_assoc. replace (S w + k)%nat with (w + S k)%nat by lia.
  rewrite IH by by apply div10_bound.
  destruct (digitVal_digit (n mod 10) s (mod10 n)) as [Hv ->]. cbn [fracValue]. rewrite Hv.
  cbn [from_option]. unfold id. rewrite pow10_S. pose proof (Z.div_mod n 10 ltac:(lia)) as Hd.
  transitivity ((10 * (n / 10) + n mod 10) * 10 ^ Z.of_nat k + fracValue k s)%Z; [lia |].
  by rewrite <- Hd.
Qed.

Lemma spanDigits_TrimRight s r :
  (spanDigits s).2 = "" -> (spanDigits r).1 = "" ->
  spanDigits (TrimRight s "0" +:+ r) = (TrimRight s "0", r).
Proof.
  intros Hs Hr.
  assert (Hr0 : spanDigits r = ("", r)).
  { destruct r as [| c r]; [done |]. cbn in *. destruct (digitVal c); [| done].
    by destruct (spanDigits r). }
  induction s as [| c s IH]; [done |].
  cbn [spanDigits] in Hs. destruct (digitVal c) eqn:Ec; [| done].
  destruct (spanDigits s) as [ds rest] eqn:Es. cbn in Hs. specialize (IH Hs).
  rewrite TrimRight_String. case_goal; [done |].
  change (String c ?a +:+ r) with (String c (a +:+ r)). cbn [spanDigits]. by rewrite Ec, IH.
Qed.

Lemma takeNanos_format ns :
  (0 <= ns < Second)%Z -> takeNanos (formatNanos ns +:+ "Z") = (ns, "Z").
Proof.
  intros Hns. unfold formatNanos. destruct (Z.eqb_spec ns 0) as [-> | Hne]; [done |].
  assert (Hp : (0 <= ns < 10 ^ Z.of_nat 9)%Z) by (unfold Second in Hns; lia).
  rewrite <- str_app_assoc. change ("." +:+ ?a) with (String "." a). cbn [takeNanos].
  rewrite spanDigits_TrimRight; [| | done].
  2:{ rewrite <- (str_app_nil_r (pad 9 ns)), spanDigits_pad. done. }
  assert (Hv : fracValue 9 (TrimRight (pad 9 ns) "0") = ns).
  { rewrite fracValue_TrimRight, <- (str_app_nil_r (pad 9 ns)).
    rewrite (fracValue_pad_gen 9 0) by done. cbn [fracValue]. lia. }
  destruct (String.eqb_spec (TrimRight (pad 9 ns) "0") "") as [E | E]; [| by rewrite Hv].
  rewrite E in Hv. cbn in Hv. lia.
Qed.

Lemma eat_app c s : eat c (String c "" +:+ s) = Some s.
Proof. cbn. by rewrite Ascii.eqb_refl. Qed.

Lemma time_parts t :
  t = (((dayOf t * 86400 + clockOf t) * Second) + nanosOf t)%Z /\
  (0 <= clockOf t < 86400)%Z /\ (0 <= nanosOf t < Second)%Z.
Proof.
  unfold dayOf, clockOf, nanosOf, secsOf, Second.
  pose proof (Z.div_mod t 1000000000 ltac:(lia)). pose proof (Z.mod_pos_bound t 1000000000 ltac:(lia)).
  pose proof (Z.div_mod (t / 1000000000) 86400 ltac:(lia)).
  pose proof (Z.mod_pos_bound (t / 1000000000) 86400 ltac:(lia)). lia.
Qed.

Lemma clock_parts c : (0 <= c < 86400)%Z ->
  c = (c / 3600 * 3600 + c / 60 mod 60 * 60 + c mod 60)%Z /\ (0 <= c / 3600 <= 23)%Z /\
  (0 <= c / 60 mod 60 <= 59)%Z /\ (0 <= c mod 60 <= 59)%Z.
Proof.
  intros H. pose proof (Z.div_mod c 60 ltac:(lia)). pose proof (Z.mod_pos_bound c 60 ltac:(lia)).
  pose proof (Z.div_mod (c / 60) 60 ltac:(lia)). pose proof (Z.mod_pos_bound (c / 60) 60 ltac:(lia)).
  replace (c / 3600)%Z with (c / 60 / 60)%Z by (rewrite Z.div_div by lia; done). lia.
Qed.

(** A time of the years 0 to 9999 survives the text. *)
Lemma ParseRFC3339Nano_Format t :
  (0 <= Year t <= 9999)%Z -> ParseRFC3339Nano (FormatRFC3339Nano t) = Some t.
Proof.
  unfold Year, FormatRFC3339Nano. intros Hy.
  destruct (time_parts t) as (Et & Hc & Hn).
  destruct (splitYear (dayOf t)) as [y yday] eqn:Es. apply splitYear_spec in Es as [Ed Hyd].
  cbn [fst] in Hy. unfold yearLen in Hyd.
  destruct (monthDay (isLeap (y + 1)) yday) as [m d] eqn:Em.
  apply monthDay_spec in Em as (Eyd & Hm & Hd & Hd31); [| done].
  destruct (clock_parts _ Hc) as (Ec & Hh & Hmi & Hse).
  assert (Hdi : (1 <= d <= daysIn m (y + 1))%Z) by (unfold daysIn; done).
  unfold formatYear. destruct (Z.leb_spec 0 (y + 1)), (Z.ltb_spec (y + 1) 10000); cbn [andb]; try lia.
  unfold ParseRFC3339Nano.
  rewrite takeUint_pad by lia; cbn [mbind option_bind]; rewrite eat_app; cbn [mbind option_bind].
  rewrite takeUint_pad by lia; cbn [mbind option_bind]; rewrite eat_app; cbn [mbind option_bind].
  rewrite takeUint_pad by lia; cbn [mbind option_bind]; rewrite eat_app; cbn [mbind option_bind].
  rewrite takeUint_pad by lia; cbn [mbind option_bind]; rewrite eat_app; cbn [mbind option_bind].
  rewrite takeUint_pad by lia; cbn [mbind option_bind]; rewrite eat_app; cbn [mbind option_bind].
  rewrite takeUint_pad by lia; cbn [mbind option_bind].
  rewrite takeNanos_format by done. cbn [takeZone mbind option_bind].
  change (takeZone "Z") with (Some 0%Z). cbn [mbind option_bind].
  f_equal. unfold mkTime. replace (y + 1 - 1)%Z with y by lia. rewrite Eyd, <- Ed.
  unfold Second in *. lia.
Qed.

(** ** Order

    Texts compare byte by byte.  Of two times in different seconds the earlier
    one has the smaller text; within a second the order of the texts can be
    the other way round ([text_order_fraction]). *)

Lemma compare_prefix (p s t : string) : String.compare (p +:+ s) (p +:+ t) = String.compare s t.
Proof. induction p as [| c p IH]; [done |]. cbn. unfold Ascii.compare. by rewrite N.compare_refl. Qed.

Lemma compare_pad w a b s t :
  (0 <= a < b)%Z -> (b < 10 ^ Z.of_nat w)%Z ->
  String.compare (pad w a +:+ s) (pad w b +:+ t) = Lt.
Proof.
  revert a b s t. induction w as [| w IH]; intros a b s t Ha Hb; [cbn in Hb; lia |].
  cbn [pad]. rewrite <- !str_app_assoc.
  pose proof (Z.div_mod a 10 ltac:(lia)). pose proof (Z.div_mod b 10 ltac:(lia)).
  pose proof (mod10 a). pose proof (mod10 b).
  destruct (Z.eq_dec (a / 10) (b / 10)) as [E | E].
  - rewrite E, compare_prefix. unfold digit. cbn [String.append String.compare].
    replace (Ascii.compare _ _) with Lt; [done |]. symmetry. unfold Ascii.compare.
    rewrite !N_ascii_embedding by lia. apply N.compare_lt_iff. lia.
  - assert (Hd : (0 <= b / 10 < 10 ^ Z.of_nat w)%Z) by (apply div10_bound; lia).
    apply IH; [| lia]. split; [apply Z.div_pos; lia | lia].
Qed.

Lemma div_succ k y : (0 < k)%Z -> ((y + 1) / k = y / k + if ((y + 1) mod k =? 0)%Z then 1 else 0)%Z.
Proof.
  intros Hk. pose proof (Z.div_mod y k ltac:(lia)). pose proof (Z.mod_pos_bound y k Hk).
  destruct (Z.eq_dec (y mod k) (k - 1)) as [E | E].
  - rewrite <- (Z.mod_unique (y + 1) k (y / k + 1) 0) by lia.
    rewrite <- (Z.div_unique (y + 1) k (y / k + 1) 0) by lia. done.
  - rewrite <- (Z.mod_unique (y + 1) k (y / k) (y mod k + 1)) by lia.
    rewrite <- (Z.div_unique (y + 1) k (y / k) (y mod k + 1)) by lia.
    destruct (Z.eqb_spec (y mod k + 1) 0); lia.
Qed.

Lemma mod_multiple x k j : (0 < k)%Z -> (0 < j)%Z -> (x mod (k * j) = 0)%Z -> (x mod k = 0)%Z.
Proof.
  intros Hk Hj H. apply Z.mod_divide; [lia |]. apply Z.mod_divide in H; [| nia].
  destruct H as [z ->]. exists (z * j)%Z. lia.
Qed.

Lemma yearStart_succ y : (yearStart (y + 1) = yearStart y + yearLen (y + 1))%Z.
Proof.
  unfold yearStart, yearLen, isLeap. rewrite !div_succ by lia.
  assert (H1 : ((y + 1) mod 100 = 0)%Z -> ((y + 1) mod 4 = 0)%Z) by by apply (mod_multiple _ 4 25).
  assert (H2 : ((y + 1) mod 400 = 0)%Z -> ((y + 1) mod 100 = 0)%Z) by by apply (mod_multiple _ 100 4).
  destruct (Z.eqb_spec ((y + 1) mod 4) 0), (Z.eqb_spec ((y + 1) mod 100) 0),
    (Z.eqb_spec ((y + 1) mod 400) 0); cbn; lia.
Qed.

Lemma yearLen_bounds y : (365 <= yearLen y <= 366)%Z.
Proof. unfold yearLen. destruct (isLeap y); lia. Qed.

Lemma yearStart_mono y z : (y <= z)%Z -> (yearStart y <= yearStart z)%Z.
Proof.
  intros H. replace z with (y + (z - y))%Z by lia. assert (Hk : (0 <= z - y)%Z) by lia.
  revert Hk. generalize (z - y)%Z. apply natlike_ind; [by rewrite Z.add_0_r |].
  intros k Hk IH. replace (y + Z.succ k)%Z with (y + k + 1)%Z by lia. rewrite yearStart_succ.
  pose proof (yearLen_bounds (y + k + 1)). lia.
Qed.

Definition dateKey (leap : bool) (yday : Z) : Z :=
  let '(m, d) := monthDay leap yday in (32 * m + d)%Z.

Lemma dateKey_mono (leap : bool) (a b : Z) :
  (0 <= a < b)%Z -> (b < (if leap then 366 else 365))%Z -> (dateKey leap a < dateKey leap b)%Z.
Proof.
  intros Ha Hb.
  assert (Hall : forallb (fun n => (dateKey leap (Z.of_nat n) <? dateKey leap (Z.of_nat n + 1))%Z)
    (seq 0 (if leap then 365 else 364)) = true) by (by destruct leap; vm_compute).
  rewrite forallb_forall in Hall.
  assert (Hstep : forall c, (0 <= c)%Z -> (c + 1 < (if leap then 366 else 365))%Z ->
    (dateKey leap c < dateKey leap (c + 1))%Z).
  { intros c Hc Hc'. rewrite <- (Z2Nat.id c) by done. apply Z.ltb_lt, Hall, in_seq. destruct leap; lia. }
  replace b with (a + 1 + (b - a - 1))%Z in Hb |- * by lia. revert Hb.
  assert (Hk : (0 <= b - a - 1)%Z) by lia. revert Hk. generalize (b - a - 1)%Z.
  apply (natlike_ind (fun k => _ -> _)).
  - rewrite Z.add_0_r. intros Hb. apply Hstep; lia.
  - intros k Hk IH Hb. replace (a + 1 + Z.succ k)%Z with (a + 1 + k + 1)%Z by lia.
    etransitivity; [apply IH; lia | apply Hstep; lia].
Qed.

(** Two dates of one calendar, as year, month and day. *)
Lemma splitYear_lt a b y z p q :
  (a < b)%Z -> splitYear a = (y, p) -> splitYear b = (z, q) ->
  (y < z)%Z \/ (y = z /\ (p < q)%Z).
Proof.
  intros Hab Ea Eb. apply splitYear_spec in Ea as [Ea Ha], Eb as [Eb Hb].
  destruct (Z.lt_trichotomy y z) as [H | [H | H]]; [by left | right; subst; lia |].
  pose proof (yearStart_mono (z + 1) y ltac:(lia)). pose proof (yearStart_succ z). lia.
Qed.

Lemma monthDay_lt (leap : bool) (p q m d m' d' : Z) :
  (0 <= p < q)%Z -> (q < (if leap then 366 else 365))%Z ->
  monthDay leap p = (m, d) -> monthDay leap q = (m', d') ->
  (m < m')%Z \/ (m = m' /\ (d < d')%Z).
Proof.
  intros Hp Hq Em Em'. pose proof (dateKey_mono leap p q Hp Hq) as Hk.
  unfold dateKey in Hk. rewrite Em, Em' in Hk.
  apply monthDay_spec in Em as (_ & _ & Hd & Hd31); [| lia].
  apply monthDay_spec in Em' as (_ & _ & Hd' & Hd31'); [| lia]. lia.
Qed.

Lemma clock_lt c c' s s' :
  (0 <= c < c')%Z -> (c' < 86400)%Z ->
  String.compare (pad 2 (c / 3600) +:+ ":" +:+ pad 2 (c / 60 mod 60) +:+ ":" +:+ pad 2 (c mod 60) +:+ s)
    (pad 2 (c' / 3600) +:+ ":" +:+ pad 2 (c' / 60 mod 60) +:+ ":" +:+ pad 2 (c' mod 60) +:+ s') = Lt.
Proof.
  intros Hc Hc'. destruct (clock_parts c ltac:(lia)) as (E & Hh & Hm & Hs).
  destruct (clock_parts c' ltac:(lia)) as (E' & Hh' & Hm' & Hs').
  destruct (Z.lt_trichotomy (c / 3600) (c' / 3600)) as [H | [H | H]]; [apply compare_pad; lia | | lia].
  rewrite H, !compare_prefix.
  destruct (Z.lt_trichotomy (c / 60 mod 60) (c' / 60 mod 60)) as [G | [G | G]];
    [apply compare_pad; lia | | lia].
  rewrite G, !compare_prefix. apply compare_pad; lia.
Qed.

(** Times of different seconds: the earlier one has the smaller text. *)
Lemma Format_lt t u :
  (0 <= Year t <= 9999)%Z -> (0 <= Year u <= 9999)%Z -> (secsOf t < secsOf u)%Z ->
  String.compare (FormatRFC3339Nano t) (FormatRFC3339Nano u) = Lt.
Proof.
  intros Ht Hu Hlt.
  assert (Hd : (dayOf t < dayOf u)%Z \/ (dayOf t = dayOf u /\ (clockOf t < clockOf u)%Z)).
  { unfold dayOf, clockOf. pose proof (Z.div_mod (secsOf t) 86400 ltac:(lia)).
    pose proof (Z.div_mod (secsOf u) 86400 ltac:(lia)).
    pose proof (Z.mod_pos_bound (secsOf t) 86400 ltac:(lia)).
    pose proof (Z.mod_pos_bound (secsOf u) 86400 ltac:(lia)). lia. }
  unfold Year in *. unfold FormatRFC3339Nano, formatYear.
  destruct (splitYear (dayOf t)) as [y p] eqn:Es, (splitYear (dayOf u)) as [z q] eqn:Eu.
  cbn [fst] in *.
  destruct (monthDay (isLeap (y + 1)) p) as [m d] eqn:Em, (monthDay (isLeap (z + 1)) q) as [m' d'] eqn:Em'.
  repeat match goal with |- context [(?a <=? ?b)%Z] => destruct (Z.leb_spec a b); [| lia] end.
  repeat match goal with |- context [(?a <? 10000)%Z] => destruct (Z.ltb_spec a 10000); [| lia] end.
  cbn [andb].
  destruct Hd as [Hd | [Hd Hc]].
  - destruct (splitYear_lt _ _ _ _ _ _ Hd Es Eu) as [Hy | [<- Hpq]]; [apply compare_pad; lia |].
    apply splitYear_spec in Es as [_ Hp], Eu as [_ Hq]. unfold yearLen in Hp, Hq.
    rewrite !compare_prefix.
    destruct (monthDay_lt (isLeap (y + 1)) p q m d m' d' ltac:(lia) ltac:(lia) Em Em') as [Hm | [<- Hdd]].
    + apply monthDay_spec in Em as (_ & Hm1 & _), Em' as (_ & Hm2 & _); [| lia | lia].
      apply compare_pad; lia.
    + rewrite !compare_prefix. apply monthDay_spec in Em as (_ & _ & [Hd1 _] & _), Em' as (_ & _ & _ & Hd2);
        [| lia | lia]. apply compare_pad; lia.
  - rewrite Hd in Es. rewrite Eu in Es. injection Es as <- <-. rewrite Em' in Em. injection Em as <- <-.
    rewrite !compare_prefix. apply clock_lt; [| apply (time_parts u)].
    split; [apply (time_parts t) | done].
Qed.

Example text_order_fraction :
  String.compare (FormatRFC3339Nano (mkTime 2024 1 1 0 0 0 500000000))
    (FormatRFC3339Nano (mkTime 2024 1 1 0 0 0 0)) = Lt.
Proof. reflexivity. Qed.

End GoTime.
