(* ===== verification/Json.v ===== *)
(** * Go's package encoding/json: the documents of the metadata records

    A JSON document is a tree; [Marshal] of the structs of package metadata builds
    it from the struct tags, and [Unmarshal] reads it back (a key selects the
    field whose name it equals up to case, the last one wins; null and a missing
    key leave the zero value).  The text of a document is the business of a
    [Codec], which reads back what it wrote. *)
From S2P Require Import Prelude GoStrings Metadata GoTime.
From Stdlib Require Import Ascii String.
Import GoTime.
Open Scope string_scope.
Open Scope bool_scope.
Open Scope go_scope.

Module Json.

#[warnings="-register-all"]
Inductive json : Type :=
| JNull
| JBool (b : bool)
| JInt (n : Z)
| JStr (s : string)
| JArr (l : list json)
| JObj (fields : list (string * json)).

Record Codec := mkCodec {
  json_encode : json -> string;
  json_decode : string -> option json;
}.

(** ** Encoding *)

(** The bytes that are no valid UTF-8 are written as U+FFFD. *)
Definition coerce (s : string) : string :=
  String.concat "" (map (fun rc => if (rc.1 =? RuneError)%Z then String "239" (String "191" (String "189" "")) else rc.2)
    (runes s)).

Definition enc_str (s : string) : json := JStr (coerce s).
Definition enc_opt {A} (f : A -> json) (o : option A) : json := match o with Some a => f a | None => JNull end.

(** [Time.MarshalJSON] fails outside the years 0 to 9999. *)
Definition enc_time (t : Time) : Res json :=
  if (0 <=? Year t)%Z && (Year t <=? 9999)%Z then Ok (JStr (FormatRFC3339Nano t))
  else Err (EMsg "Time.MarshalJSON: year outside of range [0,9999]").

Definition enc_opt_time (o : option Time) : Res json :=
  match o with Some t => enc_time t | None => Ok JNull end.

(** ** Decoding *)

Definition decodeError : gerr := EMsg "json: cannot unmarshal".

(** The value that is left in a field: the last one under its name. *)
Fixpoint field (name : string) (o : list (string * json)) : option json :=
  match o with
  | [] => None
  | (k, v) :: o' =>
      match field name o' with
      | Some v' => Some v'
      | None => if String.eqb (ToLower k) name then Some v else None
      end
  end.

Definition dec {A} (zero : A) (f : json -> option A) (j : option json) : Res A :=
  match j with
  | None => Ok zero
  | Some JNull => Ok zero
  | Some v => match f v with Some a => Ok a | None => Err decodeError end
  end.

Definition as_str (j : json) : option string := match j with JStr s => Some s | _ => None end.
Definition as_int (j : json) : option Z := match j with JInt n => Some n | _ => None end.
Definition as_bool (j : json) : option bool := match j with JBool b => Some b | _ => None end.
Definition as_time (j : json) : option Time := match j with JStr s => ParseRFC3339Nano s | _ => None end.
Definition as_list {A} (f : json -> option A) (j : json) : option (list A) :=
  match j with JArr l => mapM f l | _ => None end.

Definition dec_str := dec "" as_str.
Definition dec_int := dec 0%Z as_int.
Definition dec_bool := dec false as_bool.
Definition dec_time := dec 0%Z as_time.
Definition dec_opt {A} (f : json -> option A) := dec None (fun j => Some <$> f j).

(** ** metadata.Metadata *)

Definition marshalMetadata (md : Metadata) : Res json :=
  let! atime := enc_time (md_ATime md) in
  let! mtime := enc_time (md_MTime md) in
  let! ctime := enc_time (md_CTime md) in
  let! created := enc_time (md_CreatedAt md) in
  let! updated := enc_time (md_UpdatedAt md) in
  Ok (JObj [("id", JInt (md_ID md)); ("parent_id", enc_opt JInt (md_ParentID md));
            ("name", enc_str (md_Name md)); ("path", enc_str (md_Path md)); ("type", enc_str (md_Type md));
            ("size", JInt (md_Size md)); ("mode", enc_str (md_Mode md)); ("uid", JInt (md_UID md));
            ("gid", JInt (md_GID md)); ("atime", atime); ("mtime", mtime); ("ctime", ctime);
            ("backend_type", enc_str (md_BackendType md)); ("erasure_coded", JBool (md_ErasureCoded md));
            ("callfs_instance_id", enc_opt enc_str (md_CallFSInstanceID md));
            ("symlink_target", enc_opt enc_str (md_SymlinkTarget md));
            ("created_at", created); ("updated_at", updated)]).

Definition unmarshalMetadata (j : json) : Res Metadata :=
  match j with
  | JObj o =>
      let! id := dec_int (field "id" o) in
      let! parent := dec_opt as_int (field "parent_id" o) in
      let! name := dec_str (field "name" o) in
      let! path := dec_str (field "path" o) in
      let! type := dec_str (field "type" o) in
      let! size := dec_int (field "size" o) in
      let! mode := dec_str (field "mode" o) in
      let! uid := dec_int (field "uid" o) in
      let! gid := dec_int (field "gid" o) in
      let! atime := dec_time (field "atime" o) in
      let! mtime := dec_time (field "mtime" o) in
      let! ctime := dec_time (field "ctime" o) in
      let! backend := dec_str (field "backend_type" o) in
      let! coded := dec_bool (field "erasure_coded" o) in
      let! inst := dec_opt as_str (field "callfs_instance_id" o) in
      let! target := dec_opt as_str (field "symlink_target" o) in
      let! created := dec_time (field "created_at" o) in
      let! updated := dec_time (field "updated_at" o) in
      Ok (mkMetadata id parent name path type size mode uid gid atime mtime ctime backend coded inst target
            created updated)
  | _ => Err decodeError
  end.

(** ** metadata.SingleUseLink *)

Definition marshalLink (l : SingleUseLink) : Res json :=
  let! expires := enc_time (lk_ExpiresAt l) in
  let! used := enc_opt_time (lk_UsedAt l) in
  let! created := enc_time (lk_CreatedAt l) in
  let! updated := enc_time (lk_UpdatedAt l) in
  Ok (JObj [("id", JInt (lk_ID l)); ("token", enc_str (lk_Token l)); ("file_path", enc_str (lk_FilePath l));
            ("status", enc_str (lk_Status l)); ("expires_at", expires); ("used_at", used);
            ("used_by_ip", enc_opt enc_str (lk_UsedByIP l)); ("hmac_signature", enc_str (lk_HMACSignature l));
            ("created_at", created); ("updated_at", updated)]).

Definition unmarshalLink (j : json) : Res SingleUseLink :=
  match j with
  | JObj o =>
      let! id := dec_int (field "id" o) in
      let! token := dec_str (field "token" o) in
      let! path := dec_str (field "file_path" o) in
      let! status := dec_str (field "status" o) in
      let! expires := dec_time (field "expires_at" o) in
      let! used := dec_opt as_time (field "used_at" o) in
      let! ip := dec_opt as_str (field "used_by_ip" o) in
      let! sig := dec_str (field "hmac_signature" o) in
      let! created := dec_time (field "created_at" o) in
      let! updated := dec_time (field "updated_at" o) in
      Ok (mkLink id token path status expires used ip sig created updated)
  | _ => Err decodeError
  end.

(** ** metadata.ErasureFileInfo *)

Definition marshalShard (s : ErasureShardInfo) : json :=
  JObj [("index", JInt (si_Index s)); ("instance_id", enc_str (si_InstanceID s));
        ("backend_type", enc_str (si_BackendType s)); ("path", enc_str (si_Path s));
        ("size", JInt (si_Size s)); ("checksum", enc_str (si_Checksum s))].

Definition unmarshalShard (j : json) : option ErasureShardInfo :=
  match j with
  | JObj o =>
      match (let! index := dec_int (field "index" o) in
             let! inst := dec_str (field "instance_id" o) in
             let! backend := dec_str (field "backend_type" o) in
             let! path := dec_str (field "path" o) in
             let! size := dec_int (field "size" o) in
             let! sum := dec_str (field "checksum" o) in
             Ok (mkShardInfo index inst backend path size sum)) with
      | Ok s => Some s
      | Err _ => None
      end
  | _ => None
  end.

(** A nil slice is written as null and read back as nil; the model does not
    tell it from an empty one. *)
Definition marshalErasure (i : ErasureFileInfo) : json :=
  JObj [("file_path", enc_str (ei_FilePath i)); ("original_size", JInt (ei_OriginalSize i));
        ("data_shards", JInt (ei_DataShards i)); ("parity_shards", JInt (ei_ParityShards i));
        ("shard_size", JInt (ei_ShardSize i)); ("shards", JArr (map marshalShard (ei_Shards i)))].

Definition unmarshalErasure (j : json) : Res ErasureFileInfo :=
  match j with
  | JObj o =>
      let! path := dec_str (field "file_path" o) in
      let! size := dec_int (field "original_size" o) in
      let! data := dec_int (field "data_shards" o) in
      let! parity := dec_int (field "parity_shards" o) in
      let! shard := dec_int (field "shard_size" o) in
      let! shards := dec [] (as_list unmarshalShard) (field "shards" o) in
      Ok (mkErasureInfo path size data parity shard shards)
  | _ => Err decodeError
  end.

(** ** Round trips, for valid text and times in range *)

Definition utf8 (s : string) : Prop := coerce s = s.
#[global] Instance utf8_dec s : Decision (utf8 s).
Proof. unfold utf8. apply _. Defined.
Definition opt_utf8 (o : option string) : Prop := forall s, o = Some s -> utf8 s.
Definition jsonYear (t : Time) : Prop := (0 <= Year t <= 9999)%Z.

(** ASCII texts are valid, and so are decimal numbers. *)
Fixpoint ascii7 (s : string) : bool :=
  match s with EmptyString => true | String c s' => (zbyte c <? 128)%Z && ascii7 s' end.

Lemma concat_cons d l : String.concat "" (d :: l) = d +:+ String.concat "" l.
Proof. destruct l; cbn; [by rewrite str_app_nil_r | done]. Qed.

Lemma utf8_ascii s : ascii7 s = true -> utf8 s.
Proof.
  unfold utf8, coerce, runes. induction s as [| c s IH]; [done |]. cbn [ascii7]. intros H. to_prop.
  cbn [String.length rune_chunks DecodeRune]. rewrite (proj2 (Z.ltb_lt _ _)) by done.
  change (str_drop 1 (String c s)) with (str_drop 0 s). change (str_take 1 (String c s)) with (String c (str_take 0 s)).
  assert (E : str_drop 0 s = s /\ str_take 0 s = "") by (by destruct s). destruct E as [-> ->].
  cbn [map fst snd]. rewrite concat_cons, IH by done. rewrite (proj2 (Z.eqb_neq _ _)); [done | unfold RuneError; lia].
Qed.

Lemma ascii7_pretty_N_go x s : ascii7 s = true -> ascii7 (pretty_N_go x s) = true.
Proof.
  revert s. induction x as [x IH] using (well_founded_induction N.lt_wf_0). intros s Hs.
  destruct (decide (x = 0%N)) as [-> | Hne]; [by rewrite pretty_N_go_0 |].
  rewrite pretty_N_go_step by lia. apply IH; [apply N.div_lt; lia |]. cbn [ascii7]. rewrite Hs, andb_true_r.
  unfold pretty_N_char. by repeat case_match.
Qed.

Lemma ascii7_pretty_N (n : N) : ascii7 (pretty n) = true.
Proof. unfold pretty, pretty_N. case_decide; [done | by apply ascii7_pretty_N_go]. Qed.

Lemma Itoa_utf8 n : utf8 (Itoa n).
Proof.
  apply utf8_ascii. unfold Itoa. destruct n as [| p | p]; [done | apply (ascii7_pretty_N (N.pos p)) |].
  change (pretty (Z.neg p)) with ("-" +:+ pretty (N.pos p)). apply (ascii7_pretty_N (N.pos p)).
Qed.

Lemma enc_time_Ok t : jsonYear t -> enc_time t = Ok (JStr (FormatRFC3339Nano t)).
Proof.
  intros H. unfold enc_time. destruct (Z.leb_spec 0 (Year t)), (Z.leb_spec (Year t) 9999);
    unfold jsonYear in H; try lia. done.
Qed.

Lemma dec_opt_str o : opt_utf8 o -> dec_opt as_str (Some (enc_opt enc_str o)) = Ok o.
Proof. intros H. destruct o as [s |]; [| done]. cbn. unfold enc_str. by rewrite (H s eq_refl). Qed.

Lemma dec_opt_int o : dec_opt as_int (Some (enc_opt JInt o)) = Ok o.
Proof. by destruct o. Qed.

Lemma dec_str_enc s : utf8 s -> dec_str (Some (enc_str s)) = Ok s.
Proof. intros H. cbn. by rewrite H. Qed.

Lemma dec_time_enc t : jsonYear t -> dec_time (Some (JStr (FormatRFC3339Nano t))) = Ok t.
Proof. intros H. cbn [dec_time dec as_time]. by rewrite ParseRFC3339Nano_Format. Qed.

(** Replace the lookups in a literal document by what they find. *)
Ltac find_fields :=
  repeat match goal with
  | |- context [field ?n ?l] =>
      let v := eval cbv -[FormatRFC3339Nano enc_str enc_opt marshalShard map] in (field n l) in
      change (field n l) with v
  end.

Record md_json_ok (md : Metadata) : Prop := {
  mj_strings : utf8 (md_Name md) /\ utf8 (md_Path md) /\ utf8 (md_Type md) /\ utf8 (md_Mode md) /\ utf8 (md_BackendType md);
  mj_options : opt_utf8 (md_CallFSInstanceID md) /\ opt_utf8 (md_SymlinkTarget md);
  mj_times : jsonYear (md_ATime md) /\ jsonYear (md_MTime md) /\ jsonYear (md_CTime md) /\
             jsonYear (md_CreatedAt md) /\ jsonYear (md_UpdatedAt md);
}.

Lemma json_ok_of_same md md' : same_file md md' -> md_json_ok md ->
  jsonYear (md_ATime md') -> jsonYear (md_CTime md') -> jsonYear (md_CreatedAt md') -> jsonYear (md_UpdatedAt md') ->
  md_json_ok md'.
Proof.
  unfold same_file. intros H [H1 H2 (_ & H3 & _)] A1 A2 A3 A4. injection H as E1 E2 E3 E4 E5 E6 E7 E8 E9 E10 E11 E12.
  rewrite E1, E2, E3, E5, E9 in H1. rewrite E11, E12 in H2. rewrite E8 in H3. by split.
Qed.

Lemma json_metadata_roundtrip md : md_json_ok md ->
  exists j, marshalMetadata md = Ok j /\ unmarshalMetadata j = Ok md.
Proof.
  destruct md. intros [(H1 & H2 & H3 & H4 & H5) (H6 & H7) (T1 & T2 & T3 & T4 & T5)].
  cbn in *. unfold marshalMetadata. cbn. rewrite !enc_time_Ok by done. eexists. split; [reflexivity |].
  unfold unmarshalMetadata. find_fields. by rewrite dec_opt_int, !dec_str_enc, !dec_time_enc, !dec_opt_str.
Qed.

Record link_json_ok (l : SingleUseLink) : Prop := {
  lj_strings : utf8 (lk_Token l) /\ utf8 (lk_FilePath l) /\ utf8 (lk_Status l) /\ utf8 (lk_HMACSignature l);
  lj_ip : opt_utf8 (lk_UsedByIP l);
  lj_times : jsonYear (lk_ExpiresAt l) /\ jsonYear (lk_CreatedAt l) /\ jsonYear (lk_UpdatedAt l) /\
             forall u, lk_UsedAt l = Some u -> jsonYear u;
}.

Lemma json_link_roundtrip l : link_json_ok l -> exists j, marshalLink l = Ok j /\ unmarshalLink j = Ok l.
Proof.
  destruct l as [id tok path st exp used ip sig cr up]. intros [(H1 & H2 & H3 & H4) H5 (T1 & T2 & T3 & T4)].
  cbn in *. unfold marshalLink. cbn. rewrite !enc_time_Ok by done.
  assert (Eu : exists j, enc_opt_time used = Ok j /\ dec_opt as_time (Some j) = Ok used).
  { destruct used as [u |]; [| by exists JNull]. exists (JStr (FormatRFC3339Nano u)). cbn [enc_opt_time].
    rewrite enc_time_Ok by by apply T4. split; [done |]. cbn [dec_opt dec as_time].
    by rewrite ParseRFC3339Nano_Format by by apply T4. }
  destruct Eu as (j & Ej & Dj). rewrite Ej. eexists. split; [reflexivity |].
  unfold unmarshalLink. find_fields.
  rewrite Dj, !dec_str_enc, !dec_time_enc, dec_opt_str by done. done.
Qed.

Definition shard_utf8 (s : ErasureShardInfo) : Prop :=
  utf8 (si_InstanceID s) /\ utf8 (si_BackendType s) /\ utf8 (si_Path s) /\ utf8 (si_Checksum s).

Lemma json_shard_roundtrip s : shard_utf8 s -> unmarshalShard (marshalShard s) = Some s.
Proof.
  destruct s as [ix inst bk pth sz sm]. intros (H1 & H2 & H3 & H4). cbn in H1, H2, H3, H4. unfold unmarshalShard, marshalShard.
  find_fields. by rewrite !dec_str_enc.
Qed.

Lemma json_erasure_roundtrip i :
  utf8 (ei_FilePath i) -> Forall shard_utf8 (ei_Shards i) -> unmarshalErasure (marshalErasure i) = Ok i.
Proof.
  destruct i as [p n k m z shards]. intros Hp Hs. cbn in Hp, Hs. unfold unmarshalErasure, marshalErasure.
  find_fields.
  assert (E : mapM unmarshalShard (map marshalShard shards) = Some shards).
  { induction Hs as [| s l Hs Hl IH]; [done |]. cbn [map mapM]. by rewrite json_shard_roundtrip, IH. }
  rewrite dec_str_enc by done. cbn [dec as_list]. by rewrite E.
Qed.

(** ** A concrete text of documents

    Documents as trees with labelled leaves, and these as binary digits. *)
Fixpoint tree_of_json (j : json) : gen_tree (bool + Z + string) :=
  match j with
  | JNull => GenNode 0 []
  | JBool b => GenLeaf (inl (inl b))
  | JInt n => GenLeaf (inl (inr n))
  | JStr s => GenLeaf (inr s)
  | JArr l => GenNode 1 (map tree_of_json l)
  | JObj o => GenNode 2 (map (fun kv => GenNode 3 [GenLeaf (inr kv.1); tree_of_json kv.2]) o)
  end.

Fixpoint json_of_tree (t : gen_tree (bool + Z + string)) : json :=
  match t with
  | GenLeaf (inl (inl b)) => JBool b
  | GenLeaf (inl (inr n)) => JInt n
  | GenLeaf (inr s) => JStr s
  | GenNode 1 l => JArr (map json_of_tree l)
  | GenNode 2 l => JObj (map (fun e =>
      match e with GenNode _ [GenLeaf (inr k); v] => (k, json_of_tree v) | _ => ("", JNull) end) l)
  | GenNode _ _ => JNull
  end.

Fixpoint json_of_tree_of_json (j : json) : json_of_tree (tree_of_json j) = j.
Proof.
  destruct j as [| b | n | s | l | o]; try reflexivity; cbn; f_equal.
  - induction l as [| j l IH]; [done |]. cbn. f_equal; [apply json_of_tree_of_json | apply IH].
  - induction o as [| [k j] o IH]; [done |]. cbn. f_equal; [f_equal; apply json_of_tree_of_json | apply IH].
Qed.

Fixpoint digits (p : positive) : string :=
  match p with xH => "" | xO q => String "0" (digits q) | xI q => String "1" (digits q) end.
Fixpoint of_digits (s : string) : positive :=
  match s with EmptyString => xH | String c s' => if Ascii.eqb c "0" then xO (of_digits s') else xI (of_digits s') end.

Lemma of_digits_digits p : of_digits (digits p) = p.
Proof. induction p as [p IH | p IH |]; cbn; by rewrite ?IH. Qed.

Definition binaryCodec : Codec :=
  mkCodec (fun j => digits (encode (tree_of_json j))) (fun s => json_of_tree <$> decode (of_digits s)).

Lemma binaryCodec_roundtrip j : json_decode binaryCodec (json_encode binaryCodec j) = Some j.
Proof. cbn. by rewrite of_digits_digits, decode_encode; cbn; rewrite json_of_tree_of_json. Qed.

End Json.
