(* ===== verification/RaftText.v ===== *)
(** * The texts of the Raft store: log entries and snapshots

    What metadata/raft/store.go writes with encoding/json and reads back: the
    command of a log entry, the body of a forwarded command, and the persisted
    state of a snapshot.  Documents and their round trips are those of Json.v. *)
From S2P Require Import Prelude GoStrings Metadata GoTime Json RaftStore.
From Stdlib Require Import Ascii String.
Import GoTime Json Raft.
Open Scope string_scope.
Open Scope bool_scope.
Open Scope go_scope.

Module RaftText.

(** ** Optional fields: [omitempty] *)

Definition present (l : list (string * option json)) : list (string * json) :=
  omap (fun '(name, o) => pair name <$> o) l.
Definition nonEmpty (s : string) : option json := if String.eqb s "" then None else Some (enc_str s).
Definition res_opt {A B} (f : A -> Res B) (o : option A) : Res (option B) :=
  match o with None => Ok None | Some a => let! b := f a in Ok (Some b) end.
Definition to_option {A} (r : Res A) : option A := match r with Ok a => Some a | Err _ => None end.

(** ** Commands *)

Definition marshalCommand (cmd : Command) : Res json :=
  let! md := res_opt marshalMetadata (cmd_Metadata cmd) in
  let! link := res_opt marshalLink (cmd_Link cmd) in
  let! usedAt := res_opt enc_time (cmd_UsedAt cmd) in
  let! before := res_opt enc_time (cmd_Before cmd) in
  let! olderThan := res_opt enc_time (cmd_OlderThan cmd) in
  Ok (JObj (present
    [("op", Some (enc_str (cmd_Op cmd))); ("path", nonEmpty (cmd_Path cmd)); ("metadata", md);
     ("token", nonEmpty (cmd_Token cmd)); ("link", link); ("status", nonEmpty (cmd_Status cmd));
     ("used_at", usedAt); ("used_by_ip", enc_str <$> cmd_UsedByIP cmd); ("before", before);
     ("older_than", olderThan); ("erasure_info", marshalErasure <$> cmd_ErasureInfo cmd)])).

Definition unmarshalCommand (j : json) : Res Command :=
  match j with
  | JObj o =>
      let! op := dec_str (field "op" o) in
      let! path := dec_str (field "path" o) in
      let! md := dec_opt (fun j => to_option (unmarshalMetadata j)) (field "metadata" o) in
      let! token := dec_str (field "token" o) in
      let! link := dec_opt (fun j => to_option (unmarshalLink j)) (field "link" o) in
      let! status := dec_str (field "status" o) in
      let! usedAt := dec_opt as_time (field "used_at" o) in
      let! ip := dec_opt as_str (field "used_by_ip" o) in
      let! before := dec_opt as_time (field "before" o) in
      let! olderThan := dec_opt as_time (field "older_than" o) in
      let! erasure := dec_opt (fun j => to_option (unmarshalErasure j)) (field "erasure_info" o) in
      Ok (mkCommand op path md token link status usedAt ip before olderThan erasure)
  | _ => Err decodeError
  end.

(** [ForwardApplyRequest] and [ForwardApplyResponse]. *)
Definition marshalRequest (cmd : Command) : Res json :=
  let! c := marshalCommand cmd in Ok (JObj [("command", c)]).
Definition unmarshalRequest (j : json) : Res Command :=
  match j with
  | JObj o => match field "command" o with None | Some JNull => Ok (emptyCommand "") | Some c => unmarshalCommand c end
  | _ => Err decodeError
  end.
Definition marshalResponse (r : ForwardApplyResponse) : json :=
  JObj (present [("cleanup_count", if (far_CleanupCount r =? 0)%Z then None else Some (JInt (far_CleanupCount r)));
                 ("error", nonEmpty (far_Error r))]).
Definition unmarshalResponse (j : json) : Res ForwardApplyResponse :=
  match j with
  | JObj o =>
      let! count := dec_int (field "cleanup_count" o) in
      let! er := dec_str (field "error" o) in
      Ok (mkForwardResponse count er)
  | _ => Err decodeError
  end.

(** ** Maps *)

Definition keyLe {A} (a b : string * A) : Prop := strings.String.le a.1 b.1.
#[global] Instance keyLe_dec {A} : RelDecision (@keyLe A).
Proof. intros a b. unfold keyLe. apply _. Defined.

(** A map is written with its keys in order. *)
Definition entriesOf {A} (m : gmap string A) : list (string * A) := merge_sort keyLe (map_to_list m).
Fixpoint marshalEntries {A} (f : A -> Res json) (l : list (string * A)) : Res (list (string * json)) :=
  match l with
  | [] => Ok []
  | (k, a) :: rest => let! j := f a in let! js := marshalEntries f rest in Ok ((coerce k, j) :: js)
  end.
Definition marshalMap {A} (f : A -> Res json) (m : gmap string A) : Res json :=
  let! l := marshalEntries f (entriesOf m) in Ok (JObj l).

(** The entries are read in order; null is a nil pointer. *)
Fixpoint unmarshalEntries {A} (f : json -> Res A) (l : list (string * json)) (m : gmap string (option A))
  : Res (gmap string (option A)) :=
  match l with
  | [] => Ok m
  | (k, JNull) :: rest => unmarshalEntries f rest (<[k := None]> m)
  | (k, j) :: rest => let! a := f j in unmarshalEntries f rest (<[k := Some a]> m)
  end.
(** [None] is the nil map, which an absent field or a null leaves. *)
Definition unmarshalMap {A} (f : json -> Res A) (j : option json) : Res (option (gmap string (option A))) :=
  match j with
  | None | Some JNull => Ok None
  | Some (JObj l) => let! m := unmarshalEntries f l ∅ in Ok (Some m)
  | Some _ => Err decodeError
  end.

(** ** States *)

Definition marshalState (s : state) : Res json :=
  let! md := marshalMap marshalMetadata (MetadataByPath s) in
  let! links := marshalMap marshalLink (LinksByToken s) in
  let! erasure := marshalMap (fun i => Ok (marshalErasure i)) (ErasureByPath s) in
  Ok (JObj [("metadata_by_path", md); ("links_by_token", links); ("erasure_by_path", erasure)]).

(** A map with nil pointers has no state of the model; none is ever written. *)
Definition noNil {A} (m : option (gmap string (option A))) : Res (option (gmap string A)) :=
  match m with
  | None => Ok None
  | Some m => if bool_decide (map_Forall (fun _ o => is_Some o) m) then Ok (Some (omap id m))
              else Err (EMsg "a nil record: not a state of the model")
  end.

Definition unmarshalState (j : json) : Res rawState :=
  match j with
  | JObj o =>
      let! md := unmarshalMap unmarshalMetadata (field "metadata_by_path" o) in
      let! links := unmarshalMap unmarshalLink (field "links_by_token" o) in
      let! erasure := unmarshalMap unmarshalErasure (field "erasure_by_path" o) in
      let! md := noNil md in
      let! links := noNil links in
      let! erasure := noNil erasure in
      Ok (mkRaw md links erasure)
  | _ => Err decodeError
  end.

(** ** Texts *)

Section Texts.
Context (codec : Codec).

(** The data of a log entry, and its application on a replica. *)
Definition entryData (cmd : Command) : Res string := let! j := marshalCommand cmd in Ok (json_encode codec j).
Definition readEntry (data : string) : option Command :=
  match json_decode codec data with Some j => to_option (unmarshalCommand j) | None => None end.
Definition ApplyData (now : Time) (data : string) (s : state) : state * CommandResult := Apply now (readEntry data) s.

(** [json.Encoder.Encode] ends the document with a newline. *)
Definition newline : string := String (ascii_of_nat 10) "".
Definition snapshotText (s : state) : Res string := let! j := marshalState s in Ok (json_encode codec j +:+ newline).

(** The snapshot's sink of the Raft library. *)
Record SnapshotSink (W : Type) := mkSink {
  sink_Write : string -> St W (Res unit);
  sink_Cancel : St W (Res unit);
  sink_Close : St W (Res unit);
}.
Arguments sink_Write {W}. Arguments sink_Cancel {W}. Arguments sink_Close {W}.

Definition Persist {W} (sink : SnapshotSink W) (s : state) : St W (Res unit) :=
  do written <- match snapshotText s with Err er => ret (Err er) | Ok text => sink_Write sink text end;
  match written with
  | Err er => do _ <- sink_Cancel sink; ret (Err er)
  | Ok _ => sink_Close sink
  end.

(** [Restore] with the text it reads. *)
Definition RestoreText (text : string) (s : state) : state * Res unit :=
  Restore (match json_decode codec text with Some j => to_option (unmarshalState j) | None => None end) s.
End Texts.

End RaftText.
