(* ===== verification/RaftTextSpec.v ===== *)
(** * Properties of the texts of the Raft store

    Log entries and snapshots read back what was written, for records whose text
    is valid UTF-8 and whose times JSON can write; the state machine keeps such
    states; and what happens to other paths. *)
From S2P Require Import Prelude GoStrings Metadata GoTime Json RaftStore RaftText.
From Stdlib Require Import Ascii String.
Import GoTime Json Raft RaftText.
Open Scope string_scope.
Open Scope bool_scope.
Open Scope go_scope.

Module RaftTextSpec.

(** ** Fields that may be absent *)

Fixpoint slot (name : string) (l : list (string * option json)) : option json :=
  match l with
  | [] => None
  | (k, o) :: rest =>
      if String.eqb (ToLower k) name then match slot name rest with Some v => Some v | None => o end
      else slot name rest
  end.

Lemma field_present name l : field name (present l) = slot name l.
Proof.
  induction l as [| [k [j |]] l IH]; [done | |]; cbn [slot].
  - change (present ((k, Some j) :: l)) with ((k, j) :: present l). cbn [field]. rewrite IH.
    by destruct (slot name l), (String.eqb (ToLower k) name).
  - change (present ((k, None) :: l)) with (present l). rewrite IH. by destruct (slot name l), (String.eqb (ToLower k) name).
Qed.

(** Replace the slots of a literal document by what they hold. *)
Ltac find_slots :=
  repeat match goal with
  | |- context [slot ?n ?l] =>
      let v := eval cbv -[enc_str nonEmpty fmap option_fmap marshalErasure] in (slot n l) in
      change (slot n l) with v
  end.

Lemma dec_nonEmpty s : utf8 s -> dec_str (nonEmpty s) = Ok s.
Proof. intros H. unfold nonEmpty. destruct (String.eqb_spec s "") as [-> |]; [done | by apply dec_str_enc]. Qed.

Lemma dec_opt_text o : opt_utf8 o -> dec_opt as_str (enc_str <$> o) = Ok o.
Proof. intros H. destruct o as [s |]; [| done]. cbn. unfold enc_str. by rewrite (H s eq_refl). Qed.

(** An optional record that is written and read by [f] and [g]. *)
Lemma res_opt_roundtrip {A} (f : A -> Res json) (g : json -> Res A) (o : option A) :
  g JNull = Err decodeError -> (forall a, o = Some a -> exists j, f a = Ok j /\ g j = Ok a) ->
  exists j, res_opt f o = Ok j /\ dec_opt (fun j => to_option (g j)) j = Ok o.
Proof.
  intros Hn Ho. destruct o as [a |]; [| by exists None]. destruct (Ho a eq_refl) as (j & Hf & Hg). exists (Some j).
  cbn. rewrite Hf. split; [done |]. unfold dec_opt, dec. destruct j; rewrite ?Hg; try done. congruence.
Qed.

Lemma res_opt_time (o : option Time) :
  (forall t, o = Some t -> jsonYear t) -> exists j, res_opt enc_time o = Ok j /\ dec_opt as_time j = Ok o.
Proof.
  intros Ho. destruct o as [t |]; [| by exists None]. specialize (Ho t eq_refl). exists (Some (JStr (FormatRFC3339Nano t))).
  cbn [res_opt]. rewrite enc_time_Ok by done. split; [done |]. cbn [dec_opt dec as_time]. by rewrite ParseRFC3339Nano_Format.
Qed.

(** ** Commands *)

Definition erasure_json_ok (i : ErasureFileInfo) : Prop := utf8 (ei_FilePath i) /\ Forall shard_utf8 (ei_Shards i).

(** What JSON can write and read back. *)
Record cmd_json_ok (cmd : Command) : Prop := {
  cj_strings : utf8 (cmd_Op cmd) /\ utf8 (cmd_Path cmd) /\ utf8 (cmd_Token cmd) /\ utf8 (cmd_Status cmd);
  cj_ip : opt_utf8 (cmd_UsedByIP cmd);
  cj_md : forall md, cmd_Metadata cmd = Some md -> md_json_ok md;
  cj_link : forall l, cmd_Link cmd = Some l -> link_json_ok l;
  cj_erasure : forall i, cmd_ErasureInfo cmd = Some i -> erasure_json_ok i;
  cj_usedAt : forall t, cmd_UsedAt cmd = Some t -> jsonYear t;
  cj_before : forall t, cmd_Before cmd = Some t -> jsonYear t;
  cj_olderThan : forall t, cmd_OlderThan cmd = Some t -> jsonYear t;
}.

Lemma command_roundtrip cmd : cmd_json_ok cmd ->
  exists j, marshalCommand cmd = Ok j /\ unmarshalCommand j = Ok cmd.
Proof.
  intros [(H1 & H2 & H3 & H4) H5 H6 H7 H8 H9 H10 H11]. destruct cmd as [op path md tok link st ua ip be ot er]. cbn in *.
  destruct (res_opt_roundtrip marshalMetadata unmarshalMetadata md eq_refl) as (jm & Em & Dm).
  { intros m Hm. by apply json_metadata_roundtrip, H6. }
  destruct (res_opt_roundtrip marshalLink unmarshalLink link eq_refl) as (jl & El & Dl).
  { intros l Hl. by apply json_link_roundtrip, H7. }
  destruct (res_opt_time ua H9) as (ju & Eu & Du). destruct (res_opt_time be H10) as (jb & Eb & Db).
  destruct (res_opt_time ot H11) as (jo & Eo & Do).
  assert (De : dec_opt (fun j => to_option (unmarshalErasure j)) (marshalErasure <$> er) = Ok er).
  { destruct er as [i |]; [| done]. destruct (H8 i eq_refl) as [Hp Hs]. change (marshalErasure <$> Some i) with (Some (marshalErasure i)).
    cbn [dec_opt dec]. unfold dec_opt, dec. by rewrite (json_erasure_roundtrip i Hp Hs). }
  unfold marshalCommand. cbn [cmd_Op cmd_Path cmd_Metadata cmd_Token cmd_Link cmd_Status cmd_UsedAt cmd_UsedByIP cmd_Before
    cmd_OlderThan cmd_ErasureInfo]. rewrite Em. cbn [res_bind]. rewrite El. cbn [res_bind]. rewrite Eu. cbn [res_bind].
  rewrite Eb. cbn [res_bind]. rewrite Eo. cbn [res_bind]. eexists. split; [reflexivity |].
  unfold unmarshalCommand. rewrite !field_present. find_slots.
  rewrite !dec_nonEmpty by done. rewrite Dm, Dl, Du, Db, Do, De, dec_opt_text by done. cbn [res_bind].
  rewrite dec_str_enc by done. cbn [res_bind]. done.
Qed.

Lemma response_roundtrip r : utf8 (far_Error r) -> unmarshalResponse (marshalResponse r) = Ok r.
Proof.
  destruct r as [n er]. intros H. cbn in H. unfold unmarshalResponse, marshalResponse. rewrite !field_present. cbn [far_CleanupCount far_Error].
  destruct (Z.eqb_spec n 0) as [-> | _]; find_slots; by rewrite dec_nonEmpty.
Qed.

(** ** Maps *)

Section Maps.
Context {A : Type} (f : A -> Res json) (g : json -> Res A).

Definition writes (ka : string * A) : Prop := utf8 ka.1 /\ exists j, f ka.2 = Ok j /\ g j = Ok ka.2.
Context (Hnull : g JNull = Err decodeError).

Definition put (m : gmap string (option A)) (ka : string * A) : gmap string (option A) := <[ka.1 := Some ka.2]> m.

Lemma entries_roundtrip l m : Forall writes l ->
  exists js, marshalEntries f l = Ok js /\ unmarshalEntries g js m = Ok (foldl put m l).
Proof using All.
  intros Hl. revert m. induction Hl as [| [k a] l (Hk & j & Hf & Hg) _ IH]; intros m; [by exists [] |].
  cbn in Hk, Hf, Hg. destruct (IH (<[k := Some a]> m)) as (js & Hjs & Hm). exists ((k, j) :: js).
  cbn [marshalEntries]. rewrite Hf. cbn [res_bind]. rewrite Hjs, Hk. split; [done |].
  assert (Hj : j <> JNull) by (intros ->; congruence). cbn [unmarshalEntries]. rewrite Hg. cbn [res_bind foldl]. by destruct j.
Qed.

Lemma foldl_put_other l m k : k ∉ l.*1 -> foldl put m l !! k = m !! k.
Proof using Type.
  revert m. induction l as [| [k' a] l IH]; intros m Hk; [done |]. cbn in Hk |- *. apply not_elem_of_cons in Hk as [Hne Hk].
  rewrite IH by done. unfold put. cbn. by rewrite lookup_insert_ne.
Qed.
Lemma foldl_put l m k a : NoDup l.*1 -> (k, a) ∈ l -> foldl put m l !! k = Some (Some a).
Proof using Type.
  revert m. induction l as [| [k' a'] l IH]; intros m; cbn; [by intros _ Hin%elem_of_nil |].
  intros [Hk Hnd]%NoDup_cons [[= <- <-] | Hin]%elem_of_cons; [| by apply IH].
  rewrite foldl_put_other by done. unfold put. cbn. by rewrite lookup_insert_eq.
Qed.

Lemma foldl_put_map m : foldl put ∅ (entriesOf m) = Some <$> m.
Proof using Type.
  assert (Hp : entriesOf m ≡ₚ map_to_list m) by apply merge_sort_Permutation.
  assert (Hnd : NoDup (entriesOf m).*1) by (rewrite Hp; apply NoDup_fst_map_to_list).
  apply map_eq. intros k. rewrite lookup_fmap. destruct (m !! k) as [a |] eqn:E.
  - apply foldl_put; [done |]. rewrite Hp. by apply elem_of_map_to_list.
  - rewrite foldl_put_other; [done |]. intros ([k' a] & Hk & Hin)%list_elem_of_fmap. cbn in Hk. subst k'.
    rewrite Hp in Hin. apply elem_of_map_to_list in Hin. congruence.
Qed.

Lemma map_roundtrip m : (forall k a, m !! k = Some a -> writes (k, a)) ->
  exists j, marshalMap f m = Ok j /\ unmarshalMap g (Some j) = Ok (Some (Some <$> m)).
Proof using All.
  intros Hm. destruct (entries_roundtrip (entriesOf m) ∅) as (js & Hjs & Hg).
  { apply Forall_forall. intros [k a] Hin. apply Hm. unfold entriesOf in Hin. rewrite merge_sort_Permutation in Hin.
    by apply elem_of_map_to_list. }
  exists (JObj js). unfold marshalMap. rewrite Hjs. split; [done |]. cbn [unmarshalMap]. by rewrite Hg, foldl_put_map.
Qed.

Lemma noNil_total (m : gmap string A) : noNil (Some (Some <$> m)) = Ok (Some m).
Proof using Type.
  unfold noNil. rewrite bool_decide_true.
  - do 2 f_equal. apply map_eq. intros k. rewrite lookup_omap, lookup_fmap. by destruct (m !! k).
  - intros k o. rewrite lookup_fmap. destruct (m !! k); [intros [= <-]; by eexists | done].
Qed.
End Maps.

(** ** States *)

Record state_json_ok (s : state) : Prop := {
  sj_md : map_Forall (fun k md => utf8 k /\ md_json_ok md) (MetadataByPath s);
  sj_links : map_Forall (fun k l => utf8 k /\ link_json_ok l) (LinksByToken s);
  sj_erasure : map_Forall (fun k i => utf8 k /\ erasure_json_ok i) (ErasureByPath s);
}.

Lemma empty_json_ok : state_json_ok emptyState.
Proof. split; apply map_Forall_empty. Qed.

Lemma updateLink_json_ok now cmd l : jsonYear now -> cmd_json_ok cmd -> link_json_ok l -> link_json_ok (updateLink now cmd l).
Proof.
  intros Hn Hc [(H1 & H2 & H3 & H4) H5 (T1 & T2 & T3 & T4)]. pose proof (cj_strings _ Hc) as (_ & _ & _ & Hst).
  pose proof (cj_ip _ Hc) as Hip. pose proof (cj_usedAt _ Hc) as Hu. unfold updateLink.
  split; cbn [lk_Token lk_FilePath lk_Status lk_HMACSignature lk_UsedByIP lk_ExpiresAt lk_CreatedAt lk_UpdatedAt lk_UsedAt]; [done | |].
  - by destruct (cmd_UsedByIP cmd).
  - split; [done |]. split; [done |]. split; [done |]. by destruct (cmd_UsedAt cmd).
Qed.

Lemma removeLinks_json_ok doomed s : state_json_ok s -> state_json_ok (removeLinks doomed s).1.
Proof. intros [H1 H2 H3]. split; [done | | done]. cbn. intros k l [Hk _]%map_lookup_filter_Some. by apply H2. Qed.

(** The state machine keeps states that JSON can write. *)
Lemma Apply_json_ok now cmd s : jsonYear now -> cmd_json_ok cmd -> state_json_ok s -> state_json_ok (Apply now (Some cmd) s).1.
Proof.
  intros Hn Hc Hs. pose proof Hs as [H1 H2 H3]. pose proof (cj_strings _ Hc) as (_ & Hp & Ht & _). unfold Apply.
  repeat case_goal; cbn [fst]; try done; try by apply removeLinks_json_ok.
  all: split; cbn [MetadataByPath LinksByToken ErasureByPath set_md set_links set_erasure]; try done.
  - apply map_Forall_insert_2; [| done]. rewrite cloneMetadata_id. pose proof (cj_md _ Hc _ ltac:(eassumption)) as Hm. split; [apply Hm | done].
  - apply map_Forall_insert_2; [| done]. rewrite cloneMetadata_id. pose proof (cj_md _ Hc _ ltac:(eassumption)) as Hm. split; [apply Hm | done].
  - by apply map_Forall_delete.
  - apply map_Forall_insert_2; [| done]. rewrite cloneLink_id. pose proof (cj_link _ Hc _ ltac:(eassumption)) as Hm. split; [apply Hm | done].
  - apply map_Forall_insert_2; [| done]. split; [done |]. apply updateLink_json_ok; [done | done |]. by eapply H2.
  - apply map_Forall_insert_2; [| done]. rewrite cloneErasureFileInfo_id. split; [done |]. by eapply cj_erasure.
  - by apply map_Forall_delete.
Qed.

Definition entry_ok (e : Time * option Command) : Prop := jsonYear e.1 /\ forall cmd, e.2 = Some cmd -> cmd_json_ok cmd.
Lemma ApplyLog_json_ok l s : Forall entry_ok l -> state_json_ok s -> state_json_ok (ApplyLog l s).
Proof.
  intros Hl. revert s. induction Hl as [| [now [cmd |]] l [Hn Hc] _ IH]; intros s Hs; cbn [ApplyLog]; [done | |].
  - apply IH. cbn in Hn. apply Apply_json_ok; [done | by apply Hc | done].
  - by apply IH.
Qed.

Lemma state_roundtrip s : state_json_ok s ->
  exists j, marshalState s = Ok j /\
    unmarshalState j = Ok (mkRaw (Some (MetadataByPath s)) (Some (LinksByToken s)) (Some (ErasureByPath s))).
Proof.
  intros [H1 H2 H3]. destruct s as [md links er]. cbn in H1, H2, H3.
  destruct (map_roundtrip marshalMetadata unmarshalMetadata eq_refl md) as (jm & Em & Dm).
  { intros k a Ha. destruct (H1 k a Ha). split; [done | by apply json_metadata_roundtrip]. }
  destruct (map_roundtrip marshalLink unmarshalLink eq_refl links) as (jl & El & Dl).
  { intros k a Ha. destruct (H2 k a Ha). split; [done | by apply json_link_roundtrip]. }
  destruct (map_roundtrip (fun i => Ok (marshalErasure i)) unmarshalErasure eq_refl er) as (je & Ee & De).
  { intros k a Ha. destruct (H3 k a Ha) as (Hk & Hp & Hs). split; [done |]. eexists. split; [done | by apply json_erasure_roundtrip]. }
  unfold marshalState. cbn [MetadataByPath LinksByToken ErasureByPath]. rewrite Em. cbn [res_bind]. rewrite El. cbn [res_bind].
  rewrite Ee. cbn [res_bind]. eexists. split; [reflexivity |]. unfold unmarshalState. find_fields.
  rewrite Dm. cbn [res_bind]. rewrite Dl. cbn [res_bind]. rewrite De. cbn [res_bind]. by rewrite !noNil_total.
Qed.

(** ** Texts *)

(** The decoder reads back what the encoder wrote, also when a newline follows. *)
Class TextLaws (codec : Codec) : Prop := {
  text_roundtrip : forall j, json_decode codec (json_encode codec j) = Some j;
  text_line : forall j, json_decode codec (json_encode codec j +:+ newline) = Some j;
}.

Section Texts.
Context (codec : Codec) {laws : TextLaws codec}.

Lemma entry_roundtrip cmd : cmd_json_ok cmd -> exists data, entryData codec cmd = Ok data /\ readEntry codec data = Some cmd.
Proof.
  intros Hc. destruct (command_roundtrip cmd Hc) as (j & Hj & Hd). exists (json_encode codec j). unfold entryData, readEntry.
  rewrite Hj. split; [done |]. rewrite text_roundtrip. by rewrite Hd.
Qed.

Lemma snapshot_text_roundtrip s old : state_json_ok s ->
  exists text, snapshotText codec s = Ok text /\ RestoreText codec text old = (s, Ok tt).
Proof.
  intros Hs. destruct (state_roundtrip s Hs) as (j & Hj & Hd). exists (json_encode codec j +:+ newline). unfold snapshotText, RestoreText.
  rewrite Hj. split; [done |]. rewrite text_line. cbn [to_option]. rewrite Hd. cbn. destruct s as [m l e]. f_equal. apply (Snapshot_id (mkState m l e)).
Qed.

(** The entries of a log as the replicas read them. *)
Fixpoint ApplyTexts (log : list (Time * string)) (s : state) : state :=
  match log with
  | [] => s
  | (now, data) :: rest => ApplyTexts rest (ApplyData codec now data s).1
  end.
(** The log holds the commands' texts. *)
Definition written (e : Time * Command) (d : Time * string) : Prop :=
  e.1 = d.1 /\ jsonYear e.1 /\ cmd_json_ok e.2 /\ entryData codec e.2 = Ok d.2.

Lemma ApplyTexts_written log data s : Forall2 written log data ->
  ApplyTexts data s = ApplyLog (prod_map id Some <$> log) s.
Proof.
  intros H. revert s. induction H as [| [now cmd] [now' d] log data (Hn & _ & Hc & Hd) _ IH]; intros s; [done |].
  cbn in Hn, Hd. subst now'. cbn [ApplyTexts fmap list_fmap ApplyLog prod_map]. unfold ApplyData.
  destruct (entry_roundtrip cmd Hc) as (d' & Hd' & Hr). rewrite Hd in Hd'. injection Hd' as <-. cbn [fst snd]. rewrite Hr. apply IH.
Qed.
Lemma ApplyTexts_app l1 l2 s : ApplyTexts (l1 ++ l2)%list s = ApplyTexts l2 (ApplyTexts l1 s).
Proof. revert s. induction l1 as [| [now d] l1 IH]; intros s; cbn; [done | apply IH]. Qed.

(** C33: A replica that reads a snapshot's text catches up: when the commands of the log
    hold valid text and times of the years 0 to 9999, the state after any prefix can be
    persisted, [Restore] makes that state of the text whatever the replica held
    before, and the texts of the rest of the log lead it to the state of a replica
    that has applied every command itself. *)
Theorem raft_snapshot_text {W} (sink : SnapshotSink W) log1 log2 data1 data2 old w w' :
  Forall2 written log1 data1 -> Forall2 written log2 data2 ->
  let s := ApplyTexts data1 emptyState in
  exists text, snapshotText codec (Snapshot s) = Ok text /\ RestoreText codec text old = (s, Ok tt) /\
    ApplyTexts data2 (RestoreText codec text old).1 = ApplyLog (prod_map id Some <$> (log1 ++ log2)%list) emptyState /\
    (Persist codec sink (Snapshot s) w = (w', Ok tt) ->
     exists w1, sink_Write _ sink text w = (w1, Ok tt) /\ sink_Close _ sink w1 = (w', Ok tt)).
Proof.
  intros H1 H2 s. assert (Hs : state_json_ok s).
  { unfold s. rewrite (ApplyTexts_written _ _ _ H1). apply ApplyLog_json_ok; [| apply empty_json_ok].
    apply Forall_fmap. clear s. induction H1 as [| [now cmd] d log data (_ & Hn & Hc & _) _ IH]; constructor; [| done].
    split; [done |]. by intros c [= <-]. }
  rewrite Snapshot_id. destruct (snapshot_text_roundtrip s old Hs) as (text & Ht & Hr). exists text. split; [done |]. split; [done |].
  split.
  - rewrite Hr. cbn [fst]. unfold s. rewrite <- ApplyTexts_app. apply ApplyTexts_written. by apply Forall2_app.
  - unfold Persist, bind, ret. rewrite Ht. destruct (sink_Write _ sink text w) as [w1 [[] | er]] eqn:Ew.
    + intros Hc. by exists w1.
    + destruct (sink_Cancel _ sink w1). discriminate.
Qed.
End Texts.

(** ** A concrete log *)

(** The digits of [binaryCodec], read up to the end of the line. *)
Fixpoint line (s : string) : string :=
  match s with EmptyString => "" | String c s' => if Ascii.eqb c (ascii_of_nat 10) then "" else String c (line s') end.
Definition lineCodec : Codec := mkCodec (json_encode binaryCodec) (fun s => json_decode binaryCodec (line s)).
Lemma line_digits p t : line (digits p +:+ t) = digits p +:+ line t.
Proof. induction p as [p IH | p IH |]; cbn; [by rewrite IH | by rewrite IH | done]. Qed.
#[global] Instance lineCodec_laws : TextLaws lineCodec.
Proof.
  split; intros j; pose proof (binaryCodec_roundtrip j) as H; revert H; cbn [lineCodec json_encode json_decode binaryCodec];
    [rewrite <- (str_app_nil_r (digits _)) at 2 | unfold newline]; rewrite line_digits; change (line _) with "";
    intros <-; do 2 f_equal; by rewrite ?str_app_nil_r.
Qed.

Definition sampleFile (path : string) : Metadata :=
  mkMetadata 0 None "f" path "file" 5 "0644" 1000 1000 5000 5000 5000 "localfs" false (Some "n1") None 5000 5000.
Definition sampleLog : list (Time * Command) :=
  [(6000%Z, createCommand (sampleFile "/f")); (7000%Z, createCommand (sampleFile "/g")); (8000%Z, deleteCommand "/f")].
Definition sampleData : list (Time * string) :=
  map (fun e => (e.1, match entryData lineCodec e.2 with Ok d => d | Err _ => "" end)) sampleLog.
Definition bufferSink : SnapshotSink string :=
  mkSink string (fun text w => (w +:+ text, Ok tt)) (fun w => ("", Ok tt)) (fun w => (w, Ok tt)).

Ltac in_years := unfold jsonYear; vm_compute; split; discriminate.
Lemma sampleFile_ok path : utf8 path -> cmd_json_ok (createCommand (sampleFile path)).
Proof.
  intros Hp. split; try discriminate; [by repeat split |]. intros md [= <-].
  split; [by repeat split | split; intros s H; [by injection H as <- | discriminate H] |]. split; [in_years | split; [in_years | split; [in_years | split; in_years]]].
Qed.
Lemma sample_written : Forall2 (written lineCodec) sampleLog sampleData.
Proof.
  assert (H : Forall (fun e => jsonYear e.1 /\ cmd_json_ok e.2) sampleLog).
  { apply Forall_cons. split; [split; [in_years | apply sampleFile_ok; reflexivity] |].
    apply Forall_cons. split; [split; [in_years | apply sampleFile_ok; reflexivity] |].
    apply Forall_cons. split; [split; [in_years | split; try discriminate; by repeat split] | constructor]. }
  unfold sampleData. induction H as [| [now cmd] l [Hn Hc] _ IH]; cbn [map]; constructor; [| done].
  split; [done |]. split; [done |]. split; [done |]. cbn [fst snd] in *.
  destruct (entry_roundtrip lineCodec cmd Hc) as (d & -> & _). done.
Qed.

Lemma raft_snapshot_text_witness :
  exists text, snapshotText lineCodec (ApplyTexts lineCodec (take 2 sampleData) emptyState) = Ok text /\
    ApplyTexts lineCodec (drop 2 sampleData) (RestoreText lineCodec text emptyState).1 =
    ApplyLog (prod_map id Some <$> sampleLog) emptyState.
Proof.
  destruct (raft_snapshot_text lineCodec bufferSink (take 2 sampleLog) (drop 2 sampleLog) (take 2 sampleData) (drop 2 sampleData)
    emptyState "" "" (Forall2_take _ _ _ 2 sample_written) (Forall2_drop _ _ _ 2 sample_written)) as (text & Ht & _ & Hs & _).
  exists text. split; [exact Ht | exact Hs].
Defined.

(** ** Paths that are no valid text *)

(** A file whose path has a byte that is no UTF-8: the entry of the log holds U+FFFD in its
    place.  The record is stored under another path, is not found under its own, and
    a second such path is taken to exist already. *)
Definition badPath (b : nat) : string := String "/" (String (ascii_of_nat b) "").
Theorem raft_invalid_text_renames :
  match entryData lineCodec (createCommand (sampleFile (badPath 255))), entryData lineCodec (createCommand (sampleFile (badPath 254))) with
  | Ok d1, Ok d2 =>
      let '(s, r) := ApplyData lineCodec 6000 d1 emptyState in
      r = okResult /\ MetadataByPath s !! badPath 255 = None /\ is_Some (MetadataByPath s !! coerce (badPath 255)) /\
      (ApplyData lineCodec 7000 d2 s).2 = errResult "already_exists"
  | _, _ => False
  end.
Proof. vm_compute. split; [done |]. split; [done |]. split; [by eexists | done]. Qed.

End RaftTextSpec.
