(* ===== verification/RaftNode.v ===== *)
(** * The node of the Raft metadata store: metadata/raft/store.go, metadata/raft/erasure.go

    The store operations, which submit the texts of commands to the Raft library,
    the forwarding of a follower's command to the leader and the leader's HTTP
    handler of cmd/main.go, and the membership of the cluster.  The Raft library and
    the HTTP client are arguments; the state machine is that of RaftStore.v and the
    texts are those of RaftText.v. *)
From S2P Require Import Prelude GoStrings Metadata GoTime Json RaftStore RaftText RaftTextSpec.
From Stdlib Require Import Ascii String.
Import GoTime Json Raft RaftText RaftTextSpec.
Open Scope string_scope.
Open Scope bool_scope.
Open Scope go_scope.

Module RaftNode.

(** ** The node: the Raft library and the transport are arguments *)

Record Server := mkServer { srv_ID : string; srv_Address : string; srv_Voter : bool }.

(** What [f.Response()] holds: nothing, the result of [fsm.Apply], or a value of
    another type. *)
Inductive FutureResponse : Type :=
| NoResponse
| Result (r : CommandResult)
| OtherType (name : string).

(** What the code calls of hashicorp/raft.  [raft_Apply] takes the data of a log
    entry and returns the error of the future or its response. *)
Record RaftLib (W : Type) := mkRaftLib {
  raft_IsLeader : W -> bool;
  raft_LeaderID : W -> string;
  raft_Apply : string -> W -> W * Res FutureResponse;
  raft_fsm : W -> state;
  raft_GetConfiguration : W -> Res (list Server);
  raft_RemoveServer : string -> W -> W * Res unit;
  raft_AddVoter : string -> string -> W -> W * Res unit;
}.
Arguments raft_IsLeader {W}. Arguments raft_LeaderID {W}. Arguments raft_Apply {W}.
Arguments raft_fsm {W}. Arguments raft_GetConfiguration {W}. Arguments raft_RemoveServer {W}.
Arguments raft_AddVoter {W}.

(** The mutable peer table of the node and its HTTP client: whether a request to a
    URL can be made, and a POST with its Authorization header and body, which
    returns the status code and the body. *)
Record NodeEnv (W : Type) := mkNodeEnv {
  apiPeerEndpoints : W -> gmap string string;
  setApiPeerEndpoints : gmap string string -> W -> W;
  forward_NewRequest : string -> Res unit;
  forwardClient_Do : string -> string -> string -> W -> W * Res (Z * string);
}.
Arguments apiPeerEndpoints {W}. Arguments setApiPeerEndpoints {W}. Arguments forward_NewRequest {W}. Arguments forwardClient_Do {W}.

Section Node.
Context {W : Type} (codec : Codec) (lib : RaftLib W) (env : NodeEnv W) (internalAuthToken : string).

Definition IsLeader (w : W) : bool := raft_IsLeader lib w.
Definition LeaderID (w : W) : string := raft_LeaderID lib w.

(** The error strings of the state machine become the sentinel errors. *)
Definition resultError (e : string) : gerr :=
  if String.eqb e "not_found" then ErrNotFound
  else if String.eqb e "already_exists" then ErrAlreadyExists
  else EMsg e.

Definition applyAsLeader (cmd : Command) (w : W) : W * Res CommandResult :=
  match entryData codec cmd with
  | Err e => (w, Err (EWrap "failed to marshal command" e))
  | Ok data =>
      let '(w, f) := raft_Apply lib data w in
      match f with
      | Err e => (w, Err (EWrap "raft apply failed" e))
      | Ok NoResponse => (w, Ok okResult)
      | Ok (OtherType name) => (w, Err (EMsg ("unexpected raft response type: " +:+ name)))
      | Ok (Result res) =>
          if negb (String.eqb (ResErr res) "") then (w, Err (resultError (ResErr res)))
          else (w, Ok res)
      end
  end.

Definition APIPeerEndpoint (nodeID : string) (w : W) : option string :=
  apiPeerEndpoints env w !! nodeID.

Definition SetAPIPeerEndpoint (nodeID endpoint : string) (w : W) : W :=
  let nodeID := TrimSpace nodeID in
  let endpoint := TrimSpace endpoint in
  if String.eqb nodeID "" || String.eqb endpoint "" then w
  else setApiPeerEndpoints env (<[nodeID := endpoint]> (apiPeerEndpoints env w)) w.

(** The body of a forwarded command, and the response read from a body. *)
Definition requestText (cmd : Command) : Res string := let! j := marshalRequest cmd in Ok (json_encode codec j).
Definition readResponse (body : string) : Res ForwardApplyResponse :=
  match json_decode codec body with Some j => unmarshalResponse j | None => Err decodeError end.

Definition forwardToLeader (cmd : Command) (w : W) : W * Res CommandResult :=
  let leaderID := raft_LeaderID lib w in
  let notConfigured := EMsg ("leader endpoint not configured for node id " +:+ leaderID) in
  if String.eqb leaderID "" then (w, Err (EMsg "no raft leader available"))
  else
    match APIPeerEndpoint leaderID w with
    | None => (w, Err notConfigured)
    | Some leaderEndpoint =>
        if String.eqb (TrimSpace leaderEndpoint) "" then (w, Err notConfigured)
        else match requestText cmd with
        | Err e => (w, Err (EWrap "failed to marshal forward request" e))
        | Ok body =>
            let url := TrimRight leaderEndpoint slash +:+ "/v1/internal/raft/metadata/apply" in
            match forward_NewRequest env url with
            | Err e => (w, Err (EWrap "failed to create forward request" e))
            | Ok _ =>
                let '(w, resp) := forwardClient_Do env url ("Bearer " +:+ internalAuthToken) body w in
                match resp with
                | Err e => (w, Err (EWrap "failed to forward request to leader" e))
                | Ok (statusCode, payload) =>
                    if negb (statusCode =? 200)%Z then
                      (w, Err (EMsg ("leader forward failed with status " +:+ Itoa statusCode +:+ ": " +:+ TrimSpace payload)))
                    else
                      match readResponse payload with
                      | Err e => (w, Err (EWrap "failed to decode forward response" e))
                      | Ok applyResp =>
                          if negb (String.eqb (far_Error applyResp) "") then
                            (w, Err (resultError (far_Error applyResp)))
                          else (w, Ok (mkResult (far_CleanupCount applyResp) ""))
                      end
                end
            end
        end
    end.

Definition applyCommand (cmd : Command) (w : W) : W * Res CommandResult :=
  if raft_IsLeader lib w then applyAsLeader cmd w else forwardToLeader cmd w.

Definition ApplyForwardedCommand (cmd : Command) (w : W) : W * Res CommandResult :=
  if negb (raft_IsLeader lib w) then (w, Err (EMsg "not leader")) else applyAsLeader cmd w.

(** *** The operations of [metadata.Store] *)

Definition unit_result {A} (r : Res A) : Res unit :=
  match r with Ok _ => Ok tt | Err e => Err e end.

Definition Get (path : string) (w : W) : Res Metadata :=
  match MetadataByPath (raft_fsm lib w) !! path with
  | None => Err ErrNotFound
  | Some md => Ok (cloneMetadata md)
  end.

Definition submit (cmd : Command) (w : W) : W * Res unit :=
  let '(w, r) := applyCommand cmd w in (w, unit_result r).

Definition Create (md : Metadata) (w : W) : W * (Metadata * Res unit) :=
  let '(w, r) := submit (createCommand md) w in (w, (md, r)).
Definition Update (md : Metadata) (w : W) : W * (Metadata * Res unit) :=
  let '(w, r) := submit (updateCommand md) w in (w, (md, r)).
Definition Delete (path : string) (w : W) : W * Res unit := submit (deleteCommand path) w.

Definition pathLe (a b : Metadata) : Prop := strings.String.le (md_Path a) (md_Path b).
#[global] Instance pathLe_dec : RelDecision pathLe.
Proof. intros a b. unfold pathLe. apply _. Defined.

Definition isChild (parentPath : string) (md : Metadata) : bool :=
  negb (String.eqb (md_Path md) "/") && String.eqb (pathDir (md_Path md)) parentPath.

Definition ListChildren (parentPath : string) (w : W) : Res (list Metadata) :=
  let all := map snd (map_to_list (MetadataByPath (raft_fsm lib w))) in
  Ok (merge_sort pathLe (map cloneMetadata (List.filter (isChild parentPath) all))).

Definition GetSingleUseLink (token : string) (w : W) : Res SingleUseLink :=
  match LinksByToken (raft_fsm lib w) !! token with
  | None => Err ErrNotFound
  | Some l => Ok (cloneLink l)
  end.
Definition CreateSingleUseLink (l : SingleUseLink) (w : W) : W * Res unit :=
  submit (createLinkCommand l) w.
Definition UpdateSingleUseLink (token status : string) (usedAt : option Time) (ip : option string)
  (w : W) : W * Res unit := submit (updateLinkCommand token status usedAt ip) w.

Definition cleanup_count (r : Res CommandResult) : Res Z :=
  match r with Ok res => Ok (CleanupCount res) | Err e => Err e end.

Definition CleanupExpiredLinks (before : Time) (w : W) : W * Res Z :=
  let '(w, r) := applyCommand (cleanupExpiredCommand before) w in
  (w, cleanup_count r).
Definition CleanupUsedLinks (olderThan : Time) (w : W) : W * Res Z :=
  let '(w, r) := applyCommand (cleanupUsedCommand olderThan) w in
  (w, cleanup_count r).

Definition raftStore : Store W :=
  mkStore W Get Create Update Delete ListChildren GetSingleUseLink CreateSingleUseLink
    UpdateSingleUseLink CleanupExpiredLinks CleanupUsedLinks.

(** *** The operations of [metadata.ErasureMetadataStore] *)

Definition CreateErasureInfo (filePath : string) (info : ErasureFileInfo) (w : W) : W * Res unit :=
  submit (createErasureCommand filePath info) w.
Definition GetErasureInfo (filePath : string) (w : W) : Res ErasureFileInfo :=
  match ErasureByPath (raft_fsm lib w) !! filePath with
  | None => Err ErrNotFound
  | Some i => Ok (cloneErasureFileInfo i)
  end.
Definition DeleteErasureInfo (filePath : string) (w : W) : W * Res unit :=
  submit (deleteErasureCommand filePath) w.

Definition raftErasureStore : ErasureMetadataStore W :=
  mkErasureStore W CreateErasureInfo GetErasureInfo DeleteErasureInfo.

(** *** Membership: [AddVoter] *)

(** The loop over the servers of the configuration: [inl] when the node is
    already a voter at its address (the early return), [inr] otherwise. *)
Fixpoint evictConflicting (nodeID raftAddr : string) (servers : list Server) (w : W)
  : W * Res bool :=
  match servers with
  | [] => (w, Ok false)
  | server :: rest =>
      let same_id := String.eqb (srv_ID server) nodeID in
      let same_addr := String.eqb (srv_Address server) raftAddr in
      if same_id && same_addr && srv_Voter server then (w, Ok true)
      else if same_id || same_addr then
        let '(w, r) := raft_RemoveServer lib (srv_ID server) w in
        match r with
        | Err e =>
            (w, Err (EWrap (if same_id then "failed to remove existing node " +:+ nodeID +:+ " before rejoin"
                            else "failed to remove stale node " +:+ srv_ID server +:+ " on address " +:+ raftAddr) e))
        | Ok _ => evictConflicting nodeID raftAddr rest w
        end
      else evictConflicting nodeID raftAddr rest w
  end.

(** [ctxErr]: the error of the request context when the call returns. *)
Definition AddVoter (ctxErr : option gerr) (nodeID raftAddr apiEndpoint : string) (w : W)
  : W * Res unit :=
  let nodeID := TrimSpace nodeID in
  let raftAddr := TrimSpace raftAddr in
  let apiEndpoint := TrimSpace apiEndpoint in
  if String.eqb nodeID "" then (w, Err (EMsg "node_id is required"))
  else if String.eqb raftAddr "" then (w, Err (EMsg "raft_addr is required"))
  else if negb (raft_IsLeader lib w) then (w, Err (EMsg "not leader"))
  else
    match raft_GetConfiguration lib w with
    | Err e => (w, Err (EWrap "failed to get raft configuration" e))
    | Ok servers =>
        match evictConflicting nodeID raftAddr servers w with
        | (w, Err e) => (w, Err e)
        | (w, Ok true) => (SetAPIPeerEndpoint nodeID apiEndpoint w, Ok tt)
        | (w, Ok false) =>
            let '(w, r) := raft_AddVoter lib nodeID raftAddr w in
            match r with
            | Err e => (w, Err (EWrap ("failed to add raft voter " +:+ nodeID) e))
            | Ok _ =>
                (SetAPIPeerEndpoint nodeID apiEndpoint w,
                 match ctxErr with Some e => Err e | None => Ok tt end)
            end
        end
    end.

(** *** The internal endpoint of cmd/main.go that applies forwarded commands

    [method] and [authorization] are the request's; [decoded] is the decoded
    body.  The reply is the status code and the response body, if any. *)
Definition bearerSecret (authorization : string) : string :=
  TrimSpace (TrimPrefix authorization "Bearer").

Definition applyEndpoint (internalProxySecret method authorization : string)
  (decoded : option Command) (w : W) : W * (Z * option ForwardApplyResponse) :=
  if negb (String.eqb method "POST") then (w, (405%Z, None))
  else if negb (String.eqb (bearerSecret authorization) internalProxySecret) then
    (w, (401%Z, Some (mkForwardResponse 0 "unauthorized")))
  else
    match decoded with
    | None => (w, (400%Z, Some (mkForwardResponse 0 "invalid request: %v")))
    | Some cmd =>
        let '(w, r) := ApplyForwardedCommand cmd w in
        match r with
        | Err e =>
            let errCode :=
              match e with
              | ErrNotFound => "not_found"
              | ErrAlreadyExists => "already_exists"
              | _ => errorText e
              end in
            (w, (502%Z, Some (mkForwardResponse 0 errCode)))
        | Ok res => (w, (200%Z, Some (mkForwardResponse (CleanupCount res) "")))
        end
    end.
End Node.


(** *** The leader implements the [Store] contract *)

(** What hashicorp/raft documents for a leader that can commit: [Apply]
    returns the value of the state machine's [Apply] for the committed entry,
    and the node stays the leader. *)
Class RaftLeader {W} (codec : Codec) (lib : RaftLib W) (up : W -> Prop) : Prop := {
  leader_IsLeader : forall w, up w -> raft_IsLeader lib w = true;
  leader_Apply : forall data w w' r, up w -> raft_Apply lib data w = (w', r) ->
    up w' /\ exists now, raft_fsm lib w' = fst (ApplyData codec now data (raft_fsm lib w))
      /\ r = Ok (Result (snd (ApplyData codec now data (raft_fsm lib w))));
}.

Definition raftView {W} (lib : RaftLib W) (w : W) : StoreView :=
  mkView (MetadataByPath (raft_fsm lib w)) (LinksByToken (raft_fsm lib w)).

Section Leader.
Context {W : Type} (codec : Codec) (lib : RaftLib W) (env : NodeEnv W) (token : string) (up : W -> Prop).
Context {laws : TextLaws codec} `{HL : !RaftLeader codec lib up}.

(** A command that JSON can carry, submitted on the leader: the state machine's
    step and result. *)
Lemma submit_spec cmd w w' r :
  up w -> cmd_json_ok cmd -> submit codec lib env token cmd w = (w', r) ->
  up w' /\ exists now, raft_fsm lib w' = fst (Apply now (Some cmd) (raft_fsm lib w))
    /\ r = (let e := ResErr (snd (Apply now (Some cmd) (raft_fsm lib w))) in
            if String.eqb e "" then Ok tt else Err (resultError e)).
Proof.
  intros Hup Hc. unfold submit, applyCommand. rewrite (leader_IsLeader (codec := codec)) by done.
  unfold applyAsLeader. destruct (entry_roundtrip codec cmd Hc) as (data & -> & Hd).
  destruct (raft_Apply lib data w) as [w1 f] eqn:E.
  destruct (leader_Apply data w w1 f Hup E) as (Hup1 & now & Hf & ->).
  unfold ApplyData in *. rewrite Hd in *.
  intros H. destruct (String.eqb (ResErr _) "") eqn:Ee; cbn [negb] in H;
    injection H as <- <-; (split; [done |]); exists now; cbn zeta; rewrite Ee; done.
Qed.

(** A command that JSON cannot write is refused before anything is replicated. *)
Lemma submit_unwritable cmd e w :
  up w -> entryData codec cmd = Err e ->
  submit codec lib env token cmd w = (w, Err (EWrap "failed to marshal command" e)).
Proof using HL.
  intros Hup He. unfold submit, applyCommand. rewrite (leader_IsLeader (codec := codec)) by done.
  unfold applyAsLeader. by rewrite He.
Qed.

Ltac json_ok := split; try discriminate; [by repeat split | ..].

Lemma createCommand_ok md : md_json_ok md -> cmd_json_ok (createCommand md).
Proof using Type. intros H. json_ok. intros m [= <-]. by rewrite cloneMetadata_id. Qed.
Lemma updateCommand_ok md : md_json_ok md -> cmd_json_ok (updateCommand md).
Proof using Type. intros H. json_ok. intros m [= <-]. by rewrite cloneMetadata_id. Qed.
Lemma deleteCommand_ok p : utf8 p -> cmd_json_ok (deleteCommand p).
Proof using Type. intros H. json_ok. Qed.
Lemma createLinkCommand_ok l : link_json_ok l -> cmd_json_ok (createLinkCommand l).
Proof using Type. intros H. json_ok. intros m [= <-]. by rewrite cloneLink_id. Qed.
Lemma updateLinkCommand_ok t st ua ip :
  utf8 t -> utf8 st -> (forall u, ua = Some u -> jsonYear u) -> (forall a, ip = Some a -> utf8 a) ->
  cmd_json_ok (updateLinkCommand t st ua ip).
Proof using Type. intros H1 H2 H3 H4. split; try discriminate; [by repeat split | done | done]. Qed.
Hint Resolve createCommand_ok updateCommand_ok deleteCommand_ok createLinkCommand_ok updateLinkCommand_ok : core.

Lemma pathLe_trans : Transitive pathLe.
Proof. intros a b c. unfold pathLe. apply transitivity. Qed.

Lemma ListChildren_elem p w l md :
  ListChildren lib p w = Ok l ->
  md ∈ l <-> exists q, MetadataByPath (raft_fsm lib w) !! q = Some md
    /\ md_Path md <> "/" /\ pathDir (md_Path md) = p.
Proof.
  unfold ListChildren. intros [= <-].
  rewrite merge_sort_Permutation.
  rewrite (map_ext _ id cloneMetadata_id), map_id.
  rewrite list_elem_of_In, filter_In, in_map_iff. unfold isChild.
  rewrite andb_true_iff, negb_true_iff, String.eqb_neq, String.eqb_eq.
  split.
  - intros (([q m] & Hm & Hin) & Hne & Hp). cbn in Hm. subst m. exists q.
    by rewrite <- elem_of_map_to_list, list_elem_of_In.
  - intros (q & Hq & Hne & Hp). split; [| done]. exists (q, md). split; [done |].
    by rewrite <- list_elem_of_In, elem_of_map_to_list.
Qed.

Ltac submit_case H now Hfsm :=
  match type of H with
  | submit _ _ _ _ _ _ = _ =>
      let Hup := fresh "Hup" in
      apply submit_spec in H as (Hup & now & Hfsm & ->); [| done | by auto];
      split; [done |]; unfold raftView; rewrite Hfsm; cbn
  end.

#[global] Instance raft_leader_spec :
  StoreSpecOn (raftStore codec lib env token) (raftView lib) up utf8 md_json_ok link_json_ok jsonYear.
Proof.
  split; cbn.
  - intros p w _. unfold Get. destruct (_ !! p); [by rewrite cloneMetadata_id | done].
  - intros p w _. eexists. split; [done |]. intros md. by apply ListChildren_elem.
  - intros t w _. unfold GetSingleUseLink. destruct (_ !! t); [by rewrite cloneLink_id | done].
  - intros md w w' md' r Hw Hok. unfold Create.
    destruct (submit codec lib env token (createCommand md) w) as [w1 r1] eqn:H. intros [= <- <- <-].
    submit_case H now Hf. rewrite cloneMetadata_id.
    destruct (MetadataByPath (raft_fsm lib w) !! md_Path md); cbn; [done |].
    by rewrite cloneMetadata_id.
  - intros md w w' md' r Hw Hok. unfold Update.
    destruct (submit codec lib env token (updateCommand md) w) as [w1 r1] eqn:H. intros [= <- <- <-].
    submit_case H now Hf. rewrite cloneMetadata_id.
    destruct (MetadataByPath (raft_fsm lib w) !! md_Path md); cbn; [| done].
    by rewrite cloneMetadata_id.
  - intros p w w' r Hw Hok H. unfold Delete in H. submit_case H now Hf.
    by destruct (MetadataByPath (raft_fsm lib w) !! p).
  - intros l w w' r Hw Hok H. unfold CreateSingleUseLink in H. submit_case H now Hf.
    rewrite cloneLink_id. destruct (LinksByToken (raft_fsm lib w) !! lk_Token l); cbn; [done |].
    by rewrite cloneLink_id.
  - intros t st ua ip w w' r Hw Ht Hst Hua Hip H. unfold UpdateSingleUseLink in H.
    apply submit_spec in H as (Hup & now & Hf & ->); [| done | by auto].
    split; [done |]. unfold raftView. rewrite Hf, update_link_result by done. cbn.
    destruct (LinksByToken (raft_fsm lib w) !! t) as [l|]; cbn; [| done].
    destruct (String.eqb (lk_Status l) "active"); cbn; [| done].
    split; [done |]. split; [done |]. eexists. split; [done |]. cbn.
    by rewrite cloneTimePtr_id, cloneStringPtr_id.
Qed.
End Leader.

(** A single-node cluster: the world is the state machine and a clock. *)
Definition loopback : RaftLib (state * Time) :=
  mkRaftLib _ (fun _ => true) (fun _ => "node-1")
    (fun data w => let '(s, r) := ApplyData lineCodec (snd w) data (fst w) in ((s, snd w), Ok (Result r)))
    fst (fun _ => Ok []) (fun _ w => (w, Ok tt)) (fun _ _ w => (w, Ok tt)).
Definition loopbackEnv : NodeEnv (state * Time) :=
  mkNodeEnv _ (fun _ => ∅) (fun _ w => w) (fun _ => Ok tt) (fun _ _ _ w => (w, Err (EMsg "no network"))).

#[global] Instance loopback_leader : RaftLeader lineCodec loopback (fun _ => True).
Proof.
  split; try done. intros data [s now] w' r _ H. split; [done |]. exists now.
  unfold loopback in *. cbn [raft_Apply raft_fsm fst snd] in *.
  destruct (ApplyData lineCodec now data s) as [s1 r1]. by inversion H.
Qed.

(** *** A follower's view of the leader's errors *)

(** The follower's HTTP client, connected to the endpoint of the leader: the
    endpoint reads the command from the body and writes its reply as a line. *)
Definition readRequest (codec : Codec) (body : string) : option Command :=
  match json_decode codec body with Some j => to_option (unmarshalRequest j) | None => None end.
Definition replyText (codec : Codec) (reply : option ForwardApplyResponse) : string :=
  match reply with Some r => json_encode codec (marshalResponse r) +:+ newline | None => "" end.
Definition leaderTransport {W} (codec : Codec) (leader : RaftLib W) (secret : string)
  (url authorization body : string) (w : W) : W * Res (Z * string) :=
  let '(w, (st, reply)) := applyEndpoint codec leader secret "POST" authorization (readRequest codec body) w in
  (w, Ok (st, replyText codec reply)).

Lemma applyEndpoint_error W codec (lib : RaftLib W) secret m a d w w' st body :
  applyEndpoint codec lib secret m a d w = (w', (st, Some body)) -> st = 200%Z -> far_Error body = "".
Proof.
  unfold applyEndpoint. intros H Hst. subst st.
  destruct (negb (String.eqb m "POST")); [done |]. destruct (negb _); [done |].
  destruct d as [cmd|]; [| done].
  destruct (ApplyForwardedCommand codec lib cmd w) as [w1 [res|e]]; by inversion H.
Qed.

(** *** Membership *)

(** What hashicorp/raft documents for configuration changes that commit. *)
Class RaftMembership {W} (lib : RaftLib W) (env : NodeEnv W) (config : W -> list Server) : Prop := {
  member_Get : forall w, raft_GetConfiguration lib w = Ok (config w);
  member_Remove : forall sid w w' r, raft_RemoveServer lib sid w = (w', r) ->
    r = Ok tt /\ config w' = List.filter (fun s => negb (String.eqb (srv_ID s) sid)) (config w);
  member_Add : forall sid addr w w' r, raft_AddVoter lib sid addr w = (w', r) ->
    r = Ok tt /\ config w' =
      (List.filter (fun s => negb (String.eqb (srv_ID s) sid)) (config w) ++ [mkServer sid addr true])%list;
  member_Peers : forall m w, config (setApiPeerEndpoints env m w) = config w;
}.

Section Membership.
Context {W : Type} (lib : RaftLib W) (env : NodeEnv W) (config : W -> list Server).
Context `{HM : !RaftMembership lib env config}.

Lemma config_SetPeer n e w : config (SetAPIPeerEndpoint env n e w) = config w.
Proof. unfold SetAPIPeerEndpoint. destruct (_ || _); [done | apply member_Peers]. Qed.

(** After the loop without early return, no listed conflicting server is left. *)
Lemma evictConflicting_false nodeID addr servers w w' :
  evictConflicting lib nodeID addr servers w = (w', Ok false) ->
  (forall s, In s (config w') -> In s (config w))
  /\ (forall s, In s (config w') -> In s servers ->
        String.eqb (srv_ID s) nodeID || String.eqb (srv_Address s) addr = false).
Proof.
  revert w. induction servers as [|sv servers IH]; intros w; cbn [evictConflicting].
  { intros [= <-]. split; [done |]. intros s _ []. }
  destruct (_ && _ && _) eqn:E1; [done |].
  destruct (String.eqb (srv_ID sv) nodeID || String.eqb (srv_Address sv) addr) eqn:E2.
  - destruct (raft_RemoveServer lib (srv_ID sv) w) as [w1 r] eqn:Hr.
    apply member_Remove in Hr as [-> Hc]. intros H. apply IH in H as [Hsub Hno]. split.
    + intros s Hs. apply Hsub in Hs. rewrite Hc, filter_In in Hs. tauto.
    + intros s Hs [<- | Hin]; [| by apply Hno].
      exfalso. apply Hsub in Hs. rewrite Hc, filter_In in Hs. destruct Hs as [_ Hs].
      by rewrite String.eqb_refl in Hs.
  - intros H. apply IH in H as [Hsub Hno]. split; [done |].
    intros s Hs [<- | Hin]; [done | by apply Hno].
Qed.

(** With early return, the node is a voter at its address. *)
Lemma evictConflicting_true nodeID addr servers w w' :
  NoDup (map srv_ID servers) -> (forall s, In s servers -> In s (config w)) ->
  evictConflicting lib nodeID addr servers w = (w', Ok true) ->
  In (mkServer nodeID addr true) (config w').
Proof.
  intros Hnd Hin. revert w Hin. induction servers as [|sv servers IH]; intros w Hin; cbn [evictConflicting]; [done |].
  cbn in Hnd. apply NoDup_cons in Hnd as [Hnot Hnd].
  destruct (_ && _ && _) eqn:E1.
  { intros [= <-]. apply andb_true_iff in E1 as [E1 E3]. to_prop.
    destruct sv as [i a v]; cbn in *; subst. apply Hin. by left. }
  destruct (String.eqb (srv_ID sv) nodeID || String.eqb (srv_Address sv) addr) eqn:E2.
  - destruct (raft_RemoveServer lib (srv_ID sv) w) as [w1 r] eqn:Hr.
    apply member_Remove in Hr as [-> Hc]. apply IH; [done |].
    intros s Hs. rewrite Hc, filter_In. split; [apply Hin; by right |].
    apply negb_true_iff, String.eqb_neq. intros Heq. apply Hnot. rewrite <- Heq.
    apply list_elem_of_In, in_map, Hs.
  - apply IH; [done |]. intros s Hs. apply Hin. by right.
Qed.

Lemma AddVoter_spec id0 addr0 ep w w' :
  NoDup (map srv_ID (config w)) ->
  AddVoter lib env None id0 addr0 ep w = (w', Ok tt) ->
  In (mkServer (TrimSpace id0) (TrimSpace addr0) true) (config w')
  /\ (In (mkServer (TrimSpace id0) (TrimSpace addr0) true) (config w)
      \/ forall s, In s (config w') ->
           srv_ID s = TrimSpace id0 \/ srv_Address s = TrimSpace addr0 ->
           s = mkServer (TrimSpace id0) (TrimSpace addr0) true).
Proof.
  intros Hnd. unfold AddVoter. set (i := TrimSpace id0). set (a := TrimSpace addr0).
  destruct (String.eqb i ""); [done |]. destruct (String.eqb a ""); [done |].
  destruct (negb _); [done |]. rewrite member_Get.
  destruct (evictConflicting lib i a (config w) w) as [w1 [[]|e]] eqn:Ee; [| | done].
  - intros [= <-]. rewrite config_SetPeer. apply evictConflicting_true in Ee as Hin; [| done..].
    split; [done |]. left. clear Hin. revert Ee. generalize w at 2 as w2. generalize (config w) as l.
    induction l as [|sv l IH]; intros w2; cbn [evictConflicting]; [done |].
    destruct (_ && _ && _) eqn:E1.
    { intros _. apply andb_true_iff in E1 as [E1 E3]. to_prop. destruct sv; cbn in *; subst. by left. }
    destruct (_ || _); [| intros H; right; by eapply IH].
    destruct (raft_RemoveServer lib (srv_ID sv) w2) as [w3 [u|e]]; [| done].
    intros H. right. by eapply IH.
  - destruct (raft_AddVoter lib i a w1) as [w2 r] eqn:Ha. apply member_Add in Ha as [-> Hc].
    intros [= <-]. rewrite config_SetPeer, Hc. apply evictConflicting_false in Ee as [Hsub Hno]. split.
    + apply in_or_app. right. by left.
    + right. intros s Hs Hor. apply in_app_or in Hs as [Hs | [<- | []]]; [| done].
      apply filter_In in Hs as [Hs _]. specialize (Hno s Hs (Hsub s Hs)).
      apply orb_false_iff in Hno as [H1 H2]. to_prop. by destruct Hor.
Qed.
End Membership.

(** ** Properties *)

(** C9: On a leader that can commit, the Raft store implements the contract of
    [metadata.Store] over the maps of its state machine, for the texts, records,
    links and times that its log entries can carry: valid UTF-8, and times of the
    years 0 to 9999.  Whatever its arguments, an operation whose command JSON
    cannot write is refused with nothing changed. *)
Theorem raft_leader_refines {W} (codec : Codec) (lib : RaftLib W) (env : NodeEnv W) (token : string) (up : W -> Prop) :
  TextLaws codec -> RaftLeader codec lib up ->
  StoreSpecOn (raftStore codec lib env token) (raftView lib) up utf8 md_json_ok link_json_ok jsonYear /\
  (forall cmd e w, up w -> marshalCommand cmd = Err e ->
     submit codec lib env token cmd w = (w, Err (EWrap "failed to marshal command" e))).
Proof.
  intros Ht Hl. split; [apply _ |]. intros cmd e w Hw He. apply (submit_unwritable codec lib env token up); [done |].
  unfold entryData. by rewrite He.
Qed.

Lemma raft_leader_refines_witness :
  StoreSpecOn (raftStore lineCodec loopback loopbackEnv "s3cret") (raftView loopback) (fun _ => True)
    utf8 md_json_ok link_json_ok jsonYear.
Proof. exact (proj1 (raft_leader_refines lineCodec loopback loopbackEnv "s3cret" (fun _ => True) lineCodec_laws loopback_leader)). Defined.

(** A record with times after the year 9999. *)
Example loopback_refuses_year :
  (raftStore lineCodec loopback loopbackEnv "s3cret").(st_Create)
    (newMetadata "/f" "file" "0644" 0 0 "localfs" 400000000000000000000) (emptyState, 0%Z) =
  ((emptyState, 0%Z), (newMetadata "/f" "file" "0644" 0 0 "localfs" 400000000000000000000,
     Err (EWrap "failed to marshal command" (EMsg "Time.MarshalJSON: year outside of range [0,9999]")))).
Proof. vm_compute. reflexivity. Qed.

Lemma request_roundtrip (codec : Codec) {laws : TextLaws codec} cmd : cmd_json_ok cmd ->
  exists body, requestText codec cmd = Ok body /\ readRequest codec body = Some cmd.
Proof.
  intros Hc. destruct (command_roundtrip cmd Hc) as (j & Hj & Hd). unfold requestText, marshalRequest. rewrite Hj. cbn [res_bind].
  eexists. split; [reflexivity |]. unfold readRequest. rewrite text_roundtrip. cbn [unmarshalRequest field].
  change (String.eqb (ToLower "command") "command") with true. cbn [to_option]. rewrite Hd.
  assert (Hn : j <> JNull) by (intros ->; discriminate Hd). by destruct j.
Qed.

(** A follower reports every error of the leader's state machine as a failure with
    status 502 and the text of the reply: the sentinels [ErrNotFound] and
    [ErrAlreadyExists] that the leader's store returns for the command never reach it. *)
Theorem raft_follower_error_opaque {W} (codec : Codec) {laws : TextLaws codec} (follower leader : RaftLib W) (env : NodeEnv W)
  (secret endpoint : string) cmd w w1 e :
  raft_IsLeader follower w = false -> raft_IsLeader leader w = true ->
  raft_LeaderID follower w <> "" ->
  apiPeerEndpoints env w !! raft_LeaderID follower w = Some endpoint -> TrimSpace endpoint <> "" ->
  cmd_json_ok cmd -> bearerSecret ("Bearer " +:+ secret) = secret ->
  (forall url, forward_NewRequest env url = Ok tt) ->
  (forall url a b v, forwardClient_Do env url a b v = leaderTransport codec leader secret url a b v) ->
  applyAsLeader codec leader cmd w = (w1, Err e) ->
  exists payload, applyCommand codec follower env secret cmd w =
    (w1, Err (EMsg ("leader forward failed with status 502: " +:+ payload))).
Proof.
  intros Hf Hl Hid Hep Hne Hj Hs Hn Ht Ha. unfold applyCommand, forwardToLeader, APIPeerEndpoint.
  destruct (request_roundtrip codec cmd Hj) as (body & Hb & Hr).
  rewrite Hf, Hep, Hb, Hn, Ht. apply String.eqb_neq in Hid as ->, Hne as ->. cbn [negb].
  unfold leaderTransport, applyEndpoint, ApplyForwardedCommand.
  rewrite Hs, !String.eqb_refl, Hl, Hr. cbn [negb]. rewrite Ha. by eexists.
Qed.

Definition follower_of (lib : RaftLib (state * Time)) : RaftLib (state * Time) :=
  mkRaftLib _ (fun _ => false) (fun _ => "node-1") (raft_Apply lib) (raft_fsm lib)
    (raft_GetConfiguration lib) (raft_RemoveServer lib) (raft_AddVoter lib).
Definition followerEnv : NodeEnv (state * Time) :=
  mkNodeEnv _ (fun _ => {["node-1" := "http://n1"]}) (fun _ w => w) (fun _ => Ok tt)
    (leaderTransport lineCodec loopback "s3cret").
Definition demo_world : state * Time := (set_md {["/f" := sampleFile "/f"]} emptyState, 0%Z).

Lemma raft_follower_error_opaque_witness :
  applyAsLeader lineCodec loopback (createCommand (sampleFile "/f")) demo_world = (demo_world, Err ErrAlreadyExists) /\
  exists payload, applyCommand lineCodec (follower_of loopback) followerEnv "s3cret" (createCommand (sampleFile "/f")) demo_world
     = (demo_world, Err (EMsg ("leader forward failed with status 502: " +:+ payload))).
Proof.
  assert (H : applyAsLeader lineCodec loopback (createCommand (sampleFile "/f")) demo_world = (demo_world, Err ErrAlreadyExists))
    by (vm_compute; reflexivity).
  split; [exact H |].
  refine (raft_follower_error_opaque lineCodec (follower_of loopback) loopback followerEnv "s3cret"
           "http://n1" (createCommand (sampleFile "/f")) demo_world demo_world ErrAlreadyExists _ _ _ _ _ _ _ _ _ H).
  - reflexivity.
  - reflexivity.
  - discriminate.
  - reflexivity.
  - discriminate.
  - apply sampleFile_ok. reflexivity.
  - reflexivity.
  - reflexivity.
  - reflexivity.
Defined.

(** A successful [AddVoter] leaves the joining node a voter at its address,
    and unless it was one already no other server keeps its id or address. *)
Theorem raft_AddVoter_unique {W} (lib : RaftLib W) (env : NodeEnv W) (config : W -> list Server)
  id0 addr0 ep w w' :
  RaftMembership lib env config -> NoDup (map srv_ID (config w)) ->
  AddVoter lib env None id0 addr0 ep w = (w', Ok tt) ->
  In (mkServer (TrimSpace id0) (TrimSpace addr0) true) (config w')
  /\ (In (mkServer (TrimSpace id0) (TrimSpace addr0) true) (config w)
      \/ forall s, In s (config w') ->
           srv_ID s = TrimSpace id0 \/ srv_Address s = TrimSpace addr0 ->
           s = mkServer (TrimSpace id0) (TrimSpace addr0) true).
Proof. intros HM. by apply (AddVoter_spec lib env config). Qed.

(** A membership service whose world is the configuration itself. *)
Definition memberLib : RaftLib (list Server) :=
  mkRaftLib _ (fun _ => true) (fun _ => "n1") (fun _ w => (w, Ok NoResponse)) (fun _ => emptyState)
    (fun w => Ok w)
    (fun sid w => (List.filter (fun s => negb (String.eqb (srv_ID s) sid)) w, Ok tt))
    (fun sid addr w =>
       ((List.filter (fun s => negb (String.eqb (srv_ID s) sid)) w ++ [mkServer sid addr true])%list, Ok tt)).
Definition memberEnv : NodeEnv (list Server) :=
  mkNodeEnv _ (fun _ => ∅) (fun _ w => w) (fun _ => Ok tt) (fun _ _ _ w => (w, Err (EMsg "no network"))).

Lemma memberLib_membership : RaftMembership memberLib memberEnv (fun w => w).
Proof. split; try done; cbn; intros; by simplify_eq. Qed.

Lemma raft_AddVoter_unique_witness :
  let w := [mkServer "n1" "a:1" true; mkServer "n9" "b:1" true] in
  let w' := [mkServer "n1" "a:1" true; mkServer "n2" "b:1" true] in
  AddVoter memberLib memberEnv None "n2" " b:1" "" w = (w', Ok tt)
  /\ In (mkServer "n2" "b:1" true) w'.
Proof.
  cbn zeta. assert (H : AddVoter memberLib memberEnv None "n2" " b:1" ""
    [mkServer "n1" "a:1" true; mkServer "n9" "b:1" true]
    = ([mkServer "n1" "a:1" true; mkServer "n2" "b:1" true], Ok tt)) by reflexivity.
  split; [exact H |].
  refine (proj1 (raft_AddVoter_unique memberLib memberEnv (fun w => w) "n2" " b:1" ""
           [mkServer "n1" "a:1" true; mkServer "n9" "b:1" true] _ memberLib_membership _ H)).
  apply (bool_decide_unpack _). reflexivity.
Defined.
End RaftNode.
