(* ===== verification/Sql.v ===== *)
(** * Databases: what the SQL stores use of package database/sql

    A database is a service; what it stores is read off the world as tables, and
    the text of a statement is translated, where it is used, into a function on
    these tables.  This file has the connection ([SqlDB]) with its documented
    behaviour ([SqlLaws]) and the parts of SQL that the statements of sqlite and
    postgres share: WHERE, UPDATE and DELETE over rows, UNIQUE, and LIKE. *)
From S2P Require Import Prelude GoStrings Metadata.
From Stdlib Require Import Ascii String.
Open Scope string_scope.
Open Scope bool_scope.

Module Sql.

(** Why a statement fails: a UNIQUE constraint, another violation of the schema
    (CHECK, length or type of a column, a foreign key), or the connection. *)
Inductive sqlerr : Type :=
| UniqueViolation (constraint : string)
| Violation (what : string)
| DriverError (e : gerr).

Definition sqlerr_error (e : sqlerr) : gerr :=
  match e with UniqueViolation c => EMsg c | Violation c => EMsg c | DriverError e => e end.

(** A statement on the tables: its effect and its result or error.  A statement
    that fails leaves the rows as they are (a sequence may have advanced); a
    transaction is a sequence of statements. *)
Definition stmt (DB E A : Type) : Type := DB -> DB * (A + E).

(** ** The connection

    [db_Exec] runs one statement, [db_Query] reads, [db_Tx] runs a function in a
    transaction and commits when it succeeds; [db_RowsAffected] and
    [db_LastInsertId] are the methods of [sql.Result]. *)
Record SqlDB (W DB : Type) := mkSqlDB {
  db_Query : forall A, (DB -> A) -> W -> A + gerr;
  db_Exec : forall A, stmt DB sqlerr A -> St W (A + sqlerr);
  db_BeginTx : W -> option gerr;
  db_Tx : forall A, stmt DB gerr A -> St W (Res A);
  db_RowsAffected : Z -> Res Z;
  db_LastInsertId : Z -> Res Z;
}.
Arguments db_Query {W DB} _ {A}. Arguments db_Exec {W DB} _ {A}. Arguments db_BeginTx {W DB}.
Arguments db_Tx {W DB} _ {A}. Arguments db_RowsAffected {W DB}. Arguments db_LastInsertId {W DB}.

(** What the documentation promises in the worlds in which the database can be
    reached: reads see the tables, statements and transactions are atomic. *)
Class SqlLaws {W DB} (db : SqlDB W DB) (tables : W -> DB) (up : W -> Prop) : Prop := {
  law_Query : forall A (q : DB -> A) w, up w -> db_Query db q w = inl (q (tables w));
  law_Exec : forall A (s : stmt DB sqlerr A) w w' r, up w -> db_Exec db s w = (w', r) ->
    up w' /\ tables w' = (s (tables w)).1 /\ r = (s (tables w)).2;
  law_BeginTx : forall w, up w -> db_BeginTx db w = None;
  law_Tx : forall A (s : stmt DB gerr A) w w' r, up w -> db_Tx db s w = (w', r) ->
    up w' /\ match s (tables w) with
             | (t, inl a) => tables w' = t /\ r = Ok a
             | (_, inr e) => tables w' = tables w /\ r = Err e
             end;
  law_RowsAffected : forall n, db_RowsAffected db n = Ok n;
  law_LastInsertId : forall n, db_LastInsertId db n = Ok n;
}.

(** A statement in a world in which the database is up, by its effect. *)
Lemma exec_run {W DB A} (db : SqlDB W DB) (tables : W -> DB) (up : W -> Prop) `{!SqlLaws db tables up}
    (s : stmt DB sqlerr A) w w' r t a :
  up w -> s (tables w) = (t, a) -> db_Exec db s w = (w', r) -> up w' /\ tables w' = t /\ r = a.
Proof.
  intros Hu Es E. destruct (law_Exec _ s w w' r Hu E) as [Hup H]. by rewrite Es in H.
Qed.

(** A database whose world is its tables. *)
Definition tableDB (DB : Type) : SqlDB DB DB := mkSqlDB DB DB
  (fun A q w => inl (q w))
  (fun A s w => s w)
  (fun _ => None)
  (fun A s w => match s w with (t, inl a) => (t, Ok a) | (_, inr e) => (w, Err e) end)
  Ok Ok.

#[global] Instance tableDB_laws DB : SqlLaws (tableDB DB) id (fun _ => True).
Proof.
  split; try done.
  - intros A s w w' r _. cbn. intros E. by rewrite E.
  - intros A s w w' r _. cbn. destruct (s w) as [t [a | e]]; intros H; by injection H as <- <-.
Qed.

(** ** Rows *)
Section Rows.
Context {Row : Type}.

(** [DELETE ... WHERE] and [UPDATE ... SET ... WHERE], with the number of rows. *)
Definition rows_where (p : Row -> bool) (t : list Row) : Z := Z.of_nat (List.length (List.filter p t)).
Definition delete_where (p : Row -> bool) (t : list Row) : list Row :=
  List.filter (fun r => negb (p r)) t.
Definition update_where (p : Row -> bool) (f : Row -> Row) (t : list Row) : list Row :=
  List.map (fun r => if p r then f r else r) t.

(** The row of a key of a UNIQUE column. *)
Definition find_key (key : Row -> string) (k : string) (t : list Row) : option Row :=
  List.find (fun r => String.eqb (key r) k) t.

(** A table whose column [key] is UNIQUE. *)
Definition unique (key : Row -> string) (t : list Row) : Prop := NoDup (map key t).

Context (key : Row -> string).

Lemma find_key_Some k t r : find_key key k t = Some r -> r ∈ t /\ key r = k.
Proof.
  intros H. apply List.find_some in H as [Hin Hk]. rewrite list_elem_of_In. by apply String.eqb_eq in Hk.
Qed.

Lemma find_key_In t r : unique key t -> r ∈ t -> find_key key (key r) t = Some r.
Proof.
  unfold unique. induction t as [| x t IH]; intros Hu Hin; [by apply elem_of_nil in Hin |].
  cbn in *. apply NoDup_cons in Hu as [Hx Hu]. apply elem_of_cons in Hin as [<- | Hin].
  - by rewrite String.eqb_refl.
  - destruct (String.eqb_spec (key x) (key r)) as [E | _]; [| by apply IH].
    destruct Hx. rewrite E. apply list_elem_of_fmap. by exists r.
Qed.

Lemma find_key_iff t k r : unique key t -> find_key key k t = Some r <-> r ∈ t /\ key r = k.
Proof. intros Hu. split; [apply find_key_Some |]. intros [Hin <-]. by apply find_key_In. Qed.

Lemma find_key_None k t : find_key key k t = None <-> k ∉ map key t.
Proof.
  unfold find_key. induction t as [| x t IH]; cbn; [split; [intros _; apply not_elem_of_nil | done] |].
  rewrite not_elem_of_cons. destruct (String.eqb_spec (key x) k) as [E | E].
  - split; [done |]. by intros [? _].
  - rewrite IH. split; [by intros ?; split | by intros [_ ?]].
Qed.

Lemma unique_snoc t r : unique key t -> find_key key (key r) t = None -> unique key (t ++ [r]).
Proof.
  unfold unique. intros Hu Hn. rewrite map_app. apply NoDup_app. split; [done |].
  split; [| cbn; by apply NoDup_singleton].
  intros x Hx Hx'. cbn in Hx'. apply list_elem_of_singleton in Hx' as ->. by apply find_key_None in Hn.
Qed.

Lemma find_key_snoc t r k :
  find_key key k (t ++ [r]) =
    match find_key key k t with Some x => Some x | None => if String.eqb (key r) k then Some r else None end.
Proof.
  unfold find_key. induction t as [| x t IH]; cbn; [by destruct (String.eqb (key r) k) |].
  by destruct (String.eqb (key x) k).
Qed.

Lemma delete_where_elem p t r : r ∈ delete_where p t <-> r ∈ t /\ p r = false.
Proof.
  unfold delete_where. rewrite !list_elem_of_In, filter_In, negb_true_iff. done.
Qed.

Lemma delete_where_unique p t : unique key t -> unique key (delete_where p t).
Proof.
  unfold unique, delete_where. induction t as [| x t IH]; intros Hu; [done |]. cbn in *.
  apply NoDup_cons in Hu as [Hx Hu]. specialize (IH Hu).
  destruct (negb (p x)); [| done]. cbn. apply NoDup_cons. split; [| done].
  intros Hin. apply Hx. apply list_elem_of_fmap in Hin as (y & Hy & Hin). apply list_elem_of_fmap.
  exists y. split; [done |]. apply list_elem_of_In, filter_In in Hin as [Hin _]. by apply list_elem_of_In.
Qed.

Lemma find_delete_where p t k :
  unique key t ->
  find_key key k (delete_where p t) =
    match find_key key k t with Some r => if p r then None else Some r | None => None end.
Proof.
  intros Hu. apply option_eq. intros r.
  rewrite find_key_iff by by apply delete_where_unique. rewrite delete_where_elem.
  destruct (find_key key k t) as [x |] eqn:E.
  - apply find_key_Some in E as [Hin Hk]. split.
    + intros [[Hr Hp] Hrk]. assert (Hx : Some x = Some r).
      { rewrite <- (find_key_In t x Hu Hin), <- (find_key_In t r Hu Hr). congruence. }
      injection Hx as ->. by rewrite Hp.
    + destruct (p x) eqn:Hp; [done |]. intros [= <-]. done.
  - split; [| done]. intros [[Hr _] Hrk]. apply find_key_None in E. destruct E.
    apply list_elem_of_fmap. by exists r.
Qed.

Lemma update_where_keys p f t :
  (forall r, key (f r) = key r) -> map key (update_where p f t) = map key t.
Proof.
  intros Hf. unfold update_where. rewrite map_map. apply map_ext. intros r. by destruct (p r).
Qed.

Lemma update_where_unique p f t :
  (forall r, key (f r) = key r) -> unique key t -> unique key (update_where p f t).
Proof. intros Hf. unfold unique. by rewrite update_where_keys. Qed.

Lemma find_update_where p f t k :
  (forall r, key (f r) = key r) ->
  find_key key k (update_where p f t) = (fun r => if p r then f r else r) <$> find_key key k t.
Proof.
  intros Hf. unfold find_key, update_where. induction t as [| x t IH]; [done |]. cbn.
  assert (E : key (if p x then f x else x) = key x) by (by destruct (p x)).
  rewrite E. by destruct (String.eqb (key x) k).
Qed.

(** How many rows a WHERE on the key selects. *)
Lemma rows_where_key p t k :
  unique key t -> (forall r, r ∈ t -> p r = true -> key r = k) ->
  rows_where p t = match find_key key k t with Some r => if p r then 1 else 0 | None => 0 end%Z.
Proof.
  unfold rows_where, unique, find_key. induction t as [| x t IH]; intros Hu Hp; [done |]. cbn in *.
  apply NoDup_cons in Hu as [Hx Hu].
  specialize (IH Hu (fun r Hr => Hp r (proj2 (elem_of_cons _ _ _) (or_intror Hr)))).
  destruct (String.eqb_spec (key x) k) as [E | E].
  - assert (Hn : find_key key k t = None) by (apply find_key_None; by rewrite <- E).
    unfold find_key in Hn. rewrite Hn in IH. destruct (p x); cbn [List.length]; lia.
  - destruct (p x) eqn:Ep; [| done]. destruct E. apply Hp; [by apply elem_of_cons; left | done].
Qed.

(** What a table says about its keys, as a finite map. *)
Definition rows_map {A} (f : Row -> A) (t : list Row) : gmap string A :=
  list_to_map (map (fun r => (key r, f r)) t).

Lemma lookup_rows_map {A} (f : Row -> A) t k : rows_map f t !! k = f <$> find_key key k t.
Proof.
  unfold rows_map, find_key. induction t as [| x t IH]; [done |]. cbn.
  destruct (String.eqb_spec (key x) k) as [<- | E]; [by rewrite lookup_insert_eq |].
  by rewrite lookup_insert_ne.
Qed.

Lemma rows_map_snoc {A} (f : Row -> A) t r :
  find_key key (key r) t = None -> rows_map f (t ++ [r]) = <[key r := f r]> (rows_map f t).
Proof.
  intros Hn. apply map_eq. intros k. rewrite lookup_rows_map, find_key_snoc.
  destruct (String.eqb_spec (key r) k) as [<- | E].
  - by rewrite Hn, lookup_insert_eq.
  - rewrite lookup_insert_ne, lookup_rows_map by done. by destruct (find_key key k t).
Qed.

(** An update whose WHERE holds of rows with key [k] only. *)
Lemma rows_map_update_if {A} (f : Row -> A) p k g t :
  (forall r, key (g r) = key r) -> (forall r, p r = true -> key r = k) ->
  rows_map f (update_where p g t) =
    match find_key key k t with
    | Some r => if p r then <[k := f (g r)]> (rows_map f t) else rows_map f t
    | None => rows_map f t
    end.
Proof.
  intros Hg Hp. apply map_eq. intros j. rewrite lookup_rows_map, find_update_where by done.
  destruct (decide (k = j)) as [<- | Hne].
  - destruct (find_key key k t) as [r |] eqn:E; [| by rewrite lookup_rows_map, E]. cbn.
    destruct (p r); [by rewrite lookup_insert_eq | by rewrite lookup_rows_map, E].
  - assert (El : (fun r => if p r then g r else r) <$> find_key key j t = find_key key j t).
    { destruct (find_key key j t) as [x |] eqn:Ej; [| done]. cbn.
      destruct (p x) eqn:Ep; [| done]. apply Hp in Ep. apply find_key_Some in Ej as [_ Ej]. congruence. }
    rewrite El. destruct (find_key key k t) as [r |]; [| by rewrite lookup_rows_map].
    destruct (p r); [| by rewrite lookup_rows_map]. by rewrite lookup_insert_ne, lookup_rows_map.
Qed.

Lemma rows_map_update {A} (f : Row -> A) k g t :
  (forall r, key (g r) = key r) ->
  rows_map f (update_where (fun r => String.eqb (key r) k) g t) =
    match find_key key k t with Some r => <[k := f (g r)]> (rows_map f t) | None => rows_map f t end.
Proof.
  intros Hg. rewrite (rows_map_update_if f _ k) by (done || (intros r Hr; by apply String.eqb_eq)).
  destruct (find_key key k t) as [r |] eqn:E; [| done]. apply find_key_Some in E as [_ <-].
  by rewrite String.eqb_refl.
Qed.

Lemma rows_map_delete {A} (f : Row -> A) k t :
  unique key t ->
  rows_map f (delete_where (fun r => String.eqb (key r) k) t) = delete k (rows_map f t).
Proof.
  intros Hu. apply map_eq. intros j. rewrite lookup_rows_map, find_delete_where by done.
  destruct (decide (k = j)) as [<- | Hne].
  - rewrite lookup_delete_eq. destruct (find_key key k t) as [r |] eqn:E; [| done].
    apply find_key_Some in E as [_ <-]. by rewrite String.eqb_refl.
  - rewrite lookup_delete_ne, lookup_rows_map by done.
    destruct (find_key key j t) as [x |] eqn:Ej; [| done]. apply find_key_Some in Ej as [_ <-].
    apply not_eq_sym, String.eqb_neq in Hne. by rewrite Hne.
Qed.
End Rows.

(** ** LIKE

    [%] matches any text and [_] one character; a character is a byte below
    0xC0 or a byte from 0xC0 on with the continuation bytes that follow it.
    With an escape character, the character after it stands for itself.
    [fold] is the case folding of the comparison. *)
Definition contByte (c : ascii) : bool := is_cont (zbyte c).

Fixpoint dropCont (s : string) : string :=
  match s with
  | String c s' => if contByte c then dropCont s' else s
  | EmptyString => ""
  end.

Definition skipChar (c : ascii) (s : string) : string :=
  if (192 <=? zbyte c)%Z then dropCont s else s.

(** Some suffix of [s] that starts at a character satisfies [f]. *)
Fixpoint anySuffix (f : string -> bool) (s : string) : bool :=
  match s with
  | EmptyString => f ""
  | String c s' => (negb (contByte c) && f s) || anySuffix f s'
  end.

Section Like.
Context (fold : ascii -> ascii) (escape : option ascii).

Fixpoint like (pattern s : string) : bool :=
  match pattern with
  | EmptyString => String.eqb s ""
  | String c p' =>
      if bool_decide (escape = Some c) then
        match p', s with
        | String d p'', String x s' => Ascii.eqb (fold d) (fold x) && like p'' s'
        | _, _ => false
        end
      else if Ascii.eqb c "%" then like p' s || anySuffix (like p') s
      else if Ascii.eqb c "_" then
        match s with String x s' => like p' (skipChar x s') | EmptyString => false end
      else
        match s with String x s' => Ascii.eqb (fold c) (fold x) && like p' s' | EmptyString => false end
  end.
End Like.

(** *** Patterns *)
Section LikeFacts.
Context (fold : ascii -> ascii).

(** A text without [%] and [_] stands for itself. *)
Fixpoint plainText (p : string) : bool :=
  match p with
  | String c p' => negb (Ascii.eqb c "%" || Ascii.eqb c "_") && plainText p'
  | EmptyString => true
  end.

(** What follows [p] in [s], up to case. *)
Fixpoint strip (p s : string) : option string :=
  match p, s with
  | EmptyString, _ => Some s
  | String c p', String x s' => if Ascii.eqb (fold c) (fold x) then strip p' s' else None
  | String _ _, EmptyString => None
  end.

Lemma like_plain esc p q s :
  plainText p = true -> (forall c, esc = Some c -> Contains p (String c "") = false) ->
  like fold esc (p +:+ q) s = match strip p s with Some r => like fold esc q r | None => false end.
Proof.
  revert s. induction p as [| c p IH]; intros s Hp He; [done |].
  cbn [plainText] in Hp. to_prop. cbn [String.append like].
  rewrite bool_decide_false.
  2:{ intros ->. specialize (He c eq_refl). cbn in He. rewrite Ascii.eqb_refl in He. by destruct p. }
  rewrite H, H1. destruct s as [| x s]; [done |]. cbn [strip].
  destruct (Ascii.eqb (fold c) (fold x)); [| done]. cbn [andb]. apply IH; [done |].
  intros d Hd. specialize (He d Hd). cbn [Contains] in He. by to_prop.
Qed.

Lemma HasPrefix_nil s : HasPrefix s "" = true.
Proof. by destruct s. Qed.

Lemma anySuffix_true f s : f "" = true -> anySuffix f s = true.
Proof. intros H. induction s as [| c s IH]; cbn; [done |]. by rewrite IH, orb_true_r. Qed.

Lemma like_percent esc s : esc <> Some "%"%char -> like fold esc "%" s = true.
Proof.
  intros He. cbn [like]. rewrite bool_decide_false by done. cbn. apply orb_true_iff. right.
  by apply anySuffix_true.
Qed.

Lemma anySuffix_ext f g s : (forall x, f x = g x) -> anySuffix f s = anySuffix g s.
Proof. intros H. induction s as [| c s IH]; cbn; [done |]. by rewrite IH, H. Qed.

(** The patterns [/%] and [/%/%] on the text after a directory. *)
Lemma like_slash_percent esc s :
  esc <> Some "%"%char -> esc <> Some "/"%char -> fold "/" = "/"%char ->
  (forall x, fold x = "/"%char -> x = "/"%char) ->
  like fold esc "/%" s = HasPrefix s "/".
Proof.
  intros H1 H2 Hf Hi. destruct s as [| x s]; [cbn [like]; by rewrite bool_decide_false |].
  change (like fold esc "/%" (String x s)) with
    (if bool_decide (esc = Some "/"%char) then Ascii.eqb (fold "%") (fold x) && like fold esc "" s
     else Ascii.eqb (fold "/") (fold x) && like fold esc "%" s).
  rewrite bool_decide_false, like_percent, Hf by done.
  change (HasPrefix (String x s) "/") with (Ascii.eqb "/" x && HasPrefix s "").
  rewrite HasPrefix_nil.
  rewrite andb_true_r. destruct (Ascii.eqb_spec "/" (fold x)) as [E | E].
  - symmetry in E. apply Hi in E as ->. done.
  - rewrite andb_true_r. destruct (Ascii.eqb_spec "/" x) as [<- | _]; [by rewrite Hf in E | done].
Qed.

Lemma anySuffix_slash s : anySuffix (fun x => HasPrefix x "/") s = Contains s "/".
Proof.
  induction s as [| c s IH]; [done |]. cbn [anySuffix Contains]. rewrite IH.
  change (HasPrefix (String c s) "/") with (Ascii.eqb "/" c && HasPrefix s ""). rewrite HasPrefix_nil, andb_true_r.
  destruct (Ascii.eqb_spec "/" c) as [<- | _]; [done |]. by rewrite andb_false_r.
Qed.

Lemma like_slash_percent_slash esc s :
  esc <> Some "%"%char -> esc <> Some "/"%char -> fold "/" = "/"%char ->
  (forall x, fold x = "/"%char -> x = "/"%char) ->
  like fold esc "/%/%" s = match s with String c r => Ascii.eqb "/" c && Contains r "/" | "" => false end.
Proof.
  intros H1 H2 Hf Hi.
  assert (E : forall r, like fold esc "%/%" r = Contains r "/").
  { intros r. change (like fold esc "%/%" r) with
      (if bool_decide (esc = Some "%"%char) then match r with String x r' => Ascii.eqb (fold "/") (fold x) && like fold esc "%" r' | "" => false end else
       like fold esc "/%" r || anySuffix (like fold esc "/%") r).
    rewrite bool_decide_false by done. rewrite like_slash_percent by done.
    rewrite (anySuffix_ext _ (fun x => HasPrefix x "/")) by (intros; by apply like_slash_percent).
    rewrite anySuffix_slash. destruct r as [| c r]; [done |]. cbn [Contains]. by rewrite orb_assoc, orb_diag. }
  destruct s as [| c s]; [cbn [like]; by rewrite bool_decide_false |].
  change (like fold esc "/%/%" (String c s)) with
    (if bool_decide (esc = Some "/"%char) then Ascii.eqb (fold "%") (fold c) && like fold esc "/%" s else
     Ascii.eqb (fold "/") (fold c) && like fold esc "%/%" s).
  rewrite bool_decide_false, E, Hf by done. f_equal.
  destruct (Ascii.eqb_spec "/" (fold c)) as [G | G].
  - symmetry in G. apply Hi in G as ->. done.
  - destruct (Ascii.eqb_spec "/" c) as [<- | _]; [by rewrite Hf in G | done].
Qed.

Lemma Contains_char x s c : Contains (String x s) (String c "") = Ascii.eqb c x || Contains s (String c "").
Proof.
  cbn [Contains]. change (HasPrefix (String x s) (String c "")) with (Ascii.eqb c x && HasPrefix s "").
  by rewrite HasPrefix_nil, andb_true_r.
Qed.

Lemma Contains_char_app a b c :
  Contains (a +:+ b) (String c "") = Contains a (String c "") || Contains b (String c "").
Proof.
  induction a as [| x a IH]; [done |]. cbn [String.append]. by rewrite !Contains_char, IH, orb_assoc.
Qed.

Lemma Contains_dropCont s c : Contains (dropCont s) (String c "") = true -> Contains s (String c "") = true.
Proof.
  induction s as [| x s IH]; [done |]. cbn [dropCont]. rewrite Contains_char.
  destruct (contByte x); [intros H; by rewrite IH, orb_true_r | by rewrite Contains_char].
Qed.

Lemma anySuffix_Contains f s c :
  (forall r, f r = true -> Contains r (String c "") = true) ->
  anySuffix f s = true -> Contains s (String c "") = true.
Proof.
  intros Hf. induction s as [| x s IH]; cbn [anySuffix]; [apply Hf |].
  intros H. apply orb_true_iff in H as [H | H].
  - apply andb_true_iff in H as [_ H]. by apply Hf.
  - rewrite Contains_char, IH by done. apply orb_true_r.
Qed.

(** Without an escape character, a literal of the pattern occurs in the text. *)
Lemma like_literal p s c :
  c <> "%"%char -> c <> "_"%char -> (forall x, fold c = fold x -> x = c) ->
  like fold None p s = true -> Contains p (String c "") = true -> Contains s (String c "") = true.
Proof.
  intros H1 H2 Hi. revert s. induction p as [| d p IH]; intros s Hl Hc; [done |].
  rewrite Contains_char in Hc. cbn [like] in Hl. rewrite bool_decide_false in Hl by done.
  destruct (Ascii.eqb_spec d "%") as [-> | Hd1].
  { destruct (Ascii.eqb_spec c "%") as [-> | _]; [done |]. cbn [orb] in Hc.
    apply orb_true_iff in Hl as [Hl | Hl]; [by apply IH |].
    eapply anySuffix_Contains; [| exact Hl]. intros r Hr. by apply IH. }
  destruct (Ascii.eqb_spec d "_") as [-> | Hd2].
  { destruct (Ascii.eqb_spec c "_") as [-> | _]; [done |]. cbn [orb] in Hc.
    destruct s as [| x s]; [done |]. rewrite Contains_char. apply orb_true_iff. right.
    specialize (IH _ Hl Hc). unfold skipChar in IH.
    destruct (192 <=? zbyte x)%Z; [by apply Contains_dropCont | done]. }
  destruct s as [| x s]; [done |]. apply andb_true_iff in Hl as [Hf Hl]. rewrite Contains_char.
  apply Ascii.eqb_eq in Hf. destruct (Ascii.eqb_spec c d) as [<- | _].
  - apply Hi in Hf as ->. by rewrite Ascii.eqb_refl.
  - cbn [orb] in Hc. rewrite IH by done. apply orb_true_r.
Qed.
End LikeFacts.

(** [strip] with SQLite's folding is a prefix up to the case of ASCII letters. *)
Lemma strip_lower p s r : strip lower_byte p s = Some r -> ToLower s = ToLower p +:+ ToLower r.
Proof.
  revert s. induction p as [| c p IH]; intros s; [by intros [= ->] |].
  destruct s as [| x s]; [done |]. cbn [strip]. destruct (Ascii.eqb_spec (lower_byte c) (lower_byte x)) as [E | _]; [| done].
  intros H. cbn [ToLower String.append]. by rewrite (IH _ H), E.
Qed.

Lemma strip_refl fold p r : strip fold p (p +:+ r) = Some r.
Proof. induction p as [| c p IH]; [done |]. cbn. by rewrite Ascii.eqb_refl. Qed.

Lemma strip_id p s r : strip id p s = Some r -> s = p +:+ r.
Proof.
  revert s. induction p as [| c p IH]; intros s; [by intros [= ->] |].
  destruct s as [| x s]; [done |]. cbn [strip]. destruct (Ascii.eqb_spec (id c) (id x)) as [E | _]; [| done].
  intros H. unfold id in E. subst x. cbn. by rewrite <- (IH _ H).
Qed.

Lemma lower_byte_inv c x : lower_byte x = c -> (N_of_ascii c < 97)%N \/ (122 < N_of_ascii c)%N -> x = c.
Proof.
  unfold lower_byte. destruct (_ && _) eqn:E; [| done]. apply andb_true_iff in E as [E1 E2].
  apply N.leb_le in E1, E2. intros <-. rewrite N_ascii_embedding by lia. lia.
Qed.

Lemma lower_slash x : lower_byte x = "/"%char -> x = "/"%char.
Proof. intros H. apply lower_byte_inv; [done |]. left. vm_compute. done. Qed.

Lemma ToLower_app a b : ToLower (a +:+ b) = ToLower a +:+ ToLower b.
Proof. induction a as [| x a IH]; [done |]. cbn. by rewrite IH. Qed.

Lemma str_app_inj_l (a b c : string) : a +:+ b = a +:+ c -> b = c.
Proof. induction a as [| x a IH]; [done |]. cbn. intros [= H]. by apply IH. Qed.

Lemma Contains_lower_slash s : Contains (ToLower s) "/" = Contains s "/".
Proof.
  induction s as [| x s IH]; [done |]. cbn [ToLower]. rewrite !Contains_char, IH. f_equal.
  destruct (Ascii.eqb_spec "/" x) as [<- | Hx]; [done |]. apply Ascii.eqb_neq. intros Hx'.
  symmetry in Hx'. by apply lower_slash in Hx'.
Qed.

Lemma replace_byte_app a b c t : replace_byte (a +:+ b) c t = replace_byte a c t +:+ replace_byte b c t.
Proof. induction a as [| x a IH]; [done |]. cbn [String.append replace_byte]. by rewrite IH, str_app_assoc. Qed.

(** With an escape character, a text whose metacharacters are escaped stands for
    itself. *)
Lemma like_escaped p q s :
  Contains p "\" = false ->
  like id (Some "\"%char) (replace_byte (replace_byte p "%" "\%") "_" "\_" +:+ q) s =
    match strip id p s with Some r => like id (Some "\"%char) q r | None => false end.
Proof.
  revert s. induction p as [| c p IH]; intros s Hp; [done |].
  rewrite Contains_char in Hp. to_prop. cbn [replace_byte strip].
  destruct (Ascii.eqb_spec c "%") as [-> | Hc1].
  { rewrite replace_byte_app, <- str_app_assoc. destruct s as [| x s]; [done |].
    change (like id (Some "\"%char) (replace_byte "\%" "_" "\_" +:+ ?r) (String x s))
      with (Ascii.eqb "%" x && like id (Some "\"%char) r s).
    rewrite IH by done. unfold id. by destruct (Ascii.eqb "%" x). }
  destruct (Ascii.eqb_spec c "_") as [-> | Hc2].
  { rewrite replace_byte_app, <- str_app_assoc. destruct s as [| x s]; [done |].
    change (like id (Some "\"%char) (replace_byte "_" "_" "\_" +:+ ?r) (String x s))
      with (Ascii.eqb "_" x && like id (Some "\"%char) r s).
    rewrite IH by done. unfold id. by destruct (Ascii.eqb "_" x). }
  rewrite replace_byte_app, <- str_app_assoc.
  assert (E : replace_byte (String c "") "_" "\_" = String c "").
  { cbn. apply Ascii.eqb_neq in Hc2 as ->. done. }
  rewrite E. cbn [String.append like]. rewrite bool_decide_false.
  2:{ intros [= <-]. done. }
  apply Ascii.eqb_neq in Hc1 as ->. apply Ascii.eqb_neq in Hc2 as ->.
  destruct s as [| x s]; [done |]. rewrite IH by done. unfold id. by destruct (Ascii.eqb c x).
Qed.

(** SQLite: ASCII letters compare without case, and no escape character unless
    the expression has an ESCAPE clause. *)
Definition sqliteLike : string -> string -> bool := like lower_byte None.
(** PostgreSQL: the backslash is the escape character. *)
Definition pgLike : string -> string -> bool := like id (Some "092"%char).

Example like_1 : sqliteLike "/a/%" "/A/b" = true. Proof. reflexivity. Qed.
Example like_2 : pgLike "/a/%" "/A/b" = false. Proof. reflexivity. Qed.
Example like_3 : sqliteLike "/my\_dir/%" "/my_dir/f" = false. Proof. reflexivity. Qed.
Example like_4 : pgLike "/my\_dir/%" "/my_dir/f" = true. Proof. reflexivity. Qed.
Example like_5 : pgLike "/my\_dir/%/%" "/my_dir/f" = false. Proof. reflexivity. Qed.

End Sql.
