(* ===== verification/Sqlite.v ===== *)
(** * The SQLite metadata store: metadata/sqlite

    The tables of the schema, the statements of the store as functions on them,
    and the operations of [SQLiteStore] over a database connection ([SqlDB]).
    Times are stored as RFC 3339 text.  [serving] worlds are those in which the
    database can be reached and the UNIQUE columns are unique. *)
From S2P Require Import Prelude GoStrings Metadata GoTime Sql.
From Stdlib Require Import Ascii String.
Import GoTime Sql.
Open Scope string_scope.
Open Scope bool_scope.

Module Sqlite.

(** ** The schema

    Columns that no statement reads (the creation times of the erasure tables)
    are left out.  [seq] is the AUTOINCREMENT counter of a table. *)
Record inode := mkInode {
  in_id : Z;
  in_parent_id : option Z;
  in_name : string;
  in_path : string;
  in_type : string;
  in_size : Z;
  in_mode : string;
  in_uid : Z;
  in_gid : Z;
  in_atime : string;
  in_mtime : string;
  in_ctime : string;
  in_backend_type : string;
  in_callfs_instance_id : option string;
  in_symlink_target : option string;
  in_created_at : string;
  in_updated_at : string;
}.

Record link_row := mkLinkRow {
  lr_id : Z;
  lr_token : string;
  lr_file_path : string;
  lr_status : string;
  lr_expires_at : string;
  lr_used_at : option string;
  lr_used_by_ip : option string;
  lr_hmac_signature : string;
  lr_created_at : string;
  lr_updated_at : string;
}.

Record profile_row := mkProfileRow {
  pr_file_path : string;
  pr_data_shards : Z;
  pr_parity_shards : Z;
  pr_shard_size : Z;
  pr_original_size : Z;
}.

Record shard_row := mkShardRow {
  sh_file_path : string;
  sh_info : ErasureShardInfo;
}.

Record Tables := mkTables {
  inodes : list inode;
  inodes_seq : Z;
  single_use_links : list link_row;
  links_seq : Z;
  erasure_profiles : list profile_row;
  erasure_shards : list shard_row;
}.

Definition set_inodes (l : list inode) (n : Z) (t : Tables) : Tables :=
  mkTables l n (single_use_links t) (links_seq t) (erasure_profiles t) (erasure_shards t).
Definition set_links (l : list link_row) (n : Z) (t : Tables) : Tables :=
  mkTables (inodes t) (inodes_seq t) l n (erasure_profiles t) (erasure_shards t).
Definition set_erasure (p : list profile_row) (s : list shard_row) (t : Tables) : Tables :=
  mkTables (inodes t) (inodes_seq t) (single_use_links t) (links_seq t) p s.

(** ** Text of times, nullable columns *)

Definition parseTimestamp (value : string) : Time :=
  if String.eqb value "" then 0%Z
  else match ParseRFC3339Nano value with Some parsed => parsed | None => 0%Z end.

#[global] Arguments parseTimestamp : simpl never.

(** [sql.NullInt64] and [sql.NullString] are options here. *)
Definition nullInt64 (value : option Z) : option Z := value.
Definition nullString (value : option string) : option string := value.
Definition nullStringTime (value : option Time) : option string := FormatRFC3339Nano <$> value.

Definition escapeLikePattern (s : string) : string :=
  let s := replace_byte s "%" "\%" in
  replace_byte s "_" "\_".

(** ** Statements *)

Definition get_inode (path : string) (t : Tables) : option inode := find_key in_path path (inodes t).

(** The row that Create inserts: the columns of its INSERT, the id from the counter. *)
Definition insertedInode (md : Metadata) (id : Z) : inode :=
  mkInode id (nullInt64 (md_ParentID md)) (md_Name md) (md_Path md) (md_Type md) (md_Size md) (md_Mode md)
    (md_UID md) (md_GID md) (FormatRFC3339Nano (md_ATime md)) (FormatRFC3339Nano (md_MTime md))
    (FormatRFC3339Nano (md_CTime md)) (md_BackendType md) (nullString (md_CallFSInstanceID md))
    (nullString (md_SymlinkTarget md)) (FormatRFC3339Nano (md_CreatedAt md))
    (FormatRFC3339Nano (md_UpdatedAt md)).

(** [INSERT INTO inodes]: CHECK (type IN ('file', 'directory')), UNIQUE path. *)
Definition insert_inode (md : Metadata) : stmt Tables sqlerr Z := fun t =>
  let id := (inodes_seq t + 1)%Z in
  if negb (String.eqb (md_Type md) "file" || String.eqb (md_Type md) "directory")
  then (t, inr (Violation "type IN ('file', 'directory')"))
  else match get_inode (md_Path md) t with
       | Some _ => (t, inr (UniqueViolation "inodes.path"))
       | None => (set_inodes (inodes t ++ [insertedInode md id]) id t, inl id)
       end.

(** The assignments of [UPDATE inodes SET ...]. *)
Definition updatedInode (md : Metadata) (r : inode) : inode :=
  mkInode (in_id r) (in_parent_id r) (in_name r) (in_path r) (in_type r) (md_Size md) (md_Mode md)
    (md_UID md) (md_GID md) (FormatRFC3339Nano (md_ATime md)) (FormatRFC3339Nano (md_MTime md))
    (FormatRFC3339Nano (md_CTime md)) (md_BackendType md) (nullString (md_CallFSInstanceID md))
    (nullString (md_SymlinkTarget md)) (in_created_at r) (FormatRFC3339Nano (md_UpdatedAt md)).

Definition path_is (path : string) (r : inode) : bool := String.eqb (in_path r) path.

Definition update_inode (md : Metadata) : stmt Tables sqlerr Z := fun t =>
  (set_inodes (update_where (path_is (md_Path md)) (updatedInode md) (inodes t)) (inodes_seq t) t,
       inl (rows_where (path_is (md_Path md)) (inodes t))).

Definition delete_inode (path : string) : stmt Tables sqlerr Z := fun t =>
  (set_inodes (delete_where (path_is path) (inodes t)) (inodes_seq t) t,
       inl (rows_where (path_is path) (inodes t))).

(** [substr(path, 2)]: the text after the first character. *)
Definition substr2 (s : string) : string :=
  match s with String c s' => skipChar c s' | EmptyString => "" end.

Definition childOfRoot (r : inode) : bool :=
  sqliteLike "/%" (in_path r) && negb (Contains (substr2 (in_path r)) "/")
  && negb (String.eqb (in_path r) "/").

Definition childOf (parentPath : string) (r : inode) : bool :=
  let escapedPath := escapeLikePattern parentPath in
  sqliteLike (escapedPath +:+ "/%") (in_path r) && negb (sqliteLike (escapedPath +:+ "/%/%") (in_path r)).

(** [ORDER BY type DESC, name ASC]. *)
Definition inodeLe (a b : inode) : Prop :=
  ~ strings.String.le (in_type a) (in_type b) \/
  (in_type a = in_type b /\ strings.String.le (in_name a) (in_name b)).
#[global] Instance inodeLe_dec : RelDecision inodeLe.
Proof. intros a b. unfold inodeLe. apply _. Defined.

Definition select_children (where_ : inode -> bool) (t : Tables) : list inode :=
  merge_sort inodeLe (List.filter where_ (inodes t)).

(** ** The store *)
Section SQLiteStore.
Context {W : Type} (db : SqlDB W Tables).
(** [err.Error()] of the driver's errors. *)
Context (errorText : sqlerr -> string).

Definition scanMetadataRow (r : inode) : Metadata :=
  mkMetadata (in_id r) (in_parent_id r) (in_name r) (in_path r) (in_type r) (in_size r) (in_mode r)
    (in_uid r) (in_gid r) (parseTimestamp (in_atime r)) (parseTimestamp (in_mtime r))
    (parseTimestamp (in_ctime r)) (in_backend_type r) false (in_callfs_instance_id r)
    (in_symlink_target r) (parseTimestamp (in_created_at r)) (parseTimestamp (in_updated_at r)).

Definition Get (path : string) (w : W) : Res Metadata :=
  match db_Query db (get_inode path) w with
  | inr e => Err (EWrap "failed to get metadata" e)
  | inl None => Err ErrNotFound
  | inl (Some r) => Ok (scanMetadataRow r)
  end.

(** [md.ATime.IsZero()] and the like. *)
Definition orNow (t now : Time) : Time := if (t =? 0)%Z then now else t.

Definition stampCreate (now : Time) (md : Metadata) : Metadata :=
  mkMetadata (md_ID md) (md_ParentID md) (md_Name md) (md_Path md) (md_Type md) (md_Size md) (md_Mode md)
    (md_UID md) (md_GID md) (orNow (md_ATime md) now) (orNow (md_MTime md) now) (orNow (md_CTime md) now)
    (md_BackendType md) (md_ErasureCoded md) (md_CallFSInstanceID md) (md_SymlinkTarget md) now now.

Definition set_ID (v : Z) (m : Metadata) : Metadata :=
  mkMetadata v (md_ParentID m) (md_Name m) (md_Path m) (md_Type m) (md_Size m) (md_Mode m)
    (md_UID m) (md_GID m) (md_ATime m) (md_MTime m) (md_CTime m) (md_BackendType m)
    (md_ErasureCoded m) (md_CallFSInstanceID m) (md_SymlinkTarget m) (md_CreatedAt m) (md_UpdatedAt m).

Definition Create (now : Time) (md : Metadata) : St W (Metadata * Res unit) := fun w =>
  let md := stampCreate now md in
  match db_Exec db (insert_inode md) w with
  | (w', inr err) =>
      if Contains (errorText err) "UNIQUE constraint failed: inodes.path" then (w', (md, Err ErrAlreadyExists))
      else (w', (md, Err (EWrap "failed to create metadata" (sqlerr_error err))))
  | (w', inl id) =>
      match db_LastInsertId db id with
      | Ok id => (w', (set_ID id md, Ok tt))
      | Err _ => (w', (md, Ok tt))
      end
  end.

(** What follows an UPDATE or DELETE: no row means [ErrNotFound]. *)
Definition affected (msg : string) (r : Z + sqlerr) : Res unit :=
  match r with
  | inr err => Err (EWrap msg (sqlerr_error err))
  | inl n =>
      match db_RowsAffected db n with
      | Err e => Err (EWrap "failed to get rows affected" e)
      | Ok rowsAffected => if (rowsAffected =? 0)%Z then Err ErrNotFound else Ok tt
      end
  end.

Definition Update (now : Time) (md : Metadata) : St W (Metadata * Res unit) := fun w =>
  let md := set_UpdatedAt now md in
  let '(w', result) := db_Exec db (update_inode md) w in
  (w', (md, affected "failed to update metadata" result)).

Definition Delete (path : string) : St W (Res unit) := fun w =>
  let '(w', result) := db_Exec db (delete_inode path) w in
  (w', affected "failed to delete metadata" result).

Definition ListChildren (parentPath : string) (w : W) : Res (list Metadata) :=
  let where_ := if String.eqb parentPath "/" then childOfRoot else childOf parentPath in
  match db_Query db (select_children where_) w with
  | inr e => Err (EWrap "failed to list children" e)
  | inl rows => Ok (map scanMetadataRow rows)
  end.

(** *** Single-use links *)

Definition get_link (token : string) (t : Tables) : option link_row :=
  find_key lr_token token (single_use_links t).

Definition scanLink (r : link_row) : SingleUseLink :=
  mkLink (lr_id r) (lr_token r) (lr_file_path r) (lr_status r) (parseTimestamp (lr_expires_at r))
    (parseTimestamp <$> lr_used_at r) (lr_used_by_ip r) (lr_hmac_signature r)
    (parseTimestamp (lr_created_at r)) (parseTimestamp (lr_updated_at r)).

Definition GetSingleUseLink (token : string) (w : W) : Res SingleUseLink :=
  match db_Query db (get_link token) w with
  | inr e => Err (EWrap "failed to get single-use link" e)
  | inl None => Err ErrNotFound
  | inl (Some r) => Ok (scanLink r)
  end.

Definition stampLink (now : Time) (l : SingleUseLink) : SingleUseLink :=
  mkLink (lk_ID l) (lk_Token l) (lk_FilePath l) (lk_Status l) (lk_ExpiresAt l) (lk_UsedAt l) (lk_UsedByIP l)
    (lk_HMACSignature l) (orNow (lk_CreatedAt l) now) now.

Definition insertedLink (l : SingleUseLink) (id : Z) : link_row :=
  mkLinkRow id (lk_Token l) (lk_FilePath l) (lk_Status l) (FormatRFC3339Nano (lk_ExpiresAt l))
    (nullStringTime (lk_UsedAt l)) (nullString (lk_UsedByIP l)) (lk_HMACSignature l)
    (FormatRFC3339Nano (lk_CreatedAt l)) (FormatRFC3339Nano (lk_UpdatedAt l)).

(** [INSERT INTO single_use_links]: UNIQUE token. *)
Definition insert_link (l : SingleUseLink) : stmt Tables sqlerr Z := fun t =>
  let id := (links_seq t + 1)%Z in
  match get_link (lk_Token l) t with
  | Some _ => (t, inr (UniqueViolation "single_use_links.token"))
  | None => (set_links (single_use_links t ++ [insertedLink l id]) id t, inl id)
  end.

(** The id that the call writes back into [link] is not read by any caller. *)
Definition CreateSingleUseLink (now : Time) (link : SingleUseLink) : St W (Res unit) := fun w =>
  match db_Exec db (insert_link (stampLink now link)) w with
  | (w', inr err) => (w', Err (EWrap "failed to create single-use link" (sqlerr_error err)))
  | (w', inl _) => (w', Ok tt)
  end.

Definition activeToken (token : string) (r : link_row) : bool :=
  String.eqb (lr_token r) token && String.eqb (lr_status r) "active".

Definition usedLink (status : string) (usedAt : option Time) (usedByIP : option string) (now : Time)
    (r : link_row) : link_row :=
  mkLinkRow (lr_id r) (lr_token r) (lr_file_path r) status (lr_expires_at r) (nullStringTime usedAt)
    (nullString usedByIP) (lr_hmac_signature r) (lr_created_at r) (FormatRFC3339Nano now).

Definition update_link (token status : string) (usedAt : option Time) (usedByIP : option string)
    (now : Time) : stmt Tables sqlerr Z := fun t =>
  (set_links (update_where (activeToken token) (usedLink status usedAt usedByIP now)
         (single_use_links t)) (links_seq t) t,
       inl (rows_where (activeToken token) (single_use_links t))).

Definition UpdateSingleUseLink (now : Time) (token status : string) (usedAt : option Time)
    (usedByIP : option string) : St W (Res unit) := fun w =>
  let '(w', result) := db_Exec db (update_link token status usedAt usedByIP now) w in
  (w', affected "failed to update single-use link" result).

(** TEXT columns compare byte by byte; a comparison with NULL is not true. *)
Definition textBefore (a b : string) : bool :=
  match String.compare a b with Lt => true | _ => false end.

Definition expiredRow (before : Time) (r : link_row) : bool :=
  String.eqb (lr_status r) "active" && textBefore (lr_expires_at r) (FormatRFC3339Nano before).

Definition oldUsedRow (olderThan : Time) (r : link_row) : bool :=
  String.eqb (lr_status r) "used" &&
  match lr_used_at r with Some u => textBefore u (FormatRFC3339Nano olderThan) | None => false end.

Definition delete_links (where_ : link_row -> bool) : stmt Tables sqlerr Z := fun t =>
  (set_links (delete_where where_ (single_use_links t)) (links_seq t) t,
       inl (rows_where where_ (single_use_links t))).

Definition cleanup (msg : string) (where_ : link_row -> bool) : St W (Res Z) := fun w =>
  match db_Exec db (delete_links where_) w with
  | (w', inr err) => (w', Err (EWrap msg (sqlerr_error err)))
  | (w', inl n) => (w', res_wrap "failed to get rows affected" (db_RowsAffected db n))
  end.

Definition CleanupExpiredLinks (before : Time) : St W (Res Z) :=
  cleanup "failed to cleanup expired links" (expiredRow before).
Definition CleanupUsedLinks (olderThan : Time) : St W (Res Z) :=
  cleanup "failed to cleanup used links" (oldUsedRow olderThan).

(** *** Erasure metadata *)

(** [INSERT INTO erasure_profiles]: the path is the primary key. *)
Definition insert_profile (filePath : string) (info : ErasureFileInfo) : stmt Tables sqlerr unit := fun t =>
  match find_key pr_file_path filePath (erasure_profiles t) with
  | Some _ => (t, inr (UniqueViolation "erasure_profiles.file_path"))
  | None =>
      (set_erasure (erasure_profiles t ++ [mkProfileRow filePath (ei_DataShards info)
             (ei_ParityShards info) (ei_ShardSize info) (ei_OriginalSize info)]) (erasure_shards t) t, inl tt)
  end.

(** [INSERT INTO erasure_shards]: UNIQUE(file_path, shard_index). *)
Definition same_shard (filePath : string) (index : Z) (r : shard_row) : bool :=
  String.eqb (sh_file_path r) filePath && (si_Index (sh_info r) =? index)%Z.

Definition insert_shard (filePath : string) (shard : ErasureShardInfo) : stmt Tables sqlerr unit := fun t =>
  if List.existsb (same_shard filePath (si_Index shard)) (erasure_shards t)
  then (t, inr (UniqueViolation "erasure_shards.file_path, erasure_shards.shard_index"))
  else (set_erasure (erasure_profiles t) (erasure_shards t ++ [mkShardRow filePath shard]) t, inl tt).

Fixpoint insert_shards (filePath : string) (shards : list ErasureShardInfo) : stmt Tables gerr unit := fun t =>
  match shards with
  | [] => (t, inl tt)
  | shard :: rest =>
      match insert_shard filePath shard t with
      | (t', inr err) => (t', inr (EWrap "failed to insert erasure shard" (sqlerr_error err)))
      | (t', inl _) => insert_shards filePath rest t'
      end
  end.

(** The statements between [BeginTx] and [Commit]. *)
Definition insert_erasure (filePath : string) (info : ErasureFileInfo) : stmt Tables gerr unit := fun t =>
  match insert_profile filePath info t with
  | (t', inr err) => (t', inr (EWrap "failed to insert erasure profile" (sqlerr_error err)))
  | (t', inl _) => insert_shards filePath (ei_Shards info) t'
  end.

Definition in_tx {A} (s : stmt Tables gerr A) : St W (Res A) := fun w =>
  match db_BeginTx db w with
  | Some err => (w, Err (EWrap "failed to begin transaction" err))
  | None => db_Tx db s w
  end.

Definition CreateErasureInfo (filePath : string) (info : ErasureFileInfo) : St W (Res unit) :=
  in_tx (insert_erasure filePath info).

Definition shardLe (a b : ErasureShardInfo) : Prop := (si_Index a <= si_Index b)%Z.
#[global] Instance shardLe_dec : RelDecision shardLe.
Proof. intros a b. unfold shardLe. apply _. Defined.

Definition shard_of (filePath : string) (r : shard_row) : bool := String.eqb (sh_file_path r) filePath.

Definition select_shards (filePath : string) (t : Tables) : list ErasureShardInfo :=
  merge_sort shardLe (map sh_info (List.filter (shard_of filePath) (erasure_shards t))).

Definition GetErasureInfo (filePath : string) (w : W) : Res ErasureFileInfo :=
  match db_Query db (fun t => find_key pr_file_path filePath (erasure_profiles t)) w with
  | inr e => Err (EWrap "failed to get erasure profile" e)
  | inl None => Err ErrNotFound
  | inl (Some p) =>
      match db_Query db (select_shards filePath) w with
      | inr e => Err (EWrap "failed to query erasure shards" e)
      | inl shards =>
          Ok (mkErasureInfo (pr_file_path p) (pr_original_size p) (pr_data_shards p) (pr_parity_shards p)
                (pr_shard_size p) shards)
      end
  end.

Definition delete_erasure (filePath : string) : stmt Tables gerr unit := fun t =>
  (set_erasure (delete_where (fun r => String.eqb (pr_file_path r) filePath) (erasure_profiles t))
         (delete_where (shard_of filePath) (erasure_shards t)) t, inl tt).

Definition DeleteErasureInfo (filePath : string) : St W (Res unit) := in_tx (delete_erasure filePath).

End SQLiteStore.

(** [NewSQLiteStore]: opening, the ping and the two schema scripts. *)
Definition NewSQLiteStore {S : Type} (open : Res S) (ping schema erasureSchema : S -> option gerr) : Res S :=
  match open with
  | Err e => Err (EWrap "failed to open sqlite database" e)
  | Ok db =>
      match ping db with
      | Some e => Err (EWrap "failed to ping sqlite database" e)
      | None =>
          match schema db with
          | Some e => Err (EWrap "failed to initialize sqlite schema" e)
          | None =>
              match erasureSchema db with
              | Some e => Err (EWrap "failed to initialize erasure schema" e)
              | None => Ok db
              end
          end
      end
  end.

(** The store behind the interface of package metadata; [clock] is [time.Now]. *)
Definition sqliteStore {W} (db : SqlDB W Tables) (errorText : sqlerr -> string) (clock : W -> Time) : Store W :=
  mkStore W (Get db) (fun md w => Create db errorText (clock w) md w)
    (fun md w => Update db (clock w) md w) (Delete db) (ListChildren db) (GetSingleUseLink db)
    (fun l w => CreateSingleUseLink db (clock w) l w)
    (fun t s u ip w => UpdateSingleUseLink db (clock w) t s u ip w)
    (CleanupExpiredLinks db) (CleanupUsedLinks db).

End Sqlite.
