(* ===== verification/SqliteSpec.v ===== *)
(** * What the SQLite store promises

    The store implements the record contract ([RecordSpec]) but for the fields
    without a column; links are consumed once; the text of times makes the
    clean-up early by less than a second; which rows [ListChildren] finds. *)
From S2P Require Import Prelude GoStrings Metadata GoTime Sql Sqlite.
From Stdlib Require Import Ascii String.
Import GoTime Sql Sqlite.
Open Scope string_scope.
Open Scope bool_scope.

Module SqliteSpec.

(** The texts of the driver's errors: the one of a UNIQUE column names it. *)
Class SqliteText (errorText : sqlerr -> string) : Prop := {
  text_unique : forall c, Contains (errorText (UniqueViolation c)) ("UNIQUE constraint failed: " +:+ c) = true;
}.

(** The years that the text of a time can hold. *)
Definition textYear (t : Time) : Prop := (0 <= Year t <= 9999)%Z.

Lemma parseTimestamp_Format t : textYear t -> parseTimestamp (FormatRFC3339Nano t) = t.
Proof.
  intros Ht. unfold parseTimestamp. pose proof (ParseRFC3339Nano_Format t Ht) as E.
  destruct (String.eqb_spec (FormatRFC3339Nano t) "") as [H | _]; [by rewrite H in E | by rewrite E].
Qed.

(** The records the tables can hold: files and directories with times in the
    years of the format, the modification time among them. *)
Definition storable (now : Time) (md : Metadata) : Prop :=
  (md_Type md = "file" \/ md_Type md = "directory") /\ md_MTime md <> 0%Z /\
  textYear now /\ textYear (md_ATime md) /\ textYear (md_MTime md) /\ textYear (md_CTime md).

(** What Update writes of a record: not the identity of the row, nor the fields
    without a column. *)
Definition updatedRecord (old md : Metadata) : Metadata :=
  mkMetadata (md_ID old) (md_ParentID old) (md_Name old) (md_Path old) (md_Type old) (md_Size md) (md_Mode md)
    (md_UID md) (md_GID md) (md_ATime md) (md_MTime md) (md_CTime md) (md_BackendType md)
    false (md_CallFSInstanceID md) (md_SymlinkTarget md) (md_CreatedAt old) (md_UpdatedAt md).

Definition set_ErasureCoded (v : bool) (m : Metadata) : Metadata :=
  mkMetadata (md_ID m) (md_ParentID m) (md_Name m) (md_Path m) (md_Type m) (md_Size m) (md_Mode m)
    (md_UID m) (md_GID m) (md_ATime m) (md_MTime m) (md_CTime m) (md_BackendType m)
    v (md_CallFSInstanceID m) (md_SymlinkTarget m) (md_CreatedAt m) (md_UpdatedAt m).

Lemma orNow_year t now : textYear t -> textYear now -> textYear (orNow t now).
Proof. unfold orNow. by destruct (t =? 0)%Z. Qed.

Section Spec.
Context {W : Type} (db : SqlDB W Tables) (errorText : sqlerr -> string) (clock : W -> Time)
  (tables : W -> Tables) (up : W -> Prop) `{!SqlLaws db tables up} `{!SqliteText errorText}.

Definition serving (w : W) : Prop :=
  up w /\ unique in_path (inodes (tables w)) /\ unique lr_token (single_use_links (tables w)).

Definition records (w : W) : gmap string Metadata := rows_map in_path scanMetadataRow (inodes (tables w)).
Definition links (w : W) : gmap string SingleUseLink := rows_map lr_token scanLink (single_use_links (tables w)).

Lemma sqlite_affected_count msg n :
  affected db msg (inl n) = if (n =? 0)%Z then Err ErrNotFound else Ok tt.
Proof. unfold affected. by rewrite law_RowsAffected. Qed.

Lemma sqlite_rows_where_path p t : unique in_path t ->
  rows_where (path_is p) t = match find_key in_path p t with Some _ => 1 | None => 0 end%Z.
Proof.
  intros Hu. rewrite (rows_where_key in_path _ _ p Hu).
  - destruct (find_key in_path p t) as [r |] eqn:E; [| done]. apply find_key_Some in E as [_ <-].
    unfold path_is. by rewrite String.eqb_refl.
  - intros r _ Hr. unfold path_is in Hr. by to_prop.
Qed.

Lemma scan_inserted now md id : storable now md ->
  scanMetadataRow (insertedInode (stampCreate now md) id) = set_ErasureCoded false (set_ID id (stampCreate now md)).
Proof.
  intros (_ & _ & Hn & Ha & Hm & Hc). unfold scanMetadataRow, insertedInode, stampCreate, set_ErasureCoded, set_ID.
  cbn. by rewrite !parseTimestamp_Format by (done || by apply orNow_year).
Qed.

Lemma scan_updated now md r : storable now md ->
  scanMetadataRow (updatedInode (set_UpdatedAt now md) r) = updatedRecord (scanMetadataRow r) (set_UpdatedAt now md).
Proof.
  intros (_ & _ & Hn & Ha & Hm & Hc). unfold scanMetadataRow, updatedInode, updatedRecord, set_UpdatedAt.
  cbn. by rewrite !parseTimestamp_Format.
Qed.

Lemma same_file_stamp now md id : md_MTime md <> 0%Z -> same_file md (set_ID id (stampCreate now md)).
Proof.
  intros Hm. unfold same_file, stampCreate, set_ID, orNow. cbn. apply Z.eqb_neq in Hm. by rewrite Hm.
Qed.

Lemma sqlite_Create_refines now md w w' md' r :
  serving w -> storable now md -> Create db errorText now md w = (w', (md', r)) ->
  serving w' /\ links w' = links w /\
  match records w !! md_Path md with
  | Some _ => r = Err ErrAlreadyExists /\ records w' = records w
  | None => r = Ok tt /\ records w' = <[md_Path md := set_ErasureCoded false md']> (records w) /\ same_file md md'
  end.
Proof.
  intros (Hu & Hp & Hl) Hs. unfold Create, records. rewrite lookup_rows_map.
  set (md1 := stampCreate now md). change (md_Path md) with (md_Path md1).
  destruct (db_Exec db (insert_inode md1) w) as [w1 res] eqn:E. intros H.
  assert (Ht : negb (String.eqb (md_Type md1) "file" || String.eqb (md_Type md1) "directory") = false).
  { destruct Hs as [[Ht | Ht] _]; subst md1; cbn; by rewrite Ht. }
  destruct (find_key in_path (md_Path md1) (inodes (tables w))) as [row |] eqn:Ef.
  - eapply (exec_run db tables up) in E as (Hu1 & Ht1 & Er); [| done | unfold insert_inode, get_inode; by rewrite Ht, Ef]; subst res.
    rewrite (text_unique "inodes.path") in H. injection H as <- <- <-.
    unfold serving, links. by rewrite Ht1.
  - eapply (exec_run db tables up) in E as (Hu1 & Ht1 & Er); [| done | unfold insert_inode, get_inode; by rewrite Ht, Ef]; subst res.
    rewrite law_LastInsertId in H. injection H as <- <- <-.
    unfold serving, links. rewrite Ht1. cbn [set_inodes inodes single_use_links].
    split; [split; [done |]; split; [by apply unique_snoc | done] |]. split; [done |]. split; [done |].
    split; [| apply same_file_stamp, Hs].
    rewrite rows_map_snoc by done. unfold md1. by rewrite scan_inserted.
Qed.

Lemma sqlite_Update_refines now md w w' md' r :
  serving w -> storable now md -> Update db now md w = (w', (md', r)) ->
  serving w' /\ links w' = links w /\
  match records w !! md_Path md with
  | None => r = Err ErrNotFound /\ records w' = records w
  | Some old => r = Ok tt /\ records w' = <[md_Path md := updatedRecord old md']> (records w) /\ same_file md md'
  end.
Proof.
  intros (Hu & Hp & Hl) Hs. unfold Update, records. rewrite lookup_rows_map.
  set (md1 := set_UpdatedAt now md). change (md_Path md) with (md_Path md1).
  destruct (db_Exec db (update_inode md1) w) as [w1 res] eqn:E. intros H.
  eapply (exec_run db tables up) in E as (Hu1 & Ht1 & Er); [| done | done]; subst res.
  rewrite sqlite_affected_count, sqlite_rows_where_path in H by done. injection H as <- <- <-.
  unfold serving, links. rewrite Ht1. cbn [set_inodes inodes single_use_links].
  assert (Hk : forall r, in_path (updatedInode md1 r) = in_path r) by done.
  unfold path_is. rewrite (rows_map_update in_path _ _ _ _ Hk).
  split; [split; [done |]; split; [by apply update_where_unique | exact Hl] |].
  split; [done |]. change (md_Path md1) with (md_Path md).
  destruct (find_key in_path (md_Path md) (inodes (tables w))) as [row |]; [| done].
  split; [done |]. split; [unfold md1; by rewrite scan_updated | done].
Qed.

Lemma sqlite_Delete_refines p w w' r :
  serving w -> Delete db p w = (w', r) ->
  serving w' /\ links w' = links w /\
  match records w !! p with
  | None => r = Err ErrNotFound /\ records w' = records w
  | Some _ => r = Ok tt /\ records w' = delete p (records w)
  end.
Proof.
  intros (Hu & Hp & Hl). unfold Delete, records. rewrite lookup_rows_map.
  destruct (db_Exec db (delete_inode p) w) as [w1 res] eqn:E. intros H.
  eapply (exec_run db tables up) in E as (Hu1 & Ht1 & Er); [| done | done]; subst res.
  rewrite sqlite_affected_count, sqlite_rows_where_path in H by done. injection H as <- <-.
  unfold serving, links. rewrite Ht1. cbn [set_inodes inodes single_use_links]. unfold path_is.
  rewrite rows_map_delete by done.
  split; [split; [done |]; split; [by apply delete_where_unique | done] |]. split; [done |].
  destruct (find_key in_path p (inodes (tables w))) eqn:Ef; [done |].
  split; [done |]. apply delete_id. by rewrite lookup_rows_map, Ef.
Qed.

(** C16: The SQLite store implements the contract of the metadata records for the
    records its tables can hold: lookups, creations (with [ErrAlreadyExists]),
    updates and deletions (with [ErrNotFound]) are those of a finite map, except
    that the erasure flag has no column and that an update keeps the name, the
    type and the identity of the stored row. *)
Theorem sqlite_records_refine :
  RecordSpec (sqliteStore db errorText clock) records serving (fun _ => True)
    (fun md w => storable (clock w) md)
    (set_ErasureCoded false) (fun _ => updatedRecord).
Proof.
  split; cbn [sqliteStore st_Get st_Create st_Update st_Delete].
  - intros p w (Hu & _) _. unfold Get, records, get_inode. rewrite (law_Query _ _ w Hu), lookup_rows_map.
    by destruct (find_key in_path p (inodes (tables w))).
  - intros md w w' md' r Hw Hs E. by destruct (sqlite_Create_refines _ _ _ _ _ _ Hw Hs E) as (? & _ & ?).
  - intros md w w' md' r Hw Hs E. destruct (sqlite_Update_refines _ _ _ _ _ _ Hw Hs E) as (? & _ & ?).
    by destruct (records w !! md_Path md).
  - intros p w w' r Hw _ E. by destruct (sqlite_Delete_refines _ _ _ _ Hw E) as (? & _ & ?).
Qed.

End Spec.
(** ** Which rows [ListChildren] finds *)

Lemma replace_byte_other s c t : Contains s (String c "") = false -> replace_byte s c t = s.
Proof.
  induction s as [| x s IH]; [done |]. rewrite Contains_char. intros H. to_prop. cbn.
  rewrite Ascii.eqb_sym, H, IH by done. done.
Qed.

Lemma Contains_replace s c t d :
  Contains s (String d "") = true -> d <> c -> Contains (replace_byte s c t) (String d "") = true.
Proof.
  intros H Hne. induction s as [| x s IH]; [done |]. rewrite Contains_char in H. cbn [replace_byte].
  rewrite Contains_char_app. destruct (Ascii.eqb_spec d x) as [<- | E].
  - apply Ascii.eqb_neq in Hne as ->. rewrite Contains_char, Ascii.eqb_refl. done.
  - cbn [orb] in H. by rewrite (IH H), orb_true_r.
Qed.

Lemma Contains_replaced s c t d :
  Contains s (String c "") = true -> Contains t (String d "") = true ->
  Contains (replace_byte s c t) (String d "") = true.
Proof.
  intros Hs Ht. induction s as [| x s IH]; [done |]. rewrite Contains_char in Hs. cbn [replace_byte].
  rewrite Contains_char_app. destruct (Ascii.eqb_spec c x) as [<- | E].
  - rewrite Ascii.eqb_refl, Ht. done.
  - cbn [orb] in Hs. by rewrite (IH Hs), orb_true_r.
Qed.

Lemma plainText_Contains p :
  plainText p = negb (Contains p "%" || Contains p "_").
Proof.
  induction p as [| c p IH]; [done |]. cbn [plainText]. rewrite IH, !Contains_char, (Ascii.eqb_sym c "%"), (Ascii.eqb_sym c "_").
  by destruct (Ascii.eqb "%" c), (Ascii.eqb "_" c), (Contains p "%"), (Contains p "_").
Qed.

Lemma escape_plain p : plainText p = true -> escapeLikePattern p = p.
Proof.
  rewrite plainText_Contains. intros H. to_prop. unfold escapeLikePattern.
  by rewrite (replace_byte_other p "%"), replace_byte_other.
Qed.

Lemma escape_meta p : plainText p = false -> Contains (escapeLikePattern p) "\" = true.
Proof.
  rewrite plainText_Contains. intros H. apply negb_false_iff, orb_true_iff in H. unfold escapeLikePattern.
  destruct (Contains p "%") eqn:E.
  - apply Contains_replace; [| done]. by apply Contains_replaced.
  - destruct H as [H | H]; [done |]. apply Contains_replaced; [| done]. by rewrite replace_byte_other.
Qed.

(** The WHERE clause of a directory without metacharacters: up to case, the path
    is the directory, a slash, and a text without slash. *)
Lemma childOf_plain p r : plainText p = true ->
  childOf p r = match strip lower_byte p (in_path r) with
                | Some (String c t) => Ascii.eqb "/" c && negb (Contains t "/")
                | _ => false
                end.
Proof.
  intros Hp. unfold childOf, sqliteLike. rewrite escape_plain, !like_plain by done.
  destruct (strip lower_byte p (in_path r)) as [x |]; [| done].
  rewrite like_slash_percent by (done || apply lower_slash).
  rewrite like_slash_percent_slash by (done || apply lower_slash).
  destruct x as [| c t]; [done |].
  change (HasPrefix (String c t) "/") with (Ascii.eqb "/" c && HasPrefix t ""). rewrite HasPrefix_nil, andb_true_r.
  by destruct (Ascii.eqb "/" c).
Qed.

(** With a metacharacter the backslash of the escape is a literal. *)
Lemma childOf_meta p r :
  plainText p = false -> Contains (in_path r) "\" = false -> childOf p r = false.
Proof.
  intros Hp Hr. unfold childOf. apply andb_false_iff. left.
  destruct (sqliteLike (escapeLikePattern p +:+ "/%") (in_path r)) eqn:E; [| done].
  apply (like_literal lower_byte _ _ "\"%char) in E; [by rewrite Hr in E | done | done | |].
  - intros x Hx. symmetry in Hx. apply lower_byte_inv; [by rewrite Hx | vm_compute; by left].
  - by rewrite Contains_char_app, escape_meta.
Qed.

Lemma sqlite_childOfRoot_iff r : absolute (in_path r) ->
  childOfRoot r = true <-> in_path r <> "/" /\ pathDir (in_path r) = "/".
Proof.
  intros Ha. rewrite pathDir_root by done. destruct Ha as (t & Ht & Hp). unfold childOfRoot. rewrite Ht.
  unfold sqliteLike. rewrite like_slash_percent by (done || apply lower_slash).
  change (HasPrefix (String "/" t) "/") with (HasPrefix t ""). rewrite HasPrefix_nil. cbn [andb substr2].
  change (skipChar "/" t) with t. rewrite andb_true_iff, !negb_true_iff, String.eqb_neq. split.
  - intros [H1 H2]. split; [done |]. exists t. split; [done |]. unfold no_slash. by rewrite H1.
  - intros [H1 (n & [= <-] & Hn)]. unfold no_slash in Hn. by to_prop.
Qed.

Section List_.
Context {W : Type} (db : SqlDB W Tables) (tables : W -> Tables) (up : W -> Prop) `{!SqlLaws db tables up}.

Lemma sqlite_ListChildren_elem p w : serving tables up w ->
  exists l, ListChildren db p w = Ok l /\
    forall md, md ∈ l <-> exists r, r ∈ inodes (tables w) /\ md = scanMetadataRow r /\
      (if String.eqb p "/" then childOfRoot r else childOf p r) = true.
Proof.
  intros (Hu & _). unfold ListChildren. rewrite (law_Query _ _ w Hu). eexists. split; [done |].
  intros md. unfold select_children. rewrite list_elem_of_fmap. split.
  - intros (r & -> & Hr). exists r. rewrite merge_sort_Permutation, list_elem_of_In, filter_In in Hr.
    rewrite list_elem_of_In. destruct Hr. by destruct (String.eqb p "/").
  - intros (r & Hr & -> & Hc). exists r. split; [done |].
    rewrite merge_sort_Permutation, list_elem_of_In, filter_In. rewrite list_elem_of_In in Hr.
    by destruct (String.eqb p "/").
Qed.

(** No stored path lies below a directory whose path differs from [p] in case
    only. *)
Definition case_distinct (p : string) (w : W) : Prop :=
  forall r t, r ∈ inodes (tables w) -> ToLower (in_path r) = ToLower (p +:+ "/") +:+ t ->
    HasPrefix (in_path r) (p +:+ "/") = true.

Lemma sqlite_childOf_iff p w r :
  plainText p = true -> p <> "" -> p <> "/" -> case_distinct p w -> r ∈ inodes (tables w) ->
  childOf p r = true <-> pathDir (in_path r) = p.
Proof.
  intros Hp H0 H1 Hc Hr. rewrite childOf_plain, pathDir_iff by done. split.
  - destruct (strip lower_byte p (in_path r)) as [[| c t] |] eqn:E; try done. intros H. to_prop.
    apply Ascii.eqb_eq in H as <-. apply strip_lower in E.
    assert (Hl : ToLower (in_path r) = ToLower (p +:+ "/") +:+ ToLower t).
    { by rewrite E, ToLower_app, <- str_app_assoc. }
    pose proof (Hc r _ Hr Hl) as Hpre. apply HasPrefix_inv in Hpre as (t' & Ht').
    exists t'. split; [done |].
    assert (Es : ToLower t' = ToLower t).
    { rewrite Ht', ToLower_app in Hl. by apply str_app_inj_l in Hl. }
    unfold no_slash. by rewrite <- Contains_lower_slash, Es, Contains_lower_slash, H2.
  - intros (n & -> & Hn). rewrite <- str_app_assoc, strip_refl. exact Hn.
Qed.

(** ListChildren of the SQLite store keeps the contract for the root and for
    a directory whose path has none of the LIKE metacharacters, when no other
    directory has the same path up to case: it answers exactly the records whose
    parent is the directory. *)
Theorem sqlite_list_children p w :
  serving tables up w -> p <> "" ->
  (forall r, r ∈ inodes (tables w) -> absolute (in_path r)) ->
  (p = "/" \/ (plainText p = true /\ case_distinct p w)) ->
  exists l, ListChildren db p w = Ok l /\
    forall md, md ∈ l <->
      exists q, records tables w !! q = Some md /\ md_Path md <> "/" /\ pathDir (md_Path md) = p.
Proof.
  intros Hs Hp0 Ha Hp. destruct (sqlite_ListChildren_elem p w Hs) as (l & El & Hl). exists l. split; [done |].
  destruct Hs as (_ & Hu & _). intros md. rewrite Hl. unfold records. split.
  - intros (r & Hr & -> & Hc). exists (in_path r). rewrite lookup_rows_map, (find_key_In _ _ _ Hu Hr).
    split; [done |]. cbn [scanMetadataRow md_Path]. destruct (String.eqb_spec p "/") as [-> | Hne].
    + by apply sqlite_childOfRoot_iff in Hc; [| apply Ha].
    + destruct Hp as [-> | [Hp Hcd]]; [done |]. apply (sqlite_childOf_iff p w r) in Hc; try done.
      split; [| done]. intros E. by rewrite E in Hc.
  - intros (q & Hq & Hne & Hd). rewrite lookup_rows_map in Hq.
    destruct (find_key in_path q (inodes (tables w))) as [r |] eqn:E; [| done]. injection Hq as <-.
    apply find_key_Some in E as [Hr _]. exists r. split; [done |]. split; [done |].
    cbn [scanMetadataRow md_Path] in Hne, Hd. destruct (String.eqb_spec p "/") as [-> | Hne'].
    + by apply sqlite_childOfRoot_iff; [apply Ha |].
    + destruct Hp as [-> | [Hp Hcd]]; [done |]. by apply (sqlite_childOf_iff p w r).
Qed.

(** The escapes that ListChildren puts before the metacharacters are literal
    backslashes for SQLite, which has no default escape character: a directory
    with an underscore or a percent sign in its path lists nothing, whatever it
    contains. *)
Theorem sqlite_list_metachar_empty p w :
  serving tables up w -> plainText p = false ->
  (forall r, r ∈ inodes (tables w) -> Contains (in_path r) "\" = false) ->
  ListChildren db p w = Ok [].
Proof.
  intros Hs Hp Hb. destruct (sqlite_ListChildren_elem p w Hs) as (l & -> & Hl). f_equal.
  destruct l as [| md l]; [done |]. exfalso.
  destruct (proj1 (Hl md) (list_elem_of_here _ _)) as (r & Hr & _ & Hc).
  destruct (String.eqb_spec p "/") as [-> | _]; [done |].
  rewrite childOf_meta in Hc; [done | done | by apply Hb].
Qed.
End List_.

(** ** Single-use links *)
Section Links_.
Context {W : Type} (db : SqlDB W Tables) (tables : W -> Tables) (up : W -> Prop) `{!SqlLaws db tables up}.
Local Abbreviation serving := (serving tables up).
Local Abbreviation links := (links tables).
Local Abbreviation records := (records tables).

Lemma sqlite_rows_where_active t rows : unique lr_token rows ->
  rows_where (activeToken t) rows =
    match find_key lr_token t rows with
    | Some r => if String.eqb (lr_status r) "active" then 1 else 0
    | None => 0
    end%Z.
Proof.
  intros Hu. rewrite (rows_where_key lr_token _ _ t Hu).
  - destruct (find_key lr_token t rows) as [r |] eqn:E; [| done]. apply find_key_Some in E as [_ <-].
    unfold activeToken. by rewrite String.eqb_refl.
  - intros r _ Hr. unfold activeToken in Hr. by to_prop.
Qed.

(** A link is used up at most once: the update is a compare-and-set on the
    status, as the contract of the store asks. *)
Lemma sqlite_update_link now t st ua ip w w' r :
  serving w -> (forall u, ua = Some u -> textYear u) ->
  UpdateSingleUseLink db now t st ua ip w = (w', r) ->
  serving w' /\ records w' = records w /\
  match links w !! t with
  | Some l =>
      if String.eqb (lk_Status l) "active" then
        r = Ok tt /\ exists l', links w' = <[t := l']> (links w)
          /\ lk_Status l' = st /\ lk_UsedAt l' = ua /\ lk_UsedByIP l' = ip
          /\ lk_FilePath l' = lk_FilePath l /\ lk_ExpiresAt l' = lk_ExpiresAt l
      else r = Err ErrNotFound /\ links w' = links w
  | None => r = Err ErrNotFound /\ links w' = links w
  end.
Proof.
  intros (Hu & Hp & Hl) Hua. unfold UpdateSingleUseLink.
  destruct (db_Exec db (update_link t st ua ip now) w) as [w1 res] eqn:E. intros H.
  eapply (exec_run db tables up) in E as (Hu1 & Ht1 & Er); [| done | done]; subst res.
  rewrite (sqlite_affected_count db tables up), sqlite_rows_where_active in H by done. injection H as <- <-.
  unfold SqliteSpec.serving, SqliteSpec.links, SqliteSpec.records. rewrite Ht1.
  cbn [set_links inodes single_use_links].
  set (f := usedLink st ua ip now).
  assert (Hk : forall x, lr_token (f x) = lr_token x) by done.
  split; [split; [done |]; split; [done | by apply update_where_unique] |]. split; [done |].
  rewrite lookup_rows_map.
  rewrite (rows_map_update_if lr_token scanLink _ t f) by (done || (intros x Hx; unfold activeToken in Hx; by to_prop)).
  destruct (find_key lr_token t (single_use_links (tables w))) as [x |] eqn:Ex; [| done].
  assert (Ea : activeToken t x = String.eqb (lr_status x) "active").
  { apply find_key_Some in Ex as [_ <-]. unfold activeToken. by rewrite String.eqb_refl. }
  rewrite Ea.
  cbn [option_fmap option_map fmap scanLink lk_Status].
  destruct (String.eqb (lr_status x) "active"); [| done]. split; [done |].
  exists (scanLink (f x)). split; [done |]. split; [done |]. split; [| done]. cbn.
  destruct ua as [u |]; [| done]. cbn. by rewrite parseTimestamp_Format by by apply Hua.
Qed.

(** The expiry texts were written by the store. *)
Definition expiry_texts (w : W) : Prop :=
  forall r, r ∈ single_use_links (tables w) ->
    exists e, textYear e /\ lr_expires_at r = FormatRFC3339Nano e.

Lemma textBefore_secs a b :
  textYear a -> textYear b -> textBefore (FormatRFC3339Nano a) (FormatRFC3339Nano b) = true ->
  (secsOf a <= secsOf b)%Z.
Proof.
  intros Ha Hb H. destruct (Z.le_gt_cases (secsOf a) (secsOf b)) as [| Hlt]; [done |].
  unfold textBefore in H. rewrite String.compare_antisym in H.
  by rewrite (Format_lt b a Hb Ha Hlt) in H.
Qed.

Lemma secs_textBefore a b :
  textYear a -> textYear b -> (secsOf a < secsOf b)%Z ->
  textBefore (FormatRFC3339Nano a) (FormatRFC3339Nano b) = true.
Proof. intros Ha Hb H. unfold textBefore. by rewrite Format_lt. Qed.

(** The clean-up of expired links compares the RFC 3339 texts of the times:
    it removes active links only, leaves all other links as they are, and is
    exact but for fractions of the second: no removed link expires a second or
    more after the given time, and every active link that expired a second
    before it is removed. *)
Theorem sqlite_cleanup_expired before w w' r :
  serving w -> expiry_texts w -> textYear before -> CleanupExpiredLinks db before w = (w', r) ->
  serving w' /\ records w' = records w /\
  forall t l, links w !! t = Some l ->
    (links w' !! t = Some l \/
     (links w' !! t = None /\ lk_Status l = "active" /\ (lk_ExpiresAt l < before + Second)%Z)) /\
    (lk_Status l = "active" -> (lk_ExpiresAt l + Second <= before)%Z -> links w' !! t = None).
Proof.
  intros (Hu & Hp & Hl) Hx Hb. unfold CleanupExpiredLinks, cleanup.
  destruct (db_Exec db (delete_links (expiredRow before)) w) as [w1 res] eqn:E. intros H.
  eapply (exec_run db tables up) in E as (Hu1 & Ht1 & Er); [| done | done]; subst res. injection H as <- <-.
  unfold SqliteSpec.serving, SqliteSpec.links, SqliteSpec.records. rewrite Ht1.
  cbn [set_links inodes single_use_links].
  split; [split; [done |]; split; [done | by apply delete_where_unique] |]. split; [done |].
  intros t l. rewrite !lookup_rows_map, find_delete_where by done.
  destruct (find_key lr_token t (single_use_links (tables w))) as [x |] eqn:Ex; [| done].
  cbn. intros [= <-]. apply find_key_Some in Ex as [Hin _]. destruct (Hx x Hin) as (e & He & Ee).
  cbn [scanLink lk_Status lk_ExpiresAt]. unfold expiredRow. rewrite Ee, parseTimestamp_Format by done.
  assert (Hsec : forall a, (a = secsOf a * Second + nanosOf a)%Z /\ (0 <= nanosOf a < Second)%Z).
  { intros a. unfold secsOf, nanosOf. split; [pose proof (Z.div_mod a Second ltac:(done)); lia |].
    apply Z.mod_pos_bound. done. }
  destruct (Hsec e) as [Ese Hne], (Hsec before) as [Esb Hnb]. unfold Second in *.
  destruct (String.eqb_spec (lr_status x) "active") as [Ha | Ha]; cbn [andb].
  - destruct (textBefore (FormatRFC3339Nano e) (FormatRFC3339Nano before)) eqn:Et; cbn.
    + split; [| done]. right. split; [done |]. split; [done |].
      apply textBefore_secs in Et; [| done | done]. lia.
    + split; [by left |]. intros _ Hle. rewrite secs_textBefore in Et by (done || lia). done.
  - split; [by left | done].
Qed.
End Links_.

(** ** Concrete runs: a database whose world is its tables *)

Definition sampleText (e : sqlerr) : string :=
  match e with UniqueViolation c => "UNIQUE constraint failed: " +:+ c | Violation c => c | DriverError _ => "driver" end.

#[global] Instance sampleText_ok : SqliteText sampleText.
Proof.
  split. intros c. cbn [sampleText]. generalize ("UNIQUE constraint failed: " +:+ c). intros s.
  assert (H : HasPrefix s s = true) by (rewrite <- (str_app_nil_r s) at 1; apply HasPrefix_app).
  destruct s; [done |]. cbn [Contains]. by rewrite H.
Qed.

Definition noon : Time := mkTime 2024 5 1 12 0 0 0.
Definition sample_inode (id : Z) (name path type : string) : inode :=
  mkInode id None name path type 0 "0755" 0 0 "2024-05-01T12:00:00Z" "2024-05-01T12:00:00Z"
    "2024-05-01T12:00:00Z" "localfs" (Some "srv") None "2024-05-01T12:00:00Z" "2024-05-01T12:00:00Z".
Definition sample_link (token expires : string) : link_row :=
  mkLinkRow 1 token "/docs/f" "active" expires None None "sig" "2024-05-01T11:00:00Z" "2024-05-01T11:00:00Z".
Definition sample_tables : Tables :=
  mkTables [sample_inode 1 "/" "/" "directory"; sample_inode 2 "docs" "/docs" "directory";
            sample_inode 3 "f" "/docs/f" "file"; sample_inode 4 "my_dir" "/my_dir" "directory";
            sample_inode 5 "g" "/my_dir/g" "file"] 5
    [sample_link "t1" "2024-05-01T12:00:00.5Z"; sample_link "t2" "2024-05-01T12:00:01Z"] 2 [] [].

Lemma sample_unique_paths : unique in_path (inodes sample_tables).
Proof. unfold unique. apply (bool_decide_eq_true_1 _). vm_compute. reflexivity. Qed.
Lemma sample_unique_tokens : unique lr_token (single_use_links sample_tables).
Proof. unfold unique. apply (bool_decide_eq_true_1 _). vm_compute. reflexivity. Qed.
Lemma sqlite_sample_serving : serving id (fun _ => True) sample_tables.
Proof. split; [done |]. split; [apply sample_unique_paths | apply sample_unique_tokens]. Qed.

Lemma sqlite_records_refine_witness :
  SqlLaws (tableDB Tables) id (fun _ => True) /\ SqliteText sampleText /\
  RecordSpec (sqliteStore (tableDB Tables) sampleText (fun _ => noon)) (records id) (serving id (fun _ => True))
    (fun _ => True) (fun md _ => storable noon md) (set_ErasureCoded false) (fun _ => updatedRecord).
Proof.
  split; [apply tableDB_laws |]. split; [apply sampleText_ok |].
  exact (sqlite_records_refine (tableDB Tables) sampleText (fun _ => noon) id (fun _ => True)).
Defined.

Lemma sample_absolute r : r ∈ inodes sample_tables -> absolute (in_path r).
Proof.
  intros Hr. cbn in Hr.
  repeat (apply elem_of_cons in Hr as [-> | Hr]; [eexists; split; reflexivity |]). by apply elem_of_nil in Hr.
Qed.

Lemma sample_case_distinct : case_distinct id "/docs" sample_tables.
Proof.
  intros r t Hr. cbn in Hr.
  repeat (apply elem_of_cons in Hr as [-> | Hr]; [done |]). by apply elem_of_nil in Hr.
Qed.

Lemma sqlite_list_children_witness :
  exists l, ListChildren (tableDB Tables) "/docs" sample_tables = Ok l /\
    forall md, md ∈ l <->
      exists q, records id sample_tables !! q = Some md /\ md_Path md <> "/" /\ pathDir (md_Path md) = "/docs".
Proof.
  refine (sqlite_list_children (tableDB Tables) id (fun _ => True) "/docs" sample_tables _ _ _ _).
  - exact sqlite_sample_serving.
  - discriminate.
  - exact sample_absolute.
  - right. split; [reflexivity | exact sample_case_distinct].
Defined.

Example sqlite_list_docs :
  res_bind (ListChildren (tableDB Tables) "/docs" sample_tables) (fun l => Ok (map md_Path l)) = Ok ["/docs/f"].
Proof. vm_compute. reflexivity. Qed.

Lemma sqlite_list_metachar_empty_witness :
  ListChildren (tableDB Tables) "/my_dir" sample_tables = Ok [].
Proof.
  refine (sqlite_list_metachar_empty (tableDB Tables) id (fun _ => True) "/my_dir" sample_tables _ _ _).
  - exact sqlite_sample_serving.
  - reflexivity.
  - intros r Hr. cbn in Hr.
    repeat (apply elem_of_cons in Hr as [-> | Hr]; [reflexivity |]). by apply elem_of_nil in Hr.
Defined.

Lemma sample_texts : expiry_texts id sample_tables.
Proof.
  intros r Hr. cbn in Hr.
  apply elem_of_cons in Hr as [-> | Hr]; [exists (mkTime 2024 5 1 12 0 0 500000000); split; [vm_compute; split; discriminate | reflexivity] |].
  apply elem_of_cons in Hr as [-> | Hr]; [exists (mkTime 2024 5 1 12 0 1 0); split; [vm_compute; split; discriminate | reflexivity] |].
  by apply elem_of_nil in Hr.
Qed.

Lemma sqlite_cleanup_expired_witness :
  let w' := (CleanupExpiredLinks (tableDB Tables) noon sample_tables).1 in
  serving id (fun _ => True) w' /\ records id w' = records id sample_tables /\
  forall t l, links id sample_tables !! t = Some l ->
    (links id w' !! t = Some l \/
     (links id w' !! t = None /\ lk_Status l = "active" /\ (lk_ExpiresAt l < noon + Second)%Z)) /\
    (lk_Status l = "active" -> (lk_ExpiresAt l + Second <= noon)%Z -> links id w' !! t = None).
Proof.
  refine (sqlite_cleanup_expired (tableDB Tables) id (fun _ => True) noon sample_tables _
            (CleanupExpiredLinks (tableDB Tables) noon sample_tables).2 _ _ _ _).
  - exact sqlite_sample_serving.
  - exact sample_texts.
  - vm_compute. split; discriminate.
  - apply surjective_pairing.
Defined.

(** A link that expires half a second after the given time is removed. *)
Example sqlite_cleanup_early :
  map lr_token (single_use_links (CleanupExpiredLinks (tableDB Tables) noon sample_tables).1) = ["t2"].
Proof. vm_compute. reflexivity. Qed.

End SqliteSpec.
