(* ===== verification/Postgres.v ===== *)
(** * The PostgreSQL metadata store: metadata/postgres, metadata/schema

    The tables after both migrations, with their constraints, defaults, triggers
    and the cascading foreign key; the statements as functions on them; and the
    operations of [PostgresStore].  The columns of [inodes] are the fields of
    [Metadata], with [erasure_coded] among them, and those of [single_use_links]
    the fields of [SingleUseLink]. *)
From S2P Require Import Prelude GoStrings Metadata Sql.
From Stdlib Require Import Ascii String.
Import Sql.
Open Scope string_scope.
Open Scope bool_scope.

Module Postgres.

(** What the server makes of the values it is given: the rounding of a time to
    microseconds, the canonical text of an address (none for a text that is no
    address), the texts it accepts (valid UTF-8 without NUL), the collation. *)
Record PgTypes := mkPgTypes {
  pg_timestamp : Time -> Time;
  pg_inet : string -> option string;
  pg_valid : string -> bool;
  pg_collate : string -> string -> bool;
}.

Class PgLaws (ty : PgTypes) : Prop := {
  law_timestamp_idem : forall t, pg_timestamp ty (pg_timestamp ty t) = pg_timestamp ty t;
  law_timestamp_mono : forall t u, (t <= u)%Z -> (pg_timestamp ty t <= pg_timestamp ty u)%Z;
  law_inet_idem : forall s a, pg_inet ty s = Some a -> pg_inet ty a = Some a;
}.

Record Tables := mkTables {
  inodes : list Metadata;
  inodes_id_seq : Z;
  single_use_links : list SingleUseLink;
  links_id_seq : Z;
  erasure_profiles : list ErasureFileInfo;
  erasure_shards : list (string * ErasureShardInfo);
}.

Definition set_inodes (l : list Metadata) (n : Z) (t : Tables) : Tables :=
  mkTables l n (single_use_links t) (links_id_seq t) (erasure_profiles t) (erasure_shards t).
Definition set_links (l : list SingleUseLink) (n : Z) (t : Tables) : Tables :=
  mkTables (inodes t) (inodes_id_seq t) l n (erasure_profiles t) (erasure_shards t).
Definition set_erasure (p : list ErasureFileInfo) (s : list (string * ErasureShardInfo)) (t : Tables) : Tables :=
  mkTables (inodes t) (inodes_id_seq t) (single_use_links t) (links_id_seq t) p s.

(** ** Types and constraints of the columns *)

(** [VARCHAR(n)] counts characters. *)
Definition varchar (n : nat) (s : string) : bool := Nat.leb (List.length (runes s)) n.
Definition opt_all (f : string -> bool) (o : option string) : bool :=
  match o with Some s => f s | None => true end.
Definition int32 (z : Z) : bool := (-2147483648 <=? z)%Z && (z <=? 2147483647)%Z.

Section Server.
Context (ty : PgTypes).

(** The server converts the parameters of a statement before it runs it: a text
    must be valid, an integer in the range of its type. *)
Definition bound (texts : list string) (ints : list Z) : bool := forallb (pg_valid ty) texts && forallb int32 ints.
Definition invalidParameter : string := "invalid parameter".
Definition with_params {A} (texts : list string) (ints : list Z) (s : stmt Tables sqlerr A) : stmt Tables sqlerr A := fun t =>
  if bound texts ints then s t else (t, inr (Violation invalidParameter)).

(** The columns that an UPDATE of an inode can write. *)
Definition inode_values_ok (r : Metadata) : bool :=
  varchar 10 (md_Mode r) && varchar 50 (md_BackendType r)
  && (String.eqb (md_BackendType r) "localfs" || String.eqb (md_BackendType r) "s3")
  && opt_all (varchar 100) (md_CallFSInstanceID r).

Definition inode_ok (r : Metadata) : bool :=
  inode_values_ok r && varchar 255 (md_Name r) && varchar 20 (md_Type r)
  && (String.eqb (md_Type r) "file" || String.eqb (md_Type r) "directory").

Definition link_status_ok (s : string) : bool :=
  String.eqb s "active" || String.eqb s "used" || String.eqb s "expired".

Definition link_ok (l : SingleUseLink) : bool :=
  varchar 255 (lk_Token l) && varchar 20 (lk_Status l) && link_status_ok (lk_Status l)
  && varchar 512 (lk_HMACSignature l).

Definition get_inode (path : string) (t : Tables) : option Metadata := find_key md_Path path (inodes t).

(** ** Statements on [inodes] *)

(** The row of [_SQL_CREATE_INODE]; the columns that it does not name have
    their defaults. *)
Definition insertedInode (md : Metadata) (now : Time) (id : Z) : Metadata :=
  mkMetadata id (md_ParentID md) (md_Name md) (md_Path md) (md_Type md) (md_Size md) (md_Mode md)
    (md_UID md) (md_GID md) (pg_timestamp ty (md_ATime md)) (pg_timestamp ty (md_MTime md))
    (pg_timestamp ty (md_CTime md)) (md_BackendType md) false (md_CallFSInstanceID md)
    (md_SymlinkTarget md) (pg_timestamp ty now) (pg_timestamp ty now).

(** parent_id REFERENCES inodes(id). *)
Definition parent_exists (parent : option Z) (rows : list Metadata) : bool :=
  match parent with
  | None => true
  | Some id => List.existsb (fun r => (md_ID r =? id)%Z) rows
  end.

Definition id_taken (id : Z) (rows : list Metadata) : bool := List.existsb (fun r => (md_ID r =? id)%Z) rows.

(** The parameters of [_SQL_CREATE_INODE] and [_SQL_UPDATE_INODE]. *)
Definition insertTexts (md : Metadata) : list string :=
  ([md_Name md; md_Path md; md_Type md; md_Mode md; md_BackendType md] ++
   option_list (md_CallFSInstanceID md) ++ option_list (md_SymlinkTarget md))%list.
Definition updateTexts (md : Metadata) : list string :=
  ([md_Mode md; md_BackendType md] ++ option_list (md_CallFSInstanceID md) ++ option_list (md_SymlinkTarget md) ++
   [md_Path md])%list.

(** The default of the id takes the next value of the sequence, also when the
    insert fails; the id is the primary key. *)
Definition insert_inode (md : Metadata) (now : Time) : stmt Tables sqlerr Metadata :=
  with_params (insertTexts md) [md_UID md; md_GID md] (fun t =>
  let id := (inodes_id_seq t + 1)%Z in
  let t' := set_inodes (inodes t) id t in
  let row := insertedInode md now id in
  if negb (inode_ok row) then (t', inr (Violation "inodes"))
  else if id_taken id (inodes t) then (t', inr (UniqueViolation "inodes_pkey"))
  else match get_inode (md_Path md) t with
       | Some _ => (t', inr (UniqueViolation "inodes_path_key"))
       | None =>
           if negb (parent_exists (md_ParentID md) (inodes t ++ [row]))
           then (t', inr (Violation "inodes_parent_id_fkey"))
           else (set_inodes (inodes t ++ [row]) id t, inl row)
       end).

(** [_SQL_UPDATE_INODE] and the trigger on [updated_at]. *)
Definition updatedInode (md : Metadata) (now : Time) (r : Metadata) : Metadata :=
  mkMetadata (md_ID r) (md_ParentID r) (md_Name r) (md_Path r) (md_Type r) (md_Size md) (md_Mode md)
    (md_UID md) (md_GID md) (pg_timestamp ty (md_ATime md)) (pg_timestamp ty (md_MTime md))
    (pg_timestamp ty (md_CTime md)) (md_BackendType md) (md_ErasureCoded r) (md_CallFSInstanceID md)
    (md_SymlinkTarget md) (md_CreatedAt r) (pg_timestamp ty now).

Definition path_is (path : string) (r : Metadata) : bool := String.eqb (md_Path r) path.

Definition update_inode (md : Metadata) (now : Time) : stmt Tables sqlerr Z :=
  with_params (updateTexts md) [md_UID md; md_GID md] (fun t =>
  let n := rows_where (path_is (md_Path md)) (inodes t) in
  if (0 <? n)%Z && negb (inode_values_ok md) then (t, inr (Violation "inodes"))
  else (set_inodes (update_where (path_is (md_Path md)) (updatedInode md now) (inodes t))
              (inodes_id_seq t) t, inl n)).

(** ON DELETE CASCADE: the rows whose parent is deleted go too. *)
Definition orphaned (gone : list Metadata) (r : Metadata) : bool :=
  match md_ParentID r with
  | Some id => List.existsb (fun g => (md_ID g =? id)%Z) gone
  | None => false
  end.

Fixpoint cascade (fuel : nat) (gone rows : list Metadata) : list Metadata :=
  match fuel with
  | O => rows
  | S fuel' =>
      match List.filter (orphaned gone) rows with
      | [] => rows
      | next => cascade fuel' next (delete_where (orphaned gone) rows)
      end
  end.

Definition delete_inode (path : string) : stmt Tables sqlerr Z := with_params [path] [] (fun t =>
  let gone := List.filter (path_is path) (inodes t) in
  (set_inodes (cascade (List.length (inodes t)) gone (delete_where (path_is path) (inodes t)))
         (inodes_id_seq t) t,
       inl (rows_where (path_is path) (inodes t)))).

Definition escapeLikePattern (s : string) : string :=
  let s := replace_byte s "%" "\%" in
  replace_byte s "_" "\_".

Definition childOfRoot (r : Metadata) : bool :=
  pgLike "/%" (md_Path r) && negb (pgLike "/%/%" (md_Path r)) && negb (String.eqb (md_Path r) "/").

Definition childOf (parentPath : string) (r : Metadata) : bool :=
  let escapedPath := escapeLikePattern parentPath in
  pgLike (escapedPath +:+ "/%") (md_Path r) && negb (pgLike (escapedPath +:+ "/%/%") (md_Path r)).

(** [ORDER BY type DESC, name ASC] in the collation of the database. *)
Definition inodeLe (a b : Metadata) : Prop :=
  pg_collate ty (md_Type a) (md_Type b) = false \/
  (md_Type a = md_Type b /\ pg_collate ty (md_Name a) (md_Name b) = true).
#[global] Instance inodeLe_dec : RelDecision inodeLe.
Proof. intros a b. unfold inodeLe. apply _. Defined.

Definition select_children (where_ : Metadata -> bool) (t : Tables) : list Metadata :=
  merge_sort inodeLe (List.filter where_ (inodes t)).

(** ** Statements on [single_use_links] *)

Definition get_link (token : string) (t : Tables) : option SingleUseLink :=
  find_key lk_Token token (single_use_links t).

Definition insertedLink (l : SingleUseLink) (now : Time) (id : Z) : SingleUseLink :=
  mkLink id (lk_Token l) (lk_FilePath l) (lk_Status l) (pg_timestamp ty (lk_ExpiresAt l)) None None
    (lk_HMACSignature l) (pg_timestamp ty (lk_CreatedAt l)) (pg_timestamp ty now).

Definition insert_link (l : SingleUseLink) (now : Time) : stmt Tables sqlerr unit :=
  with_params [lk_Token l; lk_FilePath l; lk_Status l; lk_HMACSignature l] [] (fun t =>
  let id := (links_id_seq t + 1)%Z in
  let t' := set_links (single_use_links t) id t in
  let row := insertedLink l now id in
  if negb (link_ok row) then (t', inr (Violation "single_use_links"))
  else match get_link (lk_Token l) t with
       | Some _ => (t', inr (UniqueViolation "single_use_links_token_key"))
       | None => (set_links (single_use_links t ++ [row]) id t, inl tt)
       end).

Definition activeToken (token : string) (l : SingleUseLink) : bool :=
  String.eqb (lk_Token l) token && String.eqb (lk_Status l) "active".

(** The address column is an INET: a text that is no address is an error. *)
Definition inet_arg (usedByIP : option string) : option (option string) :=
  match usedByIP with
  | None => Some None
  | Some ip => match pg_inet ty ip with Some a => Some (Some a) | None => None end
  end.

Definition usedLink (status : string) (usedAt : option Time) (ip : option string) (now : Time)
    (l : SingleUseLink) : SingleUseLink :=
  mkLink (lk_ID l) (lk_Token l) (lk_FilePath l) status (lk_ExpiresAt l) (pg_timestamp ty <$> usedAt) ip
    (lk_HMACSignature l) (lk_CreatedAt l) (pg_timestamp ty now).

Definition update_link (token status : string) (usedAt : option Time) (usedByIP : option string)
    (now : Time) : stmt Tables sqlerr Z := with_params ([token; status] ++ option_list usedByIP)%list [] (fun t =>
  match inet_arg usedByIP with
  | None => (t, inr (Violation "inet"))
  | Some ip =>
      let n := rows_where (activeToken token) (single_use_links t) in
      if (0 <? n)%Z && negb (varchar 20 status && link_status_ok status) then (t, inr (Violation "single_use_links"))
      else (set_links (update_where (activeToken token) (usedLink status usedAt ip now)
                  (single_use_links t)) (links_id_seq t) t, inl n)
  end).

Definition expiredRow (before : Time) (l : SingleUseLink) : bool :=
  (lk_ExpiresAt l <? pg_timestamp ty before)%Z.

Definition oldUsedRow (olderThan : Time) (l : SingleUseLink) : bool :=
  String.eqb (lk_Status l) "used" &&
  match lk_UsedAt l with Some u => (u <? pg_timestamp ty olderThan)%Z | None => false end.

Definition delete_links (where_ : SingleUseLink -> bool) : stmt Tables sqlerr Z := fun t =>
  (set_links (delete_where where_ (single_use_links t)) (links_id_seq t) t,
       inl (rows_where where_ (single_use_links t))).

(** ** Statements on the erasure tables *)

Definition insert_profile (filePath : string) (info : ErasureFileInfo) : stmt Tables sqlerr unit :=
  with_params [filePath] [ei_DataShards info; ei_ParityShards info] (fun t =>
  match find_key ei_FilePath filePath (erasure_profiles t) with
  | Some _ => (t, inr (UniqueViolation "erasure_profiles_pkey"))
  | None =>
      let row := mkErasureInfo filePath (ei_OriginalSize info) (ei_DataShards info) (ei_ParityShards info)
                   (ei_ShardSize info) [] in
      (set_erasure (erasure_profiles t ++ [row]) (erasure_shards t) t, inl tt)
  end).

Definition same_shard (filePath : string) (index : Z) (r : string * ErasureShardInfo) : bool :=
  String.eqb r.1 filePath && (si_Index r.2 =? index)%Z.

Definition shard_ok (s : ErasureShardInfo) : bool :=
  varchar 100 (si_InstanceID s) && varchar 50 (si_BackendType s) && varchar 64 (si_Checksum s).

Definition insert_shard (filePath : string) (shard : ErasureShardInfo) : stmt Tables sqlerr unit :=
  with_params [filePath; si_InstanceID shard; si_BackendType shard; si_Path shard; si_Checksum shard] [si_Index shard] (fun t =>
  if negb (shard_ok shard) then (t, inr (Violation "erasure_shards"))
  else if List.existsb (same_shard filePath (si_Index shard)) (erasure_shards t)
  then (t, inr (UniqueViolation "erasure_shards_file_path_shard_index_key"))
  else (set_erasure (erasure_profiles t) (erasure_shards t ++ [(filePath, shard)]) t, inl tt)).

Fixpoint insert_shards (filePath : string) (shards : list ErasureShardInfo) : stmt Tables gerr unit := fun t =>
  match shards with
  | [] => (t, inl tt)
  | shard :: rest =>
      match insert_shard filePath shard t with
      | (t', inr err) => (t', inr (EWrap "failed to insert erasure shard" (sqlerr_error err)))
      | (t', inl _) => insert_shards filePath rest t'
      end
  end.

Definition insert_erasure (filePath : string) (info : ErasureFileInfo) : stmt Tables gerr unit := fun t =>
  match insert_profile filePath info t with
  | (t', inr err) => (t', inr (EWrap "failed to insert erasure profile" (sqlerr_error err)))
  | (t', inl _) => insert_shards filePath (ei_Shards info) t'
  end.

Definition shardLe (a b : ErasureShardInfo) : Prop := (si_Index a <= si_Index b)%Z.
#[global] Instance shardLe_dec : RelDecision shardLe.
Proof. intros a b. unfold shardLe. apply _. Defined.

Definition shard_of (filePath : string) (r : string * ErasureShardInfo) : bool := String.eqb r.1 filePath.

Definition select_shards (filePath : string) (t : Tables) : list ErasureShardInfo :=
  merge_sort shardLe (map snd (List.filter (shard_of filePath) (erasure_shards t))).

Definition delete_erasure (filePath : string) : stmt Tables gerr unit := fun t =>
  if negb (bound [filePath] []) then (t, inr (EWrap "failed to delete erasure shards" (EMsg invalidParameter)))
  else (set_erasure (delete_where (fun r => String.eqb (ei_FilePath r) filePath) (erasure_profiles t))
         (delete_where (shard_of filePath) (erasure_shards t)) t, inl tt).
End Server.

(** The tables after the migrations.  The root directory is inserted with its id,
    which does not advance the sequence of the column. *)
Definition migrated (now : Time) : Tables :=
  mkTables [mkMetadata 1 None "" "/" "directory" 0 "0755" 0 0 now now now "localfs" false (Some "root") None now now]
    0 [] 0 [] [].

(** ** The store *)
Section PostgresStore.
Context {W : Type} (db : SqlDB W Tables) (ty : PgTypes).

(** A row as the scan of [Get] and [ListChildren] leaves it: the statements do
    not read [erasure_coded]. *)
Definition scanInode (r : Metadata) : Metadata :=
  mkMetadata (md_ID r) (md_ParentID r) (md_Name r) (md_Path r) (md_Type r) (md_Size r) (md_Mode r)
    (md_UID r) (md_GID r) (md_ATime r) (md_MTime r) (md_CTime r) (md_BackendType r) false
    (md_CallFSInstanceID r) (md_SymlinkTarget r) (md_CreatedAt r) (md_UpdatedAt r).

(** A query with its text parameters. *)
Definition query {A} (texts : list string) (q : Tables -> A) (w : W) : A + gerr :=
  match db_Query db (fun t => if bound ty texts [] then Some (q t) else None) w with
  | inr e => inr e
  | inl None => inr (EMsg invalidParameter)
  | inl (Some a) => inl a
  end.

Definition Get (path : string) (w : W) : Res Metadata :=
  match query [path] (get_inode path) w with
  | inr e => Err (EWrap "failed to get metadata" e)
  | inl None => Err ErrNotFound
  | inl (Some r) => Ok (scanInode r)
  end.

(** The columns that RETURNING writes back into the caller's record. *)
Definition returned (md row : Metadata) : Metadata :=
  mkMetadata (md_ID row) (md_ParentID md) (md_Name md) (md_Path md) (md_Type md) (md_Size md) (md_Mode md)
    (md_UID md) (md_GID md) (md_ATime md) (md_MTime md) (md_CTime md) (md_BackendType md)
    (md_ErasureCoded md) (md_CallFSInstanceID md) (md_SymlinkTarget md) (md_CreatedAt row) (md_UpdatedAt row).

(** [now] is the server's clock.  The code 23505 of [pq.Error] is a violation of
    a UNIQUE constraint. *)
Definition Create (now : Time) (md : Metadata) : St W (Metadata * Res unit) := fun w =>
  match db_Exec db (insert_inode ty md now) w with
  | (w', inl row) => (w', (returned md row, Ok tt))
  | (w', inr (UniqueViolation _)) => (w', (md, Err ErrAlreadyExists))
  | (w', inr err) => (w', (md, Err (EWrap "failed to create metadata" (sqlerr_error err))))
  end.

Definition affected (msg : string) (r : Z + sqlerr) : Res unit :=
  match r with
  | inr err => Err (EWrap msg (sqlerr_error err))
  | inl n =>
      match db_RowsAffected db n with
      | Err e => Err (EWrap "failed to get rows affected" e)
      | Ok rowsAffected => if (rowsAffected =? 0)%Z then Err ErrNotFound else Ok tt
      end
  end.

Definition Update (now : Time) (md : Metadata) : St W (Metadata * Res unit) := fun w =>
  let '(w', result) := db_Exec db (update_inode ty md now) w in
  (w', (md, affected "failed to update metadata" result)).

Definition Delete (path : string) : St W (Res unit) := fun w =>
  let '(w', result) := db_Exec db (delete_inode ty path) w in
  (w', affected "failed to delete metadata" result).

Definition ListChildren (parentPath : string) (w : W) : Res (list Metadata) :=
  let '(params, where_) := if String.eqb parentPath "/" then ([], childOfRoot)
                           else ([escapeLikePattern parentPath], childOf parentPath) in
  match query params (select_children ty where_) w with
  | inr e => Err (EWrap "failed to list children" e)
  | inl rows => Ok (map scanInode rows)
  end.

(** The statement does not read the id and the update time of a link. *)
Definition scanLink (l : SingleUseLink) : SingleUseLink :=
  mkLink 0 (lk_Token l) (lk_FilePath l) (lk_Status l) (lk_ExpiresAt l) (lk_UsedAt l) (lk_UsedByIP l)
    (lk_HMACSignature l) (lk_CreatedAt l) 0.

Definition GetSingleUseLink (token : string) (w : W) : Res SingleUseLink :=
  match query [token] (get_link token) w with
  | inr e => Err (EWrap "failed to get single-use link" e)
  | inl None => Err ErrNotFound
  | inl (Some l) => Ok (scanLink l)
  end.

Definition CreateSingleUseLink (now : Time) (link : SingleUseLink) : St W (Res unit) := fun w =>
  match db_Exec db (insert_link ty link now) w with
  | (w', inr err) => (w', Err (EWrap "failed to create single-use link" (sqlerr_error err)))
  | (w', inl _) => (w', Ok tt)
  end.

Definition UpdateSingleUseLink (now : Time) (token status : string) (usedAt : option Time)
    (usedByIP : option string) : St W (Res unit) := fun w =>
  let '(w', result) := db_Exec db (update_link ty token status usedAt usedByIP now) w in
  (w', affected "failed to update single-use link" result).

Definition cleanup (msg : string) (where_ : SingleUseLink -> bool) : St W (Res Z) := fun w =>
  match db_Exec db (delete_links where_) w with
  | (w', inr err) => (w', Err (EWrap msg (sqlerr_error err)))
  | (w', inl n) => (w', res_wrap "failed to get rows affected" (db_RowsAffected db n))
  end.

Definition CleanupExpiredLinks (before : Time) : St W (Res Z) :=
  cleanup "failed to cleanup expired links" (expiredRow ty before).
Definition CleanupUsedLinks (olderThan : Time) : St W (Res Z) :=
  cleanup "failed to cleanup used links" (oldUsedRow ty olderThan).

Definition in_tx {A} (s : stmt Tables gerr A) : St W (Res A) := fun w =>
  match db_BeginTx db w with
  | Some err => (w, Err (EWrap "failed to begin transaction" err))
  | None => db_Tx db s w
  end.

Definition CreateErasureInfo (filePath : string) (info : ErasureFileInfo) : St W (Res unit) :=
  in_tx (insert_erasure ty filePath info).

Definition GetErasureInfo (filePath : string) (w : W) : Res ErasureFileInfo :=
  match query [filePath] (fun t => find_key ei_FilePath filePath (erasure_profiles t)) w with
  | inr e => Err (EWrap "failed to get erasure profile" e)
  | inl None => Err ErrNotFound
  | inl (Some p) =>
      match query [filePath] (select_shards filePath) w with
      | inr e => Err (EWrap "failed to query erasure shards" e)
      | inl shards =>
          Ok (mkErasureInfo (ei_FilePath p) (ei_OriginalSize p) (ei_DataShards p) (ei_ParityShards p)
                (ei_ShardSize p) shards)
      end
  end.

Definition DeleteErasureInfo (filePath : string) : St W (Res unit) := in_tx (delete_erasure ty filePath).
End PostgresStore.

(** [NewPostgresStore]: opening and the ping; the limits of the connection pool
    are the driver's. *)
Definition NewPostgresStore {S : Type} (open : Res S) (ping : S -> option gerr) : Res S :=
  match open with
  | Err e => Err (EWrap "failed to open database" e)
  | Ok db => match ping db with Some e => Err (EWrap "failed to ping database" e) | None => Ok db end
  end.

Definition postgresStore {W} (db : SqlDB W Tables) (ty : PgTypes) (clock : W -> Time) : Store W :=
  mkStore W (Get db ty) (fun md w => Create db ty (clock w) md w)
    (fun md w => Update db ty (clock w) md w) (Delete db ty) (ListChildren db ty) (GetSingleUseLink db ty)
    (fun l w => CreateSingleUseLink db ty (clock w) l w)
    (fun t s u ip w => UpdateSingleUseLink db ty (clock w) t s u ip w)
    (CleanupExpiredLinks db ty) (CleanupUsedLinks db ty).

End Postgres.
