(* ===== verification/PostgresSpec.v ===== *)
(** * What the PostgreSQL store promises

    The record contract for what the schema accepts, the exact listing of
    children, the clean-up of links, and the first insert after the migrations. *)
From S2P Require Import Prelude GoStrings Metadata Sql Postgres Json.
From Stdlib Require Import Ascii String.
Import Sql Postgres.
Open Scope string_scope.
Open Scope bool_scope.

Module PostgresSpec.

Section Spec.
Context {W : Type} (db : SqlDB W Tables) (ty : PgTypes) (clock : W -> Time)
  (tables : W -> Tables) (up : W -> Prop) `{!SqlLaws db tables up} `{!PgLaws ty}.

(** A time of a column. *)
Definition rounded (t : Time) : Prop := pg_timestamp ty t = t.

(** The worlds in which the database is up, its tables are as the store leaves
    them, and the sequence of [inodes] is past every id. *)
Record serving (w : W) : Prop := mkServing {
  sv_up : up w;
  sv_paths : unique md_Path (inodes (tables w));
  sv_tokens : unique lk_Token (single_use_links (tables w));
  sv_ids : forall r, r ∈ inodes (tables w) -> md_ParentID r = None /\ (md_ID r <= inodes_id_seq (tables w))%Z;
  sv_times : forall l, l ∈ single_use_links (tables w) ->
    rounded (lk_ExpiresAt l) /\ forall u, lk_UsedAt l = Some u -> rounded u;
}.

Definition records (w : W) : gmap string Metadata := rows_map md_Path scanInode (inodes (tables w)).
Definition links (w : W) : gmap string SingleUseLink := rows_map lk_Token scanLink (single_use_links (tables w)).

(** What the parameters and the columns accept. *)
Definition storable (md : Metadata) : Prop :=
  bound ty (insertTexts md) [md_UID md; md_GID md] = true /\ inode_ok md = true /\ md_ParentID md = None.

(** The paths that the server takes as a parameter. *)
Definition valid (path : string) : Prop := pg_valid ty path = true.

Lemma bound_1 p : valid p -> bound ty [p] [] = true.
Proof. unfold valid, bound. cbn [forallb]. by intros ->. Qed.

Lemma with_params_ok {A} texts ints (m : stmt Tables sqlerr A) t :
  bound ty texts ints = true -> with_params ty texts ints m t = m t.
Proof. unfold with_params. by intros ->. Qed.

Lemma query_run {A} texts (q : Tables -> A) w :
  up w -> bound ty texts [] = true -> query db ty texts q w = inl (q (tables w)).
Proof. intros Hu Hb. unfold query. by rewrite (law_Query _ _ w Hu), Hb. Qed.

Lemma bound_update md ints : bound ty (insertTexts md) ints = true -> bound ty (updateTexts md) ints = true.
Proof.
  unfold bound, insertTexts, updateTexts. cbn [forallb app]. rewrite !forallb_app. cbn [forallb].
  rewrite !andb_true_iff. tauto.
Qed.

(** What Create keeps: times in microseconds, no erasure flag. *)
Definition createdRecord (md : Metadata) : Metadata :=
  mkMetadata (md_ID md) (md_ParentID md) (md_Name md) (md_Path md) (md_Type md) (md_Size md) (md_Mode md)
    (md_UID md) (md_GID md) (pg_timestamp ty (md_ATime md)) (pg_timestamp ty (md_MTime md))
    (pg_timestamp ty (md_CTime md)) (md_BackendType md) false (md_CallFSInstanceID md)
    (md_SymlinkTarget md) (md_CreatedAt md) (md_UpdatedAt md).

Definition updatedRecord (now : Time) (old md : Metadata) : Metadata :=
  mkMetadata (md_ID old) (md_ParentID old) (md_Name old) (md_Path old) (md_Type old) (md_Size md) (md_Mode md)
    (md_UID md) (md_GID md) (pg_timestamp ty (md_ATime md)) (pg_timestamp ty (md_MTime md))
    (pg_timestamp ty (md_CTime md)) (md_BackendType md) false (md_CallFSInstanceID md)
    (md_SymlinkTarget md) (md_CreatedAt old) (pg_timestamp ty now).

Lemma pg_affected_count msg n :
  affected db msg (inl n) = if (n =? 0)%Z then Err ErrNotFound else Ok tt.
Proof. unfold affected. by rewrite law_RowsAffected. Qed.

Lemma pg_rows_where_path p t : unique md_Path t ->
  rows_where (path_is p) t = match find_key md_Path p t with Some _ => 1 | None => 0 end%Z.
Proof.
  intros Hu. rewrite (rows_where_key md_Path _ _ p Hu).
  - destruct (find_key md_Path p t) as [r |] eqn:E; [| done]. apply find_key_Some in E as [_ <-].
    unfold path_is. by rewrite String.eqb_refl.
  - intros r _ Hr. unfold path_is in Hr. by to_prop.
Qed.

Lemma fresh_id w : serving w -> id_taken (inodes_id_seq (tables w) + 1) (inodes (tables w)) = false.
Proof.
  intros Hw. unfold id_taken. apply not_true_iff_false. intros H.
  apply existsb_exists in H as (r & Hr & E). apply list_elem_of_In in Hr.
  apply (sv_ids w Hw) in Hr as [_ Hr]. to_prop. lia.
Qed.

(** The insert in a serving world, by what the row map says about the path. *)
Lemma insert_inode_eq md now w :
  serving w -> storable md ->
  let id := (inodes_id_seq (tables w) + 1)%Z in
  insert_inode ty md now (tables w) =
    match get_inode (md_Path md) (tables w) with
    | Some _ => (Postgres.set_inodes (inodes (tables w)) id (tables w), inr (UniqueViolation "inodes_path_key"))
    | None => (Postgres.set_inodes (inodes (tables w) ++ [insertedInode ty md now id]) id (tables w),
               inl (insertedInode ty md now id))
    end.
Proof.
  intros Hw (Hb & Hok & Hp). cbn zeta. unfold insert_inode. rewrite with_params_ok by done. cbn zeta.
  change (inode_ok (insertedInode ty md now _)) with (inode_ok md).
  rewrite Hok, fresh_id, Hp by done. by destruct (get_inode (md_Path md) (tables w)).
Qed.

Lemma pg_Create_refines now md w w' md' r :
  serving w -> storable md -> Create db ty now md w = (w', (md', r)) ->
  serving w' /\ links w' = links w /\
  match records w !! md_Path md with
  | Some _ => r = Err ErrAlreadyExists /\ records w' = records w
  | None => r = Ok tt /\ records w' = <[md_Path md := createdRecord md']> (records w) /\ same_file md md'
  end.
Proof.
  intros Hw Hs. pose proof (insert_inode_eq md now w Hw Hs) as Ei. cbn zeta in Ei.
  destruct Hw as [Hu Hp Hl Hids Ht]. unfold Create, records. rewrite lookup_rows_map.
  destruct (db_Exec db (insert_inode ty md now) w) as [w1 res] eqn:E. intros H.
  unfold get_inode in Ei. destruct (find_key md_Path (md_Path md) (inodes (tables w))) as [row |] eqn:Ef.
  - eapply (exec_run db tables up) in E as (Hu1 & Ht1 & Er); [| done | exact Ei]; subst res.
    injection H as <- <- <-. unfold links. rewrite Ht1. split; [| done].
    split; rewrite ?Ht1; cbn [Postgres.set_inodes inodes single_use_links inodes_id_seq]; try done.
    intros x Hx. apply Hids in Hx as [Hx1 Hx2]. split; [done | lia].
  - eapply (exec_run db tables up) in E as (Hu1 & Ht1 & Er); [| done | exact Ei]; subst res.
    injection H as <- <- <-. unfold links. rewrite Ht1.
    cbn [Postgres.set_inodes inodes single_use_links]. split; [| split; [done |]; split; [done |]].
    + split; rewrite ?Ht1; cbn [Postgres.set_inodes inodes single_use_links inodes_id_seq]; try done.
      * by apply unique_snoc.
      * intros x Hx. apply elem_of_app in Hx as [Hx | Hx]; [apply Hids in Hx as [Hx1 Hx2]; split; [done | lia] |].
        apply list_elem_of_singleton in Hx as ->. cbn. split; [apply Hs | lia].
    + split; [| done]. by rewrite rows_map_snoc.
Qed.

Lemma update_inode_eq md now w :
  serving w -> storable md ->
  update_inode ty md now (tables w) =
    (Postgres.set_inodes (update_where (path_is (md_Path md)) (updatedInode ty md now) (inodes (tables w)))
       (inodes_id_seq (tables w)) (tables w), inl (rows_where (path_is (md_Path md)) (inodes (tables w)))).
Proof.
  intros _ (Hb & Hok & _). unfold update_inode, inode_ok in *. rewrite with_params_ok by (by apply bound_update). to_prop.
  match goal with H : inode_values_ok _ = true |- _ => rewrite H end. by rewrite andb_false_r.
Qed.

Lemma pg_Update_refines now md w w' md' r :
  serving w -> storable md -> Update db ty now md w = (w', (md', r)) ->
  serving w' /\ links w' = links w /\ md' = md /\
  match records w !! md_Path md with
  | None => r = Err ErrNotFound /\ records w' = records w
  | Some old => r = Ok tt /\ records w' = <[md_Path md := updatedRecord now old md]> (records w)
  end.
Proof.
  intros Hw Hs. pose proof (update_inode_eq md now w Hw Hs) as Ei.
  destruct Hw as [Hu Hp Hl Hids Ht]. unfold Update, records. rewrite lookup_rows_map.
  destruct (db_Exec db (update_inode ty md now) w) as [w1 res] eqn:E. intros H.
  eapply (exec_run db tables up) in E as (Hu1 & Ht1 & Er); [| done | exact Ei]; subst res.
  rewrite pg_affected_count, pg_rows_where_path in H by done. injection H as <- <- <-.
  unfold links. rewrite Ht1. cbn [Postgres.set_inodes inodes single_use_links].
  assert (Hk : forall x, md_Path (updatedInode ty md now x) = md_Path x) by done.
  split; [| split; [done |]; split; [done |]].
  - split; rewrite ?Ht1; cbn [Postgres.set_inodes inodes single_use_links inodes_id_seq]; try done.
    + by apply update_where_unique.
    + intros x Hx. apply list_elem_of_fmap in Hx as (y & -> & Hy). apply Hids in Hy. by destruct (path_is _ y).
  - unfold path_is. rewrite (rows_map_update md_Path _ _ _ _ Hk).
    destruct (find_key md_Path (md_Path md) (inodes (tables w))) as [row |]; done.
Qed.

Lemma cascade_roots fuel gone rows :
  (forall r, r ∈ rows -> md_ParentID r = None) -> cascade fuel gone rows = rows.
Proof.
  intros H. destruct fuel as [| fuel]; [done |]. cbn [cascade].
  assert (E : List.filter (orphaned gone) rows = []).
  { apply elem_of_nil_inv. intros x Hx. apply list_elem_of_In, filter_In in Hx as [Hx Ho].
    apply list_elem_of_In, H in Hx. unfold orphaned in Ho. by rewrite Hx in Ho. }
  by rewrite E.
Qed.

Lemma pg_Delete_refines p w w' r :
  serving w -> valid p -> Delete db ty p w = (w', r) ->
  serving w' /\ links w' = links w /\
  match records w !! p with
  | None => r = Err ErrNotFound /\ records w' = records w
  | Some _ => r = Ok tt /\ records w' = delete p (records w)
  end.
Proof.
  intros [Hu Hp Hl Hids Ht] Hv. unfold Delete, records. rewrite lookup_rows_map.
  destruct (db_Exec db (delete_inode ty p) w) as [w1 res] eqn:E. intros H.
  assert (Hd : forall x, x ∈ delete_where (path_is p) (inodes (tables w)) -> x ∈ inodes (tables w)).
  { intros x Hx. by apply delete_where_elem in Hx as [Hx _]. }
  eapply (exec_run db tables up) in E as (Hu1 & Ht1 & Er); [| done | unfold delete_inode; rewrite with_params_ok by (by apply bound_1); reflexivity]; subst res.
  rewrite cascade_roots in Ht1 by (intros x Hx; by apply Hd, Hids in Hx as [? _]).
  rewrite pg_affected_count, pg_rows_where_path in H by done. injection H as <- <-.
  unfold links. rewrite Ht1. cbn [Postgres.set_inodes inodes single_use_links].
  split; [| split; [done |]].
  - split; rewrite ?Ht1; cbn [Postgres.set_inodes inodes single_use_links inodes_id_seq]; try done.
    + by apply delete_where_unique.
    + intros x Hx. by apply Hids, Hd.
  - unfold path_is. rewrite rows_map_delete by done.
    destruct (find_key md_Path p (inodes (tables w))) eqn:Ef; [done |].
    split; [done |]. apply delete_id. by rewrite lookup_rows_map, Ef.
Qed.

(** C17: The PostgreSQL store implements the contract of the metadata records for
    the records and paths the server accepts (text that is valid UTF-8 without NUL,
    numbers in the range of their columns, and what the schema asks for), in the
    worlds where its sequence is past every id: what it keeps are the columns, with
    times in microseconds and without the erasure flag, and an update keeps the
    identity of the row.  A freshly migrated database is no such world until a
    first creation has failed ([postgres_first_create_fails],
    [postgres_serving_after_first]), and text that is not valid is refused
    ([postgres_invalid_path]). *)
Theorem postgres_records_refine :
  RecordSpec (postgresStore db ty clock) records serving valid (fun md _ => storable md)
    createdRecord (fun w => updatedRecord (clock w)).
Proof.
  split; cbn [postgresStore st_Get st_Create st_Update st_Delete].
  - intros p w Hw Hv. unfold Get, records. rewrite query_run by (apply Hw || by apply bound_1).
    unfold get_inode. rewrite lookup_rows_map. by destruct (find_key md_Path p (inodes (tables w))).
  - intros md w w' md' r Hw Hs E. by destruct (pg_Create_refines _ _ _ _ _ _ Hw Hs E) as (? & _ & ?).
  - intros md w w' md' r Hw Hs E. destruct (pg_Update_refines _ _ _ _ _ _ Hw Hs E) as (Hw' & _ & -> & H).
    split; [done |]. destruct (records w !! md_Path md); [| done]. by destruct H.
  - intros p w w' r Hw Hv E. by destruct (pg_Delete_refines _ _ _ _ Hw Hv E) as (? & _ & ?).
Qed.

(** A path that is not valid text is refused with an error that is not
    [ErrNotFound], and changes nothing. *)
Theorem postgres_invalid_path p w : up w -> pg_valid ty p = false ->
  Get db ty p w = Err (EWrap "failed to get metadata" (EMsg invalidParameter)) /\
  forall w' r, Delete db ty p w = (w', r) ->
    r = Err (EWrap "failed to delete metadata" (EMsg invalidParameter)) /\ tables w' = tables w.
Proof.
  intros Hu Hv. assert (Hb : bound ty [p] [] = false) by (unfold bound; cbn [forallb]; by rewrite Hv).
  split.
  - unfold Get, query. by rewrite (law_Query _ _ w Hu), Hb.
  - intros w' r. unfold Delete. destruct (db_Exec db (delete_inode ty p) w) as [w1 res] eqn:E. intros [= <- <-].
    assert (Es : delete_inode ty p (tables w) = (tables w, inr (Violation invalidParameter)))
      by (unfold delete_inode, with_params; by rewrite Hb).
    by apply (exec_run db tables up _ _ _ _ _ _ Hu Es) in E as (_ & Ht1 & ->).
Qed.

(** On a freshly migrated database the first creation fails: the migration
    inserts the root directory with id 1 without advancing the sequence, so the
    insert takes id 1 again, and the violated primary key is reported as
    [ErrAlreadyExists] although the path has no record. *)
Theorem postgres_first_create_fails t0 now md w w' md' r :
  up w -> tables w = migrated t0 -> storable md -> md_Path md <> "/" ->
  Create db ty now md w = (w', (md', r)) ->
  r = Err ErrAlreadyExists /\ Get db ty (md_Path md) w' = Err ErrNotFound /\
  tables w' = Postgres.set_inodes (inodes (migrated t0)) 1 (migrated t0).
Proof.
  intros Hu Ht (Hb & Hok & _) Hp. unfold Create.
  destruct (db_Exec db (insert_inode ty md now) w) as [w1 res] eqn:E. intros H.
  assert (Ei : insert_inode ty md now (tables w) =
    (Postgres.set_inodes (inodes (migrated t0)) 1 (migrated t0), inr (UniqueViolation "inodes_pkey"))).
  { rewrite Ht. unfold insert_inode. rewrite with_params_ok by done. cbn zeta.
    change (inode_ok (insertedInode ty md now _)) with (inode_ok md). by rewrite Hok. }
  eapply (exec_run db tables up) in E as (Hu1 & Ht1 & Er); [| done | exact Ei]; subst res.
  injection H as <- <- <-. split; [done |]. split; [| done]. unfold Get.
  assert (Hv : valid (md_Path md)).
  { unfold bound, insertTexts in Hb. cbn [forallb app] in Hb. unfold valid. by to_prop. }
  rewrite query_run, Ht1 by (done || by apply bound_1).
  unfold get_inode, find_key. cbn [Postgres.set_inodes migrated inodes List.find Metadata.md_Path].
  apply not_eq_sym, String.eqb_neq in Hp. by rewrite Hp.
Qed.

(** The failed creation advances the sequence, and the store serves from then on. *)
Lemma postgres_serving_after_first t0 w :
  up w -> tables w = Postgres.set_inodes (inodes (migrated t0)) 1 (migrated t0) -> serving w.
Proof.
  intros Hu Ht. split; [done | ..]; rewrite Ht; cbn.
  - apply NoDup_singleton.
  - constructor.
  - intros r Hr. apply list_elem_of_singleton in Hr as ->. cbn. split; [done | lia].
  - intros l Hl. by apply elem_of_nil in Hl.
Qed.

(** A record of the erasure backend violates the CHECK on [backend_type]. *)
Lemma postgres_rejects_erasure now md w w' md' r :
  up w -> bound ty (insertTexts md) [md_UID md; md_GID md] = true ->
  md_BackendType md = "erasure" -> Create db ty now md w = (w', (md', r)) ->
  r = Err (EWrap "failed to create metadata" (EMsg "inodes")).
Proof.
  intros Hu Hp Hb. unfold Create. destruct (db_Exec db (insert_inode ty md now) w) as [w1 res] eqn:E. intros H.
  assert (Hok : inode_ok md = false).
  { unfold inode_ok, inode_values_ok. rewrite Hb.
    change (String.eqb "erasure" "localfs" || String.eqb "erasure" "s3") with false.
    by rewrite !andb_false_r. }
  eapply (exec_run db tables up) in E as (_ & _ & Er); [| done |].
  2:{ unfold insert_inode. rewrite with_params_ok by done. cbn zeta.
      change (inode_ok (insertedInode ty md now _)) with (inode_ok md).
      rewrite Hok. reflexivity. }
  subst res. by injection H as <- <- <-.
Qed.

(** ** Listing *)

Lemma id_slash x : id x = "/"%char -> x = "/"%char.
Proof. done. Qed.

Lemma pg_childOf_iff p r : Contains p "\" = false -> p <> "" -> p <> "/" ->
  childOf p r = true <-> pathDir (md_Path r) = p.
Proof.
  intros Hp H0 H1. rewrite pathDir_iff by done. unfold childOf, pgLike, escapeLikePattern.
  rewrite !like_escaped by done. destruct (strip id p (md_Path r)) as [x |] eqn:E.
  - apply strip_id in E. rewrite like_slash_percent, like_slash_percent_slash by done. rewrite E. split.
    + intros H. to_prop. apply HasPrefix_inv in H as (t & ->). exists t.
      split; [by rewrite str_app_assoc |]. unfold no_slash. cbn [String.append] in H2.
      by rewrite Ascii.eqb_refl in H2; cbn [andb] in H2; rewrite H2.
    + intros (n & Hn & Hs). rewrite <- str_app_assoc in Hn. apply str_app_inj_l in Hn as ->.
      unfold no_slash in Hs. change ("/" +:+ n) with (String "/" n).
      change (HasPrefix (String "/" n) "/") with (HasPrefix n ""). by rewrite HasPrefix_nil.
  - split; [done |]. intros (n & Hn & _). rewrite Hn, <- str_app_assoc, strip_refl in E. done.
Qed.

Lemma pg_childOfRoot_iff r : absolute (md_Path r) ->
  childOfRoot r = true <-> md_Path r <> "/" /\ pathDir (md_Path r) = "/".
Proof.
  intros Ha. rewrite pathDir_root by done. destruct Ha as (t & Ht & Hp). unfold childOfRoot, pgLike. rewrite Ht.
  rewrite like_slash_percent, like_slash_percent_slash by done.
  change (HasPrefix (String "/" t) "/") with (HasPrefix t ""). rewrite HasPrefix_nil. cbn [andb].
  rewrite Ascii.eqb_refl. cbn [andb]. rewrite andb_true_iff, !negb_true_iff, String.eqb_neq. split.
  - intros [H1 H2]. split; [done |]. exists t. split; [done |]. unfold no_slash. by rewrite H1.
  - intros [H1 (n & [= <-] & Hn)]. unfold no_slash in Hn. by to_prop.
Qed.

(** ListChildren of the PostgreSQL store keeps the contract for every
    directory of valid text without a backslash in its path, also with underscores and percent
    signs: it answers exactly the records whose parent is the directory. *)
Theorem postgres_list_children p w :
  serving w -> p <> "" -> Contains p "\" = false -> valid (escapeLikePattern p) ->
  (forall r, r ∈ inodes (tables w) -> absolute (md_Path r)) ->
  exists l, ListChildren db ty p w = Ok l /\
    forall md, md ∈ l <->
      exists q, records w !! q = Some md /\ md_Path md <> "/" /\ pathDir (md_Path md) = p.
Proof.
  intros Hw H0 Hp Hv Ha. assert (Hrun : ListChildren db ty p w = Ok (map scanInode
    (select_children ty (if String.eqb p "/" then childOfRoot else childOf p) (tables w)))).
  { unfold ListChildren. destruct (String.eqb p "/"); (rewrite query_run; [done | apply Hw |]); [done | by apply bound_1]. }
  rewrite Hrun. eexists. split; [done |].
  intros md. unfold select_children, records. rewrite list_elem_of_fmap.
  assert (Hc : forall r, r ∈ inodes (tables w) ->
    (if String.eqb p "/" then childOfRoot else childOf p) r = true <-> md_Path r <> "/" /\ pathDir (md_Path r) = p).
  { intros r Hr. destruct (String.eqb_spec p "/") as [-> | Hne]; [by apply pg_childOfRoot_iff, Ha |].
    rewrite pg_childOf_iff by done. split; [| by intros [_ ?]]. intros E. split; [| done]. intros Er. by rewrite Er in E. }
  split.
  - intros (r & -> & Hr). rewrite merge_sort_Permutation, list_elem_of_In, filter_In in Hr.
    destruct Hr as [Hr Hf]. apply list_elem_of_In in Hr. apply Hc in Hf; [| done]. exists (md_Path r).
    by rewrite lookup_rows_map, (find_key_In _ _ _ (sv_paths w Hw) Hr).
  - intros (q & Hq & Hne & Hd). rewrite lookup_rows_map in Hq.
    destruct (find_key md_Path q (inodes (tables w))) as [r |] eqn:E; [| done]. injection Hq as <-.
    apply find_key_Some in E as [Hr _]. exists r. split; [done |].
    rewrite merge_sort_Permutation, list_elem_of_In, filter_In. split; [by apply list_elem_of_In |]. by apply Hc.
Qed.

(** ** Links *)

Definition view (w : W) : StoreView := mkView (records w) (links w).

Lemma delete_links_spec msg where_ w w' r :
  serving w -> cleanup db msg where_ w = (w', r) ->
  serving w' /\ records w' = records w /\ links w' ⊆ links w /\
  forall t l, links w !! t = Some l -> links w' !! t = None ->
    exists x, x ∈ single_use_links (tables w) /\ l = scanLink x /\ where_ x = true.
Proof.
  intros [Hu Hp Hl Hids Ht]. unfold cleanup.
  destruct (db_Exec db (delete_links where_) w) as [w1 res] eqn:E. intros H.
  eapply (exec_run db tables up) in E as (Hu1 & Ht1 & Er); [| done | unfold delete_links; reflexivity]; subst res.
  injection H as <- <-. unfold records, links. rewrite Ht1. cbn [Postgres.set_links inodes single_use_links].
  split; [| split; [done |]; split].
  - split; rewrite ?Ht1; cbn [Postgres.set_links inodes single_use_links inodes_id_seq]; try done.
    + by apply delete_where_unique.
    + intros x Hx. apply delete_where_elem in Hx as [Hx _]. by apply Ht.
  - apply map_subseteq_spec. intros t l. rewrite !lookup_rows_map, find_delete_where by done.
    destruct (find_key lk_Token t _) as [x |]; [| done]. by destruct (where_ x).
  - intros t l. rewrite !lookup_rows_map, find_delete_where by done.
    destruct (find_key lk_Token t _) as [x |] eqn:Ex; [| done]. cbn. intros [= <-] Hn.
    apply find_key_Some in Ex as [Hin _]. exists x. split; [done |]. split; [done |]. by destruct (where_ x).
Qed.

(** The clean-up operations of the PostgreSQL store keep their contract:
    they touch links only, and remove only links that expired, or were used,
    before the given time; rounding to microseconds removes none early. *)
Theorem postgres_cleanup : CleanupSpec (postgresStore db ty clock) view serving.
Proof.
  split; cbn [postgresStore st_CleanupExpiredLinks st_CleanupUsedLinks view view_md view_links].
  - intros b w w' r Hw E. destruct (delete_links_spec _ _ _ _ _ Hw E) as (Hw' & Hr & Hsub & Hgone).
    split; [done |]. split; [done |]. split; [done |]. intros t l Hl Hn.
    destruct (Hgone t l Hl Hn) as (x & Hx & -> & Hc). unfold expiredRow in Hc. to_prop. cbn [scanLink lk_ExpiresAt].
    destruct (sv_times w Hw x Hx) as [Hx1 _]. destruct (Z.lt_ge_cases (lk_ExpiresAt x) b) as [| Hge]; [done |].
    apply (law_timestamp_mono) in Hge. rewrite Hx1 in Hge. lia.
  - intros b w w' r Hw E. destruct (delete_links_spec _ _ _ _ _ Hw E) as (Hw' & Hr & Hsub & Hgone).
    split; [done |]. split; [done |]. split; [done |]. intros t l Hl Hn.
    destruct (Hgone t l Hl Hn) as (x & Hx & -> & Hc). unfold oldUsedRow in Hc. to_prop. cbn [scanLink lk_Status lk_UsedAt].
    split; [done |]. destruct (sv_times w Hw x Hx) as [_ Hx2].
    destruct (lk_UsedAt x) as [u |]; [| done]. exists u. split; [done |]. to_prop.
    destruct (Z.lt_ge_cases u b) as [| Hge]; [done |].
    apply (law_timestamp_mono) in Hge. rewrite (Hx2 u eq_refl) in Hge. lia.
Qed.

Lemma pg_rows_where_active t rows : unique lk_Token rows ->
  rows_where (activeToken t) rows =
    match find_key lk_Token t rows with
    | Some r => if String.eqb (lk_Status r) "active" then 1 else 0
    | None => 0
    end%Z.
Proof.
  intros Hu. rewrite (rows_where_key lk_Token _ _ t Hu).
  - destruct (find_key lk_Token t rows) as [r |] eqn:E; [| done]. apply find_key_Some in E as [_ <-].
    unfold activeToken. by rewrite String.eqb_refl.
  - intros r _ Hr. unfold activeToken in Hr. by to_prop.
Qed.

(** The update of a link is a compare-and-set on its status; the time is kept in
    microseconds and the address in its canonical form. *)
Lemma postgres_update_link now t ua ip a w w' r :
  serving w -> bound ty [t; "used"; ip] [] = true -> pg_inet ty ip = Some a ->
  UpdateSingleUseLink db ty now t "used" (Some ua) (Some ip) w = (w', r) ->
  serving w' /\ records w' = records w /\
  match links w !! t with
  | Some l =>
      if String.eqb (lk_Status l) "active" then
        r = Ok tt /\ exists l', links w' = <[t := l']> (links w)
          /\ lk_Status l' = "used" /\ lk_UsedAt l' = Some (pg_timestamp ty ua) /\ lk_UsedByIP l' = Some a
          /\ lk_FilePath l' = lk_FilePath l /\ lk_ExpiresAt l' = lk_ExpiresAt l
      else r = Err ErrNotFound /\ links w' = links w
  | None => r = Err ErrNotFound /\ links w' = links w
  end.
Proof.
  intros [Hu Hp Hl Hids Ht] Hb Hip. unfold UpdateSingleUseLink.
  destruct (db_Exec db (update_link ty t "used" (Some ua) (Some ip) now) w) as [w1 res] eqn:E. intros H.
  eapply (exec_run db tables up) in E as (Hu1 & Ht1 & Er); [| done |].
  2:{ unfold update_link, inet_arg. rewrite with_params_ok by done. rewrite Hip. rewrite andb_false_r. reflexivity. }
  subst res. rewrite pg_affected_count, pg_rows_where_active in H by done. injection H as <- <-.
  unfold records, links. rewrite Ht1. cbn [Postgres.set_links inodes single_use_links].
  set (f := usedLink ty "used" (Some ua) (Some a) now).
  assert (Hk : forall x, lk_Token (f x) = lk_Token x) by done.
  split; [| split; [done |]].
  - split; rewrite ?Ht1; cbn [Postgres.set_links inodes single_use_links inodes_id_seq]; try done.
    + by apply update_where_unique.
    + intros x Hx. apply list_elem_of_fmap in Hx as (y & -> & Hy). apply Ht in Hy. destruct (activeToken t y); [| done].
      destruct Hy as [Hy _]. split; [done |]. cbn. intros u [= <-]. apply law_timestamp_idem.
  - rewrite lookup_rows_map.
    rewrite (rows_map_update_if lk_Token scanLink _ t f) by (done || (intros x Hx; unfold activeToken in Hx; by to_prop)).
    destruct (find_key lk_Token t (single_use_links (tables w))) as [x |] eqn:Ex; [| done].
    assert (Ea : activeToken t x = String.eqb (lk_Status x) "active").
    { apply find_key_Some in Ex as [_ <-]. unfold activeToken. by rewrite String.eqb_refl. }
    rewrite Ea. cbn [option_fmap option_map fmap scanLink lk_Status].
    destruct (String.eqb (lk_Status x) "active"); [| done]. split; [done |]. by exists (scanLink (f x)).
Qed.

End Spec.

(** ** Concrete runs *)

(** Times cut to microseconds, dotted texts as addresses, UTF-8 without NUL, byte order. *)
Definition sampleTypes : PgTypes :=
  mkPgTypes (fun t => (t / 1000 * 1000)%Z) (fun s => if Contains s "." then Some s else None)
    (fun s => bool_decide (Json.utf8 s) && negb (Contains s (String "000" ""))) (fun a b => bool_decide (strings.String.le a b)).

#[global] Instance sampleTypes_laws : PgLaws sampleTypes.
Proof.
  split; cbn.
  - intros t. rewrite Z.div_mul by done. done.
  - intros t u H. apply Z.mul_le_mono_nonneg_r; [done |]. by apply Z.div_le_mono.
  - intros s a. by destruct (Contains s ".") eqn:E; [intros [= <-]; rewrite E |].
Qed.

Lemma postgres_records_refine_witness :
  SqlLaws (tableDB Tables) id (fun _ => True) /\ PgLaws sampleTypes /\
  RecordSpec (postgresStore (tableDB Tables) sampleTypes (fun _ => 0%Z)) (records id)
    (serving sampleTypes id (fun _ => True)) (valid sampleTypes) (fun md _ => storable sampleTypes md)
    (createdRecord sampleTypes) (fun _ => updatedRecord sampleTypes 0%Z).
Proof.
  split; [apply tableDB_laws |]. split; [apply sampleTypes_laws |].
  exact (postgres_records_refine (tableDB Tables) sampleTypes (fun _ => 0%Z) id (fun _ => True)).
Defined.

Lemma postgres_cleanup_witness :
  SqlLaws (tableDB Tables) id (fun _ => True) /\ PgLaws sampleTypes /\
  CleanupSpec (postgresStore (tableDB Tables) sampleTypes (fun _ => 0%Z)) (view id) (serving sampleTypes id (fun _ => True)).
Proof.
  split; [apply tableDB_laws |]. split; [apply sampleTypes_laws |].
  exact (postgres_cleanup (tableDB Tables) sampleTypes (fun _ => 0%Z) id (fun _ => True)).
Defined.

Definition sample_file : Metadata :=
  mkMetadata 0 None "f" "/f" "file" 3 "0644" 1000 1000 5000 5000 5000 "localfs" false (Some "srv") None 0 0.

Lemma postgres_first_create_fails_witness :
  (Create (tableDB Tables) sampleTypes 7000 sample_file (migrated 0)).2.2 = Err ErrAlreadyExists /\
  Get (tableDB Tables) sampleTypes "/f" (Create (tableDB Tables) sampleTypes 7000 sample_file (migrated 0)).1 = Err ErrNotFound /\
  (Create (tableDB Tables) sampleTypes 7000 sample_file (migrated 0)).1 =
    Postgres.set_inodes (inodes (migrated 0)) 1 (migrated 0).
Proof.
  refine (postgres_first_create_fails (tableDB Tables) sampleTypes id (fun _ => True) 0 7000 sample_file
            (migrated 0) _ (Create (tableDB Tables) sampleTypes 7000 sample_file (migrated 0)).2.1 _ _ _ _ _ _).
  - exact I.
  - reflexivity.
  - repeat split; vm_compute; reflexivity.
  - discriminate.
  - reflexivity.
Defined.

(** The second attempt takes the next id. *)
Example postgres_second_create :
  let w1 := (Create (tableDB Tables) sampleTypes 7000 sample_file (migrated 0)).1 in
  (Create (tableDB Tables) sampleTypes 7000 sample_file w1).2.2 = Ok tt.
Proof. vm_compute. reflexivity. Qed.

Definition sample_row (id : Z) (name path type : string) : Metadata :=
  mkMetadata id None name path type 0 "0755" 0 0 0 0 0 "localfs" false (Some "srv") None 0 0.
Definition sample_tables : Tables :=
  mkTables [sample_row 1 "" "/" "directory"; sample_row 2 "my_dir" "/my_dir" "directory";
            sample_row 3 "g" "/my_dir/g" "file"; sample_row 4 "myxdir" "/myxdir" "directory";
            sample_row 5 "h" "/myxdir/h" "file"] 5 [] 0 [] [].

Lemma sample_paths : unique md_Path (inodes sample_tables).
Proof. unfold unique. apply (bool_decide_eq_true_1 _). vm_compute. reflexivity. Qed.

Lemma pg_sample_serving : serving sampleTypes id (fun _ => True) sample_tables.
Proof.
  split; [done | apply sample_paths | constructor | |].
  - intros r Hr. cbn in Hr.
    repeat (apply elem_of_cons in Hr as [-> | Hr]; [split; [reflexivity | vm_compute; discriminate] |]).
    by apply elem_of_nil in Hr.
  - intros l Hl. by apply elem_of_nil in Hl.
Qed.

Lemma postgres_list_children_witness :
  exists l, ListChildren (tableDB Tables) sampleTypes "/my_dir" sample_tables = Ok l /\
    forall md, md ∈ l <->
      exists q, records id sample_tables !! q = Some md /\ md_Path md <> "/" /\ pathDir (md_Path md) = "/my_dir".
Proof.
  refine (postgres_list_children (tableDB Tables) sampleTypes id (fun _ => True) "/my_dir" sample_tables _ _ _ _ _).
  - exact pg_sample_serving.
  - discriminate.
  - reflexivity.
  - vm_compute. reflexivity.
  - intros r Hr. cbn in Hr.
    repeat (apply elem_of_cons in Hr as [-> | Hr]; [eexists; split; reflexivity |]). by apply elem_of_nil in Hr.
Defined.

Example postgres_list_underscore :
  res_bind (ListChildren (tableDB Tables) sampleTypes "/my_dir" sample_tables) (fun l => Ok (map md_Path l)) = Ok ["/my_dir/g"].
Proof. vm_compute. reflexivity. Qed.

End PostgresSpec.
