(* ===== verification/RedisStore.v ===== *)
(** * The Redis metadata store: metadata/redis

    [RedisStore] over a Redis connection, which is a parameter: a keyspace of
    strings and sets, the commands the client sends, and [EVAL], which runs a
    script atomically.  The Lua scripts of the store are functions on the
    keyspace; documents are those of Json.v, and what Lua's cjson makes of a text
    is a parameter. *)
From S2P Require Import Prelude GoStrings Metadata GoTime Json.
From Stdlib Require Import Ascii String.
Import GoTime Json.
Open Scope string_scope.
Open Scope bool_scope.
Open Scope go_scope.

Module RedisStore.

(** ** The keyspace and the commands on it *)

Inductive rvalue : Type :=
| RStr (s : string)
| RSet (m : gset string).

Abbreviation Keyspace := (gmap string rvalue).

Definition wrongType : string := "WRONGTYPE Operation against a key holding the wrong kind of value".

(** A script: its effect on the keyspace and its value, or the text of the error
    it ends in; what it did before stays done. *)
Definition Lua (A : Type) : Type := Keyspace -> Keyspace * (A + string).
Definition lua_ret {A} (a : A) : Lua A := fun ks => (ks, inl a).
Definition lua_error {A} (msg : string) : Lua A := fun ks => (ks, inr msg).
Definition lua_bind {A B} (m : Lua A) (k : A -> Lua B) : Lua B := fun ks =>
  match m ks with (ks', inl a) => k a ks' | (ks', inr e) => (ks', inr e) end.
Notation "'lua' x <- m ; k" := (lua_bind m (fun x => k))
  (at level 10, x pattern, m at level 100, k at level 200).

Definition call_GET (k : string) : Lua (option string) := fun ks =>
  match ks !! k with
  | None => (ks, inl None)
  | Some (RStr s) => (ks, inl (Some s))
  | Some (RSet _) => (ks, inr wrongType)
  end.
Definition call_SET (k v : string) : Lua unit := fun ks => (<[k := RStr v]> ks, inl tt).
Definition call_SETNX (k v : string) : Lua bool := fun ks =>
  match ks !! k with Some _ => (ks, inl false) | None => (<[k := RStr v]> ks, inl true) end.
Definition call_EXISTS (k : string) : Lua bool := fun ks =>
  (ks, inl (match ks !! k with Some _ => true | None => false end)).
Definition call_DEL (k : string) : Lua unit := fun ks => (delete k ks, inl tt).
Definition call_SADD (k m : string) : Lua unit := fun ks =>
  match ks !! k with
  | None => (<[k := RSet {[ m ]}]> ks, inl tt)
  | Some (RSet s) => (<[k := RSet ({[ m ]} ∪ s)]> ks, inl tt)
  | Some (RStr _) => (ks, inr wrongType)
  end.
(** A set that becomes empty is removed. *)
Definition call_SREM (k m : string) : Lua unit := fun ks =>
  match ks !! k with
  | None => (ks, inl tt)
  | Some (RSet s) =>
      let s' := s ∖ {[ m ]} in
      (if decide (s' = ∅) then delete k ks else <[k := RSet s']> ks, inl tt)
  | Some (RStr _) => (ks, inr wrongType)
  end.

(** [INCR]: the next value of a counter, none when the key holds no integer. *)
Definition incr_value (o : option rvalue) : option Z :=
  match o with
  | None => Some 1%Z
  | Some (RStr s) => (fun n => n + 1)%Z <$> Atoi s
  | Some (RSet _) => None
  end.

(** ** The connection *)
Record RedisConn (W : Type) := mkRedisConn {
  rc_Get : string -> W -> Res (option string);
  rc_Set : string -> string -> St W (Res unit);
  rc_SetNX : string -> string -> St W (Res bool);
  rc_Incr : string -> St W (Res Z);
  rc_Del : string -> St W (Res unit);
  rc_SMembers : string -> W -> Res (list string);
  rc_Scan : string -> W -> list string * option gerr;
  rc_Eval : forall A, Lua A -> St W (Res A);
}.
Arguments rc_Get {W}. Arguments rc_Set {W}. Arguments rc_SetNX {W}. Arguments rc_Incr {W}.
Arguments rc_Del {W}. Arguments rc_SMembers {W}. Arguments rc_Scan {W}. Arguments rc_Eval {W} _ {A}.

(** ** Keys *)

Definition parentPath (path : string) : string :=
  if String.eqb path "/" then "/"
  else
    let parent := filepath_Dir path in
    if String.eqb parent "." then "/"
    else if negb (HasPrefix parent "/") then "/" +:+ parent else parent.

Definition normalizePath (path : string) : string :=
  if String.eqb path "" then "/"
  else if negb (HasPrefix path "/") then "/" +:+ path else path.

(** [NewRedisStore]: the default of the prefix and the result of the ping. *)
Definition NewRedisStore (ping : Res unit) (prefix : string) : Res string :=
  let prefix := if String.eqb prefix "" then "callfs:" else prefix in
  match ping with
  | Err e => Err (EWrap "failed to connect to redis metadata store" e)
  | Ok _ => Ok prefix
  end.

Section RedisStore.
Context {W : Type} (client : RedisConn W) (codec : Codec) (prefix : string).
(** cjson, by the documents it reads and writes. *)
Context (cjson_decode : string -> option json) (cjson_encode : json -> string).

Definition metadataKey (path : string) : string := prefix +:+ "md:" +:+ normalizePath path.
Definition childrenKey (path : string) : string := prefix +:+ "children:" +:+ normalizePath path.
Definition linkKey (token : string) : string := prefix +:+ "sul:" +:+ token.
Definition sequenceKey (name : string) : string := prefix +:+ "seq:" +:+ name.
Definition erasureKey (filePath : string) : string := prefix +:+ "erasure:" +:+ normalizePath filePath.

(** [json.Unmarshal] of a text. *)
Definition decodeText {A} (unmarshal : json -> Res A) (raw : string) : Res A :=
  match json_decode codec raw with Some j => unmarshal j | None => Err decodeError end.

(** ** Metadata *)

Definition Get (path : string) (w : W) : Res Metadata :=
  match rc_Get client (metadataKey path) w with
  | Err e => Err (EWrap "failed to get metadata" e)
  | Ok None => Err ErrNotFound
  | Ok (Some raw) => res_wrap "failed to decode metadata" (decodeText unmarshalMetadata raw)
  end.

Definition orNow (t now : Time) : Time := if (t =? 0)%Z then now else t.

Definition stampCreate (now : Time) (md : Metadata) : Metadata :=
  mkMetadata (md_ID md) (md_ParentID md) (md_Name md) (md_Path md) (md_Type md) (md_Size md) (md_Mode md)
    (md_UID md) (md_GID md) (orNow (md_ATime md) now) (orNow (md_MTime md) now) (orNow (md_CTime md) now)
    (md_BackendType md) (md_ErasureCoded md) (md_CallFSInstanceID md) (md_SymlinkTarget md) now now.

Definition set_ID (v : Z) (m : Metadata) : Metadata :=
  mkMetadata v (md_ParentID m) (md_Name m) (md_Path m) (md_Type m) (md_Size m) (md_Mode m)
    (md_UID m) (md_GID m) (md_ATime m) (md_MTime m) (md_CTime m) (md_BackendType m)
    (md_ErasureCoded m) (md_CallFSInstanceID m) (md_SymlinkTarget m) (md_CreatedAt m) (md_UpdatedAt m).

Definition luaCreate (key1 key2 arg1 arg2 : string) : Lua string :=
  lua stored <- call_SETNX key1 arg1;
  if negb stored then lua_error "already_exists"
  else
    lua _ <- call_SADD key2 arg2;
    lua_ret "OK".

Definition Create (now : Time) (md : Metadata) : St W (Metadata * Res unit) := fun w =>
  let md := stampCreate now md in
  match rc_Incr client (sequenceKey "inode") w with
  | (w, Err e) => (w, (md, Err (EWrap "failed to allocate metadata id" e)))
  | (w, Ok id) =>
      let md := set_ID id md in
      match marshalMetadata md with
      | Err e => (w, (md, Err (EWrap "failed to encode metadata" e)))
      | Ok j =>
          let raw := json_encode codec j in
          let mdKey := metadataKey (md_Path md) in
          let childKey := childrenKey (parentPath (md_Path md)) in
          match rc_Eval client (luaCreate mdKey childKey raw (md_Path md)) w with
          | (w, Err err) =>
              if Contains (errorText err) "already_exists" then (w, (md, Err ErrAlreadyExists))
              else (w, (md, Err (EWrap "failed to create metadata" err)))
          | (w, Ok _) => (w, (md, Ok tt))
          end
      end
  end.

Definition Update (now : Time) (md : Metadata) : St W (Metadata * Res unit) := fun w =>
  match Get (md_Path md) w with
  | Err e => (w, (md, Err e))
  | Ok _ =>
      let md := set_UpdatedAt now md in
      match marshalMetadata md with
      | Err e => (w, (md, Err (EWrap "failed to encode metadata" e)))
      | Ok j =>
          match rc_Set client (metadataKey (md_Path md)) (json_encode codec j) w with
          | (w, Err e) => (w, (md, Err (EWrap "failed to update metadata" e)))
          | (w, Ok _) => (w, (md, Ok tt))
          end
      end
  end.

Definition luaDelete (key1 key2 key3 arg1 : string) : Lua string :=
  lua exists_ <- call_EXISTS key1;
  if negb exists_ then lua_error "not_found"
  else
    lua _ <- call_DEL key1;
    lua _ <- call_SREM key2 arg1;
    lua _ <- call_DEL key3;
    lua_ret "OK".

Definition Delete (path : string) : St W (Res unit) := fun w =>
  let mdKey := metadataKey path in
  let parentChildKey := childrenKey (parentPath path) in
  let ownChildKey := childrenKey path in
  match rc_Eval client (luaDelete mdKey parentChildKey ownChildKey path) w with
  | (w, Err err) =>
      if Contains (errorText err) "not_found" then (w, Err ErrNotFound)
      else (w, Err (EWrap "failed to delete metadata" err))
  | (w, Ok _) => (w, Ok tt)
  end.

(** The loop over the paths: a record that is gone is skipped. *)
Fixpoint getChildren (paths : list string) (w : W) : Res (list Metadata) :=
  match paths with
  | [] => Ok []
  | path :: rest =>
      match Get path w with
      | Err e => if bool_decide (e = ErrNotFound) then getChildren rest w else Err e
      | Ok md => let! children := getChildren rest w in Ok (md :: children)
      end
  end.

(** The order of [sort.Slice]: type descending, then the name without case. *)
Definition childLe (a b : Metadata) : Prop :=
  ~ strings.String.le (md_Type a) (md_Type b) \/
  (md_Type a = md_Type b /\ strings.String.le (ToLower (md_Name a)) (ToLower (md_Name b))).
#[global] Instance childLe_dec : RelDecision childLe.
Proof. intros a b. unfold childLe. apply _. Defined.

Definition ListChildren (parentPath : string) (w : W) : Res (list Metadata) :=
  match rc_SMembers client (childrenKey parentPath) w with
  | Err e => Err (EWrap "failed to list child paths" e)
  | Ok paths => let! children := getChildren paths w in Ok (merge_sort childLe children)
  end.

(** ** Single-use links *)

Definition GetSingleUseLink (token : string) (w : W) : Res SingleUseLink :=
  match rc_Get client (linkKey token) w with
  | Err e => Err (EWrap "failed to get single-use link" e)
  | Ok None => Err ErrNotFound
  | Ok (Some raw) => res_wrap "failed to decode single-use link" (decodeText unmarshalLink raw)
  end.

Definition stampLink (now : Time) (id : Z) (l : SingleUseLink) : SingleUseLink :=
  mkLink id (lk_Token l) (lk_FilePath l) (lk_Status l) (lk_ExpiresAt l) (lk_UsedAt l) (lk_UsedByIP l)
    (lk_HMACSignature l) (orNow (lk_CreatedAt l) now) now.

Definition CreateSingleUseLink (now : Time) (link : SingleUseLink) : St W (Res unit) := fun w =>
  match rc_Incr client (sequenceKey "link") w with
  | (w, Err e) => (w, Err (EWrap "failed to allocate single-use link id" e))
  | (w, Ok id) =>
      match marshalLink (stampLink now id link) with
      | Err e => (w, Err (EWrap "failed to encode single-use link" e))
      | Ok j =>
          match rc_SetNX client (linkKey (lk_Token link)) (json_encode codec j) w with
          | (w, Err e) => (w, Err (EWrap "failed to create single-use link" e))
          | (w, Ok stored) => if negb stored then (w, Err ErrAlreadyExists) else (w, Ok tt)
          end
      end
  end.

(** A Lua table: the fields of an object, compared exactly; a missing field is
    nil. *)
Fixpoint lua_field (name : string) (o : list (string * json)) : option json :=
  match o with
  | [] => None
  | (k, v) :: o' =>
      match lua_field name o' with
      | Some v' => Some v'
      | None => if String.eqb k name then Some v else None
      end
  end.

Definition lua_set (name : string) (v : json) (o : list (string * json)) : list (string * json) :=
  (List.filter (fun kv => negb (String.eqb kv.1 name)) o ++ [(name, v)])%list.

(** [link.Status ~= "active"]. *)
Definition luaActive (o : list (string * json)) : bool :=
  match lua_field "Status" o with Some (JStr s) => String.eqb s "active" | _ => false end.

Definition luaUpdateLink (key1 arg1 arg2 arg3 arg4 : string) : Lua string :=
  lua raw <- call_GET key1;
  match raw with
  | None => lua_error "not_found"
  | Some raw =>
      match cjson_decode raw with
      | Some (JObj link) =>
          if negb (luaActive link) then lua_error "not_active"
          else
            let link := lua_set "Status" (JStr arg1) link in
            let link := if negb (String.eqb arg2 "") then lua_set "UsedAt" (JStr arg2) link else link in
            let link := if negb (String.eqb arg3 "") then lua_set "UsedByIP" (JStr arg3) link else link in
            let link := lua_set "UpdatedAt" (JStr arg4) link in
            lua _ <- call_SET key1 (cjson_encode (JObj link));
            lua_ret "OK"
      | Some (JArr _) | Some (JStr _) => lua_error "not_active"   (* no such field *)
      | _ => lua_error "cjson"
      end
  end.

Definition UpdateSingleUseLink (now : Time) (token status : string) (usedAt : option Time)
    (usedByIP : option string) : St W (Res unit) := fun w =>
  let usedAtStr := match usedAt with Some u => FormatRFC3339Nano u | None => "" end in
  let usedByIPStr := default "" usedByIP in
  match rc_Eval client (luaUpdateLink (linkKey token) status usedAtStr usedByIPStr (FormatRFC3339Nano now)) w with
  | (w, Err err) =>
      let errMsg := errorText err in
      if Contains errMsg "not_found" then (w, Err ErrNotFound)
      else if Contains errMsg "not_active" then (w, Err ErrNotFound)
      else (w, Err (EWrap "failed to update single-use link" err))
  | (w, Ok _) => (w, Ok tt)
  end.

(** The loop of the clean-up operations over the keys of the scan. *)
Fixpoint cleanupKeys (gone : SingleUseLink -> bool) (keys : list string) (count : Z) : St W Z := fun w =>
  match keys with
  | [] => (w, count)
  | key :: rest =>
      match rc_Get client key w with
      | Ok (Some raw) =>
          match decodeText unmarshalLink raw with
          | Ok link =>
              if gone link then
                match rc_Del client key w with
                | (w, Ok _) => cleanupKeys gone rest (count + 1)%Z w
                | (w, Err _) => cleanupKeys gone rest count w
                end
              else cleanupKeys gone rest count w
          | Err _ => cleanupKeys gone rest count w
          end
      | _ => cleanupKeys gone rest count w
      end
  end.

(** The keys are those of the scan at its start; a key that is gone when the
    loop reaches it is skipped. *)
Definition cleanup (msg : string) (gone : SingleUseLink -> bool) : St W (Res Z) := fun w =>
  let '(keys, err) := rc_Scan client (linkKey "*") w in
  let '(w, count) := cleanupKeys gone keys 0 w in
  match err with
  | Some e => (w, Err (EWrap msg e))
  | None => (w, Ok count)
  end.

Definition CleanupExpiredLinks (before : Time) : St W (Res Z) :=
  cleanup "failed to cleanup expired links" (fun link => Before (lk_ExpiresAt link) before).

Definition CleanupUsedLinks (olderThan : Time) : St W (Res Z) :=
  cleanup "failed to cleanup used links" (fun link =>
    String.eqb (lk_Status link) "used" &&
    match lk_UsedAt link with Some u => Before u olderThan | None => false end).

(** ** Erasure metadata *)

Definition CreateErasureInfo (filePath : string) (info : ErasureFileInfo) : St W (Res unit) := fun w =>
  match rc_SetNX client (erasureKey filePath) (json_encode codec (marshalErasure info)) w with
  | (w, Err e) => (w, Err (EWrap "failed to store erasure info" e))
  | (w, Ok stored) => if negb stored then (w, Err ErrAlreadyExists) else (w, Ok tt)
  end.

Definition GetErasureInfo (filePath : string) (w : W) : Res ErasureFileInfo :=
  match rc_Get client (erasureKey filePath) w with
  | Err e => Err (EWrap "failed to get erasure info" e)
  | Ok None => Err ErrNotFound
  | Ok (Some raw) => res_wrap "failed to decode erasure info" (decodeText unmarshalErasure raw)
  end.

Definition DeleteErasureInfo (filePath : string) : St W (Res unit) := fun w =>
  match rc_Del client (erasureKey filePath) w with
  | (w, Err e) => (w, Err (EWrap "failed to delete erasure info" e))
  | (w, Ok _) => (w, Ok tt)
  end.

Definition redisStore (clock : W -> Time) : Store W :=
  mkStore W Get (fun md w => Create (clock w) md w) (fun md w => Update (clock w) md w) Delete ListChildren
    GetSingleUseLink (fun l w => CreateSingleUseLink (clock w) l w)
    (fun t s u ip w => UpdateSingleUseLink (clock w) t s u ip w) CleanupExpiredLinks CleanupUsedLinks.

End RedisStore.

End RedisStore.
