(* ===== verification/RedisStoreSpec.v ===== *)
(** * What the Redis store promises

    The record contract over the keys of the store, the listing of children from
    the sets beside them, the erasure metadata, and the links, which the script
    of UpdateSingleUseLink never finds active. *)
From S2P Require Import Prelude GoStrings Metadata GoTime Json RedisStore.
From Stdlib Require Import Ascii String.
Import GoTime Json RedisStore.
Open Scope string_scope.
Open Scope bool_scope.

Module RedisStoreSpec.

(** ** The entries under a prefix, as a map *)
Section PrefixMap.
Context {V A : Type} (pre : string) (g : V -> option A).

Definition prefix_entry (kv : string * V) : option (string * A) :=
  if HasPrefix kv.1 pre then (fun a => (TrimPrefix kv.1 pre, a)) <$> g kv.2 else None.
Definition prefix_map (ks : gmap string V) : gmap string A :=
  list_to_map (omap prefix_entry (map_to_list ks)).

Lemma prefix_entry_Some kv p a :
  prefix_entry kv = Some (p, a) <-> kv.1 = pre +:+ p /\ g kv.2 = Some a.
Proof.
  unfold prefix_entry. destruct kv as [k v]. cbn. split.
  - destruct (HasPrefix k pre) eqn:E; [| done]. apply HasPrefix_inv in E as (q & ->).
    rewrite TrimPrefix_app. destruct (g v); [| done]. by intros [= <- <-].
  - intros [-> ->]. by rewrite HasPrefix_app, TrimPrefix_app.
Qed.

Lemma prefix_entries_NoDup (l : list (string * V)) : NoDup l.*1 -> NoDup (omap prefix_entry l).*1.
Proof.
  induction l as [| kv l IH]; [constructor |]. cbn. intros H. apply NoDup_cons in H as [Hn H].
  specialize (IH H). destruct (prefix_entry kv) as [[p a] |] eqn:E; [| done]. cbn. apply NoDup_cons.
  split; [| done]. intros Hin. apply Hn. apply list_elem_of_fmap in Hin as ([p' a'] & Hp & Hin). cbn in Hp. subst p'.
  apply list_elem_of_omap in Hin as (kv' & Hin & E'). apply prefix_entry_Some in E as [E _], E' as [E' _].
  apply list_elem_of_fmap. exists kv'. split; [congruence | done].
Qed.

Lemma lookup_prefix_map ks p : prefix_map ks !! p = (ks !! (pre +:+ p)) ≫= g.
Proof.
  apply option_eq. intros a. unfold prefix_map.
  rewrite <- elem_of_list_to_map by (apply prefix_entries_NoDup, NoDup_fst_map_to_list).
  rewrite list_elem_of_omap. split.
  - intros ([k v] & Hin & E). apply elem_of_map_to_list in Hin. apply prefix_entry_Some in E as [Hk Hg].
    cbn in Hk, Hg. subst k. by rewrite Hin.
  - intros H. apply bind_Some in H as (v & Hv & Hg). exists (pre +:+ p, v). split; [by apply elem_of_map_to_list |].
    by apply prefix_entry_Some.
Qed.
End PrefixMap.

(** ** The documented behaviour of the server *)

(** A text without the special characters of a pattern. *)
Definition glob_plain (p : string) : bool :=
  negb (Contains p "*" || Contains p "?" || Contains p "[" || Contains p "\").

Class ConnLaws {W} (c : RedisConn W) (ks : W -> Keyspace) (up : W -> Prop) : Prop := {
  conn_Get : forall k w, up w -> rc_Get c k w =
    match ks w !! k with None => Ok None | Some (RStr s) => Ok (Some s) | Some (RSet _) => Err (EMsg wrongType) end;
  conn_Set : forall k v w w' r, up w -> rc_Set c k v w = (w', r) ->
    up w' /\ r = Ok tt /\ ks w' = <[k := RStr v]> (ks w);
  conn_SetNX : forall k v w w' r, up w -> rc_SetNX c k v w = (w', r) -> up w' /\
    match ks w !! k with
    | Some _ => r = Ok false /\ ks w' = ks w
    | None => r = Ok true /\ ks w' = <[k := RStr v]> (ks w)
    end;
  conn_Incr : forall k w w' r, up w -> rc_Incr c k w = (w', r) -> up w' /\
    match incr_value (ks w !! k) with
    | Some n => r = Ok n /\ ks w' = <[k := RStr (Itoa n)]> (ks w)
    | None => (exists e, r = Err e) /\ ks w' = ks w
    end;
  conn_Del : forall k w w' r, up w -> rc_Del c k w = (w', r) -> up w' /\ r = Ok tt /\ ks w' = delete k (ks w);
  conn_SMembers : forall k w, up w ->
    match ks w !! k with
    | None => rc_SMembers c k w = Ok []
    | Some (RSet s) => exists l, rc_SMembers c k w = Ok l /\ forall x, x ∈ l <-> x ∈ s
    | Some (RStr _) => exists e, rc_SMembers c k w = Err e
    end;
  conn_Scan : forall p w, up w -> glob_plain p = true ->
    exists l, rc_Scan c (p +:+ "*") w = (l, None) /\
      forall k, k ∈ l <-> is_Some (ks w !! k) /\ HasPrefix k p = true;
  conn_Eval : forall A (s : Lua A) w w' r, up w -> rc_Eval c s w = (w', r) ->
    up w' /\ ks w' = (s (ks w)).1 /\ r = match (s (ks w)).2 with inl a => Ok a | inr t => Err (EMsg t) end;
}.

(** A codec reads what it wrote; cjson finds the keys of a document. *)
Class CodecLaws (codec : Codec) (cjson_decode : string -> option json) : Prop := {
  codec_roundtrip : forall j, json_decode codec (json_encode codec j) = Some j;
  cjson_keys : forall o, exists o', cjson_decode (json_encode codec (JObj o)) = Some (JObj o') /\ map fst o' = map fst o;
}.

Section Spec.
Context {W : Type} (client : RedisConn W) (codec : Codec) (prefix : string)
  (cjson_decode : string -> option json) (cjson_encode : json -> string) (clock : W -> Time)
  (ks : W -> Keyspace) (up : W -> Prop) `{!ConnLaws client ks up} `{!CodecLaws codec cjson_decode}.

Definition mdPre : string := prefix +:+ "md:".
Definition chPre : string := prefix +:+ "children:".

Definition readMd (v : rvalue) : option Metadata :=
  match v with
  | RStr raw => match decodeText codec unmarshalMetadata raw with Ok md => Some md | Err _ => None end
  | RSet _ => None
  end.

Definition records (w : W) : gmap string Metadata := prefix_map mdPre readMd (ks w).

Definition good (p : string) : Prop := HasPrefix p "/" = true.

(** The keys of the store hold what it put there. *)
Record wf (m : Keyspace) : Prop := mkWf {
  wf_md : forall p v, m !! (mdPre +:+ p) = Some v ->
    exists md, readMd v = Some md /\ md_Path md = p;
  wf_children : forall p v, m !! (chPre +:+ p) = Some v ->
    exists s, v = RSet s /\ forall q, q ∈ s -> parentPath q = p /\ good q;
}.

Definition serving (w : W) : Prop := up w /\ wf (ks w).

Definition storable (md : Metadata) (w : W) : Prop :=
  good (md_Path md) /\ md_MTime md <> 0%Z /\ jsonYear (clock w) /\ md_json_ok md /\
  is_Some (incr_value (ks w !! sequenceKey prefix "inode")).

Lemma normalize_good p : good p -> normalizePath p = p.
Proof.
  unfold good, normalizePath. intros H. rewrite H. by destruct (String.eqb_spec p "") as [-> |].
Qed.

Lemma mdKey_good p : good p -> metadataKey prefix p = mdPre +:+ p.
Proof. intros H. unfold metadataKey, mdPre. by rewrite (normalize_good p H), str_app_assoc. Qed.

Lemma parentPath_good p : good (parentPath p).
Proof.
  unfold parentPath, good. destruct (String.eqb p "/"); [done |].
  destruct (String.eqb (filepath_Dir p) "."); [done |].
  destruct (HasPrefix (filepath_Dir p) "/") eqn:E; [done |]. cbn. by destruct (filepath_Dir p).
Qed.

Lemma chKey_good p : good p -> childrenKey prefix p = chPre +:+ p.
Proof. intros H. unfold childrenKey, chPre. by rewrite (normalize_good p H), str_app_assoc. Qed.

Lemma str_app_cancel (a b c : string) : a +:+ b = a +:+ c -> b = c.
Proof. induction a as [| x a IH]; [done |]. cbn. intros [= H]. by apply IH. Qed.

Lemma md_ch_ne p q : mdPre +:+ p <> chPre +:+ q.
Proof. unfold mdPre, chPre. rewrite <- !str_app_assoc. intros H. by apply str_app_cancel in H. Qed.

Lemma seq_md_ne n p : sequenceKey prefix n <> mdPre +:+ p.
Proof. unfold sequenceKey, mdPre. rewrite <- !str_app_assoc. intros H. by apply str_app_cancel in H. Qed.

Lemma seq_ch_ne n p : sequenceKey prefix n <> chPre +:+ p.
Proof. unfold sequenceKey, chPre. rewrite <- !str_app_assoc. intros H. by apply str_app_cancel in H. Qed.

Lemma mdPre_inj p q : mdPre +:+ p = mdPre +:+ q -> p = q.
Proof. apply str_app_cancel. Qed.

Lemma lookup_records w p : records w !! p = (ks w !! (mdPre +:+ p)) ≫= readMd.
Proof. apply lookup_prefix_map. Qed.

(** The record map after a change, by the keys it touches. *)
Lemma records_same w w' :
  (forall p, ks w' !! (mdPre +:+ p) = ks w !! (mdPre +:+ p)) -> records w' = records w.
Proof. intros H. apply map_eq. intros p. by rewrite !lookup_records, H. Qed.

Lemma records_insert w w' p v md :
  ks w' !! (mdPre +:+ p) = Some v -> readMd v = Some md ->
  (forall q, q <> p -> ks w' !! (mdPre +:+ q) = ks w !! (mdPre +:+ q)) ->
  records w' = <[p := md]> (records w).
Proof.
  intros Hp Hv H. apply map_eq. intros q. destruct (decide (p = q)) as [<- | Hne].
  - by rewrite lookup_insert_eq, lookup_records, Hp.
  - rewrite lookup_insert_ne, !lookup_records, H by done. done.
Qed.

Lemma wf_incr m n v : wf m -> wf (<[sequenceKey prefix n := v]> m).
Proof.
  intros [H1 H2]. split; intros p x; rewrite lookup_insert_ne by (apply seq_md_ne || apply seq_ch_ne); auto.
Qed.

Lemma readMd_encode md j : md_json_ok md -> marshalMetadata md = Ok j ->
  readMd (RStr (json_encode codec j)) = Some md.
Proof.
  intros Hok Hj. destruct (json_metadata_roundtrip md Hok) as (j' & Hj' & Hd).
  rewrite Hj in Hj'. injection Hj' as <-. unfold readMd, decodeText. by rewrite codec_roundtrip, Hd.
Qed.

Lemma Get_spec p w : serving w -> good p ->
  Get client codec prefix p w = match records w !! p with Some md => Ok md | None => Err ErrNotFound end.
Proof.
  intros [Hu Hwf] Hp. unfold Get. rewrite (mdKey_good p Hp), (conn_Get _ _ Hu), lookup_records.
  destruct (ks w !! (mdPre +:+ p)) as [v |] eqn:E; [| done].
  destruct (wf_md _ Hwf p v E) as (md & Hv & _). destruct v as [raw | s]; [| done]. cbn in *.
  destruct (decodeText codec unmarshalMetadata raw); [by injection Hv as -> | done].
Qed.

(** The script of Create on a free key. *)
Lemma luaCreate_free m p raw : wf m -> good p -> m !! (mdPre +:+ p) = None ->
  exists s, luaCreate (mdPre +:+ p) (chPre +:+ parentPath p) raw p m =
    (<[chPre +:+ parentPath p := RSet ({[ p ]} ∪ s)]> (<[mdPre +:+ p := RStr raw]> m), inl "OK") /\
    (forall q, q ∈ s -> parentPath q = parentPath p /\ good q) /\
    forall s0, m !! (chPre +:+ parentPath p) = Some (RSet s0) -> s = s0.
Proof.
  intros Hwf Hp Hn. unfold luaCreate, lua_bind, call_SETNX. rewrite Hn. cbn [negb]. unfold call_SADD.
  rewrite lookup_insert_ne by (intros E; by apply md_ch_ne in E).
  destruct (m !! (chPre +:+ parentPath p)) as [v |] eqn:E.
  - destruct (wf_children _ Hwf _ _ E) as (s & -> & Hs). exists s.
    split; [done |]. split; [done |]. by intros ? [= <-].
  - exists ∅. rewrite union_empty_r_L. split; [done |]. split; [set_solver | by intros].
Qed.

Lemma wf_create m p raw md s :
  wf m -> good p -> readMd (RStr raw) = Some md -> md_Path md = p ->
  (forall q, q ∈ s -> parentPath q = parentPath p /\ good q) ->
  wf (<[chPre +:+ parentPath p := RSet ({[ p ]} ∪ s)]> (<[mdPre +:+ p := RStr raw]> m)).
Proof.
  intros [H1 H2] Hp Hr Hmd Hs. split.
  - intros q v. rewrite lookup_insert_ne by (intros E; symmetry in E; by apply md_ch_ne in E).
    intros Hq. apply lookup_insert_Some in Hq as [[E <-] | [_ Hq]]; [| by apply H1].
    apply mdPre_inj in E as <-. by exists md.
  - intros q v Hq. apply lookup_insert_Some in Hq as [[E <-] | [_ Hq]].
    + apply str_app_cancel in E as <-. eexists. split; [done |]. intros x Hx.
      apply elem_of_union in Hx as [Hx | Hx]; [| by apply Hs]. by apply elem_of_singleton in Hx as ->.
    + rewrite lookup_insert_ne in Hq by apply md_ch_ne. by apply H2.
Qed.

Lemma json_orNow_year t now : jsonYear t -> jsonYear now -> jsonYear (orNow t now).
Proof. unfold orNow. by destruct (t =? 0)%Z. Qed.

Lemma stamped_ok md w id : storable md w -> md_json_ok (set_ID id (stampCreate (clock w) md)) /\
  same_file md (set_ID id (stampCreate (clock w) md)).
Proof.
  intros (_ & Hm & Hn & Hok & _). pose proof (mj_times md Hok) as (Ta & _ & Tc & _ & _).
  assert (Hs : same_file md (set_ID id (stampCreate (clock w) md))).
  { unfold same_file, stampCreate, set_ID, orNow. cbn. apply Z.eqb_neq in Hm. by rewrite Hm. }
  split; [| done]. apply (json_ok_of_same md); try done; cbn; by try apply json_orNow_year.
Qed.

(** The keyspace after the counter moved. *)
Lemma incr_spec n w w' r :
  serving w -> is_Some (incr_value (ks w !! sequenceKey prefix n)) ->
  rc_Incr client (sequenceKey prefix n) w = (w', r) ->
  exists id, r = Ok id /\ serving w' /\ records w' = records w /\
    forall p, ks w' !! (chPre +:+ p) = ks w !! (chPre +:+ p).
Proof.
  intros [Hu Hwf] [id Hi] E. apply conn_Incr in E as [Hu' E]; [| done]. rewrite Hi in E. destruct E as [-> E].
  exists id. split; [done |]. split; [split; [done | rewrite E; by apply wf_incr] |]. split.
  - apply records_same. intros p. rewrite E. by rewrite lookup_insert_ne by apply seq_md_ne.
  - intros p. rewrite E. by rewrite lookup_insert_ne by apply seq_ch_ne.
Qed.

(** What Create leaves in the children sets: the path joins the set of its parent. *)
Definition joined (p : string) (w w' : W) : Prop :=
  exists s, (forall q, ks w' !! (chPre +:+ q) =
      if decide (q = parentPath p) then Some (RSet ({[ p ]} ∪ s)) else ks w !! (chPre +:+ q)) /\
    forall s0, ks w !! (chPre +:+ parentPath p) = Some (RSet s0) -> s = s0.

Lemma Create_spec md w w' md' r :
  serving w -> storable md w -> Create client codec prefix (clock w) md w = (w', (md', r)) ->
  serving w' /\
  match records w !! md_Path md with
  | Some _ => r = Err ErrAlreadyExists /\ records w' = records w /\
      forall p, ks w' !! (chPre +:+ p) = ks w !! (chPre +:+ p)
  | None => r = Ok tt /\ records w' = <[md_Path md := md']> (records w) /\ same_file md md' /\
      joined (md_Path md) w w'
  end.
Proof.
  intros Hw Hs. pose proof Hs as (Hg & _ & _ & _ & Hi). unfold Create.
  destruct (rc_Incr client (sequenceKey prefix "inode") w) as [w1 r1] eqn:E1.
  destruct (incr_spec _ _ _ _ Hw Hi E1) as (id & -> & Hw1 & Hr1 & Hc1).
  destruct (stamped_ok md w id Hs) as [Hok Hsame]. set (md1 := set_ID id (stampCreate (clock w) md)) in *.
  destruct (json_metadata_roundtrip md1 Hok) as (j & Hj & _). rewrite Hj.
  change (md_Path md1) with (md_Path md). rewrite (mdKey_good _ Hg), (chKey_good _ (parentPath_good _)).
  set (script := luaCreate _ _ _ _). destruct (rc_Eval client script w1) as [w2 r2] eqn:E2.
  destruct Hw1 as [Hu1 Hwf1]. apply conn_Eval in E2 as (Hu2 & Hks & ->); [| done]. rewrite <- Hr1.
  pose proof (readMd_encode md1 j Hok Hj) as Hread.
  assert (El : records w1 !! md_Path md = (ks w1 !! (mdPre +:+ md_Path md)) ≫= readMd) by apply lookup_records.
  destruct (ks w1 !! (mdPre +:+ md_Path md)) as [v |] eqn:Ev.
  - destruct (wf_md _ Hwf1 _ _ Ev) as (old & Hold & _). rewrite El. cbn. rewrite Hold.
    assert (Hscript : script (ks w1) = (ks w1, inr "already_exists")).
    { subst script. unfold luaCreate, lua_bind, call_SETNX. by rewrite Ev. }
    rewrite Hscript in Hks |- *. cbn [fst snd] in *. cbn. intros [= <- <- <-].
    split; [split; [done | by rewrite Hks] |]. split; [done |]. split.
    + apply records_same. intros p. by rewrite Hks.
    + intros p. by rewrite Hks, Hc1.
  - rewrite El. cbn [mbind option_bind].
    destruct (luaCreate_free (ks w1) (md_Path md) (json_encode codec j) Hwf1 Hg Ev) as (s & Hscript & Hss & Hs0).
    fold script in Hscript. rewrite Hscript in Hks |- *. cbn [fst snd] in *. intros [= <- <- <-].
    split; [split; [done | rewrite Hks; by apply (wf_create _ _ _ md1)] |]. split; [done |].
    split; [| split; [done |]].
    + eapply records_insert; [| exact Hread |].
      * rewrite Hks, lookup_insert_ne by (intros E; symmetry in E; by apply md_ch_ne in E). by rewrite lookup_insert_eq.
      * intros q Hq. rewrite Hks, lookup_insert_ne by (intros E; symmetry in E; by apply md_ch_ne in E).
        rewrite lookup_insert_ne; [done |]. intros E. by apply mdPre_inj in E.
    + exists s. split.
      * intros q. rewrite Hks. destruct (decide (q = parentPath (md_Path md))) as [-> | Hne].
        -- by rewrite lookup_insert_eq.
        -- rewrite lookup_insert_ne by (intros E; apply str_app_cancel in E; congruence).
           rewrite lookup_insert_ne by apply md_ch_ne. apply Hc1.
      * intros s0 Hset. apply Hs0. by rewrite Hc1.
Qed.

Lemma Update_spec md w w' md' r :
  serving w -> storable md w -> Update client codec prefix (clock w) md w = (w', (md', r)) ->
  serving w' /\ (forall p, ks w' !! (chPre +:+ p) = ks w !! (chPre +:+ p)) /\
  match records w !! md_Path md with
  | None => r = Err ErrNotFound /\ records w' = records w
  | Some _ => r = Ok tt /\ records w' = <[md_Path md := md']> (records w) /\ same_file md md'
  end.
Proof.
  intros Hw (Hg & _ & Hn & Hok & _). pose proof (mj_times md Hok) as (Ta & _ & Tc & Tcr & _). unfold Update. rewrite (Get_spec _ _ Hw Hg).
  destruct (records w !! md_Path md) as [old |]; [| by intros [= <- <- <-]].
  set (md1 := set_UpdatedAt (clock w) md). assert (Hok1 : md_json_ok md1) by (by apply (json_ok_of_same md)).
  destruct (json_metadata_roundtrip md1 Hok1) as (j & Hj & _). rewrite Hj.
  change (md_Path md1) with (md_Path md). rewrite (mdKey_good _ Hg).
  destruct (rc_Set client (mdPre +:+ md_Path md) (json_encode codec j) w) as [w1 r1] eqn:E.
  destruct Hw as [Hu Hwf]. apply conn_Set in E as (Hu1 & -> & Hks); [| done]. intros [= <- <- <-].
  pose proof (readMd_encode md1 j Hok1 Hj) as Hread.
  split; [split; [done |]; rewrite Hks |].
  { split.
    - intros q v Hq. apply lookup_insert_Some in Hq as [[E <-] | [_ Hq]]; [| by apply (wf_md _ Hwf)].
      apply mdPre_inj in E as <-. by exists md1.
    - intros q v. rewrite lookup_insert_ne by apply md_ch_ne. apply (wf_children _ Hwf). }
  split; [intros p; rewrite Hks; by rewrite lookup_insert_ne by apply md_ch_ne |].
  split; [done |]. split; [| done]. eapply records_insert; [by rewrite Hks, lookup_insert_eq | done |].
  intros q Hq. rewrite Hks, lookup_insert_ne; [done |]. intros E. by apply mdPre_inj in E.
Qed.

Lemma call_SREM_spec k x m :
  (forall v, m !! k = Some v -> exists s, v = RSet s) ->
  exists m', call_SREM k x m = (m', inl tt) /\ (forall j, j <> k -> m' !! j = m !! j) /\
    (forall v, m' !! k = Some v -> exists s, m !! k = Some (RSet s) /\ v = RSet (s ∖ {[ x ]})) /\
    (forall s y, m !! k = Some (RSet s) -> y ∈ s -> y <> x -> m' !! k = Some (RSet (s ∖ {[ x ]}))).
Proof.
  intros Hset. unfold call_SREM. destruct (m !! k) as [v |] eqn:E.
  2:{ exists m. split; [done |]. split; [done |]. split; [| done]. intros v. by rewrite E. }
  destruct (Hset v eq_refl) as (s & ->). eexists. split; [reflexivity |].
  case_decide as Hd.
  - split; [intros j Hj; by rewrite lookup_delete_ne |]. split; [intros v; by rewrite lookup_delete_eq |].
    intros ? y [= <-] Hy Hne. exfalso. set_solver.
  - split; [intros j Hj; by rewrite lookup_insert_ne |].
    split; [intros v; rewrite lookup_insert_eq; intros [= <-]; by exists s |].
    intros ? y [= <-] Hy Hne. by rewrite lookup_insert_eq.
Qed.

(** The script of Delete on a stored record: the record and its own set go, and
    its path leaves the set of the parent. *)
Lemma luaDelete_run m p : wf m -> good p -> is_Some (m !! (mdPre +:+ p)) ->
  exists m', luaDelete (mdPre +:+ p) (chPre +:+ parentPath p) (chPre +:+ p) p m = (m', inl "OK") /\ wf m' /\
    (forall q, m' !! (mdPre +:+ q) = if decide (q = p) then None else m !! (mdPre +:+ q)) /\
    (forall q s x, q <> p -> m !! (chPre +:+ q) = Some (RSet s) -> x ∈ s -> x <> p ->
       exists s', m' !! (chPre +:+ q) = Some (RSet s') /\ x ∈ s').
Proof.
  intros Hwf Hg [v Hv]. unfold luaDelete, lua_bind, call_EXISTS. rewrite Hv. cbn [negb]. unfold call_DEL at 1.
  set (m1 := delete (mdPre +:+ p) m).
  assert (Hc1 : forall q, m1 !! (chPre +:+ q) = m !! (chPre +:+ q))
    by (intros q; apply lookup_delete_ne, md_ch_ne).
  destruct (call_SREM_spec (chPre +:+ parentPath p) p m1) as (m2 & -> & Hother & Hk & Hkeep).
  { intros x Hx. rewrite Hc1 in Hx. destruct (wf_children _ Hwf _ _ Hx) as (s & -> & _). by exists s. }
  unfold call_DEL, lua_ret. eexists. split; [reflexivity |].
  assert (Hmd : forall q, delete (chPre +:+ p) m2 !! (mdPre +:+ q) =
    if decide (q = p) then None else m !! (mdPre +:+ q)).
  { intros q. rewrite lookup_delete_ne by (intros E; symmetry in E; by apply md_ch_ne in E).
    rewrite Hother by apply md_ch_ne. subst m1. case_decide as Hq; [subst q; apply lookup_delete_eq |].
    apply lookup_delete_ne. intros E. by apply mdPre_inj in E. }
  split; [| split; [done |]].
  - split.
    + intros q x Hx. rewrite Hmd in Hx. case_decide; [done |]. by apply (wf_md _ Hwf).
    + intros q x Hx. apply lookup_delete_Some in Hx as [Hne Hx].
      destruct (decide (q = parentPath p)) as [-> | Hq].
      * apply Hk in Hx as (s & Hs & ->). rewrite Hc1 in Hs.
        destruct (wf_children _ Hwf _ _ Hs) as (s' & [= <-] & Hs'). eexists. split; [done |]. intros y Hy.
        apply Hs'. by apply elem_of_difference in Hy as [Hy _].
      * rewrite Hother, Hc1 in Hx by (intros E; by apply str_app_cancel in E). by apply (wf_children _ Hwf).
  - intros q s x Hne Hs Hx Hxp. rewrite lookup_delete_ne by (intros E; apply str_app_cancel in E; congruence).
    destruct (decide (q = parentPath p)) as [-> | Hq].
    + rewrite (Hkeep s x) by (done || by rewrite Hc1). exists (s ∖ {[ p ]}). set_solver.
    + rewrite Hother, Hc1 by (intros E; by apply str_app_cancel in E). by exists s.
Qed.

Lemma Delete_spec p w w' r :
  serving w -> good p -> Delete client prefix p w = (w', r) ->
  serving w' /\
  match records w !! p with
  | None => r = Err ErrNotFound /\ records w' = records w /\ ks w' = ks w
  | Some _ => r = Ok tt /\ records w' = delete p (records w) /\
      forall q s x, q <> p -> ks w !! (chPre +:+ q) = Some (RSet s) -> x ∈ s -> x <> p ->
        exists s', ks w' !! (chPre +:+ q) = Some (RSet s') /\ x ∈ s'
  end.
Proof.
  intros [Hu Hwf] Hg. unfold Delete. rewrite (mdKey_good _ Hg), (chKey_good _ Hg), (chKey_good _ (parentPath_good _)).
  set (script := luaDelete _ _ _ _). destruct (rc_Eval client script w) as [w1 r1] eqn:E.
  apply conn_Eval in E as (Hu1 & Hks & ->); [| done]. rewrite lookup_records.
  destruct (ks w !! (mdPre +:+ p)) as [v |] eqn:Ev.
  - destruct (luaDelete_run _ _ Hwf Hg (mk_is_Some _ _ Ev)) as (m' & Hs & Hwf' & Hmd & Hch).
    fold script in Hs. rewrite Hs in Hks |- *. cbn [fst snd] in *. intros [= <- <-].
    destruct (wf_md _ Hwf _ _ Ev) as (md & Hr & _). cbn [mbind option_bind]. rewrite Hr.
    split; [split; [done | by rewrite Hks] |]. split; [done |]. split; [| by rewrite Hks].
    apply map_eq. intros q. rewrite lookup_records, Hks, Hmd. case_decide as Hq.
    + subst q. by rewrite lookup_delete_eq.
    + rewrite lookup_delete_ne by done. by rewrite lookup_records.
  - assert (Hs : script (ks w) = (ks w, inr "not_found")).
    { subst script. unfold luaDelete, lua_bind, call_EXISTS. by rewrite Ev. }
    rewrite Hs in Hks |- *. cbn [fst snd] in *. cbn. intros [= <- <-].
    split; [split; [done | by rewrite Hks] |]. split; [done |]. split; [| done].
    apply records_same. intros q. by rewrite Hks.
Qed.

(** C19: The Redis store implements the contract of the metadata records on
    absolute paths and keeps every field of the records that JSON can carry:
    lookups, creations, updates and deletions are those of a finite map read off
    the keys of the store.  The records written must be of valid UTF-8 text (a
    byte that is none would be stored as U+FFFD), with times in the years 0 to
    9999 and a modification time that is set; the counter of the ids must be
    absent or a number that can be incremented. *)
Theorem redis_records_refine :
  RecordSpec (redisStore client codec prefix cjson_decode cjson_encode clock) records serving good storable
    id (fun _ _ md => md).
Proof.
  split; cbn [redisStore st_Get st_Create st_Update st_Delete].
  - intros p w Hw Hg. by apply Get_spec.
  - intros md w w' md' r Hw Hs E. destruct (Create_spec md w w' md' r Hw Hs E) as [Hw' H]. split; [done |].
    destruct (records w !! md_Path md); [by destruct H as (? & ? & _) | by destruct H as (? & ? & ? & _)].
  - intros md w w' md' r Hw Hs E. by destruct (Update_spec md w w' md' r Hw Hs E) as (Hw' & _ & H).
  - intros p w w' r Hw Hg E. destruct (Delete_spec p w w' r Hw Hg E) as [Hw' H]. split; [done |].
    destruct (records w !! p); by destruct H as (? & ? & _).
Qed.

(** ** Listing *)

(** Every record is in the set of its parent. *)
Definition linked (w : W) : Prop :=
  forall q, is_Some (records w !! q) ->
    exists s, ks w !! (chPre +:+ parentPath q) = Some (RSet s) /\ q ∈ s.

Lemma getChildren_spec paths w :
  serving w -> (forall q, q ∈ paths -> good q) ->
  exists l, getChildren client codec prefix paths w = Ok l /\
    forall md, md ∈ l <-> exists q, q ∈ paths /\ records w !! q = Some md.
Proof.
  intros Hw. induction paths as [| q paths IH]; intros Hg.
  { exists []. split; [done |]. intros md. split; [by intros H%elem_of_nil |]. intros (q & H & _). by apply elem_of_nil in H. }
  destruct IH as (l & El & Hl); [intros x Hx; apply Hg; by apply elem_of_cons; right |]. cbn [getChildren].
  rewrite (Get_spec q w Hw) by (apply Hg; by apply elem_of_cons; left).
  destruct (records w !! q) as [md |] eqn:E.
  - rewrite El. exists (md :: l). split; [done |]. intros x. rewrite elem_of_cons, Hl. split.
    + intros [-> | (y & Hy & Hx)]; [exists q | exists y]; rewrite elem_of_cons; auto.
    + intros (y & Hy & Hx). apply elem_of_cons in Hy as [-> | Hy]; [left; congruence | right; by exists y].
  - rewrite bool_decide_true by done. rewrite El. exists l. split; [done |]. intros x. rewrite Hl. split.
    + intros (y & Hy & Hx). exists y. by rewrite elem_of_cons; auto.
    + intros (y & Hy & Hx). apply elem_of_cons in Hy as [-> | Hy]; [congruence | by exists y].
Qed.

(** ListChildren of the Redis store answers exactly the records whose parent
    is the directory, as long as every record is in the set of its parent; the
    root is its own parent, so unlike the other stores it lists the root among
    the children of the root. *)
Theorem redis_list_children p w :
  serving w -> linked w -> good p ->
  (exists l, ListChildren client codec prefix p w = Ok l /\
    forall md, md ∈ l <-> exists q, records w !! q = Some md /\ parentPath q = p) /\
  (p = "/" -> forall root, records w !! "/" = Some root ->
    exists l, ListChildren client codec prefix "/" w = Ok l /\ root ∈ l).
Proof.
  intros Hw Hlk Hg.
  assert (Hmain : forall p, good p -> exists l, ListChildren client codec prefix p w = Ok l /\
    forall md, md ∈ l <-> exists q, records w !! q = Some md /\ parentPath q = p).
  { clear p Hg. intros p Hg. unfold ListChildren. rewrite (chKey_good _ Hg).
    pose proof Hw as [Hu Hwf]. pose proof (conn_SMembers (chPre +:+ p) w Hu) as Hm.
    assert (Hset : exists paths, rc_SMembers client (chPre +:+ p) w = Ok paths /\
      forall x, x ∈ paths <-> exists s, ks w !! (chPre +:+ p) = Some (RSet s) /\ x ∈ s).
    { destruct (ks w !! (chPre +:+ p)) as [v |] eqn:E.
      - destruct (wf_children _ Hwf _ _ E) as (s & -> & _). destruct Hm as (l & -> & Hl). exists l. split; [done |].
        intros x. rewrite Hl. split; [by exists s | by intros (? & [= <-] & ?)].
      - exists []. split; [done |]. intros x. split; [by intros H%elem_of_nil | by intros (? & ? & _)]. }
    destruct Hset as (paths & -> & Hp).
    destruct (getChildren_spec paths w Hw) as (l & -> & Hl).
    { intros q Hq. apply Hp in Hq as (s & Hs & Hq). destruct (wf_children _ Hwf _ _ Hs) as (? & [= <-] & H). by apply H. }
    exists (merge_sort childLe l). split; [done |]. intros md. rewrite merge_sort_Permutation, Hl. split.
    - intros (q & Hq & Hr). exists q. split; [done |]. apply Hp in Hq as (s & Hs & Hq).
      destruct (wf_children _ Hwf _ _ Hs) as (? & [= <-] & H). by apply H.
    - intros (q & Hr & <-). exists q. split; [| done]. apply Hp. apply Hlk. by exists md. }
  split; [by apply Hmain |]. intros -> root Hr. destruct (Hmain "/" Hg) as (l & El & Hl). exists l. split; [done |].
  apply Hl. by exists "/".
Qed.

(** The sets stay complete: Create adds to the set of the parent, and Delete of
    a record without children takes away its own entry only. *)
Lemma linked_create md w w' md' r :
  serving w -> storable md w -> linked w -> Create client codec prefix (clock w) md w = (w', (md', r)) -> linked w'.
Proof.
  intros Hw Hs Hlk E. destruct (Create_spec md w w' md' r Hw Hs E) as [_ H].
  destruct (records w !! md_Path md) as [old |].
  - destruct H as (_ & Hr & Hc). intros q. rewrite Hr, Hc. apply Hlk.
  - destruct H as (_ & Hr & _ & s & Hc & Hs0). intros q. rewrite Hr, Hc. intros Hq.
    destruct (decide (q = md_Path md)) as [-> | Hne].
    + rewrite decide_True by done. eexists. split; [done |]. apply elem_of_union. left. by apply elem_of_singleton.
    + rewrite lookup_insert_ne in Hq by done. destruct (Hlk q Hq) as (s' & Hs' & Hin).
      case_decide as Hp; [| by exists s']. eexists. split; [done |]. rewrite Hp in Hs'. rewrite (Hs0 _ Hs').
      apply elem_of_union. by right.
Qed.

Lemma linked_delete p w w' r :
  serving w -> good p -> linked w -> (forall q, is_Some (records w !! q) -> q <> p -> parentPath q <> p) ->
  Delete client prefix p w = (w', r) -> linked w'.
Proof.
  intros Hw Hg Hlk Hempty E. destruct (Delete_spec p w w' r Hw Hg E) as [_ H].
  destruct (records w !! p) as [old |].
  - destruct H as (_ & Hr & Hc). intros q. rewrite Hr. intros Hq.
    destruct (decide (p = q)) as [<- | Hne]; [rewrite lookup_delete_eq in Hq; by destruct Hq |].
    rewrite lookup_delete_ne in Hq by done. destruct (Hlk q Hq) as (s & Hs & Hin).
    by apply (Hc _ s); [apply Hempty | | |].
  - destruct H as (_ & Hr & Hc). intros q. rewrite Hr, Hc. apply Hlk.
Qed.

(** ** Single-use links *)

Definition sulPre : string := prefix +:+ "sul:".

Definition readLink (v : rvalue) : option SingleUseLink :=
  match v with
  | RStr raw => match decodeText codec unmarshalLink raw with Ok l => Some l | Err _ => None end
  | RSet _ => None
  end.

Definition links (w : W) : gmap string SingleUseLink := prefix_map sulPre readLink (ks w).

Lemma linkKey_pre t : linkKey prefix t = sulPre +:+ t.
Proof. unfold linkKey, sulPre. by rewrite str_app_assoc. Qed.

Lemma sul_md_ne t p : sulPre +:+ t <> mdPre +:+ p.
Proof. unfold sulPre, mdPre. rewrite <- !str_app_assoc. intros H. by apply str_app_cancel in H. Qed.

Lemma sul_ch_ne t p : sulPre +:+ t <> chPre +:+ p.
Proof. unfold sulPre, chPre. rewrite <- !str_app_assoc. intros H. by apply str_app_cancel in H. Qed.

Lemma lookup_links w t : links w !! t = (ks w !! (sulPre +:+ t)) ≫= readLink.
Proof. apply lookup_prefix_map. Qed.

(** A link entry can change without any effect on the records. *)
Lemma serving_link_key w w' t :
  serving w -> up w' -> (forall k, k <> sulPre +:+ t -> ks w' !! k = ks w !! k) ->
  serving w' /\ records w' = records w.
Proof.
  intros [_ Hwf] Hu H.
  assert (Hm : forall p, ks w' !! (mdPre +:+ p) = ks w !! (mdPre +:+ p)).
  { intros p. apply H. intros E. symmetry in E. by apply sul_md_ne in E. }
  split; [split; [done |] | by apply records_same]. split.
  - intros p v. rewrite Hm. apply (wf_md _ Hwf).
  - intros p v. rewrite H by (intros E; symmetry in E; by apply sul_ch_ne in E). apply (wf_children _ Hwf).
Qed.

Lemma lua_field_absent name o : name ∉ map fst o -> lua_field name o = None.
Proof.
  induction o as [| [k v] o IH]; [done |]. cbn [map fst lua_field]. intros H. apply not_elem_of_cons in H as [Hk H].
  rewrite (IH H). destruct (String.eqb_spec k name); [by subst | done].
Qed.

(** No document of a link has a key ["Status"]. *)
Lemma marshalLink_no_Status l j : marshalLink l = Ok j ->
  exists o, j = JObj o /\ "Status" ∉ map fst o.
Proof.
  unfold marshalLink. destruct (enc_time (lk_ExpiresAt l)); [| done]. cbn [res_bind].
  destruct (enc_opt_time (lk_UsedAt l)); [| done]. cbn [res_bind].
  destruct (enc_time (lk_CreatedAt l)); [| done]. cbn [res_bind].
  destruct (enc_time (lk_UpdatedAt l)); [| done]. cbn [res_bind]. intros [= <-].
  eexists. split; [reflexivity |]. cbn [map fst].
  intros H. repeat (apply elem_of_cons in H as [H | H]; [by rewrite <- (String.eqb_eq) in H |]). by apply elem_of_nil in H.
Qed.

Lemma luaUpdateLink_marshalled m k l j a1 a2 a3 a4 :
  marshalLink l = Ok j -> m !! k = Some (RStr (json_encode codec j)) ->
  luaUpdateLink cjson_decode cjson_encode k a1 a2 a3 a4 m = (m, inr "not_active").
Proof.
  intros Hj Hk. destruct (marshalLink_no_Status _ _ Hj) as (o & -> & Ho).
  destruct (cjson_keys (codec:=codec) o) as (o' & Hd & Hks).
  unfold luaUpdateLink, lua_bind, call_GET. rewrite Hk, Hd. unfold luaActive.
  by rewrite lua_field_absent by by rewrite Hks.
Qed.

Lemma stampLink_ok now id l : link_json_ok l -> jsonYear now -> link_json_ok (stampLink now id l).
Proof.
  intros [H1 H2 (T1 & T2 & T3 & T4)] Hn. split; [done | done |]. cbn. split; [done |].
  split; [by apply json_orNow_year | done].
Qed.

Lemma CreateSingleUseLink_spec now l w w' r :
  serving w -> link_json_ok l -> jsonYear now -> is_Some (incr_value (ks w !! sequenceKey prefix "link")) ->
  CreateSingleUseLink client codec prefix now l w = (w', r) ->
  serving w' /\ records w' = records w /\
  match ks w !! (sulPre +:+ lk_Token l) with
  | Some _ => r = Err ErrAlreadyExists /\ links w' = links w
  | None => r = Ok tt /\ exists id j, marshalLink (stampLink now id l) = Ok j /\
      ks w' !! (sulPre +:+ lk_Token l) = Some (RStr (json_encode codec j)) /\
      links w' = <[lk_Token l := stampLink now id l]> (links w)
  end.
Proof.
  intros Hw Hl Hn [id Hi] E. unfold CreateSingleUseLink in E.
  destruct (rc_Incr client (sequenceKey prefix "link") w) as [w1 r1] eqn:E1.
  destruct (incr_spec "link" w w1 r1 Hw (mk_is_Some _ _ Hi) E1) as (_ & _ & Hw1 & Hr1 & _).
  apply conn_Incr in E1 as [Hu1 H1]; [| apply Hw]. rewrite Hi in H1. destruct H1 as [-> Hk1].
  assert (Hs1 : forall t, ks w1 !! (sulPre +:+ t) = ks w !! (sulPre +:+ t)).
  { intros t. rewrite Hk1, lookup_insert_ne; [done |]. unfold sequenceKey, sulPre. rewrite <- !str_app_assoc.
    intros H. by apply str_app_cancel in H. }
  destruct (json_link_roundtrip _ (stampLink_ok now id l Hl Hn)) as (j & Hj & Hd). rewrite Hj in E.
  rewrite linkKey_pre in E. destruct (rc_SetNX client _ _ w1) as [w2 r2] eqn:E2.
  apply conn_SetNX in E2 as [Hu2 E2]; [| done]. rewrite Hs1 in E2.
  assert (Hlinks : links w1 = links w) by (apply map_eq; intros t; by rewrite !lookup_links, Hs1).
  destruct (ks w !! (sulPre +:+ lk_Token l)) as [v |].
  - destruct E2 as [-> Hk2]. cbn in E. injection E as <- <-. rewrite <- Hr1, <- Hlinks.
    destruct (serving_link_key w1 w2 (lk_Token l) Hw1 Hu2) as [Hw2 Hr2]; [by intros k _; rewrite Hk2 |].
    split; [done |]. split; [done |]. split; [done |]. apply map_eq. intros t. by rewrite !lookup_links, Hk2.
  - destruct E2 as [-> Hk2]. cbn in E. injection E as <- <-. rewrite <- Hr1, <- Hlinks.
    destruct (serving_link_key w1 w2 (lk_Token l) Hw1 Hu2) as [Hw2 Hr2].
    { intros k Hk. rewrite Hk2. by apply lookup_insert_ne. }
    split; [done |]. split; [done |]. split; [done |]. exists id, j.
    split; [done |]. split; [by rewrite Hk2, lookup_insert_eq |]. apply map_eq. intros t. rewrite lookup_links, Hk2.
    destruct (decide (lk_Token l = t)) as [<- | Hne].
    + rewrite !lookup_insert_eq. cbn. unfold decodeText. by rewrite codec_roundtrip, Hd.
    + rewrite !lookup_insert_ne; [by rewrite lookup_links | done |]. intros H. by apply str_app_cancel in H.
Qed.

(** A link of the Redis store can never be consumed: the script of
    UpdateSingleUseLink compares a field Status, the stored document has a key
    status, so right after a successful creation every update answers
    ErrNotFound, the keyspace stays as it is, and the link is still there. *)
Theorem redis_link_never_used now l w w1 :
  serving w -> link_json_ok l -> jsonYear now -> is_Some (incr_value (ks w !! sequenceKey prefix "link")) ->
  CreateSingleUseLink client codec prefix now l w = (w1, Ok tt) ->
  forall later status usedAt usedByIP w2 r,
    UpdateSingleUseLink client prefix cjson_decode cjson_encode later (lk_Token l) status usedAt usedByIP w1 = (w2, r) ->
    r = Err ErrNotFound /\ ks w2 = ks w1 /\
    exists stored, GetSingleUseLink client codec prefix (lk_Token l) w2 = Ok stored /\
      lk_Status stored = lk_Status l /\ lk_FilePath stored = lk_FilePath l.
Proof.
  intros Hw Hl Hn Hi E later status ua ip w2 r E2.
  destruct (CreateSingleUseLink_spec now l w w1 _ Hw Hl Hn Hi E) as (Hw1 & _ & H).
  destruct (ks w !! (sulPre +:+ lk_Token l)) as [v |]; [by destruct H |].
  destruct H as (_ & id & j & Hj & Hk & _). unfold UpdateSingleUseLink in E2. rewrite linkKey_pre in E2.
  set (script := luaUpdateLink _ _ _ _ _ _ _) in E2. destruct (rc_Eval client script w1) as [w3 r3] eqn:E3.
  apply conn_Eval in E3 as (Hu3 & Hk3 & ->); [| apply Hw1].
  assert (Hs : script (ks w1) = (ks w1, inr "not_active")) by (by eapply luaUpdateLink_marshalled).
  rewrite Hs in E2, Hk3. cbn in E2, Hk3. injection E2 as <- <-. split; [done |]. split; [done |].
  exists (stampLink now id l). split; [| done]. unfold GetSingleUseLink. rewrite linkKey_pre, (conn_Get _ _ Hu3), Hk3, Hk.
  destruct (json_link_roundtrip _ (stampLink_ok now id l Hl Hn)) as (j' & Hj' & Hd). rewrite Hj in Hj'.
  injection Hj' as <-. unfold decodeText. by rewrite codec_roundtrip, Hd.
Qed.

(** ** Clean-up *)

(** The links that stay when the loop passes the keys of a scan. *)
Definition swept (gone : SingleUseLink -> bool) (keys : list string) (m : gmap string SingleUseLink)
  : gmap string SingleUseLink :=
  filter (fun tl => ~ (gone tl.2 = true /\ (sulPre +:+ tl.1) ∈ keys)) m.

Lemma links_delete w w' t : ks w' = delete (sulPre +:+ t) (ks w) -> links w' = delete t (links w).
Proof.
  intros H. apply map_eq. intros q. rewrite lookup_links, H. destruct (decide (t = q)) as [<- | Hne].
  - by rewrite !lookup_delete_eq.
  - rewrite !lookup_delete_ne; [by rewrite lookup_links | done |]. intros E. by apply str_app_cancel in E.
Qed.

Lemma swept_skip gone k keys (w : W) :
  (forall t l, k = sulPre +:+ t -> links w !! t = Some l -> gone l = false) ->
  swept gone (k :: keys) (links w) = swept gone keys (links w).
Proof.
  intros H. apply map_filter_ext. intros t l Hl. cbn. rewrite elem_of_cons. split.
  - intros Hn [Hg Hin]. apply Hn. auto.
  - intros Hn [Hg [Hk | Hin]]; [| by apply Hn]. symmetry in Hk. rewrite (H t l Hk Hl) in Hg. done.
Qed.

Lemma swept_delete gone t l keys (m : gmap string SingleUseLink) :
  m !! t = Some l -> gone l = true ->
  swept gone ((sulPre +:+ t) :: keys) m = swept gone keys (delete t m).
Proof.
  intros Hl Hg. apply map_eq. intros q. apply option_eq. intros x. unfold swept.
  rewrite !map_lookup_filter_Some, lookup_delete_Some, elem_of_cons. cbn. split.
  - intros [Hq Hn]. split; [split; [| done] |].
    + intros <-. apply Hn. rewrite Hl in Hq. injection Hq as <-. auto.
    + intros [? ?]. apply Hn. auto.
  - intros [[Hne Hq] Hn]. split; [done |]. intros [Hgx [E | Hin]]; [| by apply Hn].
    apply str_app_cancel in E. congruence.
Qed.

Lemma cleanupKeys_spec gone keys : forall w count w' n,
  serving w -> (forall k, k ∈ keys -> HasPrefix k sulPre = true) ->
  cleanupKeys client codec gone keys count w = (w', n) ->
  serving w' /\ records w' = records w /\ links w' = swept gone keys (links w) /\
  (n = count + (Z.of_nat (size (links w)) - Z.of_nat (size (links w'))))%Z.
Proof.
  induction keys as [| k keys IH]; intros w count w' n Hw Hk E.
  { cbn in E. injection E as <- <-. split; [done |]. split; [done |]. split; [| lia].
    symmetry. apply map_filter_id. intros t l _ [_ H]. by apply elem_of_nil in H. }
  assert (Hk' : forall x, x ∈ keys -> HasPrefix x sulPre = true) by (intros x Hx; apply Hk; by apply elem_of_cons; right).
  destruct (HasPrefix_inv k sulPre) as (t & ->); [apply Hk; by apply elem_of_cons; left |].
  assert (Hskip : (forall l, links w !! t = Some l -> gone l = false) ->
    cleanupKeys client codec gone keys count w = (w', n) ->
    serving w' /\ records w' = records w /\ links w' = swept gone ((sulPre +:+ t) :: keys) (links w) /\
    (n = count + (Z.of_nat (size (links w)) - Z.of_nat (size (links w'))))%Z).
  { intros H E'. rewrite swept_skip; [by apply IH |]. intros q l Eq. apply str_app_cancel in Eq as <-. apply H. }
  cbn [cleanupKeys] in E. pose proof Hw as [Hu Hwf]. rewrite (conn_Get _ _ Hu) in E.
  pose proof (lookup_links w t) as Hl. destruct (ks w !! (sulPre +:+ t)) as [[raw | s] |].
  2:{ apply Hskip; [| done]. intros l. by rewrite Hl. }
  2:{ apply Hskip; [| done]. intros l. by rewrite Hl. }
  cbn [mbind option_bind readLink] in Hl. destruct (decodeText codec unmarshalLink raw) as [l | e].
  2:{ apply Hskip; [| done]. intros l. by rewrite Hl. }
  destruct (gone l) eqn:Eg; [| apply Hskip; [intros x; rewrite Hl; by intros [= <-] | done]].
  destruct (rc_Del client (sulPre +:+ t) w) as [w1 r1] eqn:E1.
  apply conn_Del in E1 as (Hu1 & -> & Hk1); [| done].
  destruct (serving_link_key w w1 t Hw Hu1) as [Hw1 Hr1]; [intros q Hq; rewrite Hk1; by apply lookup_delete_ne |].
  pose proof (links_delete w w1 t Hk1) as Hl1. destruct (IH w1 _ w' n Hw1 Hk' E) as (Hw' & Hr' & Hl' & Hn).
  split; [done |]. split; [by rewrite Hr' |]. split; [by rewrite Hl', Hl1, <- (swept_delete gone t l) |].
  rewrite Hl1, (map_size_delete_Some t (links w)) in Hn by by exists l.
  assert (size (links w) <> 0); [| lia]. intros Hz. apply map_size_empty_iff in Hz. rewrite Hz in Hl. by rewrite lookup_empty in Hl.
Qed.

Lemma cleanup_spec msg gone w w' r :
  serving w -> glob_plain sulPre = true -> cleanup client codec prefix msg gone w = (w', r) ->
  serving w' /\ records w' = records w /\
  links w' = filter (fun tl => gone tl.2 = false) (links w) /\
  r = Ok (Z.of_nat (size (links w)) - Z.of_nat (size (links w')))%Z.
Proof.
  intros Hw Hp. unfold cleanup. rewrite linkKey_pre.
  destruct (conn_Scan sulPre w (proj1 Hw) Hp) as (keys & -> & Hk).
  destruct (cleanupKeys client codec gone keys 0 w) as [w1 n] eqn:E. intros [= <- <-].
  destruct (cleanupKeys_spec gone keys w 0 w1 n Hw (fun k H => proj2 (proj1 (Hk k) H)) E) as (Hw1 & Hr & Hl & ->).
  split; [done |]. split; [done |]. split; [| done]. rewrite Hl. apply map_filter_ext. intros t l Ht. cbn.
  rewrite lookup_links in Ht. apply bind_Some in Ht as (v & Hv & _). split.
  - intros Hn. destruct (gone l); [| done]. exfalso. apply Hn. split; [done |]. apply Hk. split; [by exists v |].
    apply HasPrefix_app.
  - intros -> [? _]. done.
Qed.

(** The clean-up of the Redis store removes exactly the links that expired
    before the given time, whatever their status, or exactly those used before
    it, and answers how many it removed; the records stay. *)
Theorem redis_cleanup_exact time w :
  serving w -> glob_plain sulPre = true ->
  (forall w' r, CleanupExpiredLinks client codec prefix time w = (w', r) ->
    records w' = records w /\
    links w' = filter (fun tl => Before (lk_ExpiresAt tl.2) time = false) (links w) /\
    r = Ok (Z.of_nat (size (links w)) - Z.of_nat (size (links w')))%Z) /\
  (forall w' r, CleanupUsedLinks client codec prefix time w = (w', r) ->
    records w' = records w /\
    (forall t l, links w' !! t = Some l <-> links w !! t = Some l /\
      ~ (lk_Status l = "used" /\ exists u, lk_UsedAt l = Some u /\ Before u time = true)) /\
    r = Ok (Z.of_nat (size (links w)) - Z.of_nat (size (links w')))%Z).
Proof.
  intros Hw Hp. split; intros w' r E; eapply cleanup_spec in E as (_ & Hr & Hl & Hn); try done.
  split; [done |]. split; [| done]. intros t l. rewrite Hl, map_lookup_filter_Some. cbn.
  assert (Hd : String.eqb (lk_Status l) "used" &&
      match lk_UsedAt l with Some u => Before u time | None => false end = false <->
    ~ (lk_Status l = "used" /\ exists u, lk_UsedAt l = Some u /\ Before u time = true)); [| by rewrite Hd].
  rewrite andb_false_iff. destruct (String.eqb_spec (lk_Status l) "used") as [-> | Hs].
  - destruct (lk_UsedAt l) as [u |].
    + destruct (Before u time) eqn:Eb; [| split; [intros _ [_ (? & [= <-] & ?)]; congruence | by right]].
      split; [by intros [? | ?] | intros H; exfalso; apply H; split; [done | by exists u]].
    + split; [by intros _ [_ (? & ? & _)] | by right].
  - split; [by intros _ [? _] | by left].
Qed.

(** ** Erasure metadata *)

(** What CreateErasureInfo stores for a file is read back, and is gone after
    DeleteErasureInfo; a second creation is refused. *)
Lemma redis_erasure_roundtrip p info w w1 :
  up w -> utf8 (ei_FilePath info) -> Forall shard_utf8 (ei_Shards info) ->
  CreateErasureInfo client codec prefix p info w = (w1, Ok tt) ->
  GetErasureInfo client codec prefix p w1 = Ok info /\
  (CreateErasureInfo client codec prefix p info w1).2 = Err ErrAlreadyExists /\
  (forall w2 r, DeleteErasureInfo client prefix p w1 = (w2, r) ->
    r = Ok tt /\ GetErasureInfo client codec prefix p w2 = Err ErrNotFound).
Proof.
  intros Hu Hp Hs. unfold CreateErasureInfo, GetErasureInfo, DeleteErasureInfo. set (k := erasureKey prefix p).
  set (raw := json_encode codec (marshalErasure info)).
  destruct (rc_SetNX client k raw w) as [w' r] eqn:E. apply conn_SetNX in E as [Hu' E]; [| done].
  destruct (ks w !! k) as [v |] eqn:Ek; destruct E as [-> Hk]; [done |]. cbn. intros [= <-].
  assert (Hk1 : ks w' !! k = Some (RStr raw)) by (by rewrite Hk, lookup_insert_eq). split; [| split].
  - rewrite (conn_Get _ _ Hu'), Hk1. unfold decodeText, raw. by rewrite codec_roundtrip, json_erasure_roundtrip.
  - destruct (rc_SetNX client k raw w') as [w2 r2] eqn:E2. apply conn_SetNX in E2 as [_ E2]; [| done].
    rewrite Hk1 in E2. by destruct E2 as [-> _].
  - intros w2 r. destruct (rc_Del client k w') as [w3 r3] eqn:E3. apply conn_Del in E3 as (Hu3 & -> & Hk3); [| done].
    intros [= <- <-]. split; [done |]. by rewrite (conn_Get _ _ Hu3), Hk3, lookup_delete_eq.
Qed.

End Spec.

(** ** A concrete server and a concrete text of documents *)

(** The keyspace itself as the server. *)
Definition keyspaceConn : RedisConn Keyspace := {|
  rc_Get := fun k m => match m !! k with
    | None => Ok None | Some (RStr s) => Ok (Some s) | Some (RSet _) => Err (EMsg wrongType) end;
  rc_Set := fun k v m => (<[k := RStr v]> m, Ok tt);
  rc_SetNX := fun k v m => match m !! k with Some _ => (m, Ok false) | None => (<[k := RStr v]> m, Ok true) end;
  rc_Incr := fun k m => match incr_value (m !! k) with
    | Some n => (<[k := RStr (Itoa n)]> m, Ok n) | None => (m, Err (EMsg "ERR value is not an integer")) end;
  rc_Del := fun k m => (delete k m, Ok tt);
  rc_SMembers := fun k m => match m !! k with
    | None => Ok [] | Some (RSet s) => Ok (elements s) | Some (RStr _) => Err (EMsg wrongType) end;
  rc_Scan := fun p m =>
    (List.filter (fun k => HasPrefix k (TrimSuffix p "*")) (map_to_list m).*1, None);
  rc_Eval := fun A s m => ((s m).1, match (s m).2 with inl a => Ok a | inr t => Err (EMsg t) end);
|}.

#[global] Instance keyspaceConn_laws : ConnLaws keyspaceConn id (fun _ => True).
Proof.
  split; cbn.
  - done.
  - by intros k v w w' r _ [= <- <-].
  - intros k v w w' r _. by destruct (w !! k); intros [= <- <-].
  - intros k w w' r _. destruct (incr_value (w !! k)); intros [= <- <-]; [done |]. split; [done |]. split; [by eexists | done].
  - by intros k w w' r _ [= <- <-].
  - intros k w _. destruct (w !! k) as [[s | s] |]; [by eexists | | done].
    exists (elements s). split; [done |]. intros x. by rewrite elem_of_elements.
  - intros p w _ _. rewrite TrimSuffix_app. eexists. split; [reflexivity |]. intros k.
    rewrite list_elem_of_In, filter_In, <- list_elem_of_In, list_elem_of_fmap. split.
    + intros [([k' v] & -> & Hin) Hp]. apply elem_of_map_to_list in Hin. split; [by exists v | done].
    + intros [[v Hv] Hp]. split; [| done]. exists (k, v). split; [done |]. by apply elem_of_map_to_list.
  - by intros A s w w' r _ [= <- <-].
Qed.

#[global] Instance binaryCodec_laws : CodecLaws binaryCodec (json_decode binaryCodec).
Proof.
  pose proof binaryCodec_roundtrip as H.
  split; [done |]. intros o. exists o. by rewrite H.
Qed.

Definition sampleRedis : Store Keyspace :=
  redisStore keyspaceConn binaryCodec "callfs:" (json_decode binaryCodec) (json_encode binaryCodec) (fun _ => 9000%Z).

Definition redis_record (name path type : string) : Metadata :=
  mkMetadata 0 None name path type 0 "0755" 0 0 5000 5000 5000 "localfs" false (Some "srv") None 0 0.

(** A store with the root and a file in it. *)
Definition redis_w1 : Keyspace := (st_Create sampleRedis (redis_record "" "/" "directory") ∅).1.
Definition redis_w2 : Keyspace := (st_Create sampleRedis (redis_record "f" "/f" "file") redis_w1).1.

Lemma redis_record_ok name path type :
  utf8 name -> utf8 path -> utf8 type -> md_json_ok (redis_record name path type).
Proof.
  intros H1 H2 H3. split; cbn.
  - repeat split; done || vm_compute; reflexivity.
  - split; [intros s [= <-]; vm_compute; reflexivity | done].
  - repeat split; vm_compute; discriminate.
Qed.

Lemma redis_w2_state : serving binaryCodec "callfs:" id (fun _ => True) redis_w2 /\ linked binaryCodec "callfs:" id redis_w2.
Proof.
  assert (H0 : serving binaryCodec "callfs:" id (fun _ => True) (∅ : Keyspace)).
  { split; [done |]. split; intros p v; cbn; by rewrite lookup_empty. }
  assert (L0 : linked binaryCodec "callfs:" id (∅ : Keyspace)).
  { intros q. rewrite lookup_records. cbn. rewrite lookup_empty. by intros [? ?]. }
  assert (Hstep : forall name path type (w : Keyspace), utf8 name -> utf8 path -> utf8 type -> good path ->
    is_Some (incr_value (w !! sequenceKey "callfs:" "inode")) ->
    serving binaryCodec "callfs:" id (fun _ => True) w /\ linked binaryCodec "callfs:" id w ->
    serving binaryCodec "callfs:" id (fun _ => True) (st_Create sampleRedis (redis_record name path type) w).1 /\
    linked binaryCodec "callfs:" id (st_Create sampleRedis (redis_record name path type) w).1).
  { intros name path type w H1 H2 H3 Hg Hi [Hs Hl].
    assert (Hst : storable "callfs:" (fun _ => 9000%Z) id (redis_record name path type) w).
    { split; [done |]. split; [done |]. split; [vm_compute; split; discriminate |].
      split; [by apply redis_record_ok | done]. }
    destruct (st_Create sampleRedis (redis_record name path type) w) as [w' [md' r]] eqn:E. cbn [fst].
    split; [by destruct (Create_spec keyspaceConn binaryCodec "callfs:" (json_decode binaryCodec)
              (fun _ => 9000%Z) id (fun _ => True) _ w w' md' r Hs Hst E) |].
    by apply (linked_create keyspaceConn binaryCodec "callfs:" (json_decode binaryCodec) (fun _ => 9000%Z) id
                (fun _ => True) _ w w' md' r Hs Hst Hl E). }
  apply Hstep; try (vm_compute; reflexivity); [vm_compute; by eexists |].
  apply Hstep; try (vm_compute; reflexivity); [vm_compute; by eexists | done].
Qed.

Lemma redis_records_refine_witness :
  ConnLaws keyspaceConn id (fun _ => True) /\ CodecLaws binaryCodec (json_decode binaryCodec) /\
  RecordSpec sampleRedis (records binaryCodec "callfs:" id) (serving binaryCodec "callfs:" id (fun _ => True)) good
    (storable "callfs:" (fun _ => 9000%Z) id) id (fun _ _ md => md).
Proof.
  split; [apply keyspaceConn_laws |]. split; [apply binaryCodec_laws |].
  exact (redis_records_refine keyspaceConn binaryCodec "callfs:" (json_decode binaryCodec) (json_encode binaryCodec)
           (fun _ => 9000%Z) id (fun _ => True)).
Defined.

Lemma redis_list_children_witness :
  (exists l, ListChildren keyspaceConn binaryCodec "callfs:" "/" redis_w2 = Ok l /\
    forall md, md ∈ l <-> exists q, records binaryCodec "callfs:" id redis_w2 !! q = Some md /\ parentPath q = "/") /\
  ("/" = "/" -> forall root, records binaryCodec "callfs:" id redis_w2 !! "/" = Some root ->
    exists l, ListChildren keyspaceConn binaryCodec "callfs:" "/" redis_w2 = Ok l /\ root ∈ l).
Proof.
  refine (redis_list_children keyspaceConn binaryCodec "callfs:" id
            (fun _ => True) "/" redis_w2 _ _ _).
  - apply redis_w2_state.
  - apply redis_w2_state.
  - reflexivity.
Defined.

Example redis_lists_root :
  res_bind (ListChildren keyspaceConn binaryCodec "callfs:" "/" redis_w2) (fun l => Ok (map md_Path l)) = Ok ["/f"; "/"].
Proof. vm_compute. reflexivity. Qed.

Definition redis_link : SingleUseLink :=
  mkLink 0 "tok" "/f" "active" 50000 None None "sig" 0 0.
Definition redis_w3 : Keyspace := (st_CreateSingleUseLink sampleRedis redis_link redis_w2).1.

Lemma redis_link_ok : link_json_ok redis_link.
Proof.
  split; cbn.
  - repeat split; vm_compute; reflexivity.
  - done.
  - split; [vm_compute; split; discriminate |]. split; [vm_compute; split; discriminate |].
    split; [vm_compute; split; discriminate | done].
Qed.

Definition redis_consume : Keyspace * Res unit :=
  UpdateSingleUseLink keyspaceConn "callfs:" (json_decode binaryCodec) (json_encode binaryCodec) 9500
    (lk_Token redis_link) "used" (Some 9500%Z) (Some "10.0.0.1") redis_w3.

Lemma redis_link_never_used_witness :
  redis_consume.2 = Err ErrNotFound /\ id redis_consume.1 = id redis_w3 /\
  exists stored, GetSingleUseLink keyspaceConn binaryCodec "callfs:" (lk_Token redis_link) redis_consume.1 = Ok stored /\
    lk_Status stored = lk_Status redis_link /\ lk_FilePath stored = lk_FilePath redis_link.
Proof.
  assert (E : CreateSingleUseLink keyspaceConn binaryCodec "callfs:" 9000 redis_link redis_w2 = (redis_w3, Ok tt))
    by (vm_compute; reflexivity).
  refine (redis_link_never_used keyspaceConn binaryCodec "callfs:" (json_decode binaryCodec) (json_encode binaryCodec)
            id (fun _ => True) 9000 redis_link redis_w2 redis_w3 _ _ _ _ E 9500 "used" (Some 9500%Z) (Some "10.0.0.1")
            redis_consume.1 redis_consume.2 (surjective_pairing redis_consume)).
  - apply redis_w2_state.
  - apply redis_link_ok.
  - vm_compute. split; discriminate.
  - vm_compute. by eexists.
Defined.

Lemma redis_w3_serving : serving binaryCodec "callfs:" id (fun _ => True) redis_w3.
Proof.
  destruct (st_CreateSingleUseLink sampleRedis redis_link redis_w2) as [w r] eqn:E.
  replace redis_w3 with w by (unfold redis_w3; by rewrite E).
  apply (CreateSingleUseLink_spec keyspaceConn binaryCodec "callfs:" (json_decode binaryCodec) id (fun _ => True)
           9000 redis_link redis_w2 w r); [apply redis_w2_state | apply redis_link_ok | | | exact E].
  - vm_compute. split; discriminate.
  - vm_compute. by eexists.
Qed.

Definition redis_cleaned : Keyspace * Res Z := CleanupExpiredLinks keyspaceConn binaryCodec "callfs:" 60000 redis_w3.

Lemma redis_cleanup_exact_witness :
  records binaryCodec "callfs:" id redis_cleaned.1 = records binaryCodec "callfs:" id redis_w3 /\
  links binaryCodec "callfs:" id redis_cleaned.1 =
    filter (fun tl => Before (lk_ExpiresAt tl.2) 60000 = false) (links binaryCodec "callfs:" id redis_w3) /\
  redis_cleaned.2 = Ok (Z.of_nat (size (links binaryCodec "callfs:" id redis_w3)) -
                        Z.of_nat (size (links binaryCodec "callfs:" id redis_cleaned.1)))%Z.
Proof.
  refine (proj1 (redis_cleanup_exact keyspaceConn binaryCodec "callfs:"
            id (fun _ => True) 60000 redis_w3 _ _) redis_cleaned.1 redis_cleaned.2 (surjective_pairing redis_cleaned)).
  - apply redis_w3_serving.
  - reflexivity.
Defined.

Example redis_cleanup_runs :
  (CleanupExpiredLinks keyspaceConn binaryCodec "callfs:" 60000 redis_w3).2 = Ok 1%Z.
Proof. vm_compute. reflexivity. Qed.

End RedisStoreSpec.
