(* ===== verification/Engine.v ===== *)
(** * The engine: core/

    The operations of [Engine] over the interfaces of the components it
    orchestrates: metadata store, backends, internal proxy, lock manager,
    erasure manager, and its own metadata cache.

    The state is the world of those components plus the cache.  Deferred
    calls run where the function returns; log and metrics calls are left out.
    The clock is read from the world.  A [*metadata.Metadata] argument the code writes
    to is returned as the record the caller sees afterwards.  Records are
    values: a record that [GetMetadata] put into the cache is also the one it
    returns, but no caller writes to it before the cache entry is invalidated. *)
From S2P Require Import Prelude GoStrings PathUtil Metadata Cache Locks Backends InternalProxy Erasure.
From Stdlib Require Import Ascii String.
Open Scope string_scope.
Open Scope bool_scope.
Open Scope go_scope.

Module Engine.

(** The methods of the proxy adapter the engine calls by instance. *)
Record ProxyAdapter (W : Type) := mkProxyAdapter {
  pa_DeleteOnInstance : string -> string -> St W (Res unit);
  pa_StatOnInstance : string -> string -> St W (Res Metadata);
}.
Arguments pa_DeleteOnInstance {W}. Arguments pa_StatOnInstance {W}.

(** The choices of the Go runtime: the order in which a map is iterated over
    and in which the shard goroutines of a call end. *)
Record Schedule := mkSchedule {
  sc_range : Cache.MetadataCache -> list (string * Cache.CacheEntry);
  sc_shards : list ErasureShardInfo -> list ErasureShardInfo;
  sc_late : ErasureShardInfo -> bool;
}.

Record Engine (W : Type) := mkEngine {
  e_metadataStore : Store W;
  e_localFSBackend : Storage W;
  e_s3Backend : Storage W;
  e_internalProxyBackend : Storage W;
  e_internalProxyAdapter : option (ProxyAdapter W);
  e_lockManager : LockManager W;
  e_currentInstanceID : string;
  e_peerEndpoints : gmap string string;
  e_replicationEnabled : bool;
  e_replicaBackend : string;
  e_requireReplicaAck : bool;
  e_erasureManager : option (Erasure.Manager W);
  e_clock : W -> Time;
  e_sched : Schedule;
}.
Arguments e_metadataStore {W}. Arguments e_localFSBackend {W}. Arguments e_s3Backend {W}.
Arguments e_internalProxyBackend {W}. Arguments e_internalProxyAdapter {W}. Arguments e_lockManager {W}.
Arguments e_currentInstanceID {W}. Arguments e_peerEndpoints {W}. Arguments e_replicationEnabled {W}.
Arguments e_replicaBackend {W}. Arguments e_requireReplicaAck {W}. Arguments e_erasureManager {W}.
Arguments e_clock {W}. Arguments e_sched {W}.

Record EState (W : Type) := mkEState { es_world : W; es_cache : Cache.MetadataCache }.
Arguments mkEState {W}. Arguments es_world {W}. Arguments es_cache {W}.

(** [NewEngine]'s cache: five minutes, 1000 entries. *)
Definition newEngineCache : Cache.MetadataCache := Cache.NewMetadataCache (5 * Minute)%Z 1000.

(** The engine at its start, without an erasure manager; the clock and the choices
    of the runtime are arguments of the model. *)
Definition NewEngine {W} (metadataStore : Store W) (localFSBackend s3Backend internalProxyBackend : Storage W)
    (internalProxyAdapter : option (ProxyAdapter W)) (lockManager : LockManager W) (currentInstanceID : string)
    (peerEndpoints : gmap string string) (replicationEnabled : bool) (replicaBackend : string) (requireReplicaAck : bool)
    (clock : W -> Time) (sched : Schedule) : Engine W * Cache.MetadataCache :=
  (mkEngine W metadataStore localFSBackend s3Backend internalProxyBackend internalProxyAdapter lockManager currentInstanceID
     peerEndpoints replicationEnabled replicaBackend requireReplicaAck None clock sched, newEngineCache).

Section Engine.
Context {W : Type} (e : Engine W).

Definition SetErasureManager (em : Erasure.Manager W) : Engine W :=
  mkEngine W (e_metadataStore e) (e_localFSBackend e) (e_s3Backend e) (e_internalProxyBackend e) (e_internalProxyAdapter e)
    (e_lockManager e) (e_currentInstanceID e) (e_peerEndpoints e) (e_replicationEnabled e) (e_replicaBackend e)
    (e_requireReplicaAck e) (Some em) (e_clock e) (e_sched e).
Definition GetErasureManager : option (Erasure.Manager W) := e_erasureManager e.
Definition GetCurrentInstanceID : string := e_currentInstanceID e.
Abbreviation M A := (St (EState W) A) (only parsing).

Definition lift {A} (m : St W A) : M A := fun s =>
  let '(w', a) := m (es_world s) in (mkEState w' (es_cache s), a).
Definition now (s : EState W) : Time := e_clock e (es_world s).
Definition storeGet (path : string) : M (Res Metadata) :=
  gets (fun s => st_Get (e_metadataStore e) path (es_world s)).
Definition onCache (f : Cache.MetadataCache -> Cache.MetadataCache) : M unit := fun s =>
  (mkEState (es_world s) (f (es_cache s)), tt).
Definition cacheInvalidate (path : string) : M unit := onCache (Cache.Invalidate path).
Definition cacheInvalidatePrefix (prefix : string) : M unit :=
  onCache (fun c => Cache.InvalidatePrefix prefix (sc_range (e_sched e) c) c).

Definition GetPeerEndpoint (instanceID : string) : string :=
  match e_peerEndpoints e !! instanceID with Some endpoint => endpoint | None => "" end.

(** The start of every mutating operation: take the lock or return; the
    deferred release runs after the body and its error is only logged. *)
Definition withLock {A} (lockKey msg : string) (fail : gerr -> A) (body : M A) : M A :=
  do acquired <- lift (lm_Acquire (e_lockManager e) lockKey);
  match acquired with
  | Err er => ret (fail (EWrap "failed to acquire lock" er))
  | Ok false => ret (fail (EMsg msg))
  | Ok true =>
      do r <- body;
      do _ <- lift (lm_Release (e_lockManager e) lockKey);
      ret r
  end.

(** ** backend_selection.go *)

Definition selectBackendByType (backendType : string) : Storage W :=
  if String.eqb backendType "localfs" then e_localFSBackend e
  else if String.eqb backendType "s3" then e_s3Backend e
  else e_localFSBackend e.

Definition selectBackend (ctx : Ctx) (md : Metadata) : Ctx * Storage W :=
  match md_CallFSInstanceID md with
  | Some id =>
      if String.eqb id (e_currentInstanceID e) then
        (ctx, if String.eqb (md_BackendType md) "localfs" then e_localFSBackend e
              else if String.eqb (md_BackendType md) "s3" then e_s3Backend e
              else e_localFSBackend e)
      else (WithInstanceID ctx id, e_internalProxyBackend e)
  | None =>
      (ctx, if String.eqb (md_BackendType md) "localfs" then e_localFSBackend e
            else if String.eqb (md_BackendType md) "s3" then e_s3Backend e
            else e_localFSBackend e)
  end.

(** The record a call leaves behind the pointer, and its error. *)
Abbreviation MdRes := (Metadata * Res unit)%type.

(** [md.CreatedAt = time.Now(); md.UpdatedAt = time.Now()] *)
Definition stamp (t : Time) (md : Metadata) : Metadata := set_UpdatedAt t (set_CreatedAt t md).

(** [CreateDirectory], with the call to [ensureParentDirectories] as an argument: the
    two functions call each other. *)
Definition CreateDirectoryWith (ensureParents : string -> M (Res unit)) (ctx : Ctx)
    (path : string) (md : Metadata) : M MdRes :=
  let lockKey := "dir:" +:+ path in
  withLock lockKey "failed to acquire lock for directory creation" (fun er => (md, Err er)) (
    do existing <- storeGet path;
    match existing with
    | Ok _ => ret (md, Err ErrAlreadyExists)
    | Err _ =>
        do parents <- ensureParents (md_BackendType md);
        match parents with
        | Err er => ret (md, Err (EWrap "failed to ensure parent directories" er))
        | Ok _ =>
            let md := if String.eqb (md_BackendType md) "localfs"
                      then set_CallFSInstanceID (Some (e_currentInstanceID e)) md else md in
            let storage := selectBackendByType (md_BackendType md) in
            let relativePath := TrimPrefix path "/" in
            do created <- lift (sg_CreateDirectory storage ctx relativePath);
            match created with
            | Err er => ret (md, Err (EWrap "failed to create directory in backend" er))
            | Ok _ =>
                do t <- gets now;
                let md := stamp t (set_Size 0 (set_Type "directory" (set_Path path md))) in
                do (md, stored) <- lift (st_Create (e_metadataStore e) md);
                match stored with
                | Err er =>
                    do _ <- lift (sg_Delete storage ctx relativePath);
                    ret (md, Err (EWrap "failed to store metadata" er))
                | Ok _ => ret (md, Ok tt)
                end
            end
        end
    end).

(** The record of a parent directory that is created on the way. *)
Definition parentMd (parentPath backendType : string) : Metadata :=
  mkMetadata 0 None (filepath_Base parentPath) "" "directory" 0 "0777" 0 0 0 0 0 backendType
    false None None 0 0.

(** The record of the parent is missing: its parents first, then its directory. *)
Definition ensureMissing (ensureParents : string -> M (Res unit)) (ctx : Ctx) (parentPath backendType : string)
  : M (Res unit) :=
  do parent <- storeGet parentPath;
  match parent with
  | Ok _ => ret (Ok tt)
  | Err _ =>
      try _ <- ensureParents backendType;
      let backendType := if String.eqb backendType "" then "localfs" else backendType in
      do (_, r) <- CreateDirectoryWith ensureParents ctx parentPath (parentMd parentPath backendType);
      ret (match r with
           | Err er => if bool_decide (er = ErrAlreadyExists) then Ok tt else Err er
           | Ok _ => Ok tt
           end)
  end.

(** [ensureParentDirectories] calls itself on the parent, which is shorter
    ([Dir_shorter]). *)
Fixpoint ensureParentDirectories (ctx : Ctx) (path backendType : string) (ends : Acc lt (String.length path)) {struct ends}
  : M (Res unit) :=
  let parentPath := filepath_Dir path in
  match Sumbool.sumbool_of_bool (atTop parentPath) with
  | left _ => ret (Ok tt)
  | right below =>
      ensureMissing (fun bt => ensureParentDirectories ctx parentPath bt (Acc_inv ends (Dir_shorter path below)))
        ctx parentPath backendType
  end.

Definition ensureParents (ctx : Ctx) (path backendType : string) : M (Res unit) :=
  ensureParentDirectories ctx path backendType (length_ends path).

Definition CreateDirectory (ctx : Ctx) (path : string) (md : Metadata) : M MdRes :=
  CreateDirectoryWith (ensureParents ctx path) ctx path md.

Definition EnsureRootDirectory : M (Res unit) :=
  do root <- storeGet "/";
  match root with
  | Ok _ => ret (Ok tt)
  | Err _ =>
      do t <- gets now;
      let rootMd := set_Path "/" (newMetadata "/" "directory" "0777" 0 0 "localfs" t) in
      do (_, r) <- lift (st_Create (e_metadataStore e) rootMd);
      ret (match r with
           | Err er => Err (EWrap "failed to create root directory metadata" er)
           | Ok _ => Ok tt
           end)
  end.

(** ** file_operations.go *)

(** [GetMetadata]: the cache first. *)
Definition GetMetadata (path : string) : M (Res Metadata) := fun s =>
  match Cache.Get (now s) path (es_cache s) with
  | Some cachedMd => (s, Ok cachedMd)
  | None =>
      (try md <- storeGet path;
       do _ <- (fun s => (mkEState (es_world s)
                 (Cache.Set_ (now s) (now s) (sc_range (e_sched e) (es_cache s)) path md (es_cache s)), tt));
       ret (Ok md)) s
  end.

Definition GetFile (ctx : Ctx) (path : string) : M (Res Reader) :=
  wrap "failed to get file metadata" in md <- GetMetadata path;
  if negb (String.eqb (md_Type md) "file") then ret (Err (EMsg "path is not a file"))
  else
    let fromBackend :=
      let '(ctx, storage) := selectBackend ctx md in
      let relativePath := TrimPrefix path "/" in
      wrap "failed to open file" in reader <- lift (sg_Open storage ctx relativePath);
      ret (Ok reader) in
    match e_erasureManager e with
    | Some em =>
        if md_ErasureCoded md then
          wrap "failed to retrieve erasure-coded file" in data <-
            lift (Erasure.RetrieveFile em (sc_shards (e_sched e)) (sc_late (e_sched e)) ctx path);
          ret (Ok (bytesReader data))
        else fromBackend
    | None => fromBackend
    end.

(** The replica backend, or none to replicate to. *)
Definition replicaTarget (primaryBackend : string) : option string :=
  if negb (e_replicationEnabled e) then None
  else
    let replicaBackend := ToLower (TrimSpace (e_replicaBackend e)) in
    if String.eqb replicaBackend "" || String.eqb replicaBackend (ToLower primaryBackend) then None
    else Some replicaBackend.

(** [if e.requireReplicaAck { return err }; log; return nil] *)
Definition replicaError (msg : string) (er : gerr) : Res unit :=
  if e_requireReplicaAck e then Err (EWrap msg er) else Ok tt.

Definition replicateFileToSecondaryBackend (ctx : Ctx) (path : string) (size : Z) (primaryBackend : string)
  : M (Res unit) :=
  match replicaTarget primaryBackend with
  | None => ret (Ok tt)
  | Some replicaBackend =>
      let primaryStorage := selectBackendByType primaryBackend in
      let replicaStorage := selectBackendByType replicaBackend in
      let relativePath := TrimPrefix path "/" in
      do opened <- lift (sg_Open primaryStorage ctx relativePath);
      match opened with
      | Err er => ret (replicaError "failed to open source for replication" er)
      | Ok reader =>
          do updated <- lift (sg_Update replicaStorage ctx relativePath reader size);
          match updated with
          | Ok _ => ret (Ok tt)
          | Err _ =>
              do reopened <- lift (sg_Open primaryStorage ctx relativePath);
              match reopened with
              | Err er => ret (replicaError "failed to reopen source for replica create" er)
              | Ok reader2 =>
                  do created <- lift (sg_Create replicaStorage ctx relativePath reader2 size);
                  ret (match created with
                       | Err er => replicaError "failed to replicate file to secondary backend" er
                       | Ok _ => Ok tt
                       end)
              end
          end
      end
  end.

Definition deleteReplicatedFile (ctx : Ctx) (path primaryBackend : string) : M (Res unit) :=
  match replicaTarget primaryBackend with
  | None => ret (Ok tt)
  | Some replicaBackend =>
      do deleted <- lift (sg_Delete (selectBackendByType replicaBackend) ctx (TrimPrefix path "/"));
      ret (match deleted with
           | Err er => replicaError "failed to delete replicated file" er
           | Ok _ => Ok tt
           end)
  end.

Definition CreateFile (ctx : Ctx) (path : string) (reader : Reader) (size : Z) (md : Metadata) : M MdRes :=
  let lockKey := "file:" +:+ path in
  withLock lockKey "failed to acquire lock for file creation" (fun er => (md, Err er)) (
    do existing <- storeGet path;
    match existing with
    | Ok _ => ret (md, Err ErrAlreadyExists)
    | Err _ =>
        do parents <- ensureParents ctx path (md_BackendType md);
        match parents with
        | Err er => ret (md, Err (EWrap "failed to ensure parent directories" er))
        | Ok _ =>
            let md := if String.eqb (md_BackendType md) "localfs"
                      then set_CallFSInstanceID (Some (e_currentInstanceID e)) md else md in
            let storage := selectBackendByType (md_BackendType md) in
            let relativePath := TrimPrefix path "/" in
            do created <- lift (sg_Create storage ctx relativePath reader size);
            match created with
            | Err er => ret (md, Err (EWrap "failed to create file in backend" er))
            | Ok _ =>
                do t <- gets now;
                let md := stamp t (set_Size size (set_Path path md)) in
                do (md, stored) <- lift (st_Create (e_metadataStore e) md);
                match stored with
                | Err er =>
                    do _ <- lift (sg_Delete storage ctx relativePath);
                    ret (md, Err (EWrap "failed to store metadata" er))
                | Ok _ =>
                    do replicated <- replicateFileToSecondaryBackend ctx path size (md_BackendType md);
                    match replicated with
                    | Err er => ret (md, Err er)
                    | Ok _ =>
                        do _ <- cacheInvalidatePrefix (filepath_Dir path);
                        ret (md, Ok tt)
                    end
                end
            end
        end
    end).

Definition UpdateFile (ctx : Ctx) (path : string) (reader : Reader) (size : Z) : M (Res unit) :=
  let lockKey := "file:" +:+ path in
  withLock lockKey "failed to acquire lock for file update" Err (
    wrap "failed to get existing metadata" in existingMd <- storeGet path;
    if negb (String.eqb (md_Type existingMd) "file") then ret (Err (EMsg "path is not a file"))
    else
      let '(ctx, storage) := selectBackend ctx existingMd in
      let relativePath := TrimPrefix path "/" in
      wrap "failed to update file in backend" in _ <- lift (sg_Update storage ctx relativePath reader size);
      do t <- gets now;
      let existingMd := set_UpdatedAt t (set_MTime t (set_Size size existingMd)) in
      let existingMd :=
        match md_CallFSInstanceID existingMd with
        | None => if String.eqb (md_BackendType existingMd) "localfs"
                  then set_CallFSInstanceID (Some (e_currentInstanceID e)) existingMd else existingMd
        | Some _ => existingMd
        end in
      do (existingMd, updated) <- lift (st_Update (e_metadataStore e) existingMd);
      match updated with
      | Err er =>
          do _ <- cacheInvalidate path;
          ret (Err (EWrap "failed to update metadata" er))
      | Ok _ =>
          try _ <- replicateFileToSecondaryBackend ctx path size (md_BackendType existingMd);
          do _ <- cacheInvalidate path;
          do _ <- cacheInvalidatePrefix (filepath_Dir path);
          ret (Ok tt)
      end).

(** The emptiness check of [DeleteFile]. *)
Definition checkEmpty (path : string) (md : Metadata) : M (Res unit) :=
  if String.eqb (md_Type md) "directory" then
    wrap "failed to check directory contents" in children <-
      gets (fun s => st_ListChildren (e_metadataStore e) path (es_world s));
    ret (match children with [] => Ok tt | _ => Err (EMsg "directory not empty") end)
  else ret (Ok tt).

Definition DeleteFile (ctx : Ctx) (path : string) : M (Res unit) :=
  let lockKey := "file:" +:+ path in
  withLock lockKey "failed to acquire lock for file deletion" Err (
    wrap "failed to get metadata" in md <- storeGet path;
    try _ <- checkEmpty path md;
    let invalidate :=
      do _ <- cacheInvalidate path;
      do _ <- cacheInvalidatePrefix (filepath_Dir path);
      ret (Ok tt) in
    let fromBackend :=
      let '(ctx, storage) := selectBackend ctx md in
      let relativePath := TrimPrefix path "/" in
      wrap "failed to delete metadata" in _ <- lift (st_Delete (e_metadataStore e) path);
      do _ <- lift (sg_Delete storage ctx relativePath);
      try _ <- deleteReplicatedFile ctx path (md_BackendType md);
      invalidate in
    match e_erasureManager e with
    | Some em =>
        if md_ErasureCoded md then
          wrap "failed to delete erasure-coded file" in _ <-
            lift (Erasure.DeleteFile em (sc_shards (e_sched e)) ctx path);
          wrap "failed to delete metadata" in _ <- lift (st_Delete (e_metadataStore e) path);
          invalidate
        else fromBackend
    | None => fromBackend
    end).

Definition CreateErasureMetadata (ctx : Ctx) (path : string) (md : Metadata) : M MdRes :=
  do parents <- ensureParents ctx path "localfs";
  match parents with
  | Err er => ret (md, Err (EWrap "failed to ensure parent directories" er))
  | Ok _ =>
      do t <- gets now;
      let md := stamp t (set_Path path md) in
      do (md, stored) <- lift (st_Create (e_metadataStore e) md);
      match stored with
      | Err er => ret (md, Err (EWrap "failed to store erasure metadata" er))
      | Ok _ => do _ <- cacheInvalidatePrefix (filepath_Dir path); ret (md, Ok tt)
      end
  end.

Definition UpdateMetadataOnly (md : Metadata) : M MdRes :=
  do (md, updated) <- lift (st_Update (e_metadataStore e) md);
  match updated with
  | Err er => ret (md, Err (EWrap "failed to update metadata" er))
  | Ok _ => do _ <- cacheInvalidate (md_Path md); ret (md, Ok tt)
  end.

(** ** directory_operations.go *)

Definition ListDirectory (path : string) (s : EState W) : Res (list Metadata) :=
  let! md := res_wrap "failed to get directory metadata" (st_Get (e_metadataStore e) path (es_world s)) in
  if negb (String.eqb (md_Type md) "directory") then Err (EMsg "path is not a directory")
  else res_wrap "failed to list directory children" (st_ListChildren (e_metadataStore e) path (es_world s)).

(** [listDirectoryRecursiveHelper] at [maxDepth - currentDepth = depth]
    ([depth] negative: the early return).  The recursion is on the depth. *)
Fixpoint listRecursive (depth : nat) (path : string) (allItems : list Metadata) (s : EState W)
  : Res (list Metadata) :=
  let! children := res_wrap "failed to list directory" (ListDirectory path s) in
  let fix subdirs (cs : list Metadata) (items : list Metadata) : list Metadata :=
    match cs with
    | [] => items
    | child :: rest =>
        if String.eqb (md_Type child) "directory" then
          let sub := match depth with
                     | O => Ok []
                     | S d => listRecursive d (md_Path child) [] s
                     end in
          match sub with
          | Err _ => subdirs rest items
          | Ok subItems => subdirs rest (items ++ subItems)%list
          end
        else subdirs rest items
    end in
  Ok (subdirs children (allItems ++ children)%list).

Definition ListDirectoryRecursive (path : string) (maxDepth : Z) (s : EState W) : Res (list Metadata) :=
  let maxDepth := if (maxDepth <? 0)%Z then 100%Z else maxDepth in
  listRecursive (Z.to_nat maxDepth) path [] s.

(** ** cross_instance_operations.go *)

Definition UpdateFileOnInstance (ctx : Ctx) (instanceID path : string) (reader : Reader) (size : Z)
  : M (Res unit) :=
  let ctx := WithInstanceID ctx instanceID in
  do r <- lift (sg_Update (e_internalProxyBackend e) ctx (TrimPrefix path "/") reader size);
  match r with
  | Ok _ => do _ <- cacheInvalidate path; ret r
  | Err _ => ret r
  end.

Definition DeleteFileOnInstance (instanceID path : string) : M (Res unit) :=
  match e_internalProxyAdapter e with
  | None => ret (Err (EMsg "internal proxy not configured: no peer endpoints available"))
  | Some adapter =>
      do r <- lift (pa_DeleteOnInstance adapter instanceID (TrimPrefix path "/"));
      match r with
      | Ok _ => do _ <- cacheInvalidate path; ret r
      | Err _ => ret r
      end
  end.

Definition StatFileOnInstance (instanceID path : string) : M (Res Metadata) :=
  match e_internalProxyAdapter e with
  | None => ret (Err (EMsg "internal proxy not configured: no peer endpoints available"))
  | Some adapter => lift (pa_StatOnInstance adapter instanceID (TrimPrefix path "/"))
  end.

End Engine.
End Engine.
