(* ===== verification/EngineSpec.v ===== *)
(** * Properties of the engine

    What the operations of core/ guarantee over any components that keep
    their contracts: cache coherence, the effect of the file operations on the
    metadata, the parent invariant and locks. *)
From S2P Require Import Prelude GoStrings PathUtil Metadata MemStore Cache Locks Backends Erasure Engine.
From Stdlib Require Import Ascii String.
Open Scope string_scope.
Open Scope bool_scope.
Open Scope go_scope.

Module EngineSpec.
Import Engine.

(** Apply the rules of [respects] and split the cases of the program. *)
Ltac resp :=
  repeat first
    [ apply respects_ret; apply _
    | apply respects_gets; apply _
    | solve [eauto with respects]
    | apply respects_bind; [apply _ | | intros ?]
    | apply respects_try; [apply _ | | intros ?]
    | progress cbv beta iota
    | case_goal ].

(** Names, of which canonical paths consist. *)
Definition names (cs : list string) : Prop := Forall (fun c => plain_name c = true) cs.

Lemma abs_inj cs cs' : names cs -> names cs' -> render_path true cs = render_path true cs' -> cs = cs'.
Proof.
  intros H H' E.
  assert (Hp : forall l, names l -> path_comps (render_path true l) = l).
  { intros l Hl. apply path_comps_render. exists 0. by exists l. }
  by rewrite <- (Hp cs), <- (Hp cs'), E.
Qed.
(** ** Induction along the parents of a path *)

Section Parents.
Context {W : Type} (e : Engine W) (ctx : Ctx).
Abbreviation Ens := (string -> St (EState W) (Res unit)) (only parsing).

Lemma ensureParents_ind (P : string -> Ens -> Prop) :
  (forall path, atTop (filepath_Dir path) = true -> P path (fun _ => ret (Ok tt))) ->
  (forall path rec, atTop (filepath_Dir path) = false -> P (filepath_Dir path) rec ->
     P path (ensureMissing e rec ctx (filepath_Dir path))) ->
  forall path, P path (ensureParents e ctx path).
Proof.
  intros Htop Hmiss path. unfold ensureParents. generalize (length_ends path) as ends.
  induction path as [path IH] using (induction_ltof1 _ String.length). intros [h]. cbn [ensureParentDirectories].
  destruct (Sumbool.sumbool_of_bool _) as [E | E]; [by apply Htop |]. apply Hmiss; [done |]. by apply IH, Dir_shorter.
Qed.

(** On a canonical path. *)
Lemma ensureParents_names_ind (P : list string -> string -> Ens -> Prop) :
  (forall n, P [] n (fun _ => ret (Ok tt))) ->
  (forall cs n0 n rec, names (cs ++ [n0])%list -> P cs n0 rec ->
     P (cs ++ [n0])%list n (ensureMissing e rec ctx (render_path true (cs ++ [n0])%list))) ->
  forall cs n, names (cs ++ [n])%list -> P cs n (ensureParents e ctx (render_path true (cs ++ [n])%list)).
Proof.
  intros Htop Hmiss cs n. remember (render_path true (cs ++ [n])%list) as path eqn:Hp. revert path cs n Hp.
  assert (Hd : forall cs n, names (cs ++ [n])%list -> filepath_Dir (render_path true (cs ++ [n])%list) = render_path true cs /\ names cs).
  { intros cs n [Hcs Hn%Forall_cons_1]%Forall_app. by rewrite Dir_render by (done || apply Hn). }
  assert (Ht : forall cs, names cs -> atTop (render_path true cs) = true -> cs = []).
  { intros cs Hcs [E | E]%orb_true_iff; to_prop; [apply (abs_inj cs []); [done | constructor | done] | by destruct cs]. }
  refine (ensureParents_ind (fun path ens => forall cs n, path = render_path true (cs ++ [n])%list -> names (cs ++ [n])%list -> P cs n ens) _ _).
  - intros path E cs n -> Hn. destruct (Hd cs n Hn) as [Hdir Hcs]. rewrite Hdir in E. by rewrite (Ht cs Hcs E).
  - intros path rec E IH cs n -> Hn. destruct (Hd cs n Hn) as [Hdir Hcs]. rewrite Hdir in E, IH |- *.
    destruct (list.list_eq_nil_dec cs) as [-> | Hne]; [done |]. destruct (exists_last Hne) as (cs0 & n0 & ->).
    apply Hmiss; [done | by apply IH].
Qed.

End Parents.

Section Env.
Context {W : Type} (e : Engine W) (view : W -> StoreView) (serving : W -> Prop)
        {store_spec : StoreSpec (e_metadataStore e) view serving}.

Abbreviation mds s := (view_md (view (es_world s))).

(** A call that leaves the metadata alone. *)
Definition quiet {A} (m : St W A) : Prop :=
  forall w w' a, m w = (w', a) -> serving w -> serving w' /\ view w' = view w.

Record quiet_storage (st : Storage W) : Prop := {
  qs_Open : forall ctx p, quiet (sg_Open st ctx p);
  qs_Create : forall ctx p rd n, quiet (sg_Create st ctx p rd n);
  qs_Update : forall ctx p rd n, quiet (sg_Update st ctx p rd n);
  qs_Delete : forall ctx p, quiet (sg_Delete st ctx p);
  qs_CreateDirectory : forall ctx p, quiet (sg_CreateDirectory st ctx p);
}.

(** The components the engine calls besides the store do not write file
    metadata, and the runtime iterates over all entries of a map. *)
Class EngineEnv : Prop := {
  env_Acquire : forall k, quiet (lm_Acquire (e_lockManager e) k);
  env_Release : forall k, quiet (lm_Release (e_lockManager e) k);
  env_local : quiet_storage (e_localFSBackend e);
  env_s3 : quiet_storage (e_s3Backend e);
  env_proxy_Open : forall ctx p, quiet (sg_Open (e_internalProxyBackend e) ctx p);
  env_erasure : forall em, e_erasureManager e = Some em ->
    (forall order ctx p, quiet (Erasure.DeleteFile em order ctx p)) /\
    (forall order late ctx p, quiet (Erasure.RetrieveFile em order late ctx p));
  env_range : forall c, Cache.range_of (sc_range (e_sched e) c) c;
}.
Context {env : EngineEnv}.

(** ** Two relations between states *)

(** Every record is stored under its own path. *)
Definition keyed (s : EState W) : Prop := forall p md, mds s !! p = Some md -> md_Path md = p.

(** Records are only added; the cache stays. *)
Definition grows (s s' : EState W) : Prop :=
  serving (es_world s) ->
  serving (es_world s') /\ es_cache s' = es_cache s /\ mds s ⊆ mds s' /\ (keyed s -> keyed s').
#[global] Instance grows_preorder : PreOrder grows.
Proof.
  split.
  - intros s Hs. done.
  - intros a b c Hab Hbc Ha. destruct (Hab Ha) as (Hb & Hc1 & Hs1 & Hk1).
    destruct (Hbc Hb) as (Hc & Hc2 & Hs2 & Hk2).
    split; [done |]. split; [congruence |]. split; [by etrans | auto].
Qed.

(** Every cached record is the stored one. *)
Definition coherent (s : EState W) : Prop :=
  forall p en, Cache.mc_cache (es_cache s) !! p = Some en -> mds s !! p = Some (Cache.ce_Metadata en).
Definition good (s : EState W) : Prop := serving (es_world s) /\ keyed s /\ coherent s.
Definition keeps_good (s s' : EState W) : Prop := good s -> good s'.
#[global] Instance keeps_good_preorder : PreOrder keeps_good.
Proof. split; [by intros s Hs | intros a b c Hab Hbc Ha; auto]. Qed.

Lemma grows_keeps_good s s' : grows s s' -> keeps_good s s'.
Proof.
  intros Hg (Hs & Hk & Hc). destruct (Hg Hs) as (Hs' & Hce & Hsub & Hk'). split; [done |].
  split; [auto |]. intros p en Hp. rewrite Hce in Hp. apply Hc in Hp. by eapply lookup_weaken.
Qed.

Lemma respects_grows_good {A} (m : St (EState W) A) : respects grows m -> respects keeps_good m.
Proof. intros H s s' a E. by eapply grows_keeps_good, H. Qed.

Lemma lift_quiet {A} (m : St W A) : quiet m -> respects grows (lift m).
Proof.
  intros Hq s s' a. unfold lift. destruct (m (es_world s)) as [w a'] eqn:E. intros H; injection H as <- <-.
  intros Hs. destruct (Hq _ _ _ E Hs) as [Hs' Hv]. unfold keyed. cbn [es_world es_cache]. by rewrite Hv.
Qed.

Lemma lift_Create md : respects grows (lift (st_Create (e_metadataStore e) md)).
Proof.
  intros s s' a. unfold lift. destruct (st_Create _ md (es_world s)) as [w [md' r]] eqn:E.
  intros H; injection H as <- <-. intros Hs. cbn [es_world es_cache].
  apply spec_Create in E as (Hs' & _ & E); [| done]. split; [done |]. split; [done |].
  destruct (mds s !! md_Path md) eqn:El.
  - destruct E as [_ Hv]. unfold keyed. cbn [es_world]. by rewrite Hv.
  - destruct E as (_ & Hv & Hpath%same_file_path). unfold keyed. cbn [es_world]. rewrite Hv.
    split; [by apply insert_subseteq |]. intros Hk p m Hp.
    apply lookup_insert_Some in Hp as [[<- <-] | [_ Hp]]; [done | by apply Hk].
Qed.

Lemma quiet_byType bt : quiet_storage (selectBackendByType e bt).
Proof. unfold selectBackendByType. repeat case_goal; [apply env_local | apply env_s3 | apply env_local]. Qed.

Lemma lift_byType bt :
  (forall ctx p, respects grows (lift (sg_Open (selectBackendByType e bt) ctx p))) /\
  (forall ctx p rd n, respects grows (lift (sg_Create (selectBackendByType e bt) ctx p rd n))) /\
  (forall ctx p rd n, respects grows (lift (sg_Update (selectBackendByType e bt) ctx p rd n))) /\
  (forall ctx p, respects grows (lift (sg_Delete (selectBackendByType e bt) ctx p))) /\
  (forall ctx p, respects grows (lift (sg_CreateDirectory (selectBackendByType e bt) ctx p))).
Proof.
  destruct (quiet_byType bt).
  split; [intros ctx p; by apply lift_quiet |]. split; [intros ctx p rd n; by apply lift_quiet |].
  split; [intros ctx p rd n; by apply lift_quiet |]. split; intros ctx p; by apply lift_quiet.
Qed.

Hint Resolve lift_Create : respects.
Hint Extern 1 (respects grows (lift (sg_Open (selectBackendByType _ ?bt) _ _))) => apply (lift_byType bt) : respects.
Hint Extern 1 (respects grows (lift (sg_Create (selectBackendByType _ ?bt) _ _ _ _))) => apply (lift_byType bt) : respects.
Hint Extern 1 (respects grows (lift (sg_Update (selectBackendByType _ ?bt) _ _ _ _))) => apply (lift_byType bt) : respects.
Hint Extern 1 (respects grows (lift (sg_Delete (selectBackendByType _ ?bt) _ _))) => apply (lift_byType bt) : respects.
Hint Extern 1 (respects grows (lift (sg_CreateDirectory (selectBackendByType _ ?bt) _ _))) => apply (lift_byType bt) : respects.

Lemma withLock_respects {A} R `{!PreOrder R} key msg fail (body : St (EState W) A) :
  (forall s s', grows s s' -> R s s') -> respects R body -> respects R (withLock e key msg fail body).
Proof.
  intros HR Hb.
  assert (Ha : respects R (lift (lm_Acquire (e_lockManager e) key))).
  { intros s s' a E. eapply HR, lift_quiet, E. apply env_Acquire. }
  assert (Hr : respects R (lift (lm_Release (e_lockManager e) key))).
  { intros s s' a E. eapply HR, lift_quiet, E. apply env_Release. }
  unfold withLock. resp; done.
Qed.

Lemma CreateDirectoryWith_grows ens ctx path md :
  (forall bt, respects grows (ens bt)) -> respects grows (CreateDirectoryWith e ens ctx path md).
Proof.
  intros He. unfold CreateDirectoryWith. apply withLock_respects; [apply _ | done |].
  unfold storeGet. resp.
Qed.

Lemma ensureParents_grows ctx path bt : respects grows (ensureParents e ctx path bt).
Proof.
  revert path bt. refine (ensureParents_ind e ctx (fun _ ens => forall bt, respects grows (ens bt)) _ _); [intros path _ bt; resp |].
  intros path rec _ Hrec bt.
  pose proof (CreateDirectoryWith_grows rec ctx (filepath_Dir path)) as Hc. unfold ensureMissing, storeGet. resp.
Qed.
Hint Resolve ensureParents_grows : respects.

Lemma CreateDirectory_grows ctx path md : respects grows (CreateDirectory e ctx path md).
Proof. apply CreateDirectoryWith_grows. auto with respects. Qed.

Lemma replicate_grows ctx path size pb : respects grows (replicateFileToSecondaryBackend e ctx path size pb).
Proof. unfold replicateFileToSecondaryBackend. resp. Qed.
Lemma deleteReplicated_grows ctx path pb : respects grows (deleteReplicatedFile e ctx path pb).
Proof. unfold deleteReplicatedFile. resp. Qed.
Hint Resolve replicate_grows deleteReplicated_grows : respects.

(** ** The cache only loses entries, except in [GetMetadata] *)

Lemma good_shrink w c c' :
  Cache.mc_cache c' ⊆ Cache.mc_cache c -> good (mkEState w c) -> good (mkEState w c').
Proof.
  intros Hsub (Hs & Hk & Hc). split; [done |]. split; [done |]. intros p en Hp. apply (Hc p en). cbn [es_cache] in *.
  by eapply lookup_weaken.
Qed.

Lemma InvalidatePrefix_sub prefix c :
  Cache.mc_cache (Cache.InvalidatePrefix prefix (sc_range (e_sched e) c) c) ⊆ Cache.mc_cache c.
Proof.
  apply map_subseteq_spec. intros p en. rewrite Cache.lookup_InvalidatePrefix by apply env_range.
  by destruct (Cache.prefix_match prefix p).
Qed.

Lemma cacheInvalidatePrefix_good prefix : respects keeps_good (cacheInvalidatePrefix e prefix).
Proof.
  intros [w c] s' a. unfold cacheInvalidatePrefix, onCache. intros H; injection H as <- <-.
  intros Hg. eapply good_shrink; [apply InvalidatePrefix_sub | exact Hg].
Qed.
Lemma cacheInvalidate_good path : respects keeps_good (cacheInvalidate path).
Proof.
  intros [w c] s' a. unfold cacheInvalidate, onCache. intros H; injection H as <- <-.
  intros Hg. eapply good_shrink; [| exact Hg]. apply delete_subseteq.
Qed.
Hint Resolve cacheInvalidatePrefix_good cacheInvalidate_good : respects.
Hint Extern 3 (respects keeps_good (lift _)) => apply respects_grows_good : respects.
Hint Extern 3 (respects keeps_good (ensureParents _ _ _ _)) => apply respects_grows_good : respects.
Hint Extern 3 (respects keeps_good (replicateFileToSecondaryBackend _ _ _ _ _)) => apply respects_grows_good : respects.

Lemma CreateFile_good ctx path rd size md : respects keeps_good (CreateFile e ctx path rd size md).
Proof.
  unfold CreateFile. apply withLock_respects; [apply _ | apply grows_keeps_good |].
  unfold storeGet. resp.
Qed.

Lemma CreateErasureMetadata_good ctx path md : respects keeps_good (CreateErasureMetadata e ctx path md).
Proof. unfold CreateErasureMetadata. resp. Qed.

Lemma EnsureRootDirectory_good : respects keeps_good (EnsureRootDirectory e).
Proof. unfold EnsureRootDirectory, storeGet. resp. Qed.

Lemma GetMetadata_good path : respects keeps_good (GetMetadata e path).
Proof.
  intros s s' a. unfold GetMetadata. destruct (Cache.Get _ _ _); [intros H; by injection H as <- <- |].
  unfold storeGet, try_bind, gets, bind, ret. destruct (st_Get _ _ _) as [md | er] eqn:E;
    intros H; injection H as <- <-; [| done].
  intros (Hs & Hk & Hc). split; [done |]. split; [done |]. intros p en Hp. cbn [es_cache es_world] in *.
  apply Cache.lookup_Set in Hp as [(-> & -> & _) | Hp]; [| by apply Hc].
  rewrite spec_Get in E by done. destruct (mds s !! path); [by injection E as -> | done].
Qed.
Hint Resolve GetMetadata_good : respects.

(** What the record of a path and the cached entry for it have in common, [GetMetadata] delivers. *)
Definition cached (P : Metadata -> Prop) (path : string) (s : EState W) : Prop :=
  forall en, Cache.mc_cache (es_cache s) !! path = Some en -> P (Cache.ce_Metadata en).
Lemma GetMetadata_reads (P : Metadata -> Prop) path s md :
  serving (es_world s) -> mds s !! path = Some md -> P md -> cached P path s ->
  exists s' md', GetMetadata e path s = (s', Ok md') /\ P md' /\ es_world s' = es_world s /\ cached P path s'.
Proof.
  intros Hs Hm HP Hc. unfold GetMetadata, Cache.Get.
  destruct (Cache.mc_cache (es_cache s) !! path) as [en |] eqn:E; [destruct (Cache.IsExpired _ en) |].
  2: { eexists _, _. split; [done |]. split; [by apply Hc |]. done. }
  all: unfold storeGet, try_bind, gets, bind, ret; rewrite spec_Get, Hm by done; eexists _, md;
    (split; [done |]); (split; [done |]); (split; [done |]); intros en' Hen; cbn [es_cache] in Hen;
    apply Cache.lookup_Set in Hen as [(_ & -> & _) | Hen]; [done | by apply Hc].
Qed.

Lemma GetMetadata_store path s :
  good s -> (GetMetadata e path s).2 = st_Get (e_metadataStore e) path (es_world s).
Proof.
  intros (Hs & _ & Hc). unfold GetMetadata, Cache.Get.
  destruct (Cache.mc_cache (es_cache s) !! path) as [en |] eqn:E.
  - destruct (Cache.IsExpired _ en).
    + unfold storeGet, try_bind, gets, bind, ret. by destruct (st_Get _ _ _).
    + apply Hc in E. rewrite spec_Get by done. by rewrite E.
  - unfold storeGet, try_bind, gets, bind, ret. by destruct (st_Get _ _ _).
Qed.

(** A path without a cached entry; how an update and a deletion that succeed leave it. *)
Definition uncached (path : string) (s : EState W) : Prop := Cache.mc_cache (es_cache s) !! path = None.
Lemma uncached_cached P path s : uncached path s -> cached P path s.
Proof. unfold uncached, cached. by intros -> en. Qed.

Lemma uncached_lift {A} path (m : St W A) : triple (uncached path) (lift m) (fun _ => uncached path).
Proof. intros s s' a. unfold lift. destruct (m (es_world s)). by intros [= <- _]. Qed.

Lemma cacheInvalidate_uncached path s s' a : cacheInvalidate path s = (s', a) -> uncached path s'.
Proof. unfold cacheInvalidate, onCache. intros [= <- _]. apply lookup_delete_eq. Qed.

Lemma uncached_invalidate path p : triple (uncached path) (cacheInvalidate p) (fun _ => uncached path).
Proof.
  intros s s' a. unfold cacheInvalidate, onCache. intros [= <- _] Hu. apply lookup_delete_None. by right.
Qed.
Lemma UpdateMetadataOnly_uncached path md : triple (uncached path) (UpdateMetadataOnly e md) (fun _ => uncached path).
Proof.
  unfold UpdateMetadataOnly. apply (triple_bind _ (fun _ => uncached path)); [apply uncached_lift |].
  intros [md' [[] | er]]; [| by apply triple_ret].
  apply (triple_bind _ (fun _ => uncached path)); [apply uncached_invalidate | intros ?; by apply triple_ret].
Qed.

Lemma uncached_tail path dir :
  triple (fun _ => True) (do _ <- cacheInvalidate path; do _ <- cacheInvalidatePrefix e dir; ret (Ok tt : Res unit))
    (fun _ => uncached path).
Proof.
  apply (triple_bind _ (fun _ => uncached path)); [intros s s' a H _; by eapply cacheInvalidate_uncached |]. intros _.
  apply (triple_bind _ (fun _ => uncached path)); [| intros ?; by apply triple_ret].
  intros s s' a. unfold cacheInvalidatePrefix, onCache, uncached. intros [= <- _] Hu. cbn [es_cache].
  rewrite Cache.lookup_InvalidatePrefix by apply env_range. rewrite Hu. by destruct (Cache.prefix_match _ _).
Qed.

Lemma uncached_lock key msg path (body : St (EState W) (Res unit)) :
  triple (fun _ => True) body (fun r s => r = Ok tt -> uncached path s) ->
  triple (fun _ => True) (withLock e key msg Err body) (fun r s => r = Ok tt -> uncached path s).
Proof.
  intros Hb. unfold withLock. apply (triple_bind _ (fun _ _ => True)); [done |].
  intros [[|] | er]; [| by apply triple_ret | by apply triple_ret].
  eapply triple_bind; [exact Hb |]. intros r.
  apply (triple_bind _ (fun _ s => r = Ok tt -> uncached path s)); [| intros ?; by apply triple_ret].
  intros s s' a E H ->. eapply uncached_lift; [exact E | by apply H].
Qed.

(** Past a call after which nothing is known. *)
Ltac forget :=
  lazymatch goal with
  | |- triple _ (bind _ _) _ => apply (triple_bind _ (fun _ _ => True)); [done | intros ?]
  | |- triple _ (try_bind _ _ _) _ => apply (triple_try _ (fun _ _ => True)); [done | intros ? | done]
  end.

Lemma UpdateFile_uncached ctx path rd n :
  triple (fun _ => True) (UpdateFile e ctx path rd n) (fun r s => r = Ok tt -> uncached path s).
Proof.
  unfold UpdateFile. apply uncached_lock. forget. destruct (negb _); [by apply triple_ret |].
  destruct (selectBackend e ctx a) as [ctx' storage]. forget. forget. forget.
  destruct a2 as [md2 [[] | er]]; [| by forget; apply triple_ret]. forget.
  eapply triple_conseq; [| apply uncached_tail |]; done.
Qed.

Lemma DeleteFile_uncached ctx path :
  triple (fun _ => True) (DeleteFile e ctx path) (fun r s => r = Ok tt -> uncached path s).
Proof.
  pose proof (uncached_tail path (filepath_Dir path)) as Ht.
  unfold DeleteFile. apply uncached_lock. forget. forget.
  assert (Hfrom : triple (fun _ => True)
    (let '(ctx, storage) := selectBackend e ctx a in
     wrap "failed to delete metadata" in _ <- lift (st_Delete (e_metadataStore e) path);
     do _ <- lift (sg_Delete storage ctx (TrimPrefix path "/"));
     try _ <- deleteReplicatedFile e ctx path (md_BackendType a);
     do _ <- cacheInvalidate path; do _ <- cacheInvalidatePrefix e (filepath_Dir path); ret (Ok tt : Res unit))
    (fun r s => r = Ok tt -> uncached path s)).
  { destruct (selectBackend e ctx a) as [ctx' storage]. forget. forget. forget.
    eapply triple_conseq; [| apply Ht |]; done. }
  destruct (e_erasureManager e) as [em |]; [| exact Hfrom]. destruct (md_ErasureCoded a); [| exact Hfrom].
  forget. forget. eapply triple_conseq; [| apply Ht |]; done.
Qed.

Lemma GetFile_good ctx path : respects keeps_good (GetFile e ctx path).
Proof.
  assert (Hq : forall (st : Storage W), quiet_storage st ->
    forall ctx p, respects keeps_good (lift (sg_Open st ctx p))).
  { intros st [H _ _ _ _] c p. apply respects_grows_good, lift_quiet, H. }
  pose proof (Hq _ env_local) as Hl. pose proof (Hq _ env_s3) as H3.
  assert (Hp : forall ctx p, respects keeps_good (lift (sg_Open (e_internalProxyBackend e) ctx p))).
  { intros c p. apply respects_grows_good, lift_quiet, env_proxy_Open. }
  assert (Hs : forall md ctx path, respects keeps_good
     (let '(ctx, storage) := selectBackend e ctx md in
      wrap "failed to open file" in reader <- lift (sg_Open storage ctx (TrimPrefix path "/"));
      ret (Ok reader))).
  { intros md c p. unfold selectBackend.
    destruct (md_CallFSInstanceID md) as [id |]; [destruct (String.eqb id _) |];
      destruct (String.eqb (md_BackendType md) "localfs"), (String.eqb (md_BackendType md) "s3"); resp. }
  unfold GetFile. apply respects_try; [apply _ | auto with respects | intros md].
  destruct (negb _); [resp |].
  destruct (e_erasureManager e) as [em |] eqn:Hem; [| apply Hs].
  destruct (md_ErasureCoded md); [| apply Hs].
  apply respects_try; [apply _ | | intros ?; resp].
  apply respects_grows_good, lift_quiet. by apply env_erasure.
Qed.

(** ** Updates: the cache is repaired before the operation returns *)

(** Coherent but for the entry of [path]. *)
Definition good_but (path : string) (s : EState W) : Prop :=
  serving (es_world s) /\ keyed s /\
  forall p en, p <> path -> Cache.mc_cache (es_cache s) !! p = Some en ->
    mds s !! p = Some (Cache.ce_Metadata en).

Lemma good_but_grows path s s' : grows s s' -> good_but path s -> good_but path s'.
Proof.
  intros Hg (Hs & Hk & Hc). destruct (Hg Hs) as (Hs' & Hce & Hsub & Hk'). split; [done |].
  split; [auto |]. intros p en Hne Hp. rewrite Hce in Hp. apply Hc in Hp; [| done]. by eapply lookup_weaken.
Qed.

Lemma cacheInvalidate_repairs path s s' a :
  cacheInvalidate path s = (s', a) -> good_but path s -> good s'.
Proof.
  unfold cacheInvalidate, onCache. intros H; injection H as <- <-. intros (Hs & Hk & Hc).
  split; [done |]. split; [done |]. intros p en Hp. cbn [es_cache] in Hp. unfold Cache.Invalidate in Hp.
  cbn [Cache.mc_cache Cache.with_cache] in Hp. apply lookup_delete_Some in Hp as [Hne Hp]. by apply Hc.
Qed.

(** The tail [Invalidate(path); InvalidatePrefix(dir)]. *)
Lemma invalidate_both path dir s s' (r : Res unit) :
  (do _ <- cacheInvalidate path; do _ <- cacheInvalidatePrefix e dir; ret (Ok tt)) s = (s', r) ->
  good_but path s -> good s'.
Proof.
  unfold bind at 1. destruct (cacheInvalidate path s) as [s1 []] eqn:E. intros H Hg.
  apply (cacheInvalidate_repairs _ _ _ _ E) in Hg.
  assert (Hr : respects keeps_good (do _ <- cacheInvalidatePrefix e dir; ret (Ok tt : Res unit))) by resp.
  by eapply Hr.
Qed.

Lemma lift_Update_but md s s' md' r :
  lift (st_Update (e_metadataStore e) md) s = (s', (md', r)) -> good s ->
  (r = Ok tt /\ good_but (md_Path md) s' /\ md_Path md' = md_Path md) \/ (r = Err ErrNotFound /\ good s').
Proof.
  unfold lift. destruct (st_Update _ md (es_world s)) as [w [m1 r1]] eqn:E.
  intros H; injection H as <- <- <-. intros (Hs & Hk & Hc).
  apply spec_Update in E as (Hs' & _ & E); [| done].
  destruct (mds s !! md_Path md) eqn:El.
  - destruct E as (-> & Hv & Hp%same_file_path). left. split; [done |]. split; [| done]. split; [done |].
    unfold keyed. cbn [es_world es_cache]. rewrite Hv. split.
    + intros p mx Hm. apply lookup_insert_Some in Hm as [[<- <-] | [_ Hm]]; [done | by apply Hk].
    + intros p en Hne Hp'. rewrite lookup_insert_ne by done. by apply Hc.
  - destruct E as [-> Hv]. right. split; [done |]. split; [done |]. unfold keyed, coherent.
    cbn [es_world es_cache]. by rewrite Hv.
Qed.

Lemma replicate_noack ctx path size pb s :
  e_requireReplicaAck e = false -> (replicateFileToSecondaryBackend e ctx path size pb s).2 = Ok tt.
Proof.
  intros Hack. unfold replicateFileToSecondaryBackend, replicaError. rewrite Hack.
  destruct (replicaTarget e pb); [| done]. unfold bind, ret.
  repeat match goal with |- context [lift ?m ?x] => destruct (lift m x) as [? [?|?]]; cbn [snd]; try done end.
Qed.
Lemma deleteReplicated_noack ctx path pb s :
  e_requireReplicaAck e = false -> (deleteReplicatedFile e ctx path pb s).2 = Ok tt.
Proof.
  intros Hack. unfold deleteReplicatedFile, replicaError. rewrite Hack.
  destruct (replicaTarget e pb); [| done]. unfold bind, ret.
  destruct (lift _ s) as [? [?|?]]; done.
Qed.

(** A record of a file this instance stores. *)
Definition owned (md : Metadata) : Prop :=
  md_CallFSInstanceID md = None \/ md_CallFSInstanceID md = Some (e_currentInstanceID e).

Lemma selectBackend_owned ctx md : owned md -> quiet_storage (selectBackend e ctx md).2.
Proof.
  unfold selectBackend. intros [-> | ->]; rewrite ?String.eqb_refl; cbn [snd];
    repeat case_goal; apply env_local || apply env_s3.
Qed.

Lemma UpdateMetadataOnly_good md : respects keeps_good (UpdateMetadataOnly e md).
Proof.
  intros s s' a. unfold UpdateMetadataOnly, bind, ret.
  destruct (lift (st_Update _ md) s) as [s1 [md' r]] eqn:E. intros H Hg.
  apply lift_Update_but in E as [(-> & Hb & Hp) | [-> Hb]]; [| by injection H as <- <- | done].
  destruct (cacheInvalidate (md_Path md') s1) as [s2 []] eqn:Ei. injection H as <- <-.
  apply (cacheInvalidate_repairs _ _ _ _ Ei). by rewrite Hp.
Qed.

(** [withLock] for a body that keeps a state good under a condition that
    quiet calls do not change, and for the answers [C] holds of. *)
Lemma withLock_good {A} (C : A -> Prop) (P : gmap string Metadata -> Prop) key msg fail (body : St (EState W) A) :
  (forall s s' a, body s = (s', a) -> C a -> good s -> P (mds s) -> good s') ->
  forall s s' a, withLock e key msg fail body s = (s', a) -> C a -> good s -> P (mds s) -> good s'.
Proof.
  intros Hb s s' a. unfold withLock, bind at 1.
  destruct (lift (lm_Acquire _ key) s) as [s1 r] eqn:Ea. intros H HC Hg HP.
  assert (Hv : mds s1 = mds s /\ good s1).
  { split; [| by eapply grows_keeps_good, Hg; eapply lift_quiet, Ea; apply env_Acquire].
    unfold lift in Ea. destruct (lm_Acquire _ key (es_world s)) as [w b] eqn:E. injection Ea as <- _.
    cbn [es_world]. destruct (env_Acquire _ _ _ _ E) as [_ ->]; [apply Hg | done]. }
  destruct Hv as [Hv Hg1]. rewrite <- Hv in HP.
  destruct r as [[|] | er]; [| by injection H as <- <- | by injection H as <- <-].
  unfold bind in H. destruct (body s1) as [s2 b] eqn:Eb.
  destruct (lift (lm_Release _ key) s2) as [s3 c] eqn:Er. unfold ret in H. injection H as <- <-.
  apply (Hb _ _ _ Eb) in Hg1; [| done | done]. eapply grows_keeps_good, Hg1. eapply lift_quiet, Er. apply env_Release.
Qed.

Lemma lift_quiet_mds {A} (m : St W A) s s' a :
  quiet m -> lift m s = (s', a) -> good s -> mds s' = mds s /\ good s'.
Proof.
  intros Hq H Hg. split; [| by eapply grows_keeps_good, Hg; eapply lift_quiet, H].
  unfold lift in H. destruct (m (es_world s)) as [w b] eqn:E. injection H as <- _. cbn [es_world].
  destruct (Hq _ _ _ E) as [_ ->]; [apply Hg | done].
Qed.

(** A failing replica loses the repair of the cache only when its failure
    fails the update. *)
Lemma UpdateFile_good ctx path rd size s s' r :
  e_requireReplicaAck e = false \/ r = Ok tt -> UpdateFile e ctx path rd size s = (s', r) -> good s ->
  (forall md, mds s !! path = Some md -> owned md) -> good s'.
Proof.
  intros Hack H Hg Hown. revert s s' r H Hack Hg Hown.
  apply (withLock_good (fun r => e_requireReplicaAck e = false \/ r = Ok tt) (fun m => forall md, m !! path = Some md -> owned md)).
  intros s s' r H Hack Hg Hown. unfold storeGet, try_bind at 1, gets in H.
  rewrite spec_Get in H by apply Hg. destruct (mds s !! path) as [md |] eqn:Emd; [| by injection H as <- <-].
  destruct (negb _); [by unfold ret in H; injection H as <- <- |].
  pose proof (selectBackend_owned ctx md (Hown _ eq_refl)) as Hq.
  destruct (selectBackend e ctx md) as [ctx' storage]. cbn [snd] in Hq.
  unfold try_bind at 1 in H. destruct (lift (sg_Update storage _ _ _ _) s) as [s1 [[] | er]] eqn:Eu;
    destruct (lift_quiet_mds _ _ _ _ (qs_Update _ Hq _ _ _ _) Eu Hg) as [Hv Hg1];
    [| by injection H as <- <-].
  unfold bind at 1, gets in H. set (md1 := match md_CallFSInstanceID _ with Some _ => _ | None => _ end) in H.
  assert (Hp1 : md_Path md1 = path).
  { destruct Hg as (_ & Hk & _). apply Hk in Emd. unfold md1.
    destruct (md_CallFSInstanceID _); [| destruct (String.eqb _ _)]; exact Emd. }
  unfold bind at 1 in H. destruct (lift (st_Update _ md1) s1) as [s2 [md2 r2]] eqn:Est.
  apply lift_Update_but in Est as [(-> & Hb & _) | [-> Hg2]]; [| | done].
  - rewrite Hp1 in Hb. unfold try_bind in H.
    destruct (replicateFileToSecondaryBackend e ctx' path size (md_BackendType md2) s2) as [s3 r3] eqn:Er.
    assert (r3 = Ok tt) as ->.
    { destruct r3 as [[] | er3]; [done |]. destruct Hack as [Hack | ->]; [| by injection H].
      pose proof (replicate_noack ctx' path size (md_BackendType md2) s2 Hack) as Hok. by rewrite Er in Hok. } apply replicate_grows in Er.
    apply (invalidate_both _ _ _ _ _ H). by eapply good_but_grows.
  - unfold bind, ret in H. destruct (cacheInvalidate path s2) as [s3 []] eqn:Ei. injection H as <- <-.
    by eapply cacheInvalidate_good.
Qed.

Lemma lift_Delete_but path s s' r :
  lift (st_Delete (e_metadataStore e) path) s = (s', r) -> good s ->
  (r = Ok tt /\ good_but path s' /\ mds s' = delete path (mds s)) \/ (r = Err ErrNotFound /\ good s').
Proof.
  unfold lift. destruct (st_Delete _ path (es_world s)) as [w r1] eqn:E.
  intros H; injection H as <- <-. intros (Hs & Hk & Hc).
  apply spec_Delete in E as (Hs' & _ & E); [| done].
  destruct (mds s !! path) eqn:El.
  - destruct E as (-> & Hv). left. split; [done |]. split; [| done]. split; [done |].
    unfold keyed. cbn [es_world es_cache]. rewrite Hv. split.
    + intros p mx Hm. apply lookup_delete_Some in Hm as [_ Hm]. by apply Hk.
    + intros p en Hne Hp'. rewrite lookup_delete_ne by done. by apply Hc.
  - destruct E as [-> Hv]. right. split; [done |]. split; [done |]. unfold keyed, coherent.
    cbn [es_world es_cache]. by rewrite Hv.
Qed.

Lemma DeleteFile_good ctx path s s' r :
  e_requireReplicaAck e = false -> DeleteFile e ctx path s = (s', r) -> good s ->
  (forall md, mds s !! path = Some md -> owned md) -> good s'.
Proof.
  intros Hack H Hg Hown. enough (forall s s' r, DeleteFile e ctx path s = (s', r) -> True -> good s ->
    (forall md, mds s !! path = Some md -> owned md) -> good s') as Hd by by eapply Hd.
  clear s s' r H Hg Hown. apply (withLock_good (fun _ => True) (fun m => forall md, m !! path = Some md -> owned md)).
  intros s s' r H _ Hg Hown. unfold storeGet, try_bind at 1, gets in H.
  rewrite spec_Get in H by apply Hg. destruct (mds s !! path) as [md |] eqn:Emd; [| by injection H as <- <-].
  unfold try_bind at 1 in H. destruct (checkEmpty e path md s) as [s0 r0] eqn:Ec.
  assert (s0 = s) as ->.
  { revert Ec. unfold checkEmpty, try_bind, gets, ret. destruct (String.eqb _ _); [destruct (st_ListChildren _ _ _) |];
      intros Heq; by injection Heq as <- _. }
  destruct r0 as [[] | er]; [| by injection H as <- <-].
  pose proof (selectBackend_owned ctx md (Hown _ eq_refl)) as Hq.
  destruct (selectBackend e ctx md) as [ctx' storage]. cbn [snd] in Hq.
  assert (Hbe : forall s s' r, good s ->
    (wrap "failed to delete metadata" in _ <- lift (st_Delete (e_metadataStore e) path);
     do _ <- lift (sg_Delete storage ctx' (TrimPrefix path "/"));
     try _ <- deleteReplicatedFile e ctx' path (md_BackendType md);
     do _ <- cacheInvalidate path; do _ <- cacheInvalidatePrefix e (filepath_Dir path); ret (Ok tt)) s = (s', r) ->
    good s').
  { clear -Hack Hq env store_spec. intros s s' r Hg H. unfold try_bind at 1 in H.
    destruct (lift (st_Delete _ path) s) as [s1 r1] eqn:Ed.
    apply lift_Delete_but in Ed as [(-> & Hb & _) | [-> Hg1]]; [| by injection H as <- <- | done].
    unfold bind at 1 in H. destruct (lift (sg_Delete storage _ _) s1) as [s2 r2] eqn:Es.
    apply lift_quiet in Es; [| apply (qs_Delete _ Hq)]. apply (good_but_grows _ _ _ Es) in Hb.
    unfold try_bind in H. destruct (deleteReplicatedFile e ctx' path (md_BackendType md) s2) as [s3 r3] eqn:Er.
    pose proof (deleteReplicated_noack ctx' path (md_BackendType md) s2 Hack) as Hok. rewrite Er in Hok.
    cbn [snd] in Hok. subst r3. apply deleteReplicated_grows in Er.
    apply (invalidate_both _ _ _ _ _ H). by eapply good_but_grows. }
  destruct (e_erasureManager e) as [em |] eqn:Hem; [| by eapply Hbe].
  destruct (md_ErasureCoded md); [| by eapply Hbe].
  unfold try_bind at 1 in H. destruct (lift (Erasure.DeleteFile em _ ctx path) s) as [s1 [[] | er]] eqn:Ee;
    (apply lift_quiet_mds in Ee as [_ Hg1]; [| by apply env_erasure | done]); [| by injection H as <- <-].
  unfold try_bind at 1 in H. destruct (lift (st_Delete _ path) s1) as [s2 r2] eqn:Ed.
  apply lift_Delete_but in Ed as [(-> & Hb & _) | [-> Hg2]]; [| by injection H as <- <- | done].
  by apply (invalidate_both _ _ _ _ _ H).
Qed.

(** ** Calls that leave the records alone *)

Definition same (s s' : EState W) : Prop :=
  serving (es_world s) -> serving (es_world s') /\ view (es_world s') = view (es_world s).
#[global] Instance same_preorder : PreOrder same.
Proof.
  split; [by intros s Hs |]. intros a b c Hab Hbc Ha. destruct (Hab Ha) as [Hb E1].
  destruct (Hbc Hb) as [Hc E2]. split; [done | congruence].
Qed.

Lemma lift_same {A} (m : St W A) : quiet m -> respects same (lift m).
Proof.
  intros Hq s s' a. unfold lift. destruct (m (es_world s)) as [w a'] eqn:E. intros H; injection H as <- <-.
  intros Hs. by destruct (Hq _ _ _ E Hs).
Qed.
Lemma onCache_same f : respects same (onCache f).
Proof. intros s s' a. unfold onCache. intros H; by injection H as <- <-. Qed.
Hint Resolve onCache_same : respects.

Lemma byType_same bt :
  (forall ctx p, respects same (lift (sg_Open (selectBackendByType e bt) ctx p))) /\
  (forall ctx p rd n, respects same (lift (sg_Create (selectBackendByType e bt) ctx p rd n))) /\
  (forall ctx p rd n, respects same (lift (sg_Update (selectBackendByType e bt) ctx p rd n))) /\
  (forall ctx p, respects same (lift (sg_Delete (selectBackendByType e bt) ctx p))) /\
  (forall ctx p, respects same (lift (sg_CreateDirectory (selectBackendByType e bt) ctx p))).
Proof.
  destruct (quiet_byType bt).
  split; [intros ctx p; by apply lift_same |]. split; [intros ctx p rd n; by apply lift_same |].
  split; [intros ctx p rd n; by apply lift_same |]. split; intros ctx p; by apply lift_same.
Qed.
Hint Extern 1 (respects same (lift (sg_Open (selectBackendByType _ ?bt) _ _))) => apply (byType_same bt) : respects.
Hint Extern 1 (respects same (lift (sg_Create (selectBackendByType _ ?bt) _ _ _ _))) => apply (byType_same bt) : respects.
Hint Extern 1 (respects same (lift (sg_Update (selectBackendByType _ ?bt) _ _ _ _))) => apply (byType_same bt) : respects.
Hint Extern 1 (respects same (lift (sg_Delete (selectBackendByType _ ?bt) _ _))) => apply (byType_same bt) : respects.
Hint Extern 1 (respects same (lift (sg_CreateDirectory (selectBackendByType _ ?bt) _ _))) => apply (byType_same bt) : respects.

Lemma replicate_same ctx path size pb : respects same (replicateFileToSecondaryBackend e ctx path size pb).
Proof. unfold replicateFileToSecondaryBackend. resp. Qed.
Hint Resolve replicate_same : respects.

(** ** Assertions on the records *)

Definition VP (F : gmap string Metadata -> Prop) (s : EState W) : Prop := serving (es_world s) /\ F (mds s).

Lemma triple_same {A} F (m : St (EState W) A) : respects same m -> triple (VP F) m (fun _ => VP F).
Proof. intros Hm s s' a E [Hs HF]. destruct (Hm _ _ _ E Hs) as [Hs' Hv]. split; [done | by rewrite Hv]. Qed.

Lemma triple_storeGet F path :
  triple (VP F) (storeGet e path) (fun r => VP (fun m => F m /\
    r = match m !! path with Some md => Ok md | None => Err ErrNotFound end)).
Proof.
  intros s s' r E [Hs HF]. unfold storeGet, gets in E. injection E as <- <-. split; [done |].
  split; [done |]. by rewrite spec_Get.
Qed.

Lemma triple_Create F md :
  triple (VP F) (lift (st_Create (e_metadataStore e) md)) (fun '(md', r) => VP (fun m' => exists m, F m /\
    match m !! md_Path md with
    | Some _ => r = Err ErrAlreadyExists /\ m' = m
    | None => r = Ok tt /\ m' = <[md_Path md := md']> m /\ same_file md md'
    end)).
Proof.
  intros s s' [md' r] E [Hs HF]. unfold lift in E. destruct (st_Create _ md (es_world s)) as [w [m1 r1]] eqn:Ec.
  injection E as <- <- <-. apply spec_Create in Ec as (Hs' & _ & Ec); [| done]. split; [done |].
  exists (mds s). split; [done |]. cbn [es_world]. destruct (mds s !! md_Path md); tauto.
Qed.

Lemma triple_withLock {A} F (G : A -> gmap string Metadata -> Prop) key msg fail (body : St (EState W) A) :
  (forall er m, er <> ErrAlreadyExists -> F m -> G (fail er) m) -> triple (VP F) body (fun a => VP (G a)) ->
  triple (VP F) (withLock e key msg fail body) (fun a => VP (G a)).
Proof.
  intros Hf Hb. unfold withLock. eapply triple_bind.
  { apply triple_same, lift_same, env_Acquire. }
  intros [[|] | er].
  - eapply triple_bind; [exact Hb |]. intros a. eapply triple_bind.
    { apply triple_same, lift_same, env_Release. }
    intros ?. by apply triple_ret.
  - apply triple_ret. intros s [Hs HF]. split; [done | by apply Hf].
  - apply triple_ret. intros s [Hs HF]. split; [done | by apply Hf].
Qed.

(** ** The tree of records *)

Abbreviation abs cs := (render_path true cs).

(** The parent of every record that is not at the root level has a record. *)
Definition closed (m : gmap string Metadata) : Prop :=
  forall cs n, names (cs ++ [n])%list -> cs <> [] -> is_Some (m !! abs (cs ++ [n])%list) -> is_Some (m !! abs cs).
Definition has_parent (cs : list string) (m : gmap string Metadata) : Prop :=
  cs = [] \/ is_Some (m !! abs cs).


Lemma closed_insert m cs n md :
  names (cs ++ [n])%list -> closed m -> has_parent cs m -> closed (<[abs (cs ++ [n])%list := md]> m).
Proof.
  intros Hn Hc Hp cs' n' Hn' Hne' [md' Hl].
  apply lookup_insert_Some in Hl as [[He _] | [_ Hl]].
  - apply abs_inj in He; [| done | done]. apply app_inj_tail in He as [-> ->].
    destruct Hp as [-> | [x Hx]]; [done |].
    destruct (decide (abs cs' = abs (cs' ++ [n'])%list)) as [<- | Hd].
    + rewrite lookup_insert_eq. by eexists.
    + rewrite lookup_insert_ne by done. by exists x.
  - destruct (Hc cs' n' Hn' Hne') as [x Hx]; [by eexists |].
    destruct (decide (abs cs' = abs (cs ++ [n])%list)) as [-> | Hd].
    + rewrite lookup_insert_eq. by eexists.
    + rewrite lookup_insert_ne by done. by exists x.
Qed.

(** The record [CreateFile] and [CreateDirectory] hand to the store, up to the times. *)
Definition localized (md : Metadata) : Metadata :=
  if String.eqb (md_BackendType md) "localfs"
  then set_CallFSInstanceID (Some (e_currentInstanceID e)) md else md.
Definition fileRecord (path : string) (size : Z) (md : Metadata) : Metadata :=
  set_Size size (set_Path path (localized md)).
Definition dirRecord (path : string) (md : Metadata) : Metadata :=
  set_Size 0 (set_Type "directory" (set_Path path (localized md))).

Lemma stamp_same t md md' : same_file (stamp t md) md' -> same_file md md'.
Proof. done. Qed.

(** What a call of [ensureParentDirectories] on [path = cs/n] establishes. *)
Definition ens_ok (cs : list string) (n : string) (ens : string -> St (EState W) (Res unit)) : Prop :=
  forall bt, triple (VP closed) (ens bt) (fun r => VP (fun m => closed m /\ (r = Ok tt -> has_parent cs m))).

(** The last part of [CreateDirectory] and [CreateFile], when the parents are there: store the record. *)
Lemma triple_store_record cs n md :
  names (cs ++ [n])%list -> md_Path md = abs (cs ++ [n])%list ->
  triple (VP (fun m => closed m /\ has_parent cs m)) (lift (st_Create (e_metadataStore e) md))
    (fun '(md', r) => VP (fun m => closed m /\ has_parent cs m /\
       (r = Ok tt /\ m !! abs (cs ++ [n])%list = Some md' /\ same_file md md' \/ r = Err ErrAlreadyExists))).
Proof.
  intros Hn Hp. eapply triple_conseq; [intros s H; exact H | apply triple_Create |].
  intros [md' r] s [Hs (m & [Hc Hpar] & H)]. rewrite Hp in H. split; [done |]. revert H.
  destruct (m !! abs (cs ++ [n])%list) eqn:El.
  - intros [-> ->]. split; [done |]. split; [done |]. by right.
  - intros (-> & -> & Hsf). split; [by apply closed_insert |]. split.
    + destruct Hpar as [-> | [x Hx]]; [by left |]. right.
      rewrite lookup_insert_ne; [by exists x |]. intros Heq. rewrite <- Heq in Hx. congruence.
    + left. by rewrite lookup_insert_eq.
Qed.

(** The outcome of a creation of [cs/n] on the tree. *)
Definition created (cs : list string) (n : string) (want : Metadata) (a : Metadata * Res unit)
    (m : gmap string Metadata) : Prop :=
  closed m /\
  match a.2 with
  | Ok _ => m !! abs (cs ++ [n])%list = Some a.1 /\ same_file want a.1 /\ has_parent cs m
  | Err er => er = ErrAlreadyExists -> is_Some (m !! abs (cs ++ [n])%list)
  end.

Lemma created_fail cs n want md er m :
  er <> ErrAlreadyExists -> closed m -> created cs n want (md, Err er) m.
Proof. intros Hne Hc. split; [done |]. cbn. by intros ->. Qed.

Lemma CreateDirectoryWith_closed ens ctx cs n md :
  names (cs ++ [n])%list -> ens_ok cs n ens ->
  triple (VP closed) (CreateDirectoryWith e ens ctx (abs (cs ++ [n])%list) md)
    (fun a => VP (created cs n (dirRecord (abs (cs ++ [n])%list) md) a)).
Proof.
  intros Hn He. unfold CreateDirectoryWith. apply triple_withLock.
  { intros er m Hne Hc. by apply created_fail. }
  eapply triple_bind; [apply triple_storeGet |]. intros [existing | er0].
  { apply triple_ret. intros s [Hs [Hc Hr]]. split; [done |]. split; [done |]. intros _.
    destruct (mds s !! _); [by eexists | done]. }
  eapply triple_bind.
  { eapply triple_conseq; [| apply He | intros a s H; exact H]. intros s [Hs [Hc _]]. done. }
  intros [[] | er]; [| apply triple_ret; intros s [Hs [Hc _]]; split; [done | by apply created_fail]].
  fold (localized md). eapply triple_bind.
  { apply triple_same, byType_same. }
  intros [[] | er]; [| apply triple_ret; intros s [Hs [Hc _]]; split; [done | by apply created_fail]].
  eapply triple_bind; [apply triple_same, respects_gets; apply _ |]. intros t.
  eapply triple_bind.
  { eapply triple_conseq; [| apply (triple_store_record cs n) | intros a s H; exact H]; [| done | done].
    intros s [Hs [Hc Hp]]. split; [done |]. auto. }
  intros [md' [[] | er]].
  - apply triple_ret. intros s [Hs (Hc & Hp & [(_ & Hl & Hsf) | H])]; [| done]. split; [done |]. split; [done |].
    cbn [fst snd]. split; [done |]. split; [by eapply stamp_same | done].
  - eapply triple_bind; [apply triple_same, byType_same |]. intros ?. apply triple_ret.
    intros s [Hs [Hc _]]. split; [done | by apply created_fail].
Qed.

Lemma ensureParents_closed ctx cs n : names (cs ++ [n])%list -> ens_ok cs n (ensureParents e ctx (abs (cs ++ [n])%list)).
Proof.
  revert cs n. refine (ensureParents_names_ind e ctx ens_ok _ _).
  - intros n bt. apply triple_ret. intros s [Hs Hc]. split; [done |]. split; [done |]. intros _. by left.
  - intros cs n0 n rec Hn Hrec bt. unfold ensureMissing. eapply triple_bind; [apply triple_storeGet |]. intros [parent | er0].
    { apply triple_ret. intros s [Hs [Hc Hr]]. split; [done |]. split; [done |]. intros _. right.
      destruct (mds s !! _); [by eexists | done]. }
    eapply triple_try.
    { eapply triple_conseq; [| apply Hrec | intros a s H; exact H]. intros s [Hs [Hc _]]. done. }
    2: { intros er s [Hs [Hc _]]. split; [done |]. by split. }
    intros []. eapply triple_bind.
    { eapply triple_conseq; [| apply (CreateDirectoryWith_closed _ _ cs n0); done | intros a s H; exact H].
      intros s [Hs [Hc _]]. done. }
    intros [md' [[] | er]]; apply triple_ret; intros s [Hs [Hc Hr]]; cbn [fst snd] in Hr; (split; [done |]);
      (split; [done |]); intros Hok; right.
    + destruct Hr as [Hr _]. by eexists.
    + apply Hr. by destruct (bool_decide_reflect (er = ErrAlreadyExists)).
Qed.

Lemma CreateFile_closed ctx cs n rd size md :
  names (cs ++ [n])%list ->
  triple (VP closed) (CreateFile e ctx (abs (cs ++ [n])%list) rd size md)
    (fun a => VP (fun m => closed m /\ (a.2 = Ok tt ->
       created cs n (fileRecord (abs (cs ++ [n])%list) size md) a m))).
Proof.
  intros Hn. unfold CreateFile. apply triple_withLock; [done |].
  eapply triple_bind; [apply triple_storeGet |]. intros [existing | er0].
  { apply triple_ret. intros s [Hs [Hc Hr]]. done. }
  eapply triple_bind.
  { eapply triple_conseq; [| by apply ensureParents_closed | intros a s H; exact H]. intros s [Hs [Hc _]]. done. }
  intros [[] | er]; [| apply triple_ret; intros s [Hs [Hc _]]; done].
  fold (localized md). eapply triple_bind.
  { apply triple_same, byType_same. }
  intros [[] | er]; [| apply triple_ret; intros s [Hs [Hc _]]; done].
  eapply triple_bind; [apply triple_same, respects_gets; apply _ |]. intros t.
  eapply triple_bind.
  { eapply triple_conseq; [| apply (triple_store_record cs n) | intros a s H; exact H]; [| done | done].
    intros s [Hs [Hc Hp]]. split; [done |]. auto. }
  intros [md' [[] | er]].
  2: { eapply triple_bind; [apply triple_same, byType_same |]. intros ?. apply triple_ret.
       intros s [Hs [Hc _]]. done. }
  eapply triple_bind; [apply triple_same, replicate_same |]. intros [[] | er].
  - eapply triple_bind; [apply triple_same; unfold cacheInvalidatePrefix; auto with respects |]. intros ?.
    apply triple_ret. intros s [Hs (Hc & Hp & [(_ & Hl & Hsf) | H])]; [| done].
    split; [done |]. split; [done |]. intros _. split; [done |]. cbn [fst snd].
    split; [done |]. split; [by eapply stamp_same | done].
  - apply triple_ret. intros s [Hs [Hc _]]. done.
Qed.

Definition mono (s s' : EState W) : Prop :=
  serving (es_world s) -> serving (es_world s') /\ mds s ⊆ mds s'.
#[global] Instance mono_preorder : PreOrder mono.
Proof.
  split; [by intros s Hs |]. intros a b c Hab Hbc Ha. destruct (Hab Ha) as [Hb E1].
  destruct (Hbc Hb) as [Hc E2]. split; [done | by etrans].
Qed.
Lemma grows_mono s s' : grows s s' -> mono s s'.
Proof. intros H Hs. destruct (H Hs) as (? & _ & ? & _). done. Qed.
Lemma respects_grows_mono {A} (m : St (EState W) A) : respects grows m -> respects mono m.
Proof. intros H s s' a E. by eapply grows_mono, H. Qed.
Lemma onCache_mono f : respects mono (onCache f).
Proof. intros s s' a. unfold onCache. intros H; by injection H as <- <-. Qed.
Hint Resolve onCache_mono : respects.
Hint Extern 3 (respects mono (lift _)) => apply respects_grows_mono : respects.
Hint Extern 3 (respects mono (ensureParents _ _ _ _)) => apply respects_grows_mono : respects.
Hint Extern 3 (respects mono (replicateFileToSecondaryBackend _ _ _ _ _)) => apply respects_grows_mono : respects.

Lemma CreateFile_mono ctx path rd size md s s' a :
  serving (es_world s) -> CreateFile e ctx path rd size md s = (s', a) -> mds s ⊆ mds s'.
Proof.
  intros Hs H. enough (Hm : respects mono (CreateFile e ctx path rd size md)) by (by apply (Hm _ _ _ H Hs)).
  unfold CreateFile. apply withLock_respects; [apply _ | apply grows_mono |].
  unfold storeGet, cacheInvalidatePrefix. resp.
Qed.

(** A file that has a record is not created again. *)
Lemma CreateFile_exists ctx path rd size md s s' md' r :
  serving (es_world s) -> is_Some (mds s !! path) ->
  CreateFile e ctx path rd size md s = (s', (md', r)) -> is_Ok r = false.
Proof.
  intros Hs Hex H.
  enough (Ht : triple (VP (fun m => is_Some (m !! path))) (CreateFile e ctx path rd size md)
                 (fun a => VP (fun m => is_Ok a.2 = false))) by (by destruct (Ht _ _ _ H) as [_ ?]).
  unfold CreateFile. apply triple_withLock; [done |].
  eapply triple_bind; [apply triple_storeGet |]. intros [existing | er0].
  { apply triple_ret. intros s0 [Hs0 _]. done. }
  intros s1 s2 a _ [_ [[x Hx] Hr]]. rewrite Hx in Hr. done.
Qed.

(** C24: Creating a file, by any outcome of its many calls, keeps the tree of
    records closed under parents and never changes or loses a record.  When it
    succeeds there was no record before, there is one now with the given path
    and size and the caller's type, mode, owner and backend (marked with this
    instance for the local backend), and its parent directory has a record. *)
Theorem engine_create_file ctx cs n rd size md s s' md' r :
  names (cs ++ [n])%list -> serving (es_world s) -> closed (mds s) ->
  CreateFile e ctx (abs (cs ++ [n])%list) rd size md s = (s', (md', r)) ->
  closed (mds s') /\ mds s ⊆ mds s' /\
  (is_Some (mds s !! abs (cs ++ [n])%list) -> is_Ok r = false) /\
  (r = Ok tt -> mds s' !! abs (cs ++ [n])%list = Some md' /\
                same_file (fileRecord (abs (cs ++ [n])%list) size md) md' /\ has_parent cs (mds s')).
Proof.
  intros Hn Hs Hc H. destruct (CreateFile_closed ctx cs n rd size md Hn _ _ _ H) as [_ [Hc' Hok]]; [done |].
  split; [done |]. split; [by eapply CreateFile_mono |]. split.
  - intros Hex. by eapply CreateFile_exists.
  - intros ->. by apply Hok.
Qed.

(** ** Histories of operations *)

Inductive eop :=
| OpGetMetadata (path : string)
| OpGetFile (ctx : Ctx) (path : string)
| OpCreateFile (ctx : Ctx) (path : string) (rd : Reader) (size : Z) (md : Metadata)
| OpCreateDirectory (ctx : Ctx) (path : string) (md : Metadata)
| OpUpdateFile (ctx : Ctx) (path : string) (rd : Reader) (size : Z)
| OpDeleteFile (ctx : Ctx) (path : string)
| OpCreateErasureMetadata (ctx : Ctx) (path : string) (md : Metadata)
| OpUpdateMetadataOnly (md : Metadata)
| OpEnsureRootDirectory.

Definition run_op (o : eop) (s : EState W) : EState W :=
  match o with
  | OpGetMetadata p => (GetMetadata e p s).1
  | OpGetFile ctx p => (GetFile e ctx p s).1
  | OpCreateFile ctx p rd n md => (CreateFile e ctx p rd n md s).1
  | OpCreateDirectory ctx p md => (CreateDirectory e ctx p md s).1
  | OpUpdateFile ctx p rd n => (UpdateFile e ctx p rd n s).1
  | OpDeleteFile ctx p => (DeleteFile e ctx p s).1
  | OpCreateErasureMetadata ctx p md => (CreateErasureMetadata e ctx p md s).1
  | OpUpdateMetadataOnly md => (UpdateMetadataOnly e md s).1
  | OpEnsureRootDirectory => (EnsureRootDirectory e s).1
  end.

(** Updates and deletions of files that other instances store go through the
    proxy, which writes to the shared metadata on the other side: histories
    here update and delete what this instance stores. *)
Definition allowed (o : eop) (s : EState W) : Prop :=
  match o with
  | OpUpdateFile _ p _ _ | OpDeleteFile _ p => forall md, mds s !! p = Some md -> owned md
  | _ => True
  end.

Inductive reaches : EState W -> EState W -> Prop :=
| reaches_refl s : reaches s s
| reaches_op s o s' : allowed o s -> reaches (run_op o s) s' -> reaches s s'.

Lemma run_op_good o s : e_requireReplicaAck e = false -> allowed o s -> good s -> good (run_op o s).
Proof.
  intros Hack Ha Hg. destruct o; cbn [run_op allowed] in *;
    match goal with |- good (?m s).1 => destruct (m s) as [s' a] eqn:E; cbn [fst] end.
  - by eapply GetMetadata_good.
  - by eapply GetFile_good.
  - by eapply CreateFile_good.
  - by eapply respects_grows_good; [apply CreateDirectory_grows | |].
  - by eapply UpdateFile_good; [left | ..].
  - by eapply DeleteFile_good.
  - by eapply CreateErasureMetadata_good.
  - by eapply UpdateMetadataOnly_good.
  - by eapply EnsureRootDirectory_good.
Qed.


Lemma triple_Delete F path :
  triple (VP F) (lift (st_Delete (e_metadataStore e) path)) (fun r => VP (fun m' => exists m, F m /\
    match m !! path with
    | None => r = Err ErrNotFound /\ m' = m
    | Some _ => r = Ok tt /\ m' = delete path m
    end)).
Proof.
  intros s s' r E [Hs HF]. unfold lift in E. destruct (st_Delete _ path (es_world s)) as [w r1] eqn:Ec.
  injection E as <- <-. apply spec_Delete in Ec as (Hs' & _ & Ec); [| done]. split; [done |].
  exists (mds s). split; [done |]. cbn [es_world]. by destruct (mds s !! path).
Qed.

(** No record of [m] has [path] as its parent. *)
Definition no_children (path : string) (m : gmap string Metadata) : Prop :=
  forall q md, m !! q = Some md -> md_Path md <> "/" -> pathDir (md_Path md) <> path.

Lemma triple_checkEmpty F path md :
  triple (VP F) (checkEmpty e path md)
    (fun r => VP (fun m => F m /\ (r = Ok tt -> md_Type md = "directory" -> no_children path m))).
Proof.
  unfold checkEmpty. destruct (String.eqb_spec (md_Type md) "directory") as [Hd | Hnd].
  - intros s s' r E [Hs HF]. unfold try_bind, gets, ret in E.
    destruct (spec_ListChildren path (es_world s) Hs) as (l & Hl & Hel). rewrite Hl in E.
    injection E as <- <-. split; [done |]. split; [done |]. destruct l as [| x l]; [| done].
    intros _ _ q m Hq Hroot Hp. apply (elem_of_nil m), Hel. by exists q.
  - apply triple_ret. intros s [Hs HF]. done.
Qed.

(** Delete the record, then run what leaves the records alone. *)
Lemma triple_delete_record (D : Prop) path m0 (k : unit -> St (EState W) (Res unit)) :
  is_Some (m0 !! path) -> (forall u, respects same (k u)) ->
  triple (VP (fun m => m = m0 /\ D))
    (try_bind (lift (st_Delete (e_metadataStore e) path)) (EWrap "failed to delete metadata") k)
    (fun r => VP (fun m => r = Ok tt -> m = delete path m0 /\ D)).
Proof.
  intros [md Hmd] Hk. eapply triple_try; [apply triple_Delete | | by intros er s [Hs _]].
  intros u. eapply triple_conseq;
    [| apply (triple_same (fun m => m = delete path m0 /\ D)), Hk | by intros a s [Hs Ha]].
  intros s [Hs (m & [-> Hn] & Hr)]. rewrite Hmd in Hr. by destruct Hr as [_ Hr].
Qed.

Lemma DeleteFile_records ctx path s s' md :
  serving (es_world s) -> mds s !! path = Some md -> owned md ->
  DeleteFile e ctx path s = (s', Ok tt) ->
  serving (es_world s') /\ mds s' = delete path (mds s) /\ (md_Type md = "directory" -> no_children path (mds s)).
Proof.
  intros Hs. remember (mds s) as m0 eqn:Hm0. intros Hmd Hown H.
  enough (Ht : triple (VP (fun m => m = m0)) (DeleteFile e ctx path) (fun r => VP (fun m => r = Ok tt ->
      m = delete path m0 /\ (md_Type md = "directory" -> no_children path m0))))
    by (destruct (Ht _ _ _ H) as [Hs' Hr]; [by split | split; [done | by apply Hr]]).
  clear s s' Hs Hm0 H. unfold DeleteFile. apply triple_withLock; [done |].
  eapply triple_try; [apply triple_storeGet | | by intros er s [Hs _]]. intros md1.
  apply (triple_pure (md1 = md)); [intros s [_ [-> Hr]]; rewrite Hmd in Hr; by injection Hr | intros ->].
  eapply triple_try; [apply triple_checkEmpty | | by intros er s [Hs _]]. intros [].
  apply (triple_conseq (VP (fun m => m = m0 /\ (md_Type md = "directory" -> no_children path m0))) _
           (fun r => VP (fun m => r = Ok tt ->
             m = delete path m0 /\ (md_Type md = "directory" -> no_children path m0))));
    [intros s [Hs [[Hm _] Hn]]; rewrite Hm in Hn; by repeat split; auto | | done].
  assert (Hinv : forall dir, respects same
     (do _ <- cacheInvalidate path; do _ <- cacheInvalidatePrefix e dir; ret (Ok tt : Res unit))).
  { intros dir. unfold cacheInvalidate, cacheInvalidatePrefix. resp. }
  pose proof (triple_delete_record (md_Type md = "directory" -> no_children path m0) path m0) as Hdel.
  rewrite Hmd in Hdel. specialize (fun k => Hdel k (mk_is_Some _ _ eq_refl)).
  pose proof (selectBackend_owned ctx md Hown) as Hq.
  destruct (selectBackend e ctx md) as [ctx' storage]. cbn [snd] in Hq.
  assert (Hsg : respects same (lift (sg_Delete storage ctx' (TrimPrefix path "/")))).
  { apply lift_same, (qs_Delete _ Hq). }
  assert (Hrep : respects same (deleteReplicatedFile e ctx' path (md_BackendType md))).
  { unfold deleteReplicatedFile. resp. }
  assert (Hbe : forall u : unit, respects same
    (do _ <- lift (sg_Delete storage ctx' (TrimPrefix path "/"));
     try _ <- deleteReplicatedFile e ctx' path (md_BackendType md);
     do _ <- cacheInvalidate path; do _ <- cacheInvalidatePrefix e (filepath_Dir path); ret (Ok tt : Res unit))).
  { intros _. apply respects_bind; [apply _ | done | intros ?]. apply respects_try; [apply _ | done | intros ?].
    apply Hinv. }
  destruct (e_erasureManager e) as [em |] eqn:Hem; [| by apply Hdel].
  destruct (md_ErasureCoded md); [| by apply Hdel].
  eapply triple_try; [apply triple_same, lift_same; by apply env_erasure | | by intros er s [Hs _]].
  intros []. by apply Hdel.
Qed.

(** C27: A deletion that succeeds removes exactly the record of the path, and
    if that is a directory then no record was below it: no record loses its
    parent by the deletion of a directory. *)
Theorem engine_delete_file ctx path s s' md :
  serving (es_world s) -> mds s !! path = Some md -> owned md ->
  DeleteFile e ctx path s = (s', Ok tt) ->
  mds s' = delete path (mds s) /\ (md_Type md = "directory" -> no_children path (mds s)).
Proof. intros Hs Hm Ho H; by apply (DeleteFile_records ctx path s s' md). Qed.

End Env.

(** ** Locks *)
Section Locks.
Context {W : Type} (e : Engine W) (held : W -> string -> Prop)
        {lock_spec : LockSpec (e_lockManager e) held}.

(** A call after which no lock is held that was not held before. *)
Definition nolock {A} (m : St W A) : Prop :=
  forall w w' a, m w = (w', a) -> forall k, held w' k -> held w k.

Record nolock_storage (st : Storage W) : Prop := {
  nl_Open : forall ctx p, nolock (sg_Open st ctx p);
  nl_Create : forall ctx p rd n, nolock (sg_Create st ctx p rd n);
  nl_Update : forall ctx p rd n, nolock (sg_Update st ctx p rd n);
  nl_Delete : forall ctx p, nolock (sg_Delete st ctx p);
  nl_CreateDirectory : forall ctx p, nolock (sg_CreateDirectory st ctx p);
}.

(** The other components take no locks of the engine's lock manager, and a
    release does not fail. *)
Class LockEnv : Prop := {
  le_release : forall k w, (lm_Release (e_lockManager e) k w).2 = Ok tt;
  le_local : nolock_storage (e_localFSBackend e);
  le_s3 : nolock_storage (e_s3Backend e);
  le_proxy : nolock_storage (e_internalProxyBackend e);
  le_Create : forall md, nolock (st_Create (e_metadataStore e) md);
  le_Update : forall md, nolock (st_Update (e_metadataStore e) md);
  le_Delete : forall p, nolock (st_Delete (e_metadataStore e) p);
  le_erasure : forall em, e_erasureManager e = Some em ->
    (forall order ctx p, nolock (Erasure.DeleteFile em order ctx p)) /\
    (forall order late ctx p, nolock (Erasure.RetrieveFile em order late ctx p));
}.
Context {lock_env : LockEnv}.

Definition freed (s s' : EState W) : Prop := forall k, held (es_world s') k -> held (es_world s) k.
#[global] Instance freed_preorder : PreOrder freed.
Proof. split; [by intros s k |]. intros a b c Hab Hbc k Hk. auto. Qed.

Lemma lift_freed {A} (m : St W A) : nolock m -> respects freed (lift m).
Proof.
  intros Hm s s' a. unfold lift. destruct (m (es_world s)) as [w b] eqn:E. intros H; injection H as <- <-.
  intros k Hk. by eapply Hm.
Qed.
Lemma onCache_freed f : respects freed (onCache f).
Proof. intros s s' a. unfold onCache. intros H; injection H as <- <-. by intros k. Qed.

Lemma byType_nolock bt : nolock_storage (selectBackendByType e bt).
Proof. unfold selectBackendByType. repeat case_goal; apply le_local || apply le_s3. Qed.
Lemma selected_nolock ctx md : nolock_storage (selectBackend e ctx md).2.
Proof.
  unfold selectBackend. destruct (md_CallFSInstanceID md) as [id |]; [destruct (String.eqb id _) |]; cbn [snd];
    repeat case_goal; apply le_local || apply le_s3 || apply le_proxy.
Qed.

Hint Resolve onCache_freed lift_freed le_Create le_Update le_Delete : respects.
Hint Resolve nl_Open nl_Create nl_Update nl_Delete nl_CreateDirectory byType_nolock selected_nolock : respects.
Hint Resolve le_local le_s3 le_proxy : respects.

(** The lock a body runs under is released whatever the body does. *)
Lemma withLock_freed {A} key msg fail (body : St (EState W) A) :
  respects freed body -> respects freed (withLock e key msg fail body).
Proof.
  intros Hb s s' a. unfold withLock, bind at 1.
  destruct (lift (lm_Acquire _ key) s) as [s1 r] eqn:Ea. unfold lift in Ea.
  destruct (lm_Acquire (e_lockManager e) key (es_world s)) as [w1 r1] eqn:Ea'. injection Ea as <- <-.
  apply spec_Acquire in Ea' as [_ Ha].
  assert (Hno : r1 <> Ok true -> freed s (mkEState w1 (es_cache s))).
  { intros Hn k Hk. apply Ha in Hk as [Hk | [Hk _]]; done. }
  destruct r1 as [[|] | er]; [| unfold ret; intros H; injection H as <- <-; by apply Hno
                              | unfold ret; intros H; injection H as <- <-; by apply Hno].
  unfold bind, ret. destruct (body _) as [s2 b] eqn:Eb. apply Hb in Eb.
  destruct (lift (lm_Release _ key) s2) as [s3 c] eqn:Er. unfold lift in Er.
  destruct (lm_Release (e_lockManager e) key (es_world s2)) as [w3 r3] eqn:Er'. injection Er as <- <-.
  intros H; injection H as <- <-. intros k Hk.
  pose proof (le_release key (es_world s2)) as Hok. rewrite Er' in Hok. cbn in Hok.
  destruct (spec_Release _ _ _ _ Er' k Hk) as [Hk2 Hne]. specialize (Hne Hok).
  apply Eb in Hk2. apply Ha in Hk2 as [Hk2 | [_ Hk2]]; [done | congruence].
Qed.

Lemma CreateDirectoryWith_freed ens ctx path md :
  (forall bt, respects freed (ens bt)) -> respects freed (CreateDirectoryWith e ens ctx path md).
Proof.
  intros He. unfold CreateDirectoryWith. apply withLock_freed. unfold storeGet. resp.
Qed.
Lemma ensureParents_freed ctx path bt : respects freed (ensureParents e ctx path bt).
Proof.
  revert path bt. refine (ensureParents_ind e ctx (fun _ ens => forall bt, respects freed (ens bt)) _ _); [intros path _ bt; resp |].
  intros path rec _ Hrec bt.
  pose proof (CreateDirectoryWith_freed rec ctx (filepath_Dir path)) as Hc. unfold ensureMissing, storeGet. resp.
Qed.
Lemma replicate_freed ctx path size pb : respects freed (replicateFileToSecondaryBackend e ctx path size pb).
Proof. unfold replicateFileToSecondaryBackend. resp. Qed.
Lemma deleteReplicated_freed ctx path pb : respects freed (deleteReplicatedFile e ctx path pb).
Proof. unfold deleteReplicatedFile. resp. Qed.
Hint Resolve ensureParents_freed replicate_freed deleteReplicated_freed : respects.

Lemma GetMetadata_freed path : respects freed (GetMetadata e path).
Proof.
  intros s s' a. unfold GetMetadata. destruct (Cache.Get _ _ _); [intros H; injection H as <- <-; by intros k |].
  unfold storeGet, try_bind, gets, bind, ret. destruct (st_Get _ _ _); intros H; injection H as <- <-; by intros k.
Qed.
Hint Resolve GetMetadata_freed : respects.

Lemma UpdateFile_freed ctx path rd size : respects freed (UpdateFile e ctx path rd size).
Proof.
  unfold UpdateFile. apply withLock_freed. unfold storeGet, cacheInvalidate, cacheInvalidatePrefix.
  apply respects_try; [apply _ | resp | intros md]. destruct (negb _); [resp |].
  pose proof (selected_nolock ctx md) as Hs. destruct (selectBackend e ctx md) as [c st]. resp.
Qed.
Lemma DeleteFile_freed ctx path : respects freed (DeleteFile e ctx path).
Proof.
  unfold DeleteFile, checkEmpty, cacheInvalidate, cacheInvalidatePrefix. apply withLock_freed. unfold storeGet.
  apply respects_try; [apply _ | resp | intros md]. apply respects_try; [apply _ | resp | intros ?].
  pose proof (selected_nolock ctx md) as Hs. destruct (selectBackend e ctx md) as [c st].
  pose proof (fun em H o c p => lift_freed _ (proj1 (le_erasure em H) o c p)) as Her.
  destruct (e_erasureManager e) as [em |]; [specialize (Her em eq_refl) |]; resp.
Qed.
Lemma GetFile_freed ctx path : respects freed (GetFile e ctx path).
Proof.
  unfold GetFile. apply respects_try; [apply _ | resp | intros md]. destruct (negb _); [resp |].
  pose proof (selected_nolock ctx md) as Hs. destruct (selectBackend e ctx md) as [c st].
  pose proof (fun em H o l c p => lift_freed _ (proj2 (le_erasure em H) o l c p)) as Her.
  destruct (e_erasureManager e) as [em |]; [specialize (Her em eq_refl) |]; resp.
Qed.

(** No engine operation leaves a lock behind: whatever it returns and
    wherever it fails, the locks that are held afterwards were held before,
    those taken for missing parent directories included. *)
Theorem engine_releases_locks o s k :
  held (es_world (run_op e o s)) k -> held (es_world s) k.
Proof.
  destruct o; cbn [run_op];
    match goal with |- held (es_world (?m s).1) k -> _ => destruct (m s) as [s' a] eqn:E; cbn [fst]; revert E end;
    match goal with |- ?m s = _ -> _ =>
      enough (Hm : respects freed m) by (intros E; by eapply Hm) end.
  - apply GetMetadata_freed.
  - apply GetFile_freed.
  - unfold CreateFile. apply withLock_freed. unfold storeGet, cacheInvalidatePrefix. resp.
  - apply CreateDirectoryWith_freed. apply ensureParents_freed.
  - apply UpdateFile_freed.
  - apply DeleteFile_freed.
  - unfold CreateErasureMetadata, cacheInvalidatePrefix. resp.
  - unfold UpdateMetadataOnly, cacheInvalidate. resp.
  - unfold EnsureRootDirectory, storeGet. resp.
Qed.

End Locks.

(** ** A concrete instance: map-backed store and local backend, the
    in-process lock manager, no S3, no peers *)

Record TW := mkTW {
  tw_view : StoreView;
  tw_locks : LocalLocks.LocalWorld;
  tw_files : gmap string string;
}.
Definition tw_put (v : StoreView) (w : TW) : TW := mkTW v (tw_locks w) (tw_files w).

Definition twLocks : LockManager TW := mkLockManager TW
  (fun k w => let '(l, r) := lm_Acquire LocalLocks.localManager k (tw_locks w) in
              (mkTW (tw_view w) l (tw_files w), r))
  (fun k w => let '(l, r) := lm_Release LocalLocks.localManager k (tw_locks w) in
              (mkTW (tw_view w) l (tw_files w), r)).

Definition twFiles : Storage TW :=
  let set f w := (mkTW (tw_view w) (tw_locks w) f, Ok tt) in
  mkStorage TW
    (fun _ p w => (w, match tw_files w !! p with Some d => Ok (bytesReader d) | None => Err ErrNotFound end))
    (fun _ p rd _ w => match tw_files w !! p, rd_err rd with
                       | Some _, _ => (w, Err ErrAlreadyExists)
                       | None, Some er => (w, Err er)
                       | None, None => set (<[p := rd_data rd]> (tw_files w)) w end)
    (fun _ p rd _ w => match rd_err rd with
                       | Some er => (w, Err er)
                       | None => set (<[p := rd_data rd]> (tw_files w)) w end)
    (fun _ p w => set (delete p (tw_files w)) w)
    (fun _ _ w => (w, Err ErrNotFound)) (fun _ _ w => (w, Ok [])) (fun _ _ w => (w, Ok tt)).

Definition twEngine (replicate ack : bool) : Engine TW :=
  mkEngine TW (memStore tw_view tw_put) twFiles (Noop.noopStorage TW) (Noop.noopStorage TW) None
    twLocks "n1" ∅ replicate "s3" ack None (fun w => LocalLocks.lw_now (tw_locks w))
    (mkSchedule (fun c => map_to_list (Cache.mc_cache c)) id (fun _ => false)).

#[global] Instance tw_store_spec b a : StoreSpec (e_metadataStore (twEngine b a)) tw_view (fun _ => True).
Proof. by apply memStore_spec. Qed.

Lemma tw_quiet_noop : quiet_storage tw_view (fun _ => True) (Noop.noopStorage TW).
Proof.
  constructor; cbn [Noop.noopStorage sg_Open sg_Create sg_Update sg_Delete sg_CreateDirectory];
    intros; unfold quiet, ret; intros w w' r H _; by injection H as <- _.
Qed.

#[global] Instance tw_env b a : EngineEnv (twEngine b a) tw_view (fun _ => True).
Proof.
  constructor; cbn [twEngine e_lockManager e_localFSBackend e_s3Backend e_internalProxyBackend e_erasureManager e_sched].
  - intros k w w' r. cbn [twLocks lm_Acquire]. destruct (lm_Acquire _ k (tw_locks w)).
    intros H _; by injection H as <- _.
  - intros k w w' r. cbn [twLocks lm_Release]. destruct (lm_Release _ k (tw_locks w)).
    intros H _; by injection H as <- _.
  - constructor; cbn [twFiles sg_Open sg_Create sg_Update sg_Delete sg_CreateDirectory];
      intros; intros w w' r H _; repeat case_if_in H; by injection H as <- _.
  - apply tw_quiet_noop.
  - apply tw_quiet_noop.
  - done.
  - intros c. by unfold Cache.range_of.
Qed.

Definition tw_held (w : TW) (k : string) : Prop := LocalLocks.local_held (tw_locks w) k.
#[global] Instance tw_lock_spec b a : LockSpec (e_lockManager (twEngine b a)) tw_held.
Proof.
  split; cbn [twEngine e_lockManager twLocks lm_Acquire lm_Release]; intros k w w' r.
  - destruct (lm_Acquire LocalLocks.localManager k (tw_locks w)) as [l r'] eqn:E. intros H; injection H as <- <-.
    by apply (spec_Acquire _ _ _ _ E).
  - destruct (lm_Release LocalLocks.localManager k (tw_locks w)) as [l r'] eqn:E. intros H; injection H as <- <-.
    by apply (spec_Release _ _ _ _ E).
Qed.

Lemma tw_nolock_noop : nolock_storage tw_held (Noop.noopStorage TW).
Proof.
  constructor; cbn [Noop.noopStorage sg_Open sg_Create sg_Update sg_Delete sg_CreateDirectory];
    intros; unfold nolock, ret; intros w w' r H; by injection H as <- _.
Qed.

#[global] Instance tw_lock_env b a : LockEnv (twEngine b a) tw_held.
Proof.
  constructor; cbn [twEngine e_lockManager e_localFSBackend e_s3Backend e_internalProxyBackend e_erasureManager
                    e_metadataStore memStore st_Create st_Update st_Delete].
  - intros k w. cbn. unfold LocalLocks.Release. destruct (_ !! k); [by destruct (After _ _) | done].
  - constructor; cbn [twFiles sg_Open sg_Create sg_Update sg_Delete sg_CreateDirectory];
      intros; intros w w' r H; repeat case_if_in H; by injection H as <- _.
  - apply tw_nolock_noop.
  - apply tw_nolock_noop.
  - intros md w w' r. destruct (_ !! md_Path md); intros H; by injection H as <- _.
  - intros md w w' r. destruct (_ !! md_Path md); intros H; by injection H as <- _.
  - intros p w w' r. destruct (_ !! p); intros H; by injection H as <- _.
  - done.
Qed.

Definition tw0 : EState TW := mkEState
  (mkTW (mkView ∅ ∅) (LocalLocks.mkLocalWorld ∅ 7 (Ok "aa")) ∅) newEngineCache.
Definition tw_md : Metadata := newMetadata "f" "file" "0644" 1000 1000 "localfs" 7.
Definition tw_created (b a : bool) : EState TW :=
  (CreateFile (twEngine b a) None "/d/x/f" (bytesReader "hello") 5 tw_md tw0).1.

Lemma tw0_good : good tw_view (fun _ => True) tw0.
Proof. by split; [| split]. Qed.

Lemma engine_create_file_witness :
  let a := (CreateFile (twEngine false false) None "/d/x/f" (bytesReader "hello") 5 tw_md tw0).2 in
  view_md (tw_view (es_world (tw_created false false))) !! "/d/x/f" = Some a.1.
Proof.
  intros a.
  destruct (engine_create_file (twEngine false false) tw_view (fun _ => True) None ["d"; "x"] "f"
     (bytesReader "hello") 5 tw_md tw0 (tw_created false false) a.1 a.2) as (_ & _ & _ & H).
  - repeat constructor.
  - done.
  - intros cs n _ _ [x Hx]. done.
  - vm_compute. reflexivity.
  - apply H. vm_compute. reflexivity.
Defined.


Lemma engine_delete_file_witness :
  view_md (tw_view (es_world (run_op (twEngine false false) (OpDeleteFile None "/d/x/f") (tw_created false false))))
  = delete "/d/x/f" (view_md (tw_view (es_world (tw_created false false)))).
Proof.
  pose (a := (CreateFile (twEngine false false) None "/d/x/f" (bytesReader "hello") 5 tw_md tw0).2).
  apply (engine_delete_file (twEngine false false) tw_view (fun _ => True) None "/d/x/f"
    (tw_created false false) _ a.1);
    [exact I | vm_compute; reflexivity | right; vm_compute; reflexivity | vm_compute; reflexivity].
Defined.

(** A lock that is held before a creation that fails because of it. *)
Definition tw_locked : EState TW := mkEState
  (mkTW (mkView ∅ ∅) (LocalLocks.mkLocalWorld {[ "file:/f" := LocalLocks.mkLockEntry 9 "bb" ]} 7 (Ok "aa")) ∅)
  newEngineCache.

Lemma engine_releases_locks_witness :
  tw_held (es_world tw_locked) "file:/f".
Proof.
  apply (engine_releases_locks (twEngine false false) tw_held
    (OpCreateFile None "/f" (bytesReader "hello") 5 tw_md) tw_locked "file:/f").
  exists (LocalLocks.mkLockEntry 9 "bb"). split; vm_compute; reflexivity.
Defined.

(** When replica acknowledgement is required and the replica fails,
    [UpdateFile] returns its error before it invalidates the cache: the content
    and the stored record are the new ones, but [GetMetadata] still answers
    the old record. *)
Theorem engine_stale_after_failed_replica :
  let e := twEngine true true in
  let s1 := run_op e (OpGetMetadata "/d/x/f") (tw_created true true) in
  let '(s2, r) := UpdateFile e None "/d/x/f" (bytesReader "bye") 3 s1 in
  is_Ok r = false /\
  match st_Get (e_metadataStore e) "/d/x/f" (es_world s2), (GetMetadata e "/d/x/f" s2).2 with
  | Ok stored, Ok answered => md_Size stored = 3%Z /\ md_Size answered = 5%Z
  | _, _ => False
  end.
Proof. vm_compute. repeat split. Qed.

End EngineSpec.
