(* ===== verification/Handlers.v ===== *)
(** * The HTTP API: server/handlers/, server/middleware/auth.go

    A handler is a function from a request to a response in the state of the
    engine.  Routing, timeouts, metrics and logging are left out; the JSON
    encoders only fail on values these handlers never produce, so a JSON body
    is the value that is encoded. *)
From S2P Require Import Prelude GoStrings PathUtil Metadata Auth Links Backends Erasure Engine.
From Stdlib Require Import Ascii String.
Open Scope string_scope.
Open Scope bool_scope.
Open Scope go_scope.

Module Handlers.
Import Engine PathUtils.

(** What a handler reads of a request: the wildcard part of the route, the
    user id the middleware stored in the context, headers, query, body. *)
Record Request := mkRequest {
  rq_urlPath : string;
  rq_userID : option string;
  rq_header : string -> string;
  rq_query : string -> string;
  rq_body : Reader;
  rq_contentLength : Z;
}.

Record FileInfo := mkFileInfo {
  fi_Name : string; fi_Path : string; fi_Type : string; fi_Size : Z;
  fi_Mode : string; fi_UID : Z; fi_GID : Z; fi_MTime : string;
}.
Record DirectoryListingResponse := mkListing {
  dl_Path : string; dl_Type : string; dl_Recursive : bool; dl_MaxDepth : Z;
  dl_Count : Z; dl_Items : list FileInfo;
}.
Record CrossServerConflictResponse := mkConflict {
  cc_Error : string; cc_ExistingPath : string; cc_InstanceID : string;
  cc_BackendType : string; cc_Suggestion : string; cc_UpdateURL : string;
}.
Record GenerateLinkResponse := mkLinkResponse { gl_URL : string; gl_Token : string; gl_Expires : Time }.

Inductive Body :=
| BEmpty
| BError (code message : string)
| BText (text : string)
| BErrText (er : gerr)          (* the text [err.Error()] *)
| BData (data : Reader)
| BFiles (infos : list FileInfo)
| BListing (l : DirectoryListingResponse)
| BConflict (c : CrossServerConflictResponse)
| BManifest (m : Erasure.ChunkManifest)
| BLink (l : GenerateLinkResponse).

Record Response := mkResponse {
  rs_status : Z;
  rs_headers : list (string * string);
  rs_body : Body;
}.

(** [http.Header.Set]: one value per key. *)
Definition headerSet (k v : string) (hs : list (string * string)) : list (string * string) :=
  (filter (fun kv => negb (String.eqb kv.1 k)) hs ++ [(k, v)])%list.

(** ** error_response.go *)

(** [err.Error()] of the sentinel errors the switch names. *)
Definition sentinelText (er : gerr) : string :=
  match er with
  | ErrNotFound => "metadata not found"
  | ErrAlreadyExists => "metadata already exists"
  | ErrAuthenticationFailed => "authentication failed"
  | ErrPermissionDenied => "permission denied"
  | _ => ""
  end.

Definition SendErrorResponse (er : gerr) (defaultStatusCode : Z) : Response :=
  let '(statusCode, errorCode) :=
    match er with
    | ErrNotFound => (404%Z, "FILE_NOT_FOUND")
    | ErrAlreadyExists => (409%Z, "FILE_ALREADY_EXISTS")
    | ErrAuthenticationFailed => (401%Z, "AUTHENTICATION_FAILED")
    | ErrPermissionDenied => (403%Z, "PERMISSION_DENIED")
    | _ => (defaultStatusCode, "INTERNAL_ERROR")
    end in
  let message := if String.eqb errorCode "INTERNAL_ERROR" then "an internal error occurred"
                 else sentinelText er in
  mkResponse statusCode [("Content-Type", "application/json")] (BError errorCode message).

Definition status (code : Z) : Response := mkResponse code [] BEmpty.

(** [http.MaxBytesReader]. *)
Definition maxBytes (n : Z) (rd : Reader) : Reader :=
  if (n <? Z.of_nat (String.length (rd_data rd)))%Z
  then mkReader (slice_to (rd_data rd) n) (Some (EMsg "http: request body too large")) else rd.

(** [CountingReader.BytesRead] after the body was read to its end. *)
Definition BytesRead (rd : Reader) : Z := Z.of_nat (String.length (rd_data rd)).

(** ** server/middleware/auth.go *)

(** The error answer of the middleware, which names its own codes. *)
Definition sendErrorResponse (err : gerr) (statusCode : Z) : Response :=
  let errorCode :=
    match err with
    | ErrAuthenticationFailed => "AUTHENTICATION_FAILED"
    | ErrPermissionDenied => "PERMISSION_DENIED"
    | _ => "INTERNAL_ERROR"
    end in
  mkResponse statusCode [("Content-Type", "application/json")] (BError errorCode (errorText err)).

Definition V1AuthMiddleware {S} (authenticator : Authenticator) (next : Request -> St S Response)
    (r : Request) : St S Response :=
  let authHeader := rq_header r "Authorization" in
  let refuse := ret (sendErrorResponse ErrAuthenticationFailed 401) in
  if String.eqb authHeader "" then refuse
  else match authenticator authHeader with
       | Err _ => refuse
       | Ok userID => next (mkRequest (rq_urlPath r) (Some userID) (rq_header r) (rq_query r)
                              (rq_body r) (rq_contentLength r))
       end.

Section Handlers.
Context {W : Type} (e : Engine W) (authorizer : Authorizer W) (defaultBackend : string)
        (fmtTime : Time -> string) (peerOrder : list string) (shardOrder : list nat).
Abbreviation M A := (St (EState W) A) (only parsing).

(** The start of the file handlers: parse the path, the user from the
    context, authorize; then the handler goes on with the engine path. *)
Definition guarded (perm : PermissionType) (r : Request) (k : PathInfo -> string -> M Response) : M Response :=
  let pathInfo := ParseFilePath (rq_urlPath r) in
  if IsInvalid pathInfo then ret (SendErrorResponse (EMsg "invalid path") 400)
  else match rq_userID r with
       | None => ret (SendErrorResponse ErrAuthenticationFailed 401)
       | Some userID =>
           let path := enginePath pathInfo in
           fun s => match authorizer userID path perm (es_world s) with
                    | Err er => (s, SendErrorResponse er 403)
                    | Ok _ => k pathInfo path s
                    end
       end.

(** The owner of a record, when it is another instance. *)
Definition otherInstance (md : Metadata) : option string :=
  match md_CallFSInstanceID md with
  | Some id => if String.eqb id (e_currentInstanceID e) then None else Some id
  | None => None
  end.

(** The record of a new file or directory. *)
Definition newRecord (name type mode backend : string) (t : Time) : Metadata :=
  newMetadata name type mode 1000 1000 backend t.

(** ** post_file_enhanced.go *)

(** One shard count option: the header first, then the query parameter. *)
Definition shardOption (hdr q : string) : Z :=
  let parse v := match Atoi v with Some n => if (1 <=? n)%Z then n else 0%Z | None => 0%Z end in
  if negb (String.eqb hdr "") then parse hdr else if negb (String.eqb q "") then parse q else 0%Z.

Definition parseErasureOptions (r : Request) : Erasure.StoreOptions :=
  let insts := rq_header r "X-CallFS-Erasure-Instances" in
  let instq := rq_query r "instances" in
  Erasure.mkStoreOptions
    (shardOption (rq_header r "X-CallFS-Erasure-Data-Shards") (rq_query r "data_shards"))
    (shardOption (rq_header r "X-CallFS-Erasure-Parity-Shards") (rq_query r "parity_shards"))
    (if negb (String.eqb insts "") then split_on ","%char insts
     else if negb (String.eqb instq "") then split_on ","%char instq else []).

Definition conflictResponse (pathInfo : PathInfo) (path : string) (md : Metadata) (instanceID : string)
  : CrossServerConflictResponse :=
  let mk s u := mkConflict "Resource exists on another server" (md_Path md) instanceID (md_BackendType md) s u in
  if IsDirectory pathInfo then
    if negb (String.eqb (md_Type md) "directory")
    then mk "Path exists as file on another server, cannot create directory" ""
    else mk "Directory already exists on another server. Use GET to access it." ""
  else
    if negb (String.eqb (md_Type md) "file")
    then mk "Path exists as directory on another server, cannot create file" ""
    else
      let peerEndpoint := GetPeerEndpoint e instanceID in
      mk "File already exists on another server. Use PUT to update it."
         (if String.eqb peerEndpoint "" then "" else peerEndpoint +:+ "/v1/files" +:+ path).

(** After a chunked upload the recorded size is corrected; the outcome is only logged. *)
Definition correctSize (isChunked : bool) (actualSize size : Z) (md : Metadata) : M unit :=
  if isChunked && negb (actualSize =? size)%Z then
    do t <- gets (now e);
    do _ <- UpdateMetadataOnly e (set_UpdatedAt t (set_MTime t (set_Size actualSize md)));
    ret tt
  else ret tt.

Definition maxUploadBytes : Z := Z.shiftl 10 30.
Definition maxErasureUpload : Z := Z.shiftl 1 30.

Definition postErasure (ctx : Ctx) (r : Request) (em : Erasure.Manager W) (pathInfo : PathInfo)
    (path : string) : M Response :=
  let body := maxBytes maxErasureUpload (rq_body r) in
  match rd_err body with
  | Some er => ret (SendErrorResponse er 500)
  | None =>
      let data := rd_data body in
      let actualSize := Z.of_nat (String.length data) in
      do stored <- lift (Erasure.StoreFile em peerOrder shardOrder ctx path data actualSize
                           (Some (parseErasureOptions r)));
      match stored with
      | Err er => ret (SendErrorResponse er 500)
      | Ok _ =>
          do t <- gets (now e);
          let md := mkMetadata 0 None (Name pathInfo) "" "file" actualSize "0644" 1000 1000 t t t
                      "erasure" true None None 0 0 in
          do (_, created) <- CreateErasureMetadata e ctx path md;
          ret (match created with Err er => SendErrorResponse er 500 | Ok _ => status 201 end)
      end
  end.

Definition postNewFile (ctx : Ctx) (r : Request) (pathInfo : PathInfo) (path : string) : M Response :=
  let isChunked := (rq_contentLength r <? 0)%Z in
  let size := if isChunked then 0%Z else rq_contentLength r in
  let erasureRequested := String.eqb (rq_header r "X-CallFS-Erasure") "true"
                          || String.eqb (rq_query r "erasure") "true" in
  let plain :=
    let body := maxBytes maxUploadBytes (rq_body r) in
    do t <- gets (now e);
    do (md, created) <- CreateFile e ctx path body size
                          (newRecord (Name pathInfo) "file" "0644" defaultBackend t);
    match created with
    | Err er => ret (SendErrorResponse er 500)
    | Ok _ => do _ <- correctSize isChunked (BytesRead body) size md; ret (status 201)
    end in
  match e_erasureManager e with
  | Some em => if erasureRequested then postErasure ctx r em pathInfo path else plain
  | None => plain
  end.

Definition postNewDirectory (ctx : Ctx) (pathInfo : PathInfo) (path : string) : M Response :=
  do t <- gets (now e);
  do (_, created) <- CreateDirectory e ctx path (newRecord (Name pathInfo) "directory" "0755" defaultBackend t);
  ret (match created with Err er => SendErrorResponse er 500 | Ok _ => status 201 end).

(** The answer when the resource exists. *)
Definition postExisting (pathInfo : PathInfo) (path : string) (md : Metadata) : Response :=
  match otherInstance md with
  | Some id => mkResponse 409 [("Content-Type", "application/json")] (BConflict (conflictResponse pathInfo path md id))
  | None =>
      if IsDirectory pathInfo then
        if negb (String.eqb (md_Type md) "directory")
        then SendErrorResponse (EMsg "path exists as file, cannot create directory") 409
        else status 200
      else if negb (String.eqb (md_Type md) "file")
      then SendErrorResponse (EMsg "path exists as directory, cannot create file") 409
      else SendErrorResponse (EMsg "file already exists, use PUT to update") 409
  end.

Definition V1PostFileEnhanced (r : Request) : M Response :=
  guarded WritePerm r (fun pathInfo path =>
    do existing <- GetMetadata e path;
    match existing with
    | Ok md => ret (postExisting pathInfo path md)
    | Err _ => if IsDirectory pathInfo then postNewDirectory background pathInfo path
               else postNewFile background r pathInfo path
    end).

(** ** put_file_enhanced.go *)

(** PUT checks for a directory path before it looks at the user. *)
Definition V1PutFileEnhanced (r : Request) : M Response :=
  let pathInfo := ParseFilePath (rq_urlPath r) in
  if negb (IsInvalid pathInfo) && IsDirectory pathInfo
  then ret (SendErrorResponse (EMsg "PUT method cannot be used with directory paths (trailing slash)") 400)
  else
  guarded WritePerm r (fun pathInfo path =>
    let body := maxBytes maxUploadBytes (rq_body r) in
    let isChunked := (rq_contentLength r <? 0)%Z in
    let size := if isChunked then 0%Z else rq_contentLength r in
    do existing <- GetMetadata e path;
    match existing with
    | Err er =>
        if bool_decide (er = ErrNotFound) then
          do t <- gets (now e);
          do (md, created) <- CreateFile e background path body size
                                (newRecord (Name pathInfo) "file" "0644" defaultBackend t);
          match created with
          | Err er => ret (SendErrorResponse er 500)
          | Ok _ => do _ <- correctSize isChunked (BytesRead body) size md; ret (status 201)
          end
        else ret (SendErrorResponse er 500)
    | Ok existingMd =>
        if negb (String.eqb (md_Type existingMd) "file")
        then ret (SendErrorResponse (EMsg "cannot update directory with file content") 400)
        else
          match otherInstance existingMd with
          | Some id =>
              do updated <- UpdateFileOnInstance e background id path body size;
              match updated with
              | Err er => ret (SendErrorResponse (EWrap "failed to update file on remote server" er) 502)
              | Ok _ =>
                  do t <- gets (now e);
                  do _ <- UpdateMetadataOnly e (set_UpdatedAt t (set_MTime t (set_Size size existingMd)));
                  ret (status 200)
              end
          | None =>
              do updated <- UpdateFile e background path body size;
              match updated with
              | Err er => ret (SendErrorResponse er 500)
              | Ok _ => do _ <- correctSize isChunked (BytesRead body) size existingMd; ret (status 200)
              end
          end
    end).

(** ** erasure_handlers.go *)

Definition HandleErasureManifest (em : Erasure.Manager W) (path : string) : M Response := fun s =>
  (s, match Erasure.GetManifest em path (es_world s) with
      | Err er => SendErrorResponse er 500
      | Ok manifest => mkResponse 200 [("Content-Type", "application/json")] (BManifest manifest)
      end).

Definition octetStream (size : string) (data : Reader) (more : list (string * string)) : Response :=
  mkResponse 200 ([("Content-Type", "application/octet-stream"); ("Content-Length", size)] ++ more)%list (BData data).

Definition HandleErasureDownload (em : Erasure.Manager W) (path : string) : M Response :=
  do r <- lift (Erasure.RetrieveFile em (sc_shards (e_sched e)) (sc_late (e_sched e)) background path);
  ret (match r with
       | Err er => SendErrorResponse er 500
       | Ok data => octetStream (Itoa (Z.of_nat (String.length data))) (bytesReader data) []
       end).

Definition V1GetShard (em : Erasure.Manager W) (r : Request) : M Response :=
  let urlPath := rq_urlPath r in
  if String.eqb urlPath "" then ret (SendErrorResponse (EMsg "missing path") 400)
  else match rq_userID r with
  | None => ret (SendErrorResponse ErrAuthenticationFailed 401)
  | Some userID =>
      let lastSlash := LastIndex urlPath slash in
      if (lastSlash <? 0)%Z then ret (SendErrorResponse (EMsg "invalid shard path") 400)
      else
        let rawFilePath := slice_to urlPath lastSlash in
        match Atoi (slice_from urlPath (lastSlash + 1)) with
        | None => ret (SendErrorResponse (EMsg "invalid shard index") 400)
        | Some index =>
            let pathInfo := ParseFilePath rawFilePath in
            if IsInvalid pathInfo then ret (SendErrorResponse (EMsg "invalid shard file path") 400)
            else
              let filePath := FullPath pathInfo in
              fun s => match authorizer userID filePath ReadPerm (es_world s) with
              | Err er => (s, SendErrorResponse er 403)
              | Ok _ =>
                  (do data <- lift (Erasure.GetShard em background filePath index);
                   ret (match data with
                        | Err er => SendErrorResponse er (if bool_decide (er = ErrShardNotFound) then 404 else 500)
                        | Ok d => octetStream (Itoa (Z.of_nat (String.length d))) (bytesReader d) []
                        end)) s
              end
        end
  end.

(** ** get_file.go *)

Definition fileInfoOf (child : Metadata) : FileInfo :=
  mkFileInfo (md_Name child) (md_Path child) (md_Type child) (md_Size child) (md_Mode child)
    (md_UID child) (md_GID child) (fmtTime (md_MTime child)).

Definition attrHeaders (type size : string) (md : Metadata) : list (string * string) :=
  [("X-CallFS-Type", type); ("X-CallFS-Size", size); ("X-CallFS-Mode", md_Mode md);
   ("X-CallFS-UID", Itoa (md_UID md)); ("X-CallFS-GID", Itoa (md_GID md));
   ("X-CallFS-MTime", fmtTime (md_MTime md))].

Definition getPlainFile (path : string) (md : Metadata) : M Response :=
  do reader <- GetFile e background path;
  ret (match reader with
       | Err er => SendErrorResponse er 500
       | Ok data => octetStream (Itoa (md_Size md)) data (attrHeaders "file" (Itoa (md_Size md)) md)
       end).

Definition V1GetFile (r : Request) : M Response :=
  guarded ReadPerm r (fun pathInfo path =>
    do found <- GetMetadata e path;
    match found with
    | Err er => ret (SendErrorResponse er 404)
    | Ok md =>
        if String.eqb (md_Type md) "file" then
          match e_erasureManager e with
          | Some em =>
              if md_ErasureCoded md then
                if String.eqb (rq_query r "manifest") "true" then HandleErasureManifest em path
                else HandleErasureDownload em path
              else getPlainFile path md
          | None => getPlainFile path md
          end
        else if String.eqb (md_Type md) "directory" then
          do children <- gets (ListDirectory e path);
          ret (match children with
               | Err er => SendErrorResponse er 500
               | Ok cs => mkResponse 200 (("Content-Type", "application/json") :: attrHeaders "directory" "0" md)
                            (BFiles (fileInfoOf <$> cs))
               end)
        else ret (status 200)
    end).

(** ** list_directory.go *)

Definition parseMaxDepth (maxDepthStr : string) : Z :=
  match Atoi maxDepthStr with
  | Some parsed => if (1000 <? parsed)%Z then 1000%Z else if (0 <=? parsed)%Z then parsed else 100%Z
  | None => 100%Z
  end.

Definition V1ListDirectory (r : Request) : M Response :=
  let pathParam := if String.eqb (rq_urlPath r) "" then "/" else "/" +:+ rq_urlPath r in
  guarded ReadPerm (mkRequest pathParam (rq_userID r) (rq_header r) (rq_query r) (rq_body r) (rq_contentLength r))
   (fun pathInfo path =>
    do found <- GetMetadata e path;
    match found with
    | Err er => ret (SendErrorResponse er 404)
    | Ok md =>
        if negb (String.eqb (md_Type md) "directory") then ret (SendErrorResponse (EMsg "path is not a directory") 400)
        else
          let recursive := String.eqb (rq_query r "recursive") "true" in
          let maxDepth := parseMaxDepth (rq_query r "max_depth") in
          do children <- gets (fun s => if recursive then ListDirectoryRecursive e path maxDepth s
                                        else ListDirectory e path s);
          ret (match children with
               | Err er => SendErrorResponse er 500
               | Ok cs =>
                   let items := fileInfoOf <$> cs in
                   let count := Z.of_nat (List.length items) in
                   mkResponse 200 [("Content-Type", "application/json"); ("X-CallFS-Type", "directory");
                                   ("X-CallFS-Count", Itoa count);
                                   ("X-CallFS-Recursive", if recursive then "true" else "false")]
                     (BListing (mkListing path "directory" recursive (if recursive then maxDepth else 0) count items))
               end)
    end).

(** ** cross_server_handlers.go *)

Definition V1DeleteFileEnhanced (r : Request) : M Response :=
  guarded DeletePerm r (fun pathInfo path =>
    do found <- GetMetadata e path;
    match found with
    | Err er => ret (SendErrorResponse er 404)
    | Ok md =>
        match otherInstance md with
        | Some id =>
            do deleted <- DeleteFileOnInstance e id path;
            ret (match deleted with
                 | Err er => SendErrorResponse (EWrap "failed to proxy request to owning server" er) 502
                 | Ok _ => status 204
                 end)
        | None =>
            do deleted <- DeleteFile e background path;
            ret (match deleted with Err er => SendErrorResponse er 500 | Ok _ => status 204 end)
        end
    end).

Definition setMetadataHeaders (md : Metadata) : list (string * string) :=
  (attrHeaders (md_Type md) (Itoa (md_Size md)) md ++
   match md_CallFSInstanceID md with Some id => [("X-CallFS-Instance-ID", id)] | None => [] end)%list.

Definition V1HeadFileEnhanced (r : Request) : M Response :=
  guarded ReadPerm r (fun pathInfo path =>
    do found <- GetMetadata e path;
    match found with
    | Err er => ret (SendErrorResponse er 404)
    | Ok md =>
        match otherInstance md with
        | Some id =>
            do remote <- StatFileOnInstance e id path;
            ret (match remote with
                 | Err er => SendErrorResponse (EWrap "failed to proxy request to owning server" er) 502
                 | Ok remoteMd => mkResponse 200 (headerSet "X-CallFS-Instance-ID" id (setMetadataHeaders remoteMd)) BEmpty
                 end)
        | None => ret (mkResponse 200 (setMetadataHeaders md) BEmpty)
        end
    end).

(** ** links/download.go and links/generate.go *)

(** [url.PathEscape]. *)
Definition shouldEscape (c : ascii) : bool :=
  let n := nat_of_ascii c in
  let between a b := Nat.leb (nat_of_ascii a) n && Nat.leb n (nat_of_ascii b) in
  negb (between "a" "z" || between "A" "Z" || between "0" "9" ||
        existsb (Ascii.eqb c) ["-"; "_"; "."; "~"; "$"; "&"; "+"; ":"; "="; "@"])%char.
Definition upperhex (n : nat) : ascii :=
  match String.get n "0123456789ABCDEF" with Some c => c | None => "0"%char end.
Fixpoint PathEscape (s : string) : string :=
  match s with
  | EmptyString => EmptyString
  | String c s' =>
      if shouldEscape c
      then String "%" (String (upperhex (nat_of_ascii c / 16)) (String (upperhex (nat_of_ascii c mod 16)) (PathEscape s')))
      else String c (PathEscape s')
  end.

(** [userIP]: the result of [getUserIP]; both clock readings of
    [ValidateAndInvalidateLink] are that of the state. *)
Definition V1DownloadLinkHandler (c : Links.Crypto) (secretKey token userIP : string) : M Response :=
  if String.eqb token "" then ret (SendErrorResponse (EMsg "missing token") 400)
  else
    do t <- gets (now e);
    do validated <- lift (Links.ValidateAndInvalidateLink (e_metadataStore e) c secretKey t t token userIP);
    match validated with
    | Err er =>
        ret (if errors_Is er ErrLinkNotFound then SendErrorResponse er 404
             else if errors_Is er ErrLinkExpired then SendErrorResponse er 410
             else if errors_Is er ErrLinkInvalid then SendErrorResponse er 410
             else SendErrorResponse (EMsg "link validation failed") 500)
    | Ok filePath =>
        match PathUtil.ValidatePath filePath with
        | Err _ => ret (SendErrorResponse (EMsg "link validation failed") 500)
        | Ok _ =>
            do reader <- GetFile e background filePath;
            ret (match reader with
                 | Err er => SendErrorResponse er 500
                 | Ok data =>
                     mkResponse 200 [("Content-Type", "application/octet-stream");
                                     ("Content-Disposition",
                                      "attachment; filename*=UTF-8''" +:+ PathEscape (filepath_Base filePath))]
                       (BData data)
                 end)
        end
    end.

(** [reqPath] and [expirySeconds] are the decoded JSON request, [None] when it does not decode. *)
Definition V1GenerateLinkHandler (c : Links.Crypto) (secretKey apiHost : string) (randRead : Res string)
    (userID : option string) (req : option (string * Z)) : M Response :=
  match userID with
  | None => ret (SendErrorResponse ErrAuthenticationFailed 401)
  | Some uid =>
      match req with
      | None => ret (SendErrorResponse (EMsg "invalid JSON in request body") 400)
      | Some (reqPath, expirySeconds) =>
          if String.eqb reqPath "" then ret (SendErrorResponse (EMsg "path is required") 400)
          else
            let pathInfo := ParseFilePath (TrimPrefix reqPath "/") in
            if IsInvalid pathInfo then ret (SendErrorResponse (EMsg "invalid path") 400)
            else
              let path := enginePath pathInfo in
              fun s => match authorizer uid path ReadPerm (es_world s) with
              | Err er => (s, SendErrorResponse er 403)
              | Ok _ =>
                  if (expirySeconds <=? 0)%Z || (86400 <? expirySeconds)%Z
                  then (s, SendErrorResponse (EMsg "expiry must be between 1 and 86400 seconds") 400)
                  else
                    (let expiryDuration := (expirySeconds * Second)%Z in
                     do t <- gets (now e);
                     do generated <- lift (Links.GenerateLink (e_metadataStore e) c secretKey randRead t t path expiryDuration);
                     match generated with
                     | Err _ => ret (SendErrorResponse (EMsg "failed to generate download link") 500)
                     | Ok token =>
                         let sanitizedHost := TrimSpace apiHost in
                         if Contains sanitizedHost "/" || Contains sanitizedHost "://"
                         then ret (SendErrorResponse (EMsg "server misconfiguration: invalid external URL") 500)
                         else
                           do t' <- gets (now e);
                           ret (mkResponse 201 [("Content-Type", "application/json")]
                                  (BLink (mkLinkResponse ("https://" +:+ sanitizedHost +:+ "/download/" +:+ token)
                                            token (t' + expiryDuration)%Z)))
                     end) s
              end
      end
  end.

End Handlers.

(** ** internal_shard_handlers.go *)
Section Shards.
Context {W : Type} (localBackend : Storage W) (internalSecret : string).

Definition authorizeInternal (auth secret : string) : bool :=
  if String.eqb secret "" then false
  else String.eqb (TrimSpace (TrimPrefix auth "Bearer ")) secret.

Definition parseShardPath (urlPath : string) : Res (string * Z) :=
  let trimmed := TrimPrefix urlPath "/v1/internal/shards/" in
  if String.eqb trimmed urlPath then Err (EMsg "invalid shard path")
  else
    let lastSlash := LastIndex trimmed slash in
    if (lastSlash <? 0)%Z then Err (EMsg "invalid shard path: missing index")
    else
      let filePath := slice_to trimmed lastSlash in
      match Atoi (slice_from trimmed (lastSlash + 1)) with
      | None => Err (EWrap "invalid shard index" (EMsg "strconv.Atoi: parsing the index"))
      | Some index =>
          let! _ := res_wrap "invalid shard file path" (PathUtil.ValidatePath filePath) in
          Ok (".erasure/" +:+ filePath +:+ "/" +:+ Itoa index, index)
      end.

(** [http.Error]. *)
Definition httpError (code : Z) (b : Body) : Response :=
  mkResponse code [("Content-Type", "text/plain; charset=utf-8"); ("X-Content-Type-Options", "nosniff")] b.
Definition text (code : Z) (t : string) : Response := httpError code (BText t).

(** The common start: the secret, then the shard path. *)
Definition shardGuard (r : Request) (k : string -> St W Response) : St W Response :=
  if negb (authorizeInternal (rq_header r "Authorization") internalSecret) then ret (text 401 "unauthorized")
  else match parseShardPath (rq_urlPath r) with
       | Err er => ret (httpError 400 (BErrText er))
       | Ok (shardPath, _) => k shardPath
       end.

Definition maxShardBytes : Z := Z.shiftl 256 20.

Definition InternalStoreShardHandler (r : Request) : St W Response :=
  shardGuard r (fun shardPath =>
    let body := maxBytes maxShardBytes (rq_body r) in
    match rd_err body with
    | Some _ => ret (text 400 "failed to read shard body")
    | None =>
        let data := rd_data body in
        let dataSize := Z.of_nat (String.length data) in
        do created <- sg_Create localBackend background shardPath (bytesReader data) dataSize;
        match created with
        | Ok _ => ret (status 201)
        | Err _ =>
            do updated <- sg_Update localBackend background shardPath (bytesReader data) dataSize;
            ret (match updated with
                 | Err _ => text 500 "failed to store shard"
                 | Ok _ => status 201
                 end)
        end
    end).

Definition InternalGetShardHandler (r : Request) : St W Response :=
  shardGuard r (fun shardPath =>
    do opened <- sg_Open localBackend background shardPath;
    ret (match opened with
         | Err _ => text 404 "shard not found"
         | Ok reader => mkResponse 200 [("Content-Type", "application/octet-stream")] (BData reader)
         end)).

Definition InternalDeleteShardHandler (r : Request) : St W Response :=
  shardGuard r (fun shardPath =>
    do _ <- sg_Delete localBackend background shardPath;
    ret (status 204)).

End Shards.
End Handlers.
