(* ===== verification/HandlerSpec.v ===== *)
(** * Properties of the HTTP API

    Who reaches the engine, what an upload leaves for a later download, and
    the behaviour of the download links, over any components that keep their
    contracts. *)
From S2P Require Import Prelude GoStrings PathUtil Metadata MemStore Cache Locks Auth Links Backends Erasure Engine EngineSpec Handlers.
From Stdlib Require Import Ascii String.
Open Scope string_scope.
Open Scope bool_scope.
Open Scope go_scope.

Module HandlerSpec.
Import Engine PathUtils EngineSpec Handlers.

(** ** Mediation *)

Inductive Route := RPost | RPut | RGet | RHead | RDelete | RList | RShard.

Section Mediation.
Context {W : Type} (e : Engine W) (authorizer : Authorizer W) (authn : Authenticator)
        (em : Erasure.Manager W) (defaultBackend : string)
        (fmtTime : Time -> string) (peerOrder : list string) (shardOrder : list nat).

Definition serve (route : Route) : Request -> St (EState W) Response :=
  match route with
  | RPost => V1PostFileEnhanced e authorizer defaultBackend peerOrder shardOrder
  | RPut => V1PutFileEnhanced e authorizer defaultBackend
  | RGet => V1GetFile e authorizer fmtTime
  | RHead => V1HeadFileEnhanced e authorizer fmtTime
  | RDelete => V1DeleteFileEnhanced e authorizer
  | RList => V1ListDirectory e authorizer fmtTime
  | RShard => V1GetShard authorizer em
  end.

(** The permission a route needs, and the path it needs it on. *)
Definition needs (route : Route) : PermissionType :=
  match route with
  | RPost | RPut => WritePerm
  | RGet | RHead | RList | RShard => ReadPerm
  | RDelete => DeletePerm
  end.
Definition target (route : Route) (urlPath : string) : PathInfo :=
  match route with
  | RList => ParseFilePath (if String.eqb urlPath "" then "/" else "/" +:+ urlPath)
  | RShard => ParseFilePath (slice_to urlPath (LastIndex urlPath slash))
  | _ => ParseFilePath urlPath
  end.
Definition targetPath (route : Route) (urlPath : string) : string :=
  match route with
  | RShard => FullPath (target route urlPath)
  | _ => enginePath (target route urlPath)
  end.

(** An answer that carries nothing but an error code. *)
Definition refused (resp : Response) : Prop :=
  (400 <= rs_status resp < 500)%Z /\ exists code msg, rs_body resp = BError code msg.

Lemma SendError_refused er n : (400 <= n < 500)%Z -> refused (SendErrorResponse er n).
Proof.
  intros Hn. unfold SendErrorResponse. destruct er; (split; [cbn; lia | cbn; eauto]).
Qed.

(** What a request was allowed to do before the handler went on. *)
Definition admitted (route : Route) (r : Request) (s : EState W) : Prop :=
  exists uid, rq_userID r = Some uid /\ IsInvalid (target route (rq_urlPath r)) = false /\
    exists u, authorizer uid (targetPath route (rq_urlPath r)) (needs route) (es_world s) = Ok u.

Lemma guarded_mediates perm r k s s' resp :
  guarded authorizer perm r k s = (s', resp) ->
  (s' = s /\ refused resp) \/
  exists uid u, rq_userID r = Some uid /\ IsInvalid (ParseFilePath (rq_urlPath r)) = false /\
    authorizer uid (enginePath (ParseFilePath (rq_urlPath r))) perm (es_world s) = Ok u.
Proof.
  unfold guarded, ret. destruct (IsInvalid _) eqn:Ei.
  { intros H; injection H as <- <-. left. split; [done | apply SendError_refused; lia]. }
  destruct (rq_userID r) as [uid |] eqn:Eu.
  2: { intros H; injection H as <- <-. left. split; [done | apply SendError_refused; lia]. }
  destruct (authorizer _ _ _ _) as [u | er] eqn:Ea.
  - intros _. right. by exists uid, u.
  - intros H; injection H as <- <-. left. split; [done | apply SendError_refused; lia].
Qed.

Lemma serve_mediates route r s s' resp :
  serve route r s = (s', resp) -> (s' = s /\ refused resp) \/ admitted route r s.
Proof.
  assert (Hg : forall perm r' k, guarded authorizer perm r' k s = (s', resp) ->
    (s' = s /\ refused resp) \/ exists uid, rq_userID r' = Some uid /\
      IsInvalid (ParseFilePath (rq_urlPath r')) = false /\
      exists u, authorizer uid (enginePath (ParseFilePath (rq_urlPath r'))) perm (es_world s) = Ok u).
  { intros perm r' k H. apply guarded_mediates in H as [H | (uid & u & H)]; [by left | right].
    exists uid. destruct H as (? & ? & ?). eauto. }
  destruct route; cbn [serve]; try apply Hg.
  - unfold V1PutFileEnhanced. case_goal; [| apply Hg].
    intros H; injection H as <- <-. left. split; [done | apply SendError_refused; lia].
  - unfold V1GetShard, admitted, targetPath, target, needs.
    repeat match goal with
    | |- (ret _ s = _ -> _) => intros H; injection H as <- <-; left; split; [done | apply SendError_refused; lia]
    | |- ((if ?b then _ else _) s = _ -> _) => destruct b eqn:?
    | |- (match ?x with _ => _ end s = _ -> _) => destruct x eqn:?
    end.
    destruct (authorizer _ _ _ _) eqn:Ea.
    + intros _. right. eauto.
    + intros H; injection H as <- <-. left. split; [done | apply SendError_refused; lia].
Qed.

(** C8: Every file route is mediated: a request either leaves the whole state
    as it was and is answered with an error of the 400s, or it carries a token
    the authenticator accepts, names a valid path, and the authorizer granted
    that user the permission the method needs on the path the request names. *)
Theorem handlers_mediated route r s s' resp :
  V1AuthMiddleware authn (serve route) r s = (s', resp) ->
  (s' = s /\ refused resp) \/
  exists uid u, authn (rq_header r "Authorization") = Ok uid /\
    IsInvalid (target route (rq_urlPath r)) = false /\
    authorizer uid (targetPath route (rq_urlPath r)) (needs route) (es_world s) = Ok u.
Proof.
  assert (Href : refused (sendErrorResponse ErrAuthenticationFailed 401)).
  { split; [cbn; lia | cbn; eauto]. }
  unfold V1AuthMiddleware, ret. destruct (String.eqb _ ""); [intros H; injection H as <- <-; by left |].
  destruct (authn _) as [uid | er]; [| intros H; injection H as <- <-; by left].
  intros H. apply serve_mediates in H as [H | (uid' & Hu & Hv & u & Ha)]; [by left | right].
  cbn [rq_userID rq_urlPath] in *. injection Hu as <-. eauto.
Qed.

End Mediation.

(** ** Downloads *)

(** GET of a path whose stored and cached records are those of a plain file that
    the engine opens. *)
Lemma V1GetFile_plain {W} (e : Engine W) view serving {store_spec : StoreSpec (e_metadataStore e) view serving}
    (P : Metadata -> Prop) n md0 path (authorizer : Authorizer W) fmtTime g uid u s rd :
  (forall md, P md -> md_Type md = "file" /\ md_ErasureCoded md = false /\ md_Size md = n) ->
  serving (es_world s) -> view_md (view (es_world s)) !! path = Some md0 -> P md0 -> cached P path s ->
  IsInvalid (ParseFilePath (rq_urlPath g)) = false -> enginePath (ParseFilePath (rq_urlPath g)) = path ->
  rq_userID g = Some uid -> authorizer uid path ReadPerm (es_world s) = Ok u ->
  (forall s1, es_world s1 = es_world s -> cached P path s1 -> exists s', GetFile e background path s1 = (s', Ok rd)) ->
  exists s' hdrs, V1GetFile e authorizer fmtTime g s = (s', mkResponse 200 hdrs (BData rd)) /\ ("Content-Length", Itoa n) ∈ hdrs.
Proof.
  intros HP Hs Hm Hp0 Hc Hv Hpath Hu Ha Hopen. unfold V1GetFile, guarded. rewrite Hv, Hu, Hpath, Ha. unfold bind at 1.
  destruct (GetMetadata_reads e view serving P path s md0 Hs Hm Hp0 Hc) as (s1 & md & -> & Hp & Hw & Hc1).
  destruct (HP md Hp) as (Ht & Her & Hn). rewrite Ht. cbn [String.eqb Ascii.eqb Bool.eqb]. rewrite Her.
  replace (match e_erasureManager e with Some _ => getPlainFile e fmtTime path md | None => getPlainFile e fmtTime path md end)
    with (getPlainFile e fmtTime path md) by (by destruct (e_erasureManager e)).
  unfold getPlainFile, bind. destruct (Hopen s1 Hw Hc1) as (s' & ->).
  eexists _, _. split; [reflexivity |]. rewrite Hn. apply list_elem_of_further, list_elem_of_here.
Qed.

(** ** Upload and download *)

Section Transfer.
Context {W : Type} (e : Engine W) (view : W -> StoreView) (serving : W -> Prop)
        {store_spec : StoreSpec (e_metadataStore e) view serving} {env : EngineEnv e view serving}
        (bt : string) (content : W -> string -> option string).

Abbreviation mds s := (view_md (view (es_world s))).
Abbreviation primary := (selectBackendByType e bt).
Abbreviation rel path := (TrimPrefix path "/").

(** A call that leaves the files of the primary backend alone. *)
Definition files_quiet {A} (m : St W A) : Prop := forall w w' a, m w = (w', a) -> forall p, content w' p = content w p.

(** The primary backend keeps what it is given; the other components do not write its files. *)
Class ContentEnv : Prop := {
  ce_Create : forall ctx p rd n w w', sg_Create primary ctx p rd n w = (w', Ok tt) ->
    rd_err rd = None /\ content w' p = Some (rd_data rd);
  ce_Update : forall ctx p rd n w w', sg_Update primary ctx p rd n w = (w', Ok tt) ->
    rd_err rd = None /\ content w' p = Some (rd_data rd);
  ce_Open : forall ctx p d w, content w p = Some d ->
    exists w', sg_Open primary ctx p w = (w', Ok (bytesReader d));
  ce_Open_quiet : forall ctx p, files_quiet (sg_Open primary ctx p);
  ce_Release : forall k, files_quiet (lm_Release (e_lockManager e) k);
  ce_st_Create : forall md, files_quiet (st_Create (e_metadataStore e) md);
  ce_st_Update : forall md, files_quiet (st_Update (e_metadataStore e) md);
  ce_replica : forall rb, replicaTarget e bt = Some rb ->
    (forall ctx p rd n, files_quiet (sg_Create (selectBackendByType e rb) ctx p rd n)) /\
    (forall ctx p rd n, files_quiet (sg_Update (selectBackendByType e rb) ctx p rd n));
}.
Context {cenv : ContentEnv}.

(** The owners that records may name: this instance or none; a record on another
    backend than the local file system names none. *)
Class Owners (own : option string -> Prop) : Prop := {
  own_owned : forall o, own o -> o = None \/ o = Some (e_currentInstanceID e);
  own_here : own (Some (e_currentInstanceID e));
  own_none : bt <> "localfs" -> own None;
}.
Definition anyOwner (o : option string) : Prop := o = None \/ o = Some (e_currentInstanceID e).
#[global] Instance anyOwner_owners : Owners anyOwner.
Proof. split; [done | by right | by left]. Qed.

Section Owned.
Context (own : option string -> Prop) {owners : Owners own}.

(** Nothing of interest changes: neither records nor files. *)
Definition still (s s' : EState W) : Prop :=
  same view serving s s' /\ forall p, content (es_world s') p = content (es_world s) p.
#[global] Instance still_preorder : PreOrder still.
Proof.
  split; [by intros s; split |]. intros a b c [H1 E1] [H2 E2]. split; [by etrans | congruence].
Qed.

Lemma lift_still {A} (m : St W A) : quiet view serving m -> files_quiet m -> respects still (lift m).
Proof.
  intros Hq Hf s s' a H. split; [by eapply lift_same |]. unfold lift in H.
  destruct (m (es_world s)) as [w b] eqn:E. injection H as <- _. by eapply Hf.
Qed.
Lemma onCache_still f : respects still (onCache f).
Proof. intros s s' a H. split; [by eapply onCache_same |]. unfold onCache in H. by injection H as <- _. Qed.
Lemma replicate_still ctx path size : respects still (replicateFileToSecondaryBackend e ctx path size bt).
Proof.
  unfold replicateFileToSecondaryBackend. destruct (replicaTarget e bt) as [rb |] eqn:Er; [| resp].
  destruct (ce_replica rb Er) as [Hc Hu]. pose proof (quiet_byType e view serving) as Hq.
  assert (Ho : forall p, respects still (lift (sg_Open primary ctx p))).
  { intros p. apply lift_still; [apply Hq | apply ce_Open_quiet]. }
  assert (Hc' : forall p rd n, respects still (lift (sg_Create (selectBackendByType e rb) ctx p rd n))).
  { intros p rd n. apply lift_still; [apply Hq | apply Hc]. }
  assert (Hu' : forall p rd n, respects still (lift (sg_Update (selectBackendByType e rb) ctx p rd n))).
  { intros p rd n. apply lift_still; [apply Hq | apply Hu]. }
  resp.
Qed.

(** The record of a plain file on the primary backend. *)
Definition plainRecord (path : string) (n : Z) (md : Metadata) : Prop :=
  md_Path md = path /\ md_Type md = "file" /\ md_ErasureCoded md = false /\ md_BackendType md = bt /\
  own (md_CallFSInstanceID md) /\ md_Size md = n.

Lemma plain_self path n md : plainRecord path n md -> plainRecord path (md_Size md) md.
Proof. unfold plainRecord. tauto. Qed.

(** [path] holds the [n] bytes [d], as record and as file. *)
Definition holds (path d : string) (n : Z) (s : EState W) : Prop :=
  serving (es_world s) /\ (exists md, mds s !! path = Some md /\ plainRecord path n md) /\
  content (es_world s) (rel path) = Some d.

Lemma holds_still path d n s s' : still s s' -> holds path d n s -> holds path d n s'.
Proof.
  intros [Hs Hc] (Hsv & Hm & Hd). destruct (Hs Hsv) as [Hsv' Hv]. unfold holds. by rewrite Hv, Hc.
Qed.
Lemma triple_still {A} path d n (m : St (EState W) A) :
  respects still m -> triple (holds path d n) m (fun _ => holds path d n).
Proof. intros Hm s s' a E. by eapply holds_still, Hm. Qed.

Lemma plain_same path n md md' : same_file md md' -> plainRecord path n md -> plainRecord path n md'.
Proof.
  unfold same_file, plainRecord. intros H. injection H as _ <- <- <- _ _ _ _ <- <- <- _. done.
Qed.

Lemma selectBackend_byType ctx md :
  owned e md -> selectBackend e ctx md = (ctx, selectBackendByType e (md_BackendType md)).
Proof. unfold selectBackend, selectBackendByType. intros [-> | ->]; by rewrite ?String.eqb_refl. Qed.

Abbreviation srv := (fun s : EState W => serving (es_world s)).

Lemma triple_srv {A} (m : St (EState W) A) : respects (grows view serving) m -> triple srv m (fun _ => srv).
Proof. intros Hm s s' a E Hs. by destruct (Hm _ _ _ E Hs). Qed.

Lemma triple_lock {A} (P : EState W -> Prop) key msg fail (body : St (EState W) A) (Q : A -> EState W -> Prop) :
  (forall s s', same view serving s s' -> P s -> P s') ->
  (forall er s, Q (fail er) s) -> (forall a s s', still s s' -> Q a s -> Q a s') ->
  triple P body Q -> triple P (withLock e key msg fail body) Q.
Proof.
  intros HP Hf HQ Hb. unfold withLock. eapply (triple_bind _ (fun _ => P)).
  { intros s s' a E. eapply HP, lift_same, E. by apply (env_Acquire e view serving). }
  intros [[|] | er]; [| by apply triple_ret | by apply triple_ret].
  eapply triple_bind; [exact Hb |]. intros a.
  apply (triple_bind _ (fun _ => Q a)); [| intros ?; by apply triple_ret].
  intros s s' u E. eapply HQ, lift_still, E; [by apply (env_Release e view serving) | apply ce_Release].
Qed.
Lemma srv_same s s' : same view serving s s' -> srv s -> srv s'.
Proof. intros H Hs. by destruct (H Hs). Qed.

(** Writing the content through the primary backend. *)
Lemma triple_write ctx path rd n (up : bool) :
  triple srv (lift ((if up then sg_Update primary else sg_Create primary) ctx (rel path) rd n))
    (fun r s => serving (es_world s) /\
       (r = Ok tt -> rd_err rd = None /\ content (es_world s) (rel path) = Some (rd_data rd))).
Proof.
  intros s s' r H Hs. unfold lift in H. destruct (quiet_byType e view serving bt) as [_ Hqc Hqu _ _].
  destruct up; match type of H with (let '(_, _) := ?m in _) = _ => destruct m as [w r1] eqn:E end;
    injection H as <- <-; cbn [es_world].
  - split; [by destruct (Hqu _ _ _ _ _ _ _ E Hs) |]. intros ->. by apply ce_Update in E.
  - split; [by destruct (Hqc _ _ _ _ _ _ _ E Hs) |]. intros ->. by apply ce_Create in E.
Qed.

(** Storing the record once the content is written. *)
Lemma triple_record path d n md (up : bool) :
  plainRecord path n md ->
  triple (fun s => serving (es_world s) /\ content (es_world s) (rel path) = Some d)
    (lift ((if up then st_Update (e_metadataStore e) else st_Create (e_metadataStore e)) md))
    (fun '(md', r) s => serving (es_world s) /\ (r = Ok tt -> plainRecord path n md' /\ holds path d n s)).
Proof.
  intros Hp s s' [md' r] H [Hs Hc]. unfold lift in H.
  destruct ((if up then _ else _) md (es_world s)) as [w [m1 r1]] eqn:E. injection H as <- <- <-. cbn [es_world].
  assert (Hpath : md_Path md = path) by apply Hp.
  assert (Hq : forall p, content w p = content (es_world s) p).
  { destruct up; [by eapply ce_st_Update | by eapply ce_st_Create]. }
  destruct up; [apply spec_Update in E as (Hs' & _ & E) | apply spec_Create in E as (Hs' & _ & E)]; try done;
    (split; [done |]); intros ->; rewrite Hpath in E; destruct (mds s !! path);
    destruct E as (? & E); try done; destruct E as (Hv & Hsf); pose proof (plain_same _ _ _ _ Hsf Hp) as Hp';
    (split; [done |]); unfold holds; cbn [es_world]; rewrite Hv, Hq; (split; [done |]); (split; [| done]);
    exists m1; by rewrite lookup_insert_eq.
Qed.

Lemma replicate_holds ctx path d n size bt' : bt' = bt ->
  triple (holds path d n) (replicateFileToSecondaryBackend e ctx path size bt') (fun _ => holds path d n).
Proof. intros ->. apply triple_still, replicate_still. Qed.

(** The outcome of an upload that reports success. *)
Definition uploaded (path : string) (rd : Reader) (n : Z) (ok : Prop) (s : EState W) : Prop :=
  ok -> rd_err rd = None /\ holds path (rd_data rd) n s.
Lemma uploaded_still path rd n ok s s' : still s s' -> uploaded path rd n ok s -> uploaded path rd n ok s'.
Proof. intros Hst H Hok. destruct (H Hok). split; [done | by eapply holds_still]. Qed.

Lemma CreateFile_holds ctx path rd n md :
  md_Type md = "file" -> md_ErasureCoded md = false -> md_BackendType md = bt -> md_CallFSInstanceID md = None ->
  triple srv (CreateFile e ctx path rd n md)
    (fun a s => (a.2 = Ok tt -> plainRecord path n a.1) /\ uploaded path rd n (a.2 = Ok tt) s).
Proof.
  intros Ht Her Hbt Hid. unfold CreateFile. apply triple_lock; [apply srv_same | | |].
  { intros er s. done. }
  { intros a s s' Hst [H1 H2]. split; [done | by eapply uploaded_still]. }
  eapply triple_bind; [apply triple_srv; unfold storeGet; resp |]. intros [md0 | er0]; [by apply triple_ret |].
  eapply triple_bind; [apply triple_srv, ensureParents_grows; apply _ |]. intros [[] | er]; [| by apply triple_ret].
  set (md1 := if String.eqb _ _ then _ else md).
  assert (Hb1 : md_BackendType md1 = bt) by (unfold md1; by destruct (String.eqb _ _)). rewrite Hb1.
  eapply triple_bind; [apply (triple_write ctx path rd n false) |]. intros [[] | er]; [| by apply triple_ret].
  eapply triple_bind with (R := fun _ s => rd_err rd = None /\ serving (es_world s) /\
                                  content (es_world s) (rel path) = Some (rd_data rd)).
  { intros s s' t H [Hs Hok]. unfold gets in H. injection H as <- <-. destruct (Hok eq_refl). done. }
  intros t. apply (triple_pure (rd_err rd = None)); [by intros s (? & _) | intros Hrd].
  eapply triple_bind.
  { eapply triple_conseq; [| apply (triple_record path (rd_data rd) n _ false) | intros a s H; exact H].
    - intros s (_ & Hs & Hc). done.
    - unfold plainRecord, md1. destruct (String.eqb_spec (md_BackendType md) "localfs") as [_ | Hne]; cbn; repeat split; auto.
      + apply own_here.
      + rewrite Hid. apply own_none. congruence. }
  intros [md2 [[] | er]]; [| eapply triple_bind with (R := fun _ _ => True); [by intros s s' a | intros ?; by apply triple_ret]].
  apply (triple_pure (plainRecord path n md2)); [intros s [_ Hok]; by apply Hok | intros Hp2].
  eapply triple_bind.
  { eapply triple_conseq; [| apply (replicate_holds ctx path (rd_data rd) n n); apply Hp2 | intros a s H; exact H].
    intros s [_ Hok]. by apply Hok. }
  intros [[] | er]; [| by apply triple_ret].
  eapply triple_bind; [apply triple_still; unfold cacheInvalidatePrefix; apply onCache_still |].
  intros ?. apply triple_ret. intros s Hh. split; [done |]. by intros _.
Qed.

Lemma UpdateFile_holds ctx path rd n md0 :
  plainRecord path (md_Size md0) md0 ->
  triple (fun s => serving (es_world s) /\ mds s !! path = Some md0) (UpdateFile e ctx path rd n)
    (fun r s => uploaded path rd n (r = Ok tt) s).
Proof.
  intros Hp. assert (Hp' := Hp). destruct Hp' as (Hpath & Ht & Her & Hbt & Ho & _).
  unfold UpdateFile. apply triple_lock.
  { intros s s' H [Hs Hm]. destruct (H Hs) as [Hs' Hv]. by rewrite Hv. }
  { intros er s. done. }
  { intros a s s'. apply uploaded_still. }
  intros s s' r H [Hs Hm]. unfold try_bind at 1, storeGet, gets in H. rewrite spec_Get, Hm in H by done.
  revert s s' r H Hs Hm. rewrite Ht. cbn [String.eqb Ascii.eqb Bool.eqb negb].
  rewrite selectBackend_byType, Hbt by (by apply own_owned).
  set (Q0 := fun r s => uploaded path rd n (r = Ok tt) s).
  match goal with |- forall s s' r, ?m s = (s', r) -> _ =>
    enough (Hm : triple srv m Q0) by (intros s s' r H Hs _; by eapply Hm) end.
  eapply triple_try; [apply (triple_write ctx path rd n true) | intros [] | done].
  eapply triple_bind with (R := fun _ s => rd_err rd = None /\ serving (es_world s) /\
                                  content (es_world s) (rel path) = Some (rd_data rd)).
  { intros s s' t H [Hs Hok]. unfold gets in H. injection H as <- <-. destruct (Hok eq_refl). done. }
  intros t. apply (triple_pure (rd_err rd = None)); [by intros s (? & _) | intros Hrd].
  eapply triple_bind.
  { eapply triple_conseq; [| apply (triple_record path (rd_data rd) n _ true) | intros a s H; exact H].
    - intros s (_ & Hs & Hc). done.
    - unfold plainRecord. pose proof own_here. cbn.
      destruct (md_CallFSInstanceID md0) eqn:Eid; [| destruct (String.eqb _ _)]; cbn; rewrite ?Eid; tauto. }
  intros [md2 [[] | er]].
  2: { apply (triple_bind _ (fun _ _ => True)); [by intros s s' a | intros ?; by apply triple_ret]. }
  apply (triple_pure (plainRecord path n md2)); [intros s [_ Hok]; by apply Hok | intros Hp2].
  eapply triple_try.
  { eapply triple_conseq; [| apply (replicate_holds ctx path (rd_data rd) n n); apply Hp2 | intros a s H; exact H].
    intros s [_ Hok]. by apply Hok. }
  2: done.
  intros []. eapply triple_bind; [apply triple_still; unfold cacheInvalidate; apply onCache_still |]. intros ?.
  eapply triple_bind; [apply triple_still; unfold cacheInvalidatePrefix; apply onCache_still |].
  intros ?. apply triple_ret. intros s Hh. by intros _.
Qed.

(** The size a request announces, or counts when it does not. *)
Definition transferSize (r : Request) : Z :=
  if (rq_contentLength r <? 0)%Z then BytesRead (rq_body r) else rq_contentLength r.

(** Writing another record of the file. *)
Lemma triple_update path d n0 n md : plainRecord path n md ->
  triple (holds path d n0) (lift (st_Update (e_metadataStore e) md)) (fun '(md', r) s => r = Ok tt /\ holds path d n s).
Proof.
  intros Hp s s' [md' r] H (Hs & (md0 & Hm & _) & Hc).
  destruct (triple_record path d n md true Hp _ _ _ H) as [_ Hok]; [done |].
  enough (r = Ok tt) by (split; [done | by apply Hok]). unfold lift in H.
  destruct (st_Update _ md (es_world s)) as [w [m1 r1]] eqn:E. injection H as _ _ <-.
  apply spec_Update in E as (_ & _ & E); [| done]. destruct Hp as [Hpath _]. rewrite Hpath, Hm in E. by destruct E.
Qed.

Lemma correctSize_holds (chunked : bool) path d actual size md :
  plainRecord path (md_Size md) md ->
  triple (holds path d size) (correctSize e chunked actual size md)
    (fun _ => holds path d (if chunked then actual else size)).
Proof.
  intros Hp. unfold correctSize. destruct chunked; cbn [andb]; [| by apply triple_ret].
  destruct (actual =? size)%Z eqn:Ea; cbn [negb]; to_prop; [subst; by apply triple_ret |].
  eapply triple_bind; [apply triple_still, respects_gets; apply _ |]. intros t.
  unfold UpdateMetadataOnly. set (md1 := set_UpdatedAt _ _).
  assert (Hp1 : plainRecord path actual md1) by (unfold plainRecord in *; cbn; tauto).
  apply (triple_bind _ (fun _ => holds path d actual)); [| intros ?; by apply triple_ret].
  eapply triple_bind; [by apply (triple_update path d size actual) |].
  intros [md' r]. apply (triple_pure (r = Ok tt)); [by intros s [? _] | intros ->].
  apply (triple_bind _ (fun _ => holds path d actual)); [| intros ?; by apply triple_ret].
  eapply triple_conseq; [| apply triple_still, onCache_still | intros a s H; exact H]. by intros s [_ H].
Qed.

(** GET of a path that holds a plain file, when the cached record, if there is
    one, is that of a plain file of this size as well. *)
Abbreviation sees path n := (cached (plainRecord path n) path).

Lemma good_sees path d n s : good view serving s -> holds path d n s -> sees path n s.
Proof.
  intros (_ & _ & Hc) (_ & (md & Hm & Hp) & _) en Hen. apply Hc in Hen. rewrite Hm in Hen. by injection Hen as <-.
Qed.

Lemma GetMetadata_holds path d n s : holds path d n s -> sees path n s ->
  exists s' md, GetMetadata e path s = (s', Ok md) /\ plainRecord path n md /\ holds path d n s' /\ sees path n s' /\
    es_world s' = es_world s.
Proof.
  intros Hh Hc. pose proof Hh as (Hs & (md & Hm & Hp) & _).
  destruct (GetMetadata_reads e view serving (plainRecord path n) path s md) as (s' & md' & E & Hp' & Hw & Hc'); [done .. |].
  exists s', md'. split; [done |]. split; [done |]. split; [unfold holds; by rewrite Hw | done].
Qed.

(** The engine opens what the path holds. *)
Lemma GetFile_holds path d n s :
  holds path d n s -> sees path n s ->
  exists s', GetFile e background path s = (s', Ok (bytesReader d)) /\ sees path n s'.
Proof.
  intros Hh Hc. unfold GetFile, try_bind, bind.
  destruct (GetMetadata_holds path d n s Hh Hc) as (s2 & md & -> & (_ & Ht & Her & Hbt & Ho & Hn) & (_ & _ & Hd) & Hc2 & _).
  rewrite Ht, Her. cbn [String.eqb Ascii.eqb Bool.eqb negb]. rewrite selectBackend_byType, Hbt by (by apply own_owned).
  destruct (ce_Open background (rel path) d (es_world s2) Hd) as [w' Hopen].
  destruct (e_erasureManager e); unfold lift; rewrite Hopen; by eexists.
Qed.

Lemma download authorizer fmtTime g uid path d n s u :
  holds path d n s -> sees path n s ->
  IsInvalid (ParseFilePath (rq_urlPath g)) = false -> enginePath (ParseFilePath (rq_urlPath g)) = path ->
  rq_userID g = Some uid -> authorizer uid path ReadPerm (es_world s) = Ok u ->
  exists s' hdrs, V1GetFile e authorizer fmtTime g s =
    (s', mkResponse 200 hdrs (BData (bytesReader d))) /\ ("Content-Length", Itoa n) ∈ hdrs.
Proof.
  intros Hh Hc Hv Hpath Hu Ha. pose proof Hh as (Hs & (md & Hm & Hp) & Hd).
  apply (V1GetFile_plain e view serving (plainRecord path n) n md path _ _ _ uid u); [| done .. |].
  - unfold plainRecord. tauto.
  - intros s1 Hw Hc1. destruct (GetFile_holds path d n s1) as (s' & E & _); [unfold holds; by rewrite Hw | done | by exists s'].
Qed.

Lemma correctSize_uncached chunked actual size md path :
  triple (uncached path) (correctSize e chunked actual size md) (fun _ => uncached path).
Proof.
  unfold correctSize. destruct (chunked && _); [| by apply triple_ret].
  apply (triple_bind _ (fun _ => uncached path)); [by intros s s' a [= <- _] | intros t].
  apply (triple_bind _ (fun _ => uncached path)); [apply UpdateMetadataOnly_uncached | intros ?; by apply triple_ret].
Qed.

Lemma correctSize_good chunked actual size md :
  respects (keeps_good view serving) (correctSize e chunked actual size md).
Proof.
  pose proof (UpdateMetadataOnly_good e view serving) as H. unfold correctSize. resp.
Qed.

Lemma maxBytes_whole n rd : rd_err (maxBytes n rd) = None -> maxBytes n rd = rd.
Proof. unfold maxBytes. by destruct (n <? _)%Z. Qed.

Definition succeeded (resp : Response) : Prop := rs_status resp = 200%Z \/ rs_status resp = 201%Z.
Lemma error_not_success er n : (400 <= n)%Z -> ~ succeeded (SendErrorResponse er n).
Proof. intros Hn [H | H]; unfold SendErrorResponse in H; destruct er; cbn in H; lia. Qed.

(** What both ways of uploading leave behind. *)
Definition arrived (path : string) (body : Reader) (n : Z) (s : EState W) : Prop :=
  good view serving s /\ rd_err body = None /\ holds path (rd_data body) n s.

(** The tail of an upload once the engine reported success. *)
Lemma upload_tail path body chunked size md code s s1 resp :
  plainRecord path (md_Size md) md -> arrived path body size s ->
  (do _ <- correctSize e chunked (BytesRead body) size md; ret (status code)) s = (s1, resp) ->
  arrived path body (if chunked then BytesRead body else size) s1.
Proof.
  intros Hp (Hg & Hrd & Hh) H. unfold bind, ret in H.
  destruct (correctSize e chunked (BytesRead body) size md s) as [s2 []] eqn:E. injection H as <- <-.
  split; [by eapply correctSize_good |]. split; [done |]. by eapply correctSize_holds.
Qed.

(** A new file, by POST or PUT. *)
Lemma fresh_upload path name body chunked size s s1 resp :
  good view serving s ->
  (do t <- gets (now e);
   do (md, created) <- CreateFile e background path body size (newRecord name "file" "0644" bt t);
   match created with
   | Err er => ret (SendErrorResponse er 500)
   | Ok _ => do _ <- correctSize e chunked (BytesRead body) size md; ret (status 201)
   end) s = (s1, resp) -> succeeded resp ->
  arrived path body (if chunked then BytesRead body else size) s1.
Proof.
  intros Hg H Hok. unfold bind at 1, gets in H. unfold bind at 1 in H.
  destruct (CreateFile e background path body size _ s) as [s2 [md r]] eqn:E.
  destruct r as [[] | er]; [| injection H as <- <-; by apply error_not_success in Hok].
  destruct (CreateFile_holds background path body size (newRecord name "file" "0644" bt (now e s))
              eq_refl eq_refl eq_refl eq_refl _ _ _ E) as [Hp Hu]; [apply Hg |]. destruct (Hu eq_refl) as [Hrd Hh].
  eapply upload_tail; [| | exact H].
  - specialize (Hp eq_refl). unfold plainRecord in *. cbn [fst] in Hp. tauto.
  - split; [by eapply CreateFile_good | done].
Qed.

(** An existing file, by PUT. *)
Lemma update_upload path body chunked size md0 s s1 resp :
  good view serving s -> mds s !! path = Some md0 ->
  plainRecord path (md_Size md0) md0 ->
  (do updated <- UpdateFile e background path body size;
   match updated with
   | Err er => ret (SendErrorResponse er 500)
   | Ok _ => do _ <- correctSize e chunked (BytesRead body) size md0; ret (status 200)
   end) s = (s1, resp) -> succeeded resp ->
  arrived path body (if chunked then BytesRead body else size) s1.
Proof.
  intros Hg Hm Hp H Hok. unfold bind at 1 in H.
  destruct (UpdateFile e background path body size s) as [s2 r] eqn:E.
  destruct r as [[] | er]; [| injection H as <- <-; by apply error_not_success in Hok].
  destruct (UpdateFile_holds background path body size md0 Hp _ _ _ E) as [Hrd Hh]; [by split; [apply Hg |] | done |].
  eapply upload_tail; [exact Hp | | exact H].
  split; [| done]. apply (UpdateFile_good e view serving _ _ _ _ _ _ _ (or_intror eq_refl) E Hg). intros md Hmd.
  rewrite Hm in Hmd. injection Hmd as <-. apply own_owned, Hp.
Qed.

(** GetMetadata in a coherent state: the stored record, and the state is still good. *)
Lemma GetMetadata_good_run path s :
  good view serving s -> exists s', GetMetadata e path s =
    (s', match mds s !! path with Some md => Ok md | None => Err ErrNotFound end) /\
    good view serving s' /\ es_world s' = es_world s.
Proof.
  intros Hg. pose proof (GetMetadata_store e view serving path s Hg) as H.
  rewrite spec_Get in H by apply Hg. destruct (GetMetadata e path s) as [s' r] eqn:E. exists s'.
  cbn [snd] in H. subst r. split; [done |]. split; [by eapply GetMetadata_good |].
  revert E. unfold GetMetadata, storeGet, try_bind, gets, bind, ret.
  destruct (Cache.Get _ _ _); [intros H; by injection H as <- _ |].
  destruct (st_Get _ _ _); intros H; by injection H as <- _.
Qed.

(** The request asks for a plain file. *)
Definition plainUpload (r : Request) : Prop :=
  e_erasureManager e = None \/
  (String.eqb (rq_header r "X-CallFS-Erasure") "true" || String.eqb (rq_query r "erasure") "true") = false.

Section Upload.
Context (authorizer : Authorizer W) (fmtTime : Time -> string) (peerOrder : list string) (shardOrder : list nat).

Definition upload (put : bool) : Request -> St (EState W) Response :=
  if put then V1PutFileEnhanced e authorizer bt else V1PostFileEnhanced e authorizer bt peerOrder shardOrder.

Lemma guarded_no_error perm r k s s1 resp :
  guarded authorizer perm r k s = (s1, resp) -> (rs_status resp < 400)%Z ->
  IsInvalid (ParseFilePath (rq_urlPath r)) = false /\
  k (ParseFilePath (rq_urlPath r)) (enginePath (ParseFilePath (rq_urlPath r))) s = (s1, resp).
Proof.
  intros H Hok. unfold guarded, ret in H. repeat case_if_in H; try done; injection H as <- <-; exfalso; revert Hok;
    unfold SendErrorResponse; repeat match goal with |- context [match ?er with ErrNotFound => _ | _ => _ end] => destruct er end; cbn; lia.
Qed.

Lemma guarded_success perm r k s s1 resp :
  guarded authorizer perm r k s = (s1, resp) -> succeeded resp ->
  IsInvalid (ParseFilePath (rq_urlPath r)) = false /\
  k (ParseFilePath (rq_urlPath r)) (enginePath (ParseFilePath (rq_urlPath r))) s = (s1, resp).
Proof. intros H Hok. apply (guarded_no_error _ _ _ _ _ _ H). destruct Hok; lia. Qed.

(** A successful upload delivered the whole body: the limit did not cut it. *)
Lemma arrived_whole path r s :
  let body := maxBytes maxUploadBytes (rq_body r) in
  let chunked := (rq_contentLength r <? 0)%Z in
  arrived path body (if chunked then BytesRead body else if chunked then 0%Z else rq_contentLength r) s ->
  arrived path (rq_body r) (transferSize r) s.
Proof.
  intros body chunked H. assert (Hb : body = rq_body r) by (apply maxBytes_whole, H).
  rewrite Hb in H. unfold transferSize. fold chunked. by destruct chunked.
Qed.

(** The records that a plain upload can replace. *)
Definition replaceable (path : string) (s : EState W) : Prop :=
  forall md, mds s !! path = Some md -> md_ErasureCoded md = false /\ md_BackendType md = bt /\ own (md_CallFSInstanceID md).

Lemma post_arrives r s s1 resp :
  let path := enginePath (ParseFilePath (rq_urlPath r)) in
  good view serving s -> IsDirectory (ParseFilePath (rq_urlPath r)) = false -> plainUpload r ->
  V1PostFileEnhanced e authorizer bt peerOrder shardOrder r s = (s1, resp) -> succeeded resp ->
  IsInvalid (ParseFilePath (rq_urlPath r)) = false /\ arrived path (rq_body r) (transferSize r) s1.
Proof.
  intros path Hg Hd Hplain H Hok. apply guarded_success in H as [Hv H]; [| done]. split; [done |].
  unfold bind at 1 in H. fold path in H. destruct (GetMetadata_good_run path s Hg) as (s2 & E & Hg2 & Hw).
  rewrite E, Hd in H. destruct (mds s !! path) as [md |].
  { unfold ret, postExisting in H. rewrite Hd in H. injection H as <- <-.
    exfalso. revert Hok. unfold succeeded. destruct (otherInstance e md); [cbn; lia |].
    destruct (negb _); apply error_not_success; lia. }
  unfold postNewFile in H. apply arrived_whole. eapply fresh_upload; [exact Hg2 | | exact Hok].
  rewrite <- H. destruct Hplain as [-> | ->]; [done |]. by destruct (e_erasureManager e).
Qed.

Lemma put_arrives r s s1 resp :
  let path := enginePath (ParseFilePath (rq_urlPath r)) in
  good view serving s -> replaceable path s ->
  V1PutFileEnhanced e authorizer bt r s = (s1, resp) -> succeeded resp ->
  IsInvalid (ParseFilePath (rq_urlPath r)) = false /\ arrived path (rq_body r) (transferSize r) s1.
Proof.
  intros path Hg Hrec H Hok. unfold V1PutFileEnhanced in H.
  destruct (negb _ && _); [unfold ret in H; injection H as <- <-; by apply error_not_success in Hok |].
  apply guarded_success in H as [Hv H]; [| done]. split; [done |]. apply arrived_whole.
  unfold bind at 1 in H. fold path in H. destruct (GetMetadata_good_run path s Hg) as (s2 & E & Hg2 & Hw).
  rewrite E in H. destruct (mds s !! path) as [md |] eqn:Em.
  2: { rewrite bool_decide_eq_true_2 in H by done. by eapply fresh_upload. }
  destruct (String.eqb (md_Type md) "file") eqn:Et; cbn [negb] in H;
    [| unfold ret in H; injection H as <- <-; by apply error_not_success in Hok]. to_prop.
  destruct (Hrec md Em) as (He & Hb & Ho).
  assert (otherInstance e md = None) as Hoi.
  { unfold otherInstance. destruct (own_owned _ Ho) as [-> | ->]; [done | by rewrite String.eqb_refl]. }
  rewrite Hoi in H. eapply update_upload; [exact Hg2 | by rewrite Hw | | exact H | done].
  destruct Hg as (_ & Hk & _). unfold plainRecord. by rewrite (Hk _ _ Em).
Qed.

(** PUT to a plain file, whatever the cache says of its size and times: the path
    holds the body and is no longer cached. *)
Lemma put_replaces r md n s s1 resp :
  let path := enginePath (ParseFilePath (rq_urlPath r)) in
  serving (es_world s) -> mds s !! path = Some md -> plainRecord path n md ->
  cached (fun md => plainRecord path (md_Size md) md) path s ->
  V1PutFileEnhanced e authorizer bt r s = (s1, resp) -> succeeded resp ->
  IsInvalid (ParseFilePath (rq_urlPath r)) = false /\ rd_err (rq_body r) = None /\
  holds path (rd_data (rq_body r)) (transferSize r) s1 /\ uncached path s1.
Proof.
  intros path Hs Hm Hp Hc H Hok. unfold V1PutFileEnhanced in H.
  destruct (negb _ && _); [unfold ret in H; injection H as <- <-; by apply error_not_success in Hok |].
  apply guarded_success in H as [Hv H]; [| done]. split; [done |]. fold path in H. unfold bind at 1 in H.
  set (P := fun md => plainRecord path (md_Size md) md) in Hc.
  assert (HP : P md) by (by eapply plain_self).
  destruct (GetMetadata_reads e view serving P path s md Hs Hm HP Hc) as (s2 & md2 & E & Hp2 & Hw & _).
  rewrite E in H. pose proof Hp2 as (_ & Ht & _ & _ & Ho & _). rewrite Ht in H. cbn [String.eqb Ascii.eqb Bool.eqb negb] in H.
  assert (otherInstance e md2 = None) as Hoi.
  { unfold otherInstance. destruct (own_owned _ Ho) as [-> | ->]; [done | by rewrite String.eqb_refl]. }
  rewrite Hoi in H. clear Hoi. unfold bind at 1 in H.
  destruct (UpdateFile e background path _ _ s2) as [s3 r3] eqn:Eu.
  destruct r3 as [[] | er]; [| injection H as <- <-; by apply error_not_success in Hok].
  pose proof (UpdateFile_uncached e view serving _ _ _ _ _ _ _ Eu I eq_refl) as Hun.
  destruct (UpdateFile_holds _ _ _ _ md HP _ _ _ Eu) as [Hrd Hh]; [by rewrite Hw | done |].
  unfold bind, ret in H. destruct (correctSize _ _ _ _ _ s3) as [s4 []] eqn:Ec. injection H as <- <-.
  pose proof (correctSize_uncached _ _ _ _ path _ _ _ Ec Hun) as Hun'.
  pose proof (correctSize_holds _ path _ _ _ _ Hp2 _ _ _ Ec Hh) as Hh'.
  apply maxBytes_whole in Hrd as Hb. rewrite Hb in *. split; [done |]. split; [| done].
  unfold transferSize. by destruct (rq_contentLength r <? 0)%Z.
Qed.

(** DELETE of a plain file: its record is gone and no longer cached. *)
Lemma delete_removes r md n s s1 resp :
  let path := enginePath (ParseFilePath (rq_urlPath r)) in
  serving (es_world s) -> mds s !! path = Some md -> plainRecord path n md ->
  cached (fun md => plainRecord path (md_Size md) md) path s ->
  V1DeleteFileEnhanced e authorizer r s = (s1, resp) -> rs_status resp = 204%Z ->
  IsInvalid (ParseFilePath (rq_urlPath r)) = false /\
  serving (es_world s1) /\ mds s1 !! path = None /\ uncached path s1.
Proof.
  intros path Hs Hm Hp Hc H Hok. unfold V1DeleteFileEnhanced in H.
  apply guarded_no_error in H as [Hv H]; [| lia]. split; [done |]. fold path in H. unfold bind at 1 in H.
  set (P := fun md => plainRecord path (md_Size md) md) in Hc.
  assert (HP : P md) by (by eapply plain_self).
  destruct (GetMetadata_reads e view serving P path s md Hs Hm HP Hc) as (s2 & md2 & E & Hp2 & Hw & _).
  rewrite E in H. pose proof Hp2 as (_ & _ & _ & _ & Ho & _).
  assert (otherInstance e md2 = None) as Hoi.
  { unfold otherInstance. destruct (own_owned _ Ho) as [-> | ->]; [done | by rewrite String.eqb_refl]. }
  rewrite Hoi in H. clear Hoi. unfold bind, ret in H.
  destruct (DeleteFile e background path s2) as [s3 r3] eqn:Ed. injection H as <- <-.
  destruct r3 as [[] | er]; [| exfalso; destruct er; cbn in Hok; lia].
  pose proof (DeleteFile_uncached e view serving _ _ _ _ _ Ed I eq_refl) as Hun.
  destruct (DeleteFile_records e view serving background path s2 s3 md) as (Hs3 & Hd & _);
    [by rewrite Hw | by rewrite Hw | by apply own_owned, Hp | done |].
  split; [done |]. split; [by rewrite Hd, lookup_delete_eq | done].
Qed.

(** GET of a path without a record. *)
Lemma get_absent r uid u s :
  let path := enginePath (ParseFilePath (rq_urlPath r)) in
  serving (es_world s) -> mds s !! path = None -> uncached path s ->
  IsInvalid (ParseFilePath (rq_urlPath r)) = false -> rq_userID r = Some uid -> authorizer uid path ReadPerm (es_world s) = Ok u ->
  V1GetFile e authorizer fmtTime r s = (s, SendErrorResponse ErrNotFound 404).
Proof.
  intros path Hs Hm Hu Hv Huid Ha. unfold V1GetFile, guarded. rewrite Hv, Huid. fold path. rewrite Ha. unfold bind at 1, GetMetadata, Cache.Get.
  unfold uncached in Hu. rewrite Hu. unfold storeGet, try_bind, gets. by rewrite spec_Get, Hm by done.
Qed.

Lemma upload_arrives (put : bool) r s s1 resp :
  let path := enginePath (ParseFilePath (rq_urlPath r)) in
  good view serving s -> replaceable path s ->
  IsDirectory (ParseFilePath (rq_urlPath r)) = false -> plainUpload r ->
  upload put r s = (s1, resp) -> succeeded resp ->
  IsInvalid (ParseFilePath (rq_urlPath r)) = false /\ arrived path (rq_body r) (transferSize r) s1.
Proof. intros path Hg Hrec Hd Hplain H Hok. destruct put; [by eapply put_arrives | by eapply post_arrives]. Qed.

End Upload.
End Owned.

(** C2: What is uploaded can be downloaded: when a POST of a new file or a PUT
    answers 200 or 201, a later GET of the same path by a user with read access
    answers 200 with exactly the bytes of the upload and their number as
    Content-Length, also for chunked uploads of unknown length.  The upload starts
    in a state whose cache agrees with the store, does not ask for erasure coding,
    and its path names no directory and no file that is erasure-coded, on another
    instance or on another backend. *)
Theorem upload_then_download authorizer fmtTime peerOrder shardOrder (put : bool) r g uid u s s1 resp :
  let path := enginePath (ParseFilePath (rq_urlPath r)) in
  good view serving s -> replaceable anyOwner path s ->
  IsDirectory (ParseFilePath (rq_urlPath r)) = false -> plainUpload r ->
  upload authorizer peerOrder shardOrder put r s = (s1, resp) -> succeeded resp ->
  rq_urlPath g = rq_urlPath r -> rq_userID g = Some uid ->
  authorizer uid path ReadPerm (es_world s1) = Ok u ->
  exists s2 hdrs, V1GetFile e authorizer fmtTime g s1 =
    (s2, mkResponse 200 hdrs (BData (bytesReader (rd_data (rq_body r))))) /\
    ("Content-Length", Itoa (transferSize r)) ∈ hdrs.
Proof.
  intros path Hg Hrec Hd Hplain H Hok Hurl Hu Ha.
  destruct (upload_arrives anyOwner authorizer peerOrder shardOrder put r s s1 resp Hg Hrec Hd Hplain H Hok)
    as (Hv & Hg1 & _ & Hh).
  eapply (download anyOwner); [exact Hh | by eapply good_sees | | | exact Hu | exact Ha]; by rewrite Hurl.
Qed.

End Transfer.

(** ** Download links *)

Section Download.
Context {W : Type} (e : Engine W) (view : W -> StoreView) (serving : W -> Prop)
        {store_spec : StoreSpec (e_metadataStore e) view serving} (c : Links.Crypto) (secretKey : string).

Lemma ValidatePath_absolute p : filepath_IsAbs p = true -> p <> "/" -> is_Ok (PathUtil.ValidatePath p) = false.
Proof.
  intros Ha Hp. unfold PathUtil.ValidatePath, PathUtil.Clean. apply String.eqb_neq in Hp. rewrite Ha, Hp.
  cbn [andb negb]. by repeat case_goal.
Qed.

(** A download through a link never delivers a file: the stored paths are
    absolute (the generating handler stores engine paths) and the handler
    rejects absolute paths after it has consumed the link.  So a valid link is
    answered with 500 and is used up; any other request gets an error too. *)
Theorem download_link_never_serves token ip s s' resp l :
  serving (es_world s) -> view_links (view (es_world s)) !! token = Some l ->
  filepath_IsAbs (lk_FilePath l) = true -> lk_FilePath l <> "/" ->
  V1DownloadLinkHandler e c secretKey token ip s = (s', resp) ->
  (400 <= rs_status resp)%Z /\
  (is_Ok (Links.checkLink (e_metadataStore e) c secretKey (now e s) token (es_world s)) = true -> token <> "" ->
   rs_status resp = 500%Z /\ Links.active view token (es_world s') = false).
Proof.
  intros Hs Hl Habs Hne. unfold V1DownloadLinkHandler.
  assert (Herr : forall er n, (400 <= n)%Z -> (400 <= rs_status (SendErrorResponse er n))%Z).
  { intros er n Hn. unfold SendErrorResponse. destruct er; cbn; lia. }
  destruct (String.eqb token "") eqn:Et.
  { intros H; injection H as <- <-. to_prop. split; [by apply Herr | done]. }
  unfold bind, gets, lift, ret, Links.ValidateAndInvalidateLink, try_bind, gets.
  destruct (Links.checkLink _ _ _ _ _ _) as [path | er] eqn:Ec.
  2: { intros H; injection H as <- <-. split; [| done]. repeat case_goal; by apply Herr. }
  apply (Links.checkLink_Ok _ _ _ view serving) in Ec as (l' & Hl' & _ & Hst & _ & ->); [| done].
  rewrite Hl in Hl'. injection Hl' as <-.
  destruct (Links.consumeLink _ _ _ _ _ _) as [w' r] eqn:Eu.
  apply (Links.consumeLink_spec _ view serving) in Eu as (_ & _ & Eu); [| done].
  assert (Ha : Links.active view token (es_world s) = true).
  { unfold Links.active. by rewrite Hl, Hst. }
  rewrite Ha in Eu. destruct Eu as (-> & Hinact & _).
  pose proof (ValidatePath_absolute _ Habs Hne) as Hv.
  destruct (PathUtil.ValidatePath (lk_FilePath l)); [done |]. intros H; injection H as <- <-.
  split; [cbn; lia |]. intros _ _. done.
Qed.

End Download.

(** ** On the concrete instance of EngineSpec.v *)

Definition tw_content (w : TW) (p : string) : option string := tw_files w !! p.

#[global] Instance tw_content_env b a : ContentEnv (twEngine b a) "localfs" tw_content.
Proof.
  split; unfold files_quiet; cbn -[LocalLocks.Acquire LocalLocks.Release].
  - intros ctx p rd n w w' H. unfold tw_content.
    destruct (tw_files w !! p), (rd_err rd); try done. injection H as <-. cbn [tw_files]. by rewrite lookup_insert_eq.
  - intros ctx p rd n w w' H. unfold tw_content. destruct (rd_err rd); [done |]. injection H as <-.
    cbn [tw_files]. by rewrite lookup_insert_eq.
  - intros ctx p d w H. exists w. unfold tw_content in H. by rewrite H.
  - intros ctx p w w' r H. by injection H as <- _.
  - intros k w w' r H. destruct (LocalLocks.Release _ _ _). by injection H as <- _.
  - intros md w w' r. destruct (_ !! md_Path md); intros H; by injection H as <- _.
  - intros md w w' r. destruct (_ !! md_Path md); intros H; by injection H as <- _.
  - intros rb. destruct b; [| done]. cbn. intros H; injection H as <-.
    split; intros; by match goal with H : _ = (_, _) |- _ => injection H as <- _ end.
Qed.

Definition tw_allow : Authorizer TW := fun uid path perm w => Ok tt.
Definition tw_request (body : Reader) (n : Z) : Request :=
  mkRequest "d/x/f" (Some "root") (fun _ => "") (fun _ => "") body n.

Definition tw_put_request : Request := tw_request (bytesReader "goodbye") (-1).
Definition tw_get_request : Request := tw_request (bytesReader "") 0.
Definition tw_uploaded : EState TW * Response :=
  upload (twEngine false false) "localfs" tw_allow [] [] true tw_put_request (tw_created false false).

Lemma upload_then_download_witness :
  exists s2 hdrs, V1GetFile (twEngine false false) tw_allow Itoa tw_get_request tw_uploaded.1 =
    (s2, mkResponse 200 hdrs (BData (bytesReader "goodbye"))) /\
    ("Content-Length", Itoa (transferSize tw_put_request)) ∈ hdrs.
Proof.
  refine (upload_then_download (twEngine false false) tw_view (fun _ => True) "localfs" tw_content tw_allow Itoa [] []
    true tw_put_request tw_get_request "root" tt (tw_created false false) tw_uploaded.1 tw_uploaded.2
    _ _ _ _ _ _ _ _ _).
  - exact (CreateFile_good (twEngine false false) tw_view (fun _ => True) None "/d/x/f" (bytesReader "hello") 5 tw_md
             tw0 (tw_created false false) _ (surjective_pairing _) tw0_good).
  - intros md Hmd. vm_compute in Hmd. injection Hmd as <-. split; [reflexivity |]. split; [reflexivity |]. by right.
  - vm_compute. reflexivity.
  - left. reflexivity.
  - apply surjective_pairing.
  - left. vm_compute. reflexivity.
  - reflexivity.
  - reflexivity.
  - reflexivity.
Defined.

(** A link as the generating handler stores it. *)
Definition tw_linked : EState TW :=
  mkEState (mkTW (Links.w_generated) (LocalLocks.mkLocalWorld ∅ 7 (Ok "aa")) ∅) newEngineCache.

Lemma download_link_never_serves_witness :
  rs_status (V1DownloadLinkHandler (twEngine false false) Links.toy "k" Links.w_token "1.2.3.4" tw_linked).2 = 500%Z.
Proof.
  apply (download_link_never_serves (twEngine false false) tw_view (fun _ => True) Links.toy "k" Links.w_token "1.2.3.4"
    tw_linked (V1DownloadLinkHandler (twEngine false false) Links.toy "k" Links.w_token "1.2.3.4" tw_linked).1 _
    (mkLink 0 Links.w_token "/f" "active" 60 None None "kab-/f" 0 0));
    [done | reflexivity | reflexivity | discriminate | apply surjective_pairing | reflexivity | discriminate].
Defined.

(** ** An instance with a peer and an erasure manager *)

Definition onFst {A B X} (m : St A X) : St (A * B) X := fun '(a, b) =>
  let '(a', x) := m a in ((a', b), x).
Abbreviation EW := (Erasure.TwoNodes * StoreView)%type.
Definition ewFiles : Storage EW :=
  let st := Erasure.tnLocal in
  mkStorage EW (fun c p => onFst (sg_Open st c p)) (fun c p rd n => onFst (sg_Create st c p rd n))
    (fun c p rd n => onFst (sg_Update st c p rd n)) (fun c p => onFst (sg_Delete st c p))
    (fun c p => onFst (sg_Stat st c p)) (fun c p => onFst (sg_ListDirectory st c p))
    (fun c p => onFst (sg_CreateDirectory st c p)).
Definition ewErasure : Erasure.Manager EW :=
  let m := Erasure.tnManager in let es := Erasure.m_erasureStore m in let h := Erasure.m_httpClient m in
  Erasure.mkManager EW (Erasure.m_rs m) (Erasure.m_ShardChecksum m) (Erasure.m_hashPrefix m)
    (mkErasureStore EW (fun p i => onFst (es_CreateErasureInfo es p i)) (fun p w => es_GetErasureInfo es p w.1)
       (fun p => onFst (es_DeleteErasureInfo es p)))
    ewFiles (Erasure.m_config m) (Erasure.m_instanceID m) (Erasure.m_peerEndpoints m) (Erasure.m_internalToken m)
    (mkHttpClient EW (hc_NewRequest h) (fun q => onFst (hc_Do h q))).
(** A proxy backend whose peer accepts every update. *)
Definition ewProxy : Storage EW :=
  let no {X} : St EW (Res X) := ret (Err (EMsg "not reachable")) in
  mkStorage EW (fun _ _ => no) (fun _ _ _ _ => no) (fun _ _ _ _ => ret (Ok tt)) (fun _ _ => no) (fun _ _ => no)
    (fun _ _ => no) (fun _ _ => no).
Definition ewEngine : Engine EW :=
  mkEngine EW (memStore snd (fun v w => (w.1, v))) ewFiles (Noop.noopStorage EW) ewProxy None
    (mkLockManager EW (fun _ => ret (Ok true)) (fun _ => ret (Ok tt))) "n1" ∅ false "" false (Some ewErasure)
    (fun _ => 7%Z) (mkSchedule (fun c => map_to_list (Cache.mc_cache c)) id (fun _ => false)).
Definition ew_allow : Authorizer EW := fun uid path perm w => Ok tt.
Definition ew_request (query : string -> string) (body : string) (n : Z) : Request :=
  mkRequest "a" (Some "root") (fun _ => "") query (bytesReader body) n.
Definition ew0 (m : gmap string Metadata) : EState EW := mkEState (Erasure.tn_empty, mkView m ∅) newEngineCache.

(** A request with a wrong token is refused. *)
Definition ew_authn : Authenticator := fun h => if String.eqb h "Bearer k" then Ok "api-user-0" else Err ErrAuthenticationFailed.
Definition ew_intruder : Request :=
  mkRequest "a" (Some "root") (fun h => if String.eqb h "Authorization" then "Bearer x" else "") (fun _ => "") (bytesReader "") 0.

Lemma handlers_mediated_witness :
  refused (V1AuthMiddleware ew_authn (serve ewEngine ew_allow ewErasure "localfs" Itoa [] [] RDelete)
             ew_intruder (ew0 ∅)).2.
Proof.
  destruct (handlers_mediated ewEngine ew_allow ew_authn ewErasure "localfs" Itoa [] [] RDelete ew_intruder (ew0 ∅)
     _ _ (surjective_pairing _)) as [[_ H] | (uid & u & H & _)]; [exact H | discriminate H].
Defined.

(** A PUT on an erasure-coded file does not replace its content: it answers
    200, but a later GET still returns the bytes of the first upload. *)
Theorem put_on_erasure_coded_ignored :
  let post := V1PostFileEnhanced ewEngine ew_allow "localfs" ["n2"; "n1"] [2; 0; 1]
    (ew_request (fun q => if String.eqb q "erasure" then "true" else "") "abc" 3) in
  let put := V1PutFileEnhanced ewEngine ew_allow "localfs" (ew_request (fun _ => "") "changed" 7) in
  let get := V1GetFile ewEngine ew_allow Itoa (ew_request (fun _ => "") "" 0) in
  let '(s1, posted) := post (ew0 ∅) in
  let '(s2, updated) := put s1 in
  rs_status posted = 201%Z /\ rs_status updated = 200%Z /\
  rs_status (get s2).2 = 200%Z /\ rs_body (get s2).2 = BData (bytesReader "abc").
Proof. vm_compute. repeat split. Qed.

(** A chunked PUT of a file on another instance records the size 0. *)
Definition ew_remote : Metadata :=
  set_Path "/a" (set_CallFSInstanceID (Some "n2") (newMetadata "a" "file" "0644" 1000 1000 "localfs" 7)).
Example proxied_chunked_put_size :
  let '(s1, resp) := V1PutFileEnhanced ewEngine ew_allow "localfs" (ew_request (fun _ => "") "changed" (-1))
                       (ew0 {[ "/a" := set_Size 5 ew_remote ]}) in
  rs_status resp = 200%Z /\
  (md_Size <$> view_md (es_world s1).2 !! "/a") = Some 0%Z.
Proof. vm_compute. split; reflexivity. Qed.

End HandlerSpec.
