(* ===== verification/ConfigSpec.v ===== *)
(** * What a loaded configuration satisfies

    The validation decides exactly the predicate [valid] of the configuration
    with its defaults filled in; the loader gives the environment precedence over
    the file and the file over the defaults. *)
From S2P Require Import Prelude GoStrings Config.
From Stdlib Require Import Ascii String.
Import Config.
Open Scope string_scope.
Open Scope bool_scope.

Module ConfigSpec.

(** ** The predicate *)

Definition has_tls (s : ServerConfig) : Prop := srv_CertFile s <> "" /\ srv_KeyFile s <> "".

Definition server_ok (c : AppConfig) : Prop :=
  let s := Server c in
  srv_ListenAddr s <> "" /\ lower (srv_Protocol s) ∈ ["http"; "https"; "auto"] /\
  (lower (srv_Protocol s) = "https" -> has_tls s) /\
  (srv_EnableQUIC s = true -> has_tls s /\ srv_QUICListenAddr s <> "").

Definition raft_ok (r : RaftConfig) : Prop :=
  rf_Enabled r = true /\ rf_NodeID r <> "" /\ rf_BindAddr r <> "" /\ rf_DataDir r <> "" /\
  (0 < rf_ApplyTimeout r)%Z /\ (0 < rf_ForwardTimeout r)%Z /\ (0 < rf_SnapshotInterval r)%Z /\
  rf_SnapshotThreshold r <> 0%Z /\ (0 < rf_RetainSnapshotCount r)%Z.

Definition store_ok (c : AppConfig) : Prop :=
  let m := MetadataStore c in
  let t := lower (ms_Type m) in
  (t = "postgres" /\ ms_DSN m <> "") \/ (t = "sqlite" /\ ms_SQLitePath m <> "") \/
  (t = "redis" /\ ms_RedisAddr m <> "") \/ (t = "raft" /\ raft_ok (Raft c)).

Definition dlm_ok (c : AppConfig) : Prop :=
  (lower (dlm_Type (DLM c)) = "redis" /\ dlm_RedisAddr (DLM c) <> "") \/ lower (dlm_Type (DLM c)) = "local".

Definition ha_ok (c : AppConfig) : Prop :=
  ha_ReplicationEnabled (HA c) = true -> lower (TrimSpace (ha_ReplicaBackend (HA c))) ∈ ["localfs"; "s3"].

Definition key_ok (key : string) : Prop := key <> "default-api-key" /\ 16 <= String.length key.
Definition keys_ok (c : AppConfig) : Prop := auth_APIKeys (Auth c) <> [] /\ Forall key_ok (auth_APIKeys (Auth c)).

Definition erasure_ok (c : AppConfig) : Prop :=
  er_Enabled (Erasure c) = true ->
  (2 <= er_DataShards (Erasure c))%Z /\ (1 <= er_ParityShards (Erasure c))%Z /\
  (int_add (er_DataShards (Erasure c)) (er_ParityShards (Erasure c)) <= 256)%Z.

Definition backend_ok (c : AppConfig) : Prop :=
  lower (TrimSpace (be_DefaultBackend (Backend c))) ∈ ["localfs"; "s3"; ""].

Definition secret_ok (secret default : string) : Prop := secret <> "" /\ secret <> default.

Record valid (c : AppConfig) : Prop := mkValid {
  valid_server : server_ok c;
  valid_store : store_ok c;
  valid_dlm : dlm_ok c;
  valid_ha : ha_ok c;
  valid_instance : id_InstanceID (InstanceDiscovery c) <> "";
  valid_keys : keys_ok c;
  valid_erasure : erasure_ok c;
  valid_backend : backend_ok c;
  valid_proxy_secret : secret_ok (auth_InternalProxySecret (Auth c)) "change-me-internal-secret";
  valid_link_secret : secret_ok (auth_SingleUseLinkSecret (Auth c)) "change-me-link-secret";
}.

(** ** The defaults that the validation fills in *)

Definition when (b : bool) (f : AppConfig -> AppConfig) (c : AppConfig) : AppConfig := if b then f c else c.

Definition fill_server (c : AppConfig) := when (empty (srv_Protocol (Server c))) (set_Protocol "https") c.
Definition fill_type (c : AppConfig) := when (empty (ms_Type (MetadataStore c))) (set_StoreType "postgres") c.
Definition fill_raft (c : AppConfig) := when (negb (rf_Enabled (Raft c))) (set_RaftEnabled true) c.
Definition fill_raft_if (c : AppConfig) :=
  if String.eqb (lower (ms_Type (MetadataStore c))) "raft" then fill_raft c else c.
Definition fill_store (c : AppConfig) := fill_raft_if (fill_type c).
Definition fill_dlm (c : AppConfig) := when (empty (dlm_Type (DLM c))) (set_DLMType "redis") c.
Definition fill_data (c : AppConfig) := when (er_DataShards (Erasure c) <? 2)%Z (set_DataShards 4) c.
Definition fill_parity (c : AppConfig) := when (er_ParityShards (Erasure c) <? 1)%Z (set_ParityShards 2) c.
Definition fill_erasure (c : AppConfig) := if er_Enabled (Erasure c) then fill_parity (fill_data c) else c.

Definition normalize (c : AppConfig) : AppConfig := fill_erasure (fill_dlm (fill_store (fill_server c))).

(** ** Validators as decisions *)

(** [decides m f P]: [m] fills in [f] and accepts exactly when [P] holds then. *)
Definition decides (m : V) (f : AppConfig -> AppConfig) (P : AppConfig -> Prop) : Prop :=
  forall c, (P (f c) /\ m c = (f c, Ok tt)) \/ (~ P (f c) /\ exists c' e, m c = (c', Err e)).

Lemma decides_reject bad msg (P : AppConfig -> Prop) :
  (forall c, bad c = false <-> P c) -> decides (reject_if bad msg) id P.
Proof.
  intros H c. unfold reject_if, id. destruct (bad c) eqn:E.
  - right. split; [rewrite <- H; congruence | by exists c, (EMsg msg)].
  - left. by rewrite <- H.
Qed.

Lemma decides_assign cond f : decides (assign_if cond f) (fun c => when (cond c) f c) (fun _ => True).
Proof. intros c. left. unfold assign_if, when. by destruct (cond c). Qed.

Lemma decides_try m m' f f' P P' :
  decides m f P -> (forall c, P (f' c) <-> P c) -> decides m' f' P' ->
  decides (try_bind m (fun e => e) (fun _ => m')) (fun c => f' (f c)) (fun c => P c /\ P' c).
Proof.
  intros Hm Hs Hm' c. unfold try_bind. destruct (Hm c) as [[HP ->] | [HP (c' & e & ->)]].
  - destruct (Hm' (f c)) as [[HP' ->] | [HP' (c' & e & ->)]].
    + left. by rewrite Hs.
    + right. split; [tauto | by exists c', e].
  - right. rewrite Hs. split; [tauto | by exists c', e].
Qed.

Lemma decides_reject_then bad msg (P P' : AppConfig -> Prop) m f :
  (forall c, bad c = false <-> P c) -> (forall c, P (f c) <-> P c) -> decides m f P' ->
  decides (try_bind (reject_if bad msg) (fun e => e) (fun _ => m)) f (fun c => P c /\ P' c).
Proof. intros H1 H2 H3. exact (decides_try _ _ id f P P' (decides_reject bad msg P H1) H2 H3). Qed.

Lemma decides_assign_then cond g m f P :
  decides m f P -> decides (try_bind (assign_if cond g) (fun e => e) (fun _ => m)) (fun c => f (when (cond c) g c)) P.
Proof.
  intros H c. specialize (H (when (cond c) g c)). unfold try_bind, assign_if, when in *. by destruct (cond c).
Qed.

Lemma decides_iff m f P Q : decides m f P -> (forall c, P (f c) <-> Q (f c)) -> decides m f Q.
Proof. intros H HQ c. rewrite <- HQ. apply H. Qed.

Lemma empty_false s : empty s = false <-> s <> "".
Proof. apply String.eqb_neq. Qed.

Lemma member_false (s : string) (l : list string) : negb (bool_decide (s ∈ l)) = false <-> s ∈ l.
Proof. rewrite negb_false_iff. apply bool_decide_eq_true. Qed.

Lemma tls_false s : empty (srv_CertFile s) || empty (srv_KeyFile s) = false <-> has_tls s.
Proof. unfold has_tls. by rewrite orb_false_iff, !empty_false. Qed.

Lemma guard_false (b x : bool) (P : Prop) : (x = false <-> P) -> (b && x = false <-> (b = true -> P)).
Proof. destruct b; cbn; [tauto |]. intros _. split; [done | done]. Qed.

Lemma secret_false secret default : empty secret || String.eqb secret default = false <-> secret_ok secret default.
Proof. unfold secret_ok. rewrite orb_false_iff, empty_false. by rewrite String.eqb_neq. Qed.

(** One rejecting step: what it rejects is found by unification. *)
Tactic Notation "step" tactic(t) := eapply decides_reject_then; [intros c; t | done |].
Tactic Notation "last_step" tactic(t) := eapply decides_reject; intros c; t.

Lemma validateServer_decides : decides validateServer fill_server server_ok.
Proof.
  eapply decides_iff.
  - unfold validateServer. eapply decides_reject_then; [intros c; apply empty_false | |].
    + intros c. cbn beta. unfold fill_server, when. by destruct (empty (srv_Protocol (Server c))).
    + apply (decides_assign_then _ _ _ id). step (apply member_false). step (eapply guard_false, tls_false).
      step (eapply guard_false, tls_false). last_step (eapply guard_false, empty_false).
  - intros c. generalize (fill_server c). clear c. intros c. cbn beta. unfold server_ok. rewrite String.eqb_eq. tauto.
Qed.

Lemma validateRaft_decides : decides validateRaft fill_raft (fun c => raft_ok (Raft c)).
Proof.
  eapply decides_iff.
  - apply (decides_assign_then _ _ _ id).
    step (apply empty_false). step (apply empty_false). step (apply empty_false).
    step (apply Z.leb_gt). step (apply Z.leb_gt). step (apply Z.leb_gt). step (apply Z.eqb_neq). last_step (apply Z.leb_gt).
  - intros c. assert (E : rf_Enabled (Raft (fill_raft c)) = true).
    { unfold fill_raft, when. by destruct (rf_Enabled (Raft c)) eqn:E; cbn. }
    change (when _ _ c) with (fill_raft c). revert E. generalize (fill_raft c). clear c. intros c E. cbn beta.
    unfold raft_ok, id. tauto.
Qed.

(** A requirement of one store type. *)
Lemma decides_required (field : AppConfig -> string) msg c (Q : Prop) :
  (Q <-> field c <> "") ->
  (Q /\ reject_if (fun c => empty (field c)) msg c = (c, Ok tt)) \/
  (~ Q /\ exists c' e, reject_if (fun c => empty (field c)) msg c = (c', Err e)).
Proof.
  intros HQ. rewrite HQ.
  exact (decides_reject _ msg (fun c => field c <> "") (fun c => empty_false (field c)) c).
Qed.

Lemma fill_raft_type c : MetadataStore (fill_raft c) = MetadataStore c.
Proof. unfold fill_raft, when. by destruct (rf_Enabled (Raft c)). Qed.

Lemma validateMetadataStore_decides : decides validateMetadataStore fill_store store_ok.
Proof.
  apply (decides_assign_then (fun c => empty (ms_Type (MetadataStore c))) (set_StoreType "postgres") _ fill_raft_if). intros c. unfold fill_raft_if, store_ok. cbn beta zeta.
  destruct (String.eqb_spec (lower (ms_Type (MetadataStore c))) "postgres") as [E | E1].
  { rewrite E. apply (decides_required (fun c => ms_DSN (MetadataStore c))). cbn. rewrite ?E. intuition congruence. }
  destruct (String.eqb_spec (lower (ms_Type (MetadataStore c))) "sqlite") as [E | E2].
  { rewrite E. apply (decides_required (fun c => ms_SQLitePath (MetadataStore c))). cbn. rewrite ?E. intuition congruence. }
  destruct (String.eqb_spec (lower (ms_Type (MetadataStore c))) "redis") as [E | E3].
  { rewrite E. apply (decides_required (fun c => ms_RedisAddr (MetadataStore c))). cbn. rewrite ?E. intuition congruence. }
  destruct (String.eqb_spec (lower (ms_Type (MetadataStore c))) "raft") as [E | E4].
  - rewrite fill_raft_type. destruct (validateRaft_decides c) as [[HP ->] | [HP H]]; [left | right]; intuition congruence.
  - right. split; [intuition congruence |]. unfold reject_if. eauto.
Qed.

Lemma validateDLM_decides : decides validateDLM fill_dlm dlm_ok.
Proof.
  apply (decides_assign_then (fun c => empty (dlm_Type (DLM c))) (set_DLMType "redis") _ id). intros c. unfold dlm_ok, id. cbn beta zeta.
  destruct (String.eqb_spec (lower (dlm_Type (DLM c))) "redis") as [E | E1].
  { apply (decides_required (fun c => dlm_RedisAddr (DLM c))). cbn. rewrite ?E. intuition congruence. }
  destruct (String.eqb_spec (lower (dlm_Type (DLM c))) "local") as [E | E2].
  - left. split; [by right | done].
  - right. split; [intuition congruence |]. unfold reject_if. eauto.
Qed.

Lemma validateHA_decides : decides validateHA id ha_ok.
Proof.
  apply decides_reject. intros c. apply guard_false. cbn zeta.
  set (b := lower _). rewrite !elem_of_cons, elem_of_nil, andb_false_iff, !negb_false_iff, !String.eqb_eq. tauto.
Qed.

Lemma checkKeys_spec keys :
  (Forall key_ok keys /\ checkKeys keys = Ok tt) \/ (~ Forall key_ok keys /\ exists e, checkKeys keys = Err e).
Proof.
  induction keys as [| key keys IH]; [by left |]. cbn [checkKeys]. rewrite Forall_cons. unfold key_ok at 1 3.
  destruct (String.eqb_spec key "default-api-key"); [right; split; [tauto | by eexists] |].
  destruct (Z.ltb_spec (Z.of_nat (String.length key)) 16).
  - right. split; [intros [[_ Hk] _]; lia | by eexists].
  - destruct IH as [[H1 H2] | [H1 H2]]; [left | right; split; [tauto | done]].
    split; [split; [split; [done | lia] | done] | done].
Qed.

Lemma validateKeys_decides : decides validateKeys id keys_ok.
Proof.
  unfold validateKeys, keys_ok.
  apply (decides_reject_then _ _ (fun c => auth_APIKeys (Auth c) <> []) (fun c => Forall key_ok (auth_APIKeys (Auth c)))).
  - intros c. apply bool_decide_eq_false.
  - done.
  - intros c. unfold id. destruct (checkKeys_spec (auth_APIKeys (Auth c))) as [[H ->] | [H [e ->]]]; [by left | right].
    split; [done | by eexists _, _].
Qed.

Lemma fill_data_ok c : (2 <= er_DataShards (Erasure (fill_data c)))%Z.
Proof. unfold fill_data, when. destruct (Z.ltb_spec (er_DataShards (Erasure c)) 2); cbn; lia. Qed.
Lemma fill_parity_ok c : (1 <= er_ParityShards (Erasure (fill_parity c)))%Z.
Proof. unfold fill_parity, when. destruct (Z.ltb_spec (er_ParityShards (Erasure c)) 1); cbn; lia. Qed.
Lemma fill_parity_data c : er_DataShards (Erasure (fill_parity c)) = er_DataShards (Erasure c).
Proof. unfold fill_parity, when. by destruct (er_ParityShards (Erasure c) <? 1)%Z. Qed.
Lemma fill_shards_enabled c : er_Enabled (Erasure (fill_parity (fill_data c))) = er_Enabled (Erasure c).
Proof.
  unfold fill_parity, fill_data, when. destruct (er_DataShards (Erasure c) <? 2)%Z; cbn;
    by destruct (er_ParityShards (Erasure c) <? 1)%Z.
Qed.

Lemma validateErasure_decides : decides validateErasure fill_erasure erasure_ok.
Proof.
  intros c. unfold validateErasure, fill_erasure. destruct (er_Enabled (Erasure c)) eqn:E.
  2:{ left. split; [unfold erasure_ok; congruence | done]. }
  set (m := try_bind _ _ _).
  assert (H : decides m (fun c => fill_parity (fill_data c))
      (fun c => (int_add (er_DataShards (Erasure c)) (er_ParityShards (Erasure c)) <= 256)%Z)).
  { apply (decides_assign_then (fun c => er_DataShards (Erasure c) <? 2)%Z (set_DataShards 4) _ fill_parity).
    apply (decides_assign_then (fun c => er_ParityShards (Erasure c) <? 1)%Z (set_ParityShards 2) _ id).
    apply decides_reject. intros x. apply Z.ltb_ge. }
  specialize (H c). cbn beta in H. unfold erasure_ok. rewrite fill_shards_enabled, E.
  pose proof (fill_parity_ok (fill_data c)). pose proof (fill_data_ok c). rewrite <- (fill_parity_data (fill_data c)) in H1.
  tauto.
Qed.

(** What each step leaves alone. *)
Lemma fill_erasure_frame c : exists e, fill_erasure c = set_Erasure e c.
Proof.
  unfold fill_erasure, fill_parity, fill_data, when. destruct c as [? ? ? ? ? ? ? ? ? ? er]. cbn.
  destruct (er_Enabled er); [| by exists er].
  destruct (er_DataShards er <? 2)%Z; cbn; destruct (er_ParityShards er <? 1)%Z; by eexists.
Qed.
Lemma fill_dlm_frame c : exists d, fill_dlm c = set_DLM d c.
Proof. unfold fill_dlm, when. destruct c as [? ? ? ? ? ? ? d ? ? ?]. cbn. destruct (empty (dlm_Type d)); by eexists. Qed.
Lemma fill_store_frame c : exists m r, fill_store c = set_Raft r (set_MetadataStore m c).
Proof.
  exists (MetadataStore (fill_store c)), (Raft (fill_store c)).
  unfold fill_store, fill_raft_if, fill_type, fill_raft, when. destruct c as [? ? ? ? ? m r ? ? ? ?].
  cbn [MetadataStore]. destruct (empty (ms_Type m)); cbn [MetadataStore ms_Type set_StoreType set_MetadataStore Raft];
    destruct (String.eqb _ "raft"); destruct (rf_Enabled r); reflexivity.
Qed.

Ltac frames c :=
  try (destruct (fill_store_frame c) as (?m & ?r & ->));
  match goal with |- context [fill_dlm ?x] => destruct (fill_dlm_frame x) as (?d & ->) | _ => idtac end;
  match goal with |- context [fill_erasure ?x] => destruct (fill_erasure_frame x) as (?e & ->) | _ => idtac end;
  reflexivity.

(** The validation as a whole. *)
Lemma validateConfig_decides : decides validateConfig normalize valid.
Proof.
  eapply decides_iff.
  - unfold validateConfig.
    eapply (decides_try _ _ fill_server (fun c => fill_erasure (fill_dlm (fill_store c))) server_ok
             _ validateServer_decides); [intros c; frames c |].
    eapply (decides_try _ _ fill_store (fun c => fill_erasure (fill_dlm c)) store_ok
             _ validateMetadataStore_decides); [intros c; frames c |].
    eapply (decides_try _ _ fill_dlm fill_erasure dlm_ok _ validateDLM_decides); [intros c; frames c |].
    eapply (decides_try _ _ id fill_erasure ha_ok _ validateHA_decides); [intros c; frames c |].
    eapply decides_reject_then; [intros c; apply empty_false | intros c; frames c |].
    eapply (decides_try _ _ id fill_erasure keys_ok _ validateKeys_decides); [intros c; frames c |].
    eapply (decides_try _ _ fill_erasure id erasure_ok _ validateErasure_decides); [done |].
    step (apply member_false). step (apply secret_false). last_step (apply secret_false).
  - intros c. change (fill_erasure _) with (normalize c). cbn beta. split.
    + intros (H1 & H2 & H3 & H4 & H5 & H6 & H7 & H8 & H9 & H10). by split.
    + intros []. tauto.
Qed.

(** A valid configuration has nothing to fill in. *)
Lemma normalize_valid c : valid c -> normalize c = c.
Proof.
  intros [(_ & Hp & _) Hst Hd _ _ _ He _ _ _]. unfold normalize.
  assert (E1 : fill_server c = c).
  { unfold fill_server, when, empty. destruct (String.eqb_spec (srv_Protocol (Server c)) "") as [E |]; [| done].
    rewrite E in Hp. by apply (bool_decide_eq_true_2 _) in Hp. }
  assert (E2 : fill_store c = c).
  { unfold fill_store, fill_type, fill_raft_if, when, empty, store_ok in *.
    destruct (String.eqb_spec (ms_Type (MetadataStore c)) "") as [E | _].
    { rewrite E in Hst. exfalso. cbn in Hst. intuition congruence. }
    destruct (String.eqb_spec (lower (ms_Type (MetadataStore c))) "raft") as [E |]; [| done].
    rewrite E in Hst. unfold fill_raft, when, raft_ok in *.
    destruct (rf_Enabled (Raft c)); [done |]. exfalso. intuition congruence. }
  assert (E3 : fill_dlm c = c).
  { unfold fill_dlm, when, empty, dlm_ok in *. destruct (String.eqb_spec (dlm_Type (DLM c)) "") as [E |]; [| done].
    rewrite E in Hd. exfalso. cbn in Hd. intuition congruence. }
  rewrite E1, E2, E3. unfold fill_erasure, fill_parity, fill_data, when, erasure_ok in *.
  destruct (er_Enabled (Erasure c)); [| done]. destruct (He eq_refl) as (H1 & H2 & _).
  destruct (Z.ltb_spec (er_DataShards (Erasure c)) 2); [lia |].
  destruct (Z.ltb_spec (er_ParityShards (Erasure c)) 1); [lia | done].
Qed.

(** The validation decides exactly whether the configuration is valid once
    its defaults are filled in, returns that configuration, and leaves a
    validated configuration as it is when it is validated again. *)
Theorem config_validate_exact c :
  ((validateConfig c).2 = Ok tt <-> valid (normalize c)) /\
  (forall c', validateConfig c = (c', Ok tt) -> c' = normalize c /\ validateConfig c' = (c', Ok tt)) /\
  (valid c -> validateConfig c = (c, Ok tt)).
Proof.
  assert (Hv : forall c, valid c -> validateConfig c = (c, Ok tt)).
  { intros x Hx. pose proof (normalize_valid x Hx) as E.
    destruct (validateConfig_decides x) as [[_ H] | [H _]]; rewrite E in H; [done | by destruct H]. }
  destruct (validateConfig_decides c) as [[H ->] | [H (c' & e & ->)]].
  - split; [by split |]. split; [| intros Hc; by rewrite (normalize_valid c Hc)].
    intros c' [= <-]. split; [done | by apply Hv].
  - split; [by split |]. split; [done |]. intros Hc. rewrite (normalize_valid c Hc) in H. by destruct H.
Qed.

(** The number of shards is bounded, unless the sum of the two counts overflows. *)
Lemma erasure_ok_bound c :
  erasure_ok c -> er_Enabled (Erasure c) = true ->
  (er_DataShards (Erasure c) < 2 ^ 63)%Z -> (er_ParityShards (Erasure c) < 2 ^ 63)%Z ->
  let n := (er_DataShards (Erasure c) + er_ParityShards (Erasure c))%Z in (n <= 256 \/ 2 ^ 63 <= n)%Z.
Proof.
  intros H He Hd Hp n. destruct (H He) as (H1 & H2 & H3). unfold int_add in H3. fold n in H3.
  destruct (Z.lt_ge_cases n (2 ^ 63)); [left | by right]. rewrite Z.mod_small in H3; lia.
Qed.

(** ** The loader *)

(** The keys of the environment *)

(** A key whose dots can be told from its underscores. *)
Definition plain_key (key : string) : bool := negb (Contains key "__" || Contains key "_.").

Lemma Contains_tail c s sub : Contains (String c s) sub = false -> Contains s sub = false.
Proof.
  change (Contains (String c s) sub) with (HasPrefix (String c s) sub || Contains s sub).
  rewrite orb_false_iff. tauto.
Qed.

Lemma ReplaceAll_dots key : plain_key key = true -> ReplaceAll (replace_byte key "." "__") "__" "." = key.
Proof.
  unfold plain_key, ReplaceAll. intros H. to_prop. revert H H0.
  induction key as [| c key IH]; [done |]. intros H1 H2.
  specialize (IH (Contains_tail _ _ _ H1) (Contains_tail _ _ _ H2)). cbn [replace_byte].
  destruct (Ascii.eqb_spec c ".") as [-> | Hc]; [cbn; by destruct (replace_byte key "." "__"); rewrite IH |].
  assert (E : HasPrefix (String c (replace_byte key "." "__")) "__" = false).
  { change (HasPrefix (String c (replace_byte key "." "__")) "__")
      with (Ascii.eqb c "_" && HasPrefix (replace_byte key "." "__") "_").
    destruct (Ascii.eqb_spec c "_") as [-> | _]; [| done]. destruct key as [| d key]; [done |].
    cbn [replace_byte]. cbn in H1, H2. destruct (Ascii.eqb_spec d ".") as [-> | Hd']; [by destruct key |].
    destruct (Ascii.eqb_spec d "_") as [-> | Hd]; [by destruct key |].
    change ((Ascii.eqb d "_" && HasPrefix (replace_byte key "." "__") "") = false). by apply Ascii.eqb_neq in Hd as ->. }
  change (String c "" +:+ replace_byte key "." "__") with (String c (replace_byte key "." "__")).
  cbn [replace_from]. by rewrite E, IH.
Qed.

(** The variable of a key, in any case. *)
Definition envName (key name : string) : Prop := ToLower name = replace_byte key "." "__".

Lemma envKey_name key name : plain_key key = true -> envName key name -> envKey ("CALLFS_" +:+ name) = key.
Proof. intros Hk Hn. unfold envKey. rewrite TrimPrefix_app, Hn. by apply ReplaceAll_dots. Qed.

(** The documented behaviour of the library: a source is laid over what was
    loaded before; [get] reads a key, [env] the environment, [content] a file. *)
Class KoanfLaws {K} (koanf : Koanf K) (get : K -> string -> option string)
    (tags : AppConfig -> string -> option string) (content : string -> string -> option string)
    (env : string -> option string) : Prop := {
  law_LoadStruct : forall c k k', k_LoadStruct koanf c k = Ok k' ->
    forall key, get k' key = match tags c key with Some v => Some v | None => get k key end;
  law_LoadFile : forall f p k k', k_LoadFile koanf f p k = Ok k' ->
    forall key, get k' key = match content f key with Some v => Some v | None => get k key end;
  law_LoadEnv_set : forall pre cb k k' name v, k_LoadEnv koanf pre cb k = Ok k' ->
    env name = Some v -> HasPrefix name pre = true -> cb name <> "" ->
    (forall name', is_Some (env name') -> HasPrefix name' pre = true -> cb name' = cb name -> name' = name) ->
    get k' (cb name) = Some v;
  law_LoadEnv_unset : forall pre cb k k' key, k_LoadEnv koanf pre cb k = Ok k' ->
    (forall name, is_Some (env name) -> HasPrefix name pre = true -> cb name <> key) -> get k' key = get k key;
  law_New : forall key, get (k_New koanf) key = None;
}.

Section Loader.
Context {K : Type} (koanf : Koanf K) (get : K -> string -> option string)
  (tags : AppConfig -> string -> option string) (content : string -> string -> option string)
  (env : string -> option string) `{!KoanfLaws koanf get tags content env}.

(** The file that is loaded. *)
Definition chosen (path : string) : option string :=
  if String.eqb path "" then List.find (fun f => is_Ok (os_Stat koanf f)) configFiles else Some path.

(** What a key is worth without the environment. *)
Definition fileOrDefault (path key : string) : option string :=
  match chosen path ≫= fun f => content f key with
  | Some v => Some v
  | None => tags DefaultAppConfig key
  end.

Lemma res_wrap_Ok {A} msg (r : Res A) a : res_wrap msg r = Ok a -> r = Ok a.
Proof. destruct r; cbn; [done | discriminate]. Qed.

Lemma loadFirst_get files k k' : loadFirst koanf files k = Ok k' ->
  forall key, get k' key =
    match List.find (fun f => is_Ok (os_Stat koanf f)) files ≫= fun f => content f key with
    | Some v => Some v | None => get k key end.
Proof.
  induction files as [| f files IH]; cbn; [by intros [= <-] |].
  destruct (os_Stat koanf f) as [u | e]; cbn; [| apply IH].
  intros H%res_wrap_Ok key. by rewrite (law_LoadFile _ _ _ _ H).
Qed.

Lemma loadFile_get path k k' : loadFile koanf path k = Ok k' ->
  forall key, get k' key =
    match chosen path ≫= fun f => content f key with Some v => Some v | None => get k key end.
Proof.
  unfold loadFile, chosen. destruct (String.eqb_spec path "") as [-> | Hp]; cbn [negb].
  - apply loadFirst_get.
  - intros H. apply res_bind_Ok in H as (u & _ & H). apply res_wrap_Ok in H. intros key.
    by rewrite (law_LoadFile _ _ _ _ H).
Qed.

Lemma Load_inv path cfg : LoadConfigFromFile koanf path = Ok cfg ->
  exists k1 k2 k3 raw, k_LoadStruct koanf DefaultAppConfig (k_New koanf) = Ok k1 /\ loadFile koanf path k1 = Ok k2 /\
    k_LoadEnv koanf "CALLFS_" envKey k2 = Ok k3 /\ k_Unmarshal koanf k3 = Ok raw /\
    validateConfig raw = (cfg, Ok tt).
Proof.
  unfold LoadConfigFromFile. intros H.
  apply res_bind_Ok in H as (k1 & H1 & H). apply res_bind_Ok in H as (k2 & H2 & H).
  apply res_bind_Ok in H as (k3 & H3 & H). apply res_bind_Ok in H as (raw & H4 & H).
  apply res_wrap_Ok in H1, H3, H4. destruct (validateConfig raw) as [c [[] | e]] eqn:E; [| done].
  injection H as <-. by exists k1, k2, k3, raw.
Qed.

Lemma loaded_valid path cfg : LoadConfigFromFile koanf path = Ok cfg -> valid cfg.
Proof.
  intros H. apply Load_inv in H as (_ & _ & _ & raw & _ & _ & _ & _ & H).
  destruct (validateConfig_decides raw) as [[Hv E] | [_ (c & e & E)]]; congruence.
Qed.

(** C39: A configuration that the loader returns is valid: listening address,
    protocol and certificates, metadata store, lock manager, replication, erasure
    counts, default backend, API keys of sixteen bytes or more and secrets, none of
    them the shipped defaults. *)
Theorem config_loaded_valid path cfg : LoadConfigFromFile koanf path = Ok cfg -> valid cfg.
Proof. apply loaded_valid. Qed.

(** The environment takes precedence over the file and the file over the
    defaults: the loaded configuration is read from key values such that the
    variable CALLFS_<KEY>, dots of the key written as two underscores, in any
    case, decides its key, and a key without a variable has its value from the
    chosen file, else from the defaults. *)
Theorem config_precedence path cfg :
  LoadConfigFromFile koanf path = Ok cfg ->
  exists k raw, k_Unmarshal koanf k = Ok raw /\ cfg = normalize raw /\
    (forall key name v, key <> "" -> plain_key key = true -> envName key name -> env ("CALLFS_" +:+ name) = Some v ->
      (forall name', is_Some (env name') -> HasPrefix name' "CALLFS_" = true -> envKey name' = key ->
         name' = "CALLFS_" +:+ name) ->
      get k key = Some v) /\
    (forall key, (forall name, is_Some (env name) -> HasPrefix name "CALLFS_" = true -> envKey name <> key) ->
      get k key = fileOrDefault path key).
Proof.
  intros H. apply Load_inv in H as (k1 & k2 & k3 & raw & H1 & H2 & H3 & H4 & H). exists k3, raw.
  split; [done |]. split.
  { destruct (validateConfig_decides raw) as [[Hv E] | [_ (c & e & E)]]; congruence. }
  split.
  - intros key name v Hne Hk Hn He Hu. pose proof (envKey_name key name Hk Hn) as Ek. rewrite <- Ek.
    apply (law_LoadEnv_set _ _ _ _ _ _ H3 He); [apply HasPrefix_app | by rewrite Ek |]. rewrite Ek. apply Hu.
  - intros key Hu. rewrite (law_LoadEnv_unset _ _ _ _ _ H3 Hu), (loadFile_get _ _ _ H2). unfold fileOrDefault.
    destruct (chosen path ≫= _); [done |]. rewrite (law_LoadStruct _ _ _ H1), law_New. by destruct (tags DefaultAppConfig key).
Qed.

End Loader.

(** Every key of the configuration can be set by a variable. *)
Definition configKeys : list string :=
  ["server.listen_addr"; "server.protocol"; "server.external_url"; "server.cert_file"; "server.key_file";
   "server.enable_quic"; "server.quic_listen_addr"; "server.read_timeout"; "server.write_timeout";
   "server.file_op_timeout"; "server.metadata_op_timeout"; "auth.api_keys"; "auth.internal_proxy_secret";
   "auth.single_use_link_secret"; "log.level"; "log.format"; "metrics.listen_addr"; "backend.default_backend";
   "backend.localfs_root_path"; "backend.s3_access_key"; "backend.s3_secret_key"; "backend.s3_region";
   "backend.s3_bucket_name"; "backend.s3_endpoint"; "backend.s3_server_side_encryption"; "backend.s3_acl";
   "backend.s3_kms_key_id"; "backend.internal_proxy_skip_tls_verify"; "metadata_store.type"; "metadata_store.dsn";
   "metadata_store.sqlite_path"; "metadata_store.redis_addr"; "metadata_store.redis_password";
   "metadata_store.redis_db"; "metadata_store.redis_key_prefix"; "raft.enabled"; "raft.node_id"; "raft.bind_addr";
   "raft.data_dir"; "raft.bootstrap"; "raft.peers"; "raft.api_peer_endpoints"; "raft.apply_timeout";
   "raft.forward_timeout"; "raft.snapshot_interval"; "raft.snapshot_threshold"; "raft.retain_snapshot_count";
   "dlm.type"; "dlm.redis_addr"; "dlm.redis_password"; "ha.replication_enabled"; "ha.replica_backend";
   "ha.require_replica_success"; "instance_discovery.instance_id"; "instance_discovery.peer_endpoints";
   "erasure.enabled"; "erasure.data_shards"; "erasure.parity_shards"; "erasure.min_file_size";
   "erasure.shard_backend"; "erasure.shard_path"].

Lemma configKeys_plain : Forall (fun key => plain_key key = true) configKeys.
Proof. apply (bool_decide_eq_true_1 _). vm_compute. reflexivity. Qed.

(** ** A concrete run *)

(** Key values as functions, an environment, and a structure that reads the
    secrets. *)
Definition sampleVars : list (string * string) :=
  [("HOME", "/root"); ("CALLFS_AUTH__API_KEYS", "0123456789abcdef");
   ("CALLFS_AUTH__INTERNAL_PROXY_SECRET", "proxy"); ("CALLFS_AUTH__SINGLE_USE_LINK_SECRET", "link")].

Definition varIn (vars : list (string * string)) (name : string) : option string :=
  snd <$> List.find (fun nv => String.eqb nv.1 name) vars.

Definition sampleTags (c : AppConfig) (key : string) : option string :=
  if String.eqb key "auth.internal_proxy_secret" then Some (auth_InternalProxySecret (Auth c))
  else if String.eqb key "auth.single_use_link_secret" then Some (auth_SingleUseLinkSecret (Auth c))
  else if String.eqb key "auth.api_keys" then head (auth_APIKeys (Auth c)) else None.

Definition sampleStruct (k : string -> option string) : AppConfig :=
  mkAppConfig (Server DefaultAppConfig)
    (mkAuthConfig (option_list (k "auth.api_keys")) (default "" (k "auth.internal_proxy_secret"))
       (default "" (k "auth.single_use_link_secret")))
    (Log DefaultAppConfig) (Metrics DefaultAppConfig) (Backend DefaultAppConfig) (MetadataStore DefaultAppConfig)
    (Raft DefaultAppConfig) (DLM DefaultAppConfig) (HA DefaultAppConfig) (InstanceDiscovery DefaultAppConfig)
    (Erasure DefaultAppConfig).

Definition sampleKoanf (vars : list (string * string)) : Koanf (string -> option string) :=
  mkKoanf _ (fun _ => None)
    (fun c k => Ok (fun key => match sampleTags c key with Some v => Some v | None => k key end))
    (fun f p k => Ok k)
    (fun pre cb k => Ok (fun key =>
       match List.find (fun nv => HasPrefix nv.1 pre && String.eqb (cb nv.1) key) vars with
       | Some nv => Some nv.2
       | None => k key
       end))
    (fun k => Ok (sampleStruct k))
    (fun _ => Err (EMsg "no such file")).

Lemma varIn_Some vars name v : In (name, v) vars -> is_Some (varIn vars name).
Proof.
  intros H. unfold varIn. destruct (List.find _ vars) eqn:E; [by eexists |].
  apply find_none with (x := (name, v)) in E; [| done]. cbn in E. by rewrite String.eqb_refl in E.
Qed.

Lemma find_agree {A} (p q : A -> bool) l : (forall x, In x l -> p x = q x) -> List.find p l = List.find q l.
Proof.
  induction l as [| x l IH]; [done |]. intros H. cbn. rewrite <- (H x) by by left.
  destruct (p x); [done |]. apply IH. intros y Hy. apply H. by right.
Qed.

#[global] Instance sampleKoanf_laws vars :
  KoanfLaws (sampleKoanf vars) (fun k => k) sampleTags (fun _ _ => None) (varIn vars).
Proof.
  split; cbn.
  - by intros c k k' [= <-] key.
  - by intros f p k k' [= <-] key.
  - intros pre cb k k' name v [= <-] Hv Hp _ Hu. unfold varIn in Hv.
    rewrite (find_agree _ (fun nv => String.eqb nv.1 name)).
    + by destruct (List.find (fun nv => String.eqb nv.1 name) vars).
    + intros [n x] Hin. cbn. destruct (String.eqb_spec n name) as [-> | Hne]; [by rewrite Hp, String.eqb_refl |].
      destruct (HasPrefix n pre) eqn:En; [| done]. destruct (String.eqb_spec (cb n) (cb name)) as [E |]; [| done].
      exfalso. apply Hne, Hu; [by eapply varIn_Some | done | done].
  - intros pre cb k k' key [= <-] Hu. destruct (List.find _ vars) as [[n x] |] eqn:E; [| done].
    apply find_some in E as [Hin E]. cbn in E. to_prop. exfalso. by apply (Hu n (varIn_Some _ _ _ Hin)).
  - done.
Qed.

Definition sampleLoaded : AppConfig := sampleStruct (fun key =>
  if String.eqb key "auth.api_keys" then Some "0123456789abcdef"
  else if String.eqb key "auth.internal_proxy_secret" then Some "proxy"
  else if String.eqb key "auth.single_use_link_secret" then Some "link" else None).

Lemma config_loaded_valid_witness :
  LoadConfigFromFile (sampleKoanf sampleVars) "" = Ok sampleLoaded /\ valid sampleLoaded.
Proof.
  assert (E : LoadConfigFromFile (sampleKoanf sampleVars) "" = Ok sampleLoaded) by (vm_compute; reflexivity).
  split; [exact E |]. exact (config_loaded_valid (sampleKoanf sampleVars) "" sampleLoaded E).
Defined.

Lemma config_precedence_witness :
  exists k raw, k_Unmarshal (sampleKoanf sampleVars) k = Ok raw /\ sampleLoaded = normalize raw /\
    (forall key name v, key <> "" -> plain_key key = true -> envName key name ->
      varIn sampleVars ("CALLFS_" +:+ name) = Some v ->
      (forall name', is_Some (varIn sampleVars name') -> HasPrefix name' "CALLFS_" = true -> envKey name' = key ->
         name' = "CALLFS_" +:+ name) ->
      k key = Some v) /\
    (forall key, (forall name, is_Some (varIn sampleVars name) -> HasPrefix name "CALLFS_" = true -> envKey name <> key) ->
      k key = fileOrDefault (sampleKoanf sampleVars) sampleTags (fun _ _ => None) "" key).
Proof.
  assert (E : LoadConfigFromFile (sampleKoanf sampleVars) "" = Ok sampleLoaded) by (vm_compute; reflexivity).
  exact (config_precedence (sampleKoanf sampleVars) (fun k => k) sampleTags (fun _ _ => None) (varIn sampleVars)
           "" sampleLoaded E).
Defined.

Lemma config_validate_exact_witness : validateConfig sampleLoaded = (sampleLoaded, Ok tt) /\ valid (normalize sampleLoaded).
Proof.
  assert (E : validateConfig sampleLoaded = (sampleLoaded, Ok tt)) by (vm_compute; reflexivity).
  split; [exact E |]. apply (proj1 (config_validate_exact sampleLoaded)). rewrite E. reflexivity.
Defined.

(** The shipped defaults are refused. *)
Example defaults_refused :
  LoadConfig (sampleKoanf [("HOME", "/root")]) =
    Err (EWrap "config validation failed" (EMsg "auth.api_keys must not use default value 'default-api-key'")).
Proof. vm_compute. reflexivity. Qed.

(** Two counts whose sum overflows are accepted. *)
Example shard_counts_overflow :
  (validateErasure (set_Erasure (mkErasureConfig true (2 ^ 63 - 1) (2 ^ 63 - 1) 0 "" "") sampleLoaded)).2 = Ok tt.
Proof. vm_compute. reflexivity. Qed.

End ConfigSpec.
