(* ===== verification/Startup.v ===== *)
(** * The program: cmd/main.go and the set-up of the raft store

    [runServer] opens the configured components one after the other, defers
    their closing, serves, and shuts down; [NewRaftStore] does the same for the
    parts of the raft store; [runClusterJoin] and the join endpoint are the two
    sides of joining a cluster.  What a constructor answers is a parameter. *)
From S2P Require Import Prelude GoStrings Config RaftStore RaftNode.
From Stdlib Require Import Ascii String.
Import Config.
Open Scope string_scope.
Open Scope bool_scope.
Open Scope go_scope.

Module Startup.

(** ** A function body with [defer] *)

(** [Ev]: what the function does to the outside; [Hd]: what it defers to close. *)
Section Body.
Context {Ev Hd : Type}.

Record Run := mkRun { trace : list Ev; defers : list Hd }.

(** How a body ends early: a [return], or [logger.Fatal], which exits the
    process without running the deferred calls. *)
Inductive Stop :=
| Return (r : Res unit)
| Fatal (msg : string) (e : gerr).

Definition Body (A : Type) : Type := Run -> Run * (A + Stop).
Definition b_ret {A} (a : A) : Body A := fun s => (s, inl a).
Definition b_stop {A} (st : Stop) : Body A := fun s => (s, inr st).
Definition b_bind {A B} (m : Body A) (k : A -> Body B) : Body B := fun s =>
  match m s with (s', inl a) => k a s' | (s', inr st) => (s', inr st) end.
Definition emit (ev : Ev) : Body unit := fun s => (mkRun (trace s ++ [ev])%list (defers s), inl tt).
Definition defer (h : Hd) : Body unit := fun s => (mkRun (trace s) (h :: defers s), inl tt).

(** [if err != nil { return fmt.Errorf(msg: %w, err) }] *)
Definition check_err {A} (msg : string) (r : Res A) : Body A :=
  match r with Ok a => b_ret a | Err e => b_stop (Return (Err (EWrap msg e))) end.
End Body.
Arguments Run : clear implicits. Arguments Body : clear implicits.

Notation "'run' x <- m ; k" := (b_bind m (fun x => k))
  (at level 10, x pattern, m at level 100, k at level 200).

(** ** runServer *)

Inductive Handle : Type :=
| HRaft (c : RaftConfig) (apiPeers : gmap string string) (secret : string)
| HSqlite (path : string)
| HRedis (addr password : string) (db : Z) (prefix : string)
| HPostgres (dsn : string)
| HLocalLocks
| HRedisLocks (addr password : string)
| HLocalFS (root : string)
| HS3 (c : BackendConfig)
| HProxy (peers : gmap string string) (secret : string) (skipTLSVerify : bool)
| HNoop
| HEngine.

Inductive Listener : Type :=
| Plain (addr : string)
| TLS (addr cert key : string)
| MetricsServer (addr : string)
| Quic (addr cert key : string).

Inductive Event : Type :=
| Opened (h : Handle)
| Closed (h : Handle)
| Migrated (dsn : string)
| ErasureManager (backend : Handle) (peers : gmap string string)
| EnsuredRoot
| CleanupWorker
| Serving (ls : list Listener)
| ShutDown (l : Listener).

(** What the constructors and the outside world answer. *)
Record Env := mkEnv {
  en_config : string -> Res AppConfig;
  en_logger : Res unit;
  en_open : Handle -> Res unit;
  en_migrate : string -> Res unit;
  en_leader : nat -> bool;       (* IsLeader at the n-th look *)
  en_now : nat -> Z;             (* the time of the n-th look *)
  en_ensureRoot : Res unit;
  en_linkManager : Res unit;
  en_wait : list Listener -> option gerr;   (* None: a signal; Some: the first server error *)
  en_shutdown : Listener -> Res unit;
}.

Section RunServer.
Context (env : Env).

Abbreviation B := (Body Event Handle).

(** [x, err := New(...); if err != nil { return ... }; defer x.Close()] *)
Definition openDeferred (msg : string) (h : Handle) : B Handle :=
  run _ <- check_err msg (en_open env h);
  run _ <- emit (Opened h);
  run _ <- defer h;
  b_ret h.

Definition raftHandle (cfg : AppConfig) : Handle :=
  let apiPeers := rf_APIPeerEndpoints (Raft cfg) in
  let apiPeers :=
    match apiPeers !! rf_NodeID (Raft cfg) with
    | Some _ => apiPeers
    | None => <[rf_NodeID (Raft cfg) := srv_ExternalURL (Server cfg)]> apiPeers
    end in
  HRaft (Raft cfg) apiPeers (auth_InternalProxySecret (Auth cfg)).

Definition openStore (cfg : AppConfig) : B Handle :=
  let metadataStoreType := ToLower (TrimSpace (ms_Type (MetadataStore cfg))) in
  let ms := MetadataStore cfg in
  if String.eqb metadataStoreType "raft" then openDeferred "failed to initialize raft metadata store" (raftHandle cfg)
  else if String.eqb metadataStoreType "sqlite" then
    openDeferred "failed to initialize sqlite metadata store" (HSqlite (ms_SQLitePath ms))
  else if String.eqb metadataStoreType "redis" then
    openDeferred "failed to initialize redis metadata store"
      (HRedis (ms_RedisAddr ms) (ms_RedisPassword ms) (ms_RedisDB ms) (ms_RedisKeyPrefix ms))
  else if String.eqb metadataStoreType "postgres" then
    run _ <- check_err "failed to run database migrations" (en_migrate env (ms_DSN ms));
    run _ <- emit (Migrated (ms_DSN ms));
    openDeferred "failed to initialize postgres metadata store" (HPostgres (ms_DSN ms))
  else b_stop (Return (Err (EMsg "unsupported metadata store type: %s"))).

Definition openLocks (cfg : AppConfig) : B Handle :=
  let dlmType := ToLower (TrimSpace (dlm_Type (DLM cfg))) in
  if String.eqb dlmType "local" then
    run _ <- emit (Opened HLocalLocks);
    run _ <- defer HLocalLocks;
    b_ret HLocalLocks
  else if String.eqb dlmType "redis" then
    openDeferred "failed to initialize redis lock manager" (HRedisLocks (dlm_RedisAddr (DLM cfg)) (dlm_RedisPassword (DLM cfg)))
  else b_stop (Return (Err (EMsg "unsupported dlm type: %s"))).

Definition openLocalFS (cfg : AppConfig) : B Handle :=
  if negb (String.eqb (be_LocalFSRootPath (Backend cfg)) "") then
    openDeferred "failed to initialize LocalFS backend" (HLocalFS (be_LocalFSRootPath (Backend cfg)))
  else b_ret HNoop.

Definition openS3 (cfg : AppConfig) : B Handle :=
  if negb (String.eqb (be_S3BucketName (Backend cfg)) "") then
    openDeferred "failed to initialize S3 backend" (HS3 (Backend cfg))
  else b_ret HNoop.

Definition openProxy (cfg : AppConfig) : B Handle :=
  let peers := id_PeerEndpoints (InstanceDiscovery cfg) in
  if (0 <? Z.of_nat (size peers))%Z then
    openDeferred "failed to initialize internal proxy backend"
      (HProxy peers (auth_InternalProxySecret (Auth cfg)) (be_InternalProxySkipTLSVerify (Backend cfg)))
  else b_ret HNoop.

(** The type assertion to ErasureMetadataStore: the four stores have its methods. *)
Definition implementsErasure (store : Handle) : bool :=
  match store with HRaft _ _ _ | HSqlite _ | HRedis _ _ _ _ | HPostgres _ => true | _ => false end.

Definition shardBackend (cfg : AppConfig) (localFS s3 : Handle) : Handle :=
  if String.eqb (ToLower (TrimSpace (er_ShardBackend (Erasure cfg)))) "s3" then s3 else localFS.

Definition erasurePeers (cfg : AppConfig) : gmap string string :=
  let peers := id_PeerEndpoints (InstanceDiscovery cfg) in
  if negb (String.eqb (srv_ExternalURL (Server cfg)) "") then
    <[id_InstanceID (InstanceDiscovery cfg) := srv_ExternalURL (Server cfg)]> peers
  else peers.

Definition startErasure (cfg : AppConfig) (store localFS s3 : Handle) : B unit :=
  if er_Enabled (Erasure cfg) then
    if implementsErasure store then emit (ErasureManager (shardBackend cfg localFS s3) (erasurePeers cfg))
    else b_stop (Return (Err (EMsg "metadata store type %s does not support erasure coding")))
  else b_ret tt.

(** The loop that waits for leadership: the number of the look after it. *)
Fixpoint waitLeader (fuel : nat) (deadline : Z) (n : nat) : option nat :=
  if negb (en_leader env n) && (en_now env n <? deadline)%Z then
    match fuel with O => None | S f => waitLeader f deadline (S n) end
  else Some (S n).

(** Enough looks for the eight seconds, at least 200 ms apart. *)
Definition waitFuel : nat := 40.

Definition ensureRootOrDie : B unit :=
  match en_ensureRoot env with
  | Err e => b_stop (Fatal "Failed to ensure root directory exists" e)
  | Ok _ => emit EnsuredRoot
  end.

Definition ensureRoot (cfg : AppConfig) (store : Handle) : B unit :=
  match store with
  | HRaft _ _ _ =>
      let n := if rf_Bootstrap (Raft cfg) then waitLeader waitFuel (en_now env 0 + 8 * Second) 0 else Some 0 in
      match n with
      | Some n => if en_leader env n then ensureRootOrDie else b_ret tt
      | None => b_ret tt
      end
  | _ => ensureRootOrDie
  end.

(** The server of the API, by the protocol. *)
Definition apiListener (s : ServerConfig) : Listener :=
  let protocol := ToLower (srv_Protocol s) in
  let protocol := if String.eqb protocol "" then "https" else protocol in
  if String.eqb protocol "http" then Plain (srv_ListenAddr s)
  else if String.eqb protocol "auto" then
    if negb (String.eqb (srv_CertFile s) "") && negb (String.eqb (srv_KeyFile s) "")
    then TLS (srv_ListenAddr s) (srv_CertFile s) (srv_KeyFile s)
    else Plain (srv_ListenAddr s)
  else TLS (srv_ListenAddr s) (srv_CertFile s) (srv_KeyFile s).

Definition metricsListener (cfg : AppConfig) : option Listener :=
  if negb (String.eqb (met_ListenAddr (Metrics cfg)) "") then Some (MetricsServer (met_ListenAddr (Metrics cfg))) else None.

Definition quicListener (cfg : AppConfig) : option Listener :=
  if srv_EnableQUIC (Server cfg) then
    Some (Quic (srv_QUICListenAddr (Server cfg)) (srv_CertFile (Server cfg)) (srv_KeyFile (Server cfg)))
  else None.

(** The servers that are started, in their order. *)
Definition listenersOf (cfg : AppConfig) : list Listener :=
  (option_list (metricsListener cfg) ++ option_list (quicListener cfg) ++ [apiListener (Server cfg)])%list.

(** Shut a server down if there is one: its error. *)
Definition shutDown (l : option Listener) : B (option gerr) :=
  match l with
  | None => b_ret None
  | Some l =>
      run _ <- emit (ShutDown l);
      b_ret (match en_shutdown env l with Err e => Some e | Ok _ => None end)
  end.

Definition serve (cfg : AppConfig) : B unit :=
  let api := apiListener (Server cfg) in
  let metrics := metricsListener cfg in
  let quic := quicListener cfg in
  let listeners := listenersOf cfg in
  run _ <- emit (Serving listeners);
  match en_wait env listeners with
  | Some err => b_stop (Return (Err err))
  | None =>
      run apiErr <- shutDown (Some api);
      match apiErr with
      | Some err => b_stop (Return (Err err))
      | None =>
          run metricsErr <- shutDown metrics;
          run quicErr <- shutDown quic;
          b_stop (Return (match metricsErr, quicErr with
                          | Some err, _ => Err err
                          | None, Some err => Err err
                          | None, None => Ok tt
                          end))
      end
  end.

Definition runServerBody (configFilePath : string) : B unit :=
  run cfg <- check_err "failed to load configuration" (en_config env configFilePath);
  run _ <- check_err "failed to initialize logger" (en_logger env);
  run store <- openStore cfg;
  run _ <- openLocks cfg;
  run localFS <- openLocalFS cfg;
  run s3 <- openS3 cfg;
  run _ <- openProxy cfg;
  run _ <- emit (Opened HEngine);
  run _ <- defer HEngine;
  run _ <- startErasure cfg store localFS s3;
  run _ <- ensureRoot cfg store;
  run _ <- check_err "failed to initialize link manager" (en_linkManager env);
  run _ <- emit CleanupWorker;
  serve cfg.

(** The deferred calls run on a return, in the reverse order of the defers, and
    not on a fatal exit. *)
Definition runServer (configFilePath : string) : list Event * Stop :=
  match runServerBody configFilePath (mkRun [] []) with
  | (s, inl _) => ((trace s ++ map Closed (defers s))%list, Return (Ok tt))
  | (s, inr (Return r)) => ((trace s ++ map Closed (defers s))%list, Return r)
  | (s, inr (Fatal msg e)) => (trace s, Fatal msg e)
  end.

End RunServer.

(** ** NewRaftStore and Close of metadata/raft *)
Section RaftSetup.

Record RaftStoreConfig := mkRaftStoreConfig {
  rs_NodeID : string; rs_BindAddr : string; rs_DataDir : string; rs_Bootstrap : bool;
  rs_Peers : gmap string string; rs_APIPeerEndpoints : gmap string string;
  rs_ApplyTimeout : Z; rs_ForwardTimeout : Z; rs_SnapshotInterval : Z; rs_SnapshotThreshold : Z;
  rs_RetainSnapshotCount : Z; rs_InternalAuthToken : string;
}.

Inductive RaftPart :=
| LogStore (path : string)
| StableStore (path : string)
| SnapshotStore (dir : string) (retain : Z)
| Transport (addr : string)
| RaftNode (localID : string) (snapshotInterval snapshotThreshold : Z).

Inductive RaftEvent :=
| MadeDir (dir : string)
| PartOpened (p : RaftPart)
| PartClosed (p : RaftPart)
| Bootstrapped (id addr : string).

(** [BootstrapCluster] fails with ErrCantBootstrap on a node that has state. *)
Inductive BootstrapResult := Bootstraps | CantBootstrap | BootstrapError (e : gerr).

Record RaftEnv := mkRaftEnv {
  ra_mkdir : string -> Res unit;
  ra_open : RaftPart -> Res unit;
  ra_bootstrap : BootstrapResult;
  ra_shutdown : Res unit;
  ra_close : RaftPart -> Res unit;
}.

Context (env : RaftEnv).
Abbreviation RB := (Body RaftEvent Empty_set).

Definition orDefault (t d : Z) : Z := if (t <=? 0)%Z then d else t.

Definition withDefaults (cfg : RaftStoreConfig) : RaftStoreConfig :=
  mkRaftStoreConfig (rs_NodeID cfg) (rs_BindAddr cfg) (rs_DataDir cfg) (rs_Bootstrap cfg)
    (rs_Peers cfg) (rs_APIPeerEndpoints cfg) (orDefault (rs_ApplyTimeout cfg) (10 * Second)) (orDefault (rs_ForwardTimeout cfg) (10 * Second))
    (orDefault (rs_SnapshotInterval cfg) (60 * Second))
    (if (rs_SnapshotThreshold cfg =? 0)%Z then 256 else rs_SnapshotThreshold cfg)
    (orDefault (rs_RetainSnapshotCount cfg) 2) (rs_InternalAuthToken cfg).

Definition logStore (cfg : RaftStoreConfig) : RaftPart := LogStore (filepath_Join (rs_DataDir cfg) "raft-log.db").
Definition stableStore (cfg : RaftStoreConfig) : RaftPart := StableStore (filepath_Join (rs_DataDir cfg) "raft-stable.db").

Definition openPart (msg : string) (p : RaftPart) : RB unit :=
  run _ <- check_err msg (ra_open env p);
  emit (PartOpened p).

Definition bootstrap (cfg : RaftStoreConfig) : RB unit :=
  if rs_Bootstrap cfg then
    match ra_bootstrap env with
    | Bootstraps => emit (Bootstrapped (rs_NodeID cfg) (rs_BindAddr cfg))
    | CantBootstrap => b_ret tt
    | BootstrapError e => b_stop (Return (Err (EWrap "failed to bootstrap raft cluster" e)))
    end
  else b_ret tt.

Definition require {A} (s msg : string) (k : RB A) : RB A :=
  if String.eqb s "" then b_stop (Return (Err (EMsg msg))) else k.

Definition NewRaftStore (cfg : RaftStoreConfig) : RB RaftStoreConfig :=
  require (rs_NodeID cfg) "raft node id is required" (
  require (rs_BindAddr cfg) "raft bind address is required" (
  require (rs_DataDir cfg) "raft data_dir is required" (
    let cfg := withDefaults cfg in
    run _ <- check_err "failed to create raft data dir" (ra_mkdir env (rs_DataDir cfg));
    run _ <- emit (MadeDir (rs_DataDir cfg));
    run _ <- openPart "failed to create raft log store" (logStore cfg);
    run _ <- openPart "failed to create raft stable store" (stableStore cfg);
    run _ <- openPart "failed to create raft snapshot store" (SnapshotStore (rs_DataDir cfg) (rs_RetainSnapshotCount cfg));
    run _ <- openPart "failed to create raft transport" (Transport (rs_BindAddr cfg));
    run _ <- openPart "failed to create raft node"
               (RaftNode (rs_NodeID cfg) (rs_SnapshotInterval cfg) (rs_SnapshotThreshold cfg));
    run _ <- bootstrap cfg;
    b_ret cfg))).

(** [Close]: the error of the shutdown, or the first of the stores. *)
Definition closePart (msg : string) (p : RaftPart) (firstErr : option gerr) : RB (option gerr) :=
  run _ <- emit (PartClosed p);
  b_ret (match ra_close env p, firstErr with
         | Err e, None => Some (EWrap msg e)
         | _, _ => firstErr
         end).

Definition Close (cfg : RaftStoreConfig) : RB (option gerr) :=
  match ra_shutdown env with
  | Err e => b_ret (Some (EWrap "failed to shutdown raft" e))
  | Ok _ =>
      run _ <- emit (PartClosed (RaftNode (rs_NodeID cfg) (rs_SnapshotInterval cfg) (rs_SnapshotThreshold cfg)));
      run firstErr <- closePart "failed to close raft log store" (logStore cfg) None;
      closePart "failed to close raft stable store" (stableStore cfg) firstErr
  end.

End RaftSetup.

(** ** Joining a cluster *)

Record JoinRequest := mkJoinRequest { jr_NodeID : string; jr_RaftAddr : string; jr_APIEndpoint : string }.
Record JoinResponse := mkJoinResponse { jp_Status : string; jp_LeaderID : string; jp_Error : string }.

(** The flags of the command. *)
Record JoinFlags := mkJoinFlags {
  fl_leader : string; fl_nodeID : string; fl_raftAddr : string; fl_apiEndpoint : string; fl_secret : string;
}.

(** A flag that is blank is taken from the configuration, if that loads. *)
Definition orConfig (flag : string) (fromConfig : option string) : string :=
  TrimSpace (match fromConfig with
             | Some c => if String.eqb (TrimSpace flag) "" then TrimSpace c else flag
             | None => flag
             end).

Definition joinRequest (cfg : Res AppConfig) (fl : JoinFlags) : Res (JoinRequest * string) :=
  let from f := match cfg with Ok c => Some (f c) | Err _ => None end in
  let nodeID := orConfig (fl_nodeID fl) (from (fun c => rf_NodeID (Raft c))) in
  let raftAddr := orConfig (fl_raftAddr fl) (from (fun c => rf_BindAddr (Raft c))) in
  let apiEndpoint := orConfig (fl_apiEndpoint fl) (from (fun c => srv_ExternalURL (Server c))) in
  let secret := orConfig (fl_secret fl) (from (fun c => auth_InternalProxySecret (Auth c))) in
  if String.eqb nodeID "" then Err (EMsg "node id is required (use --node-id or set raft.node_id in config)")
  else if String.eqb raftAddr "" then Err (EMsg "raft address is required (use --raft-addr or set raft.bind_addr in config)")
  else if String.eqb apiEndpoint "" then Err (EMsg "api endpoint is required (use --api-endpoint or set server.external_url in config)")
  else if String.eqb secret "" then Err (EMsg "internal secret is required (use --internal-secret or set auth.internal_proxy_secret in config)")
  else Ok (mkJoinRequest nodeID raftAddr apiEndpoint, secret).

(** [post url authorization request]: the status and the decoded response, if
    the body decodes. *)
Definition runClusterJoin {W} (post : string -> string -> JoinRequest -> St W (Res (Z * option JoinResponse)))
    (cfg : Res AppConfig) (fl : JoinFlags) : St W (Res unit) := fun w =>
  match joinRequest cfg fl with
  | Err e => (w, Err e)
  | Ok (payload, secret) =>
      let url := TrimRight (fl_leader fl) "/" +:+ "/v1/internal/raft/join" in
      match post url ("Bearer " +:+ secret) payload w with
      | (w, Err e) => (w, Err (EWrap "failed to contact leader" e))
      | (w, Ok (_, None)) => (w, Err (EMsg "failed to decode join response: %w"))
      | (w, Ok (status, Some out)) =>
          if negb (status =? 200)%Z then
            if negb (String.eqb (jp_Error out) "") then (w, Err (EMsg "join failed: %s"))
            else (w, Err (EMsg "join failed with status %d"))
          else (w, Ok tt)
      end
  end.

Section JoinEndpoint.
Context {W : Type} (lib : RaftNode.RaftLib W) (nenv : RaftNode.NodeEnv W).

(** The handler of /v1/internal/raft/join; [decoded] is the decoded body, none
    when it does not decode. *)
Definition joinEndpoint (internalProxySecret method authorization : string) (decoded : option JoinRequest)
    (ctxErr : option gerr) : St W (Z * option JoinResponse) := fun w =>
  if negb (String.eqb method "POST") then (w, (405%Z, None))
  else if negb (String.eqb (RaftNode.bearerSecret authorization) internalProxySecret) then
    (w, (401%Z, Some (mkJoinResponse "error" "" "unauthorized")))
  else if negb (RaftNode.raft_IsLeader lib w) then
    (w, (502%Z, Some (mkJoinResponse "error" (RaftNode.raft_LeaderID lib w) "not leader")))
  else
    match decoded with
    | None => (w, (400%Z, Some (mkJoinResponse "error" "" "invalid request: %v")))
    | Some req =>
        match RaftNode.AddVoter lib nenv ctxErr (jr_NodeID req) (jr_RaftAddr req) (jr_APIEndpoint req) w with
        | (w, Err e) =>
            let status := if Contains (ToLower (errorText e)) "required" then 400%Z else 502%Z in
            (w, (status, Some (mkJoinResponse "error" (RaftNode.raft_LeaderID lib w) (errorText e))))
        | (w, Ok _) => (w, (200%Z, Some (mkJoinResponse "joined" (RaftNode.raft_LeaderID lib w) "")))
        end
    end.
End JoinEndpoint.

(** ** Small functions *)

(** [dsn[:10] + "***" + dsn[len(dsn)-7:]] for a long enough text. *)
Definition maskDSN (dsn : string) : string :=
  if String.eqb dsn "" then ""
  else if (20 <? Z.of_nat (String.length dsn))%Z then
    slice_to dsn 10 +:+ "***" +:+ slice_from dsn (Z.of_nat (String.length dsn) - 7)
  else "***".

Inductive LogLevel := DebugLevel | InfoLevel | WarnLevel | ErrorLevel.

(** The preset (production for json) and the level of the logger. *)
Definition initializeLogger (logCfg : LogConfig) : bool * LogLevel :=
  (String.eqb (log_Format logCfg) "json",
   if String.eqb (log_Level logCfg) "debug" then DebugLevel
   else if String.eqb (log_Level logCfg) "info" then InfoLevel
   else if String.eqb (log_Level logCfg) "warn" then WarnLevel
   else if String.eqb (log_Level logCfg) "error" then ErrorLevel
   else InfoLevel).

(** The command [config validate]: the lines it prints and its error. *)
Definition validateCommand (loaded : Res AppConfig) : list string * Res unit :=
  match loaded with
  | Err e => (["Validating configuration..."; "Configuration validation failed: " +:+ errorText e], Err e)
  | Ok cfg =>
      ((["Validating configuration..."; "Configuration is valid";
         "Instance ID: " +:+ id_InstanceID (InstanceDiscovery cfg);
         "Listen Address: " +:+ srv_ListenAddr (Server cfg);
         "Metadata Store DSN: " +:+ maskDSN (ms_DSN (MetadataStore cfg));
         "Redis Address: " +:+ dlm_RedisAddr (DLM cfg);
         "Local FS Root: " +:+ be_LocalFSRootPath (Backend cfg)] ++
        (if negb (String.eqb (be_S3BucketName (Backend cfg)) "") then
           ["S3 Bucket: " +:+ be_S3BucketName (Backend cfg); "S3 Region: " +:+ be_S3Region (Backend cfg)] else []))%list,
       Ok tt)
  end.

(** The method switch of the shard endpoint: which handler a request goes to. *)
Inductive ShardRoute := StoreShard | GetShard | DeleteShard | MethodNotAllowed.
Definition shardRoute (method : string) : ShardRoute :=
  if String.eqb method "PUT" then StoreShard
  else if String.eqb method "GET" then GetShard
  else if String.eqb method "DELETE" then DeleteShard
  else MethodNotAllowed.

End Startup.
