(* ===== verification/RateLimit.v ===== *)
(** * Rate limiting, client addresses and security headers: server/middleware

    [perIPRateLimiter] keeps a limiter per client address in a bounded table
    that forgets idle clients.  The limiters are those of golang.org/x/time/rate,
    a parameter with its documented behaviour.  The order in which Go walks over
    a map is a parameter too. *)
From S2P Require Import Prelude GoStrings Metadata.
From Stdlib Require Import Ascii String.
Open Scope string_scope.
Open Scope bool_scope.

Module RateLimit.

(** ** net.SplitHostPort *)

Definition SplitHostPort (hostport : string) : Res (string * string) :=
  let fail msg := Err (EMsg msg) in
  let i := LastIndex hostport ":" in
  if (i <? 0)%Z then fail "missing port in address"
  else
    let ports host j k :=
      if (0 <=? IndexByte (slice_from hostport j) "[")%Z then fail "unexpected '[' in address"
      else if (0 <=? IndexByte (slice_from hostport k) "]")%Z then fail "unexpected ']' in address"
      else Ok (host, slice_from hostport (i + 1)) in
    if HasPrefix hostport "[" then
      let e := IndexByte hostport "]" in
      if (e <? 0)%Z then fail "missing ']' in address"
      else if (e + 1 =? Z.of_nat (String.length hostport))%Z then fail "missing port in address"
      else if (e + 1 =? i)%Z then ports (slice_from (slice_to hostport e) 1) 1%Z (e + 1)%Z
      else if HasPrefix (slice_from hostport (e + 1)) ":" then fail "too many colons in address"
      else fail "missing port in address"
    else
      let host := slice_to hostport i in
      if (0 <=? IndexByte host ":")%Z then fail "too many colons in address"
      else ports host 0%Z 0%Z.

(** The address that the rate limiter goes by. *)
Definition clientKey (remoteAddr : string) : string :=
  let ip := match SplitHostPort remoteAddr with Ok (host, _) => host | Err _ => "" end in
  if String.eqb ip "" then remoteAddr else ip.

(** [getUserIP] of the link handlers. *)
Definition getUserIP (remoteAddr : string) : string :=
  match SplitHostPort remoteAddr with Err _ => remoteAddr | Ok (ip, _) => ip end.

(** ** The table of limiters *)

Definition rateLimiterEntryTTL : Z := 600000000000.
Definition rateLimiterMaxEntries : Z := 100000.

Section Table.
Context {L : Type}.

Record limiterEntry := mkEntry { limiter : L; lastSeen : Time }.

(** The limit and the burst of new limiters are in the limiter that is made. *)
Record perIPRateLimiter := mkPerIP { limiters : gmap string limiterEntry; fresh : L }.

Definition newPerIPRateLimiter (l : L) : perIPRateLimiter := mkPerIP ∅ l.

Context (Allow : Time -> L -> L * bool).
Context (walk : gmap string limiterEntry -> list (string * limiterEntry)).

(** The loop of [evictOldest]: the oldest entry so far. *)
Fixpoint oldest (entries : list (string * limiterEntry)) (acc : option (string * Time)) : option (string * Time) :=
  match entries with
  | [] => acc
  | (ip, entry) :: rest =>
      match acc with
      | None => oldest rest (Some (ip, lastSeen entry))
      | Some (_, oldestTime) =>
          if Before (lastSeen entry) oldestTime then oldest rest (Some (ip, lastSeen entry)) else oldest rest acc
      end
  end.

Definition evictOldest (p : perIPRateLimiter) : perIPRateLimiter :=
  match oldest (walk (limiters p)) None with
  | Some (oldestIP, _) => mkPerIP (delete oldestIP (limiters p)) (fresh p)
  | None => p
  end.

Definition getLimiter (now : Time) (ip : string) (p : perIPRateLimiter) : perIPRateLimiter * L :=
  match limiters p !! ip with
  | Some entry => (mkPerIP (<[ip := mkEntry (limiter entry) now]> (limiters p)) (fresh p), limiter entry)
  | None =>
      let p := if (rateLimiterMaxEntries <=? Z.of_nat (size (limiters p)))%Z then evictOldest p else p in
      (mkPerIP (<[ip := mkEntry (fresh p) now]> (limiters p)) (fresh p), fresh p)
  end.

(** The limiter is shared with the table: what [Allow] does to it is seen there. *)
Definition setLimiter (ip : string) (l : L) (p : perIPRateLimiter) : perIPRateLimiter :=
  match limiters p !! ip with
  | Some entry => mkPerIP (<[ip := mkEntry l (lastSeen entry)]> (limiters p)) (fresh p)
  | None => p
  end.

(** The clock is read by [getLimiter] and again by [Allow].  The result tells
    whether the request goes on to the next handler, else it is answered 429. *)
Definition V1RateLimitMiddleware (now now' : Time) (remoteAddr : string) (p : perIPRateLimiter)
  : perIPRateLimiter * bool :=
  let ip := clientKey remoteAddr in
  let '(p, l) := getLimiter now ip p in
  let '(l, allowed) := Allow now' l in
  (setLimiter ip l p, allowed).

(** One round of the clean-up loop. *)
Definition cleanup (now : Time) (p : perIPRateLimiter) : perIPRateLimiter :=
  let cutoff := (now - rateLimiterEntryTTL)%Z in
  mkPerIP (filter (fun kv => Before (lastSeen kv.2) cutoff = false) (limiters p)) (fresh p).

(** A history: requests (the two times and the address) and clean-ups. *)
Inductive act : Type :=
| Request (now now' : Time) (remoteAddr : string)
| Cleanup (now : Time).

Definition step (a : act) (p : perIPRateLimiter) : perIPRateLimiter * option bool :=
  match a with
  | Request now now' addr => let '(p, ok) := V1RateLimitMiddleware now now' addr p in (p, Some ok)
  | Cleanup now => (cleanup now p, None)
  end.

Fixpoint steps (acts : list act) (p : perIPRateLimiter) : perIPRateLimiter * list bool :=
  match acts with
  | [] => (p, [])
  | a :: rest =>
      let '(p, r) := step a p in
      let '(p, rs) := steps rest p in
      (p, (option_list r ++ rs)%list)
  end.
End Table.

(** ** The security headers *)

Definition V1SecurityHeaders (tls : bool) : list (string * string) :=
  ([("Content-Security-Policy",
     "default-src 'self'; script-src 'self'; style-src 'self'; img-src 'self' data:; object-src 'none'; base-uri 'self'; form-action 'self'")] ++
   (if tls then [("Strict-Transport-Security", "max-age=31536000; includeSubDomains; preload")] else []) ++
   [("X-Content-Type-Options", "nosniff"); ("X-Frame-Options", "DENY");
    ("Referrer-Policy", "strict-origin-when-cross-origin");
    ("Permissions-Policy", "geolocation=(), microphone=(), camera=(), payment=(), usb=(), magnetometer=(), gyroscope=(), accelerometer=()");
    ("Cross-Origin-Opener-Policy", "same-origin"); ("Cross-Origin-Embedder-Policy", "require-corp")])%list.

End RateLimit.
