(* ===== verification/RateLimitSpec.v ===== *)
(** * What the rate limiter promises

    The table is bounded and gives up the client seen least recently; as long as
    it is not full, a client is treated as if it had a limiter of its own for
    ever, although the table forgets it when it is idle. *)
From S2P Require Import Prelude GoStrings Metadata RateLimit.
From Stdlib Require Import Ascii String.
Import RateLimit.
Open Scope string_scope.
Open Scope bool_scope.

Module RateLimitSpec.

(** The documented behaviour of a limiter, from the time on: [alike t l l']
    says that no request from [t] on can tell [l] from [l'].  A limiter that was
    not used for the time it takes to refill is like a new one. *)
Class LimiterLaws {L} (Allow : Time -> L -> L * bool) (new : L) (refill : Z) (alike : Time -> L -> L -> Prop) : Prop := {
  alike_equiv : forall t, Equivalence (alike t);
  alike_later : forall t t' l l', (t <= t')%Z -> alike t l l' -> alike t' l l';
  alike_Allow : forall t now l l', (t <= now)%Z -> alike t l l' ->
    (Allow now l).2 = (Allow now l').2 /\ alike now (Allow now l).1 (Allow now l').1;
  alike_idle : forall now t l, (now + refill <= t)%Z -> alike t (Allow now l).1 new;
}.

Section Spec.
Context {L : Type} (Allow : Time -> L -> L * bool) (new : L).
Context (walk : gmap string (@limiterEntry L) -> list (string * @limiterEntry L)).
Context (walk_all : forall m, walk m ≡ₚ map_to_list m).

Abbreviation table := (@perIPRateLimiter L).

(** ** Eviction *)

Lemma oldest_min (entries : list (string * @limiterEntry L)) acc ip t :
  oldest entries acc = Some (ip, t) ->
  (acc = Some (ip, t) \/ exists e, In (ip, e) entries /\ lastSeen e = t) /\
  (forall ip' e, In (ip', e) entries -> (t <= lastSeen e)%Z) /\
  (forall ip' t', acc = Some (ip', t') -> (t <= t')%Z).
Proof.
  revert acc. induction entries as [| [ip1 e1] entries IH]; intros acc; cbn [oldest].
  { intros ->. split; [by left |]. split; [done |]. by intros ? ? [= <- <-]. }
  assert (Hstep : forall acc', (acc' = Some (ip1, lastSeen e1) \/ acc' = acc) ->
     (forall ip' t', acc = Some (ip', t') -> exists ip2 t2, acc' = Some (ip2, t2) /\ (t2 <= t')%Z) ->
     (exists ip2 t2, acc' = Some (ip2, t2) /\ (t2 <= lastSeen e1)%Z) ->
     oldest entries acc' = Some (ip, t) ->
     (acc = Some (ip, t) \/ exists e, In (ip, e) ((ip1, e1) :: entries) /\ lastSeen e = t) /\
     (forall ip' e, In (ip', e) ((ip1, e1) :: entries) -> (t <= lastSeen e)%Z) /\
     (forall ip' t', acc = Some (ip', t') -> (t <= t')%Z)).
  { intros acc' Hor Hle (ip2 & t2 & Ea & Hle1) H. apply IH in H as (H1 & H2 & H3). split; [| split].
    - destruct H1 as [H1 | (e & He & Ht)]; [| right; exists e; split; [by right | done]].
      destruct Hor as [-> | ->]; [| by left]. injection H1 as <- <-. right. exists e1. split; [by left | done].
    - intros ip' e [[= <- <-] | Hin]; [| by eapply H2]. specialize (H3 _ _ Ea). lia.
    - intros ip' t' Ht'. destruct (Hle _ _ Ht') as (ip3 & t3 & E3 & Hle3). specialize (H3 _ _ E3). lia. }
  destruct acc as [[ip0 t0] |].
  - unfold Before. destruct (Z.ltb_spec (lastSeen e1) t0); apply Hstep; try (by left); try (by right).
    + intros ? ? [= <- <-]. eexists _, _. split; [done | lia].
    + eexists _, _. split; [done | lia].
    + intros ? ? [= <- <-]. eexists _, _. split; [done | lia].
    + eexists _, _. split; [done | lia].
  - apply Hstep; [by left | done |]. eexists _, _. split; [done | lia].
Qed.

Lemma oldest_some (entries : list (string * @limiterEntry L)) acc : (acc <> None \/ entries <> []) -> exists r, oldest entries acc = Some r.
Proof.
  revert acc. induction entries as [| [ip e] entries IH]; intros acc H; cbn [oldest].
  { destruct acc as [r |]; [by exists r | by destruct H]. }
  destruct acc as [[ip0 t0] |]; [destruct (Before _ _) |]; apply IH; by left.
Qed.

Lemma evictOldest_spec (p : table) : limiters p <> ∅ ->
  exists ip e, limiters p !! ip = Some e /\ limiters (evictOldest walk p) = delete ip (limiters p) /\
    fresh (evictOldest walk p) = fresh p /\
    forall ip' e', limiters p !! ip' = Some e' -> (lastSeen e <= lastSeen e')%Z.
Proof.
  intros Hne. unfold evictOldest.
  assert (Hin : forall x, In x (walk (limiters p)) <-> limiters p !! x.1 = Some x.2).
  { intros [k v]. rewrite <- list_elem_of_In, (walk_all (limiters p)). apply elem_of_map_to_list. }
  destruct (oldest_some (walk (limiters p)) None) as ([ip t] & E).
  { right. intros Hw. apply Hne. apply map_to_list_empty_iff. apply Permutation_nil. by rewrite <- Hw, walk_all. }
  rewrite E. apply oldest_min in E as ([? | (e & He & <-)] & Hmin & _); [done |]. exists ip, e.
  split; [by apply (Hin (ip, e)) |]. split; [done |]. split; [done |]. intros ip' e' H'. apply (Hmin ip'). by apply Hin.
Qed.

(** ** Sizes *)

Definition bounded (p : table) : Prop := (Z.of_nat (size (limiters p)) <= rateLimiterMaxEntries)%Z.

Lemma rl_size_insert_le (m : gmap string (@limiterEntry L)) k e : size (<[k := e]> m) <= S (size m).
Proof. destruct (m !! k) eqn:E; [rewrite (map_size_insert_Some _ _ _ (mk_is_Some _ _ E)) | rewrite map_size_insert_None by done]; lia. Qed.

Lemma getLimiter_bounded now ip p : bounded p -> bounded (getLimiter walk now ip p).1.
Proof.
  unfold bounded, getLimiter. intros Hb. destruct (limiters p !! ip) as [e |] eqn:E; cbn [fst limiters].
  { rewrite (map_size_insert_Some _ _ _ (mk_is_Some _ _ E)). lia. }
  destruct (Z.leb_spec rateLimiterMaxEntries (Z.of_nat (size (limiters p)))) as [Hfull | Hroom].
  - assert (Hne : limiters p <> ∅) by (intros H0; rewrite H0, map_size_empty in Hfull; unfold rateLimiterMaxEntries in Hfull; lia).
    destruct (evictOldest_spec p Hne) as (old & eo & Ho & -> & _).
    pose proof (rl_size_insert_le (delete old (limiters p)) ip (mkEntry (fresh (evictOldest walk p)) now)) as Hs.
    rewrite (map_size_delete_Some _ _ (mk_is_Some _ _ Ho)) in Hs.
    assert (size (limiters p) <> 0) by (intros H0; by apply map_size_empty_iff in H0). lia.
  - pose proof (rl_size_insert_le (limiters p) ip (mkEntry (fresh p) now)). lia.
Qed.

Lemma setLimiter_size ip l (p : table) : size (limiters (setLimiter ip l p)) = size (limiters p).
Proof.
  unfold setLimiter. destruct (limiters p !! ip) as [e |] eqn:E; [| done]. cbn.
  by rewrite (map_size_insert_Some _ _ _ (mk_is_Some _ _ E)).
Qed.

Lemma rl_step_bounded a p : bounded p -> bounded (step Allow walk a p).1.
Proof.
  intros Hb. destruct a as [now now' addr | now]; cbn [step].
  - unfold V1RateLimitMiddleware. pose proof (getLimiter_bounded now (clientKey addr) p Hb) as H.
    destruct (getLimiter walk now (clientKey addr) p) as [p1 l]. destruct (Allow now' l) as [l' ok]. cbn in *.
    unfold bounded. by rewrite setLimiter_size.
  - unfold bounded, cleanup in *. cbn. etrans; [| exact Hb]. apply Nat2Z.inj_le, map_subseteq_size, map_filter_subseteq.
Qed.

(** C38: The table never holds more clients than its bound, whatever requests and
    clean-ups come; when a new client meets a full table, it takes the place of one
    that was seen no later than any other, and no other client is forgotten. *)
Theorem ratelimit_table_bounded acts :
  (Z.of_nat (size (limiters (steps Allow walk acts (newPerIPRateLimiter new)).1)) <= rateLimiterMaxEntries)%Z /\
  forall now ip (p : table), limiters p !! ip = None -> (rateLimiterMaxEntries <= Z.of_nat (size (limiters p)))%Z ->
    exists old e, limiters p !! old = Some e /\
      (forall ip' e', limiters p !! ip' = Some e' -> (lastSeen e <= lastSeen e')%Z) /\
      forall ip', ip' <> old -> ip' <> ip -> limiters (getLimiter walk now ip p).1 !! ip' = limiters p !! ip'.
Proof.
  split.
  - assert (H : forall acts p, bounded p -> bounded (steps Allow walk acts p).1).
    { clear acts. induction acts as [| a acts IH]; intros p Hb; [done |]. cbn [steps].
      pose proof (rl_step_bounded a p Hb) as H. destruct (step Allow walk a p) as [p1 r]. specialize (IH p1 H).
      by destruct (steps Allow walk acts p1). }
    apply H. unfold bounded. cbn. rewrite map_size_empty. unfold rateLimiterMaxEntries. lia.
  - intros now ip p Hn Hfull. unfold getLimiter. rewrite Hn.
    destruct (Z.leb_spec rateLimiterMaxEntries (Z.of_nat (size (limiters p)))); [| lia].
    assert (Hne : limiters p <> ∅) by (intros H0; rewrite H0, map_size_empty in Hfull; unfold rateLimiterMaxEntries in Hfull; lia).
    destruct (evictOldest_spec p Hne) as (old & e & Ho & Hl & _ & Hmin). exists old, e. split; [done |]. split; [done |].
    intros ip' H1 H2. cbn [fst limiters]. rewrite lookup_insert_ne, Hl, lookup_delete_ne by done. done.
Qed.

(** ** The table against a limiter of one's own *)

(** Every client has its own limiter, and nothing is ever forgotten. *)
Definition ownStep (a : act) (own : string -> L) : (string -> L) * option bool :=
  match a with
  | Request _ now' addr =>
      let ip := clientKey addr in
      let '(l, ok) := Allow now' (own ip) in
      (fun k => if String.eqb k ip then l else own k, Some ok)
  | Cleanup _ => (own, None)
  end.

Fixpoint ownSteps (acts : list act) (own : string -> L) : list bool :=
  match acts with
  | [] => []
  | a :: rest => let '(own, r) := ownStep a own in (option_list r ++ ownSteps rest own)%list
  end.

Context (refill slack : Z) (alike : Time -> L -> L -> Prop) `{HL : !LimiterLaws Allow new refill alike}.
Context (Hrefill : (refill + slack <= rateLimiterEntryTTL)%Z).

(** Times do not go back, and the two readings of a request are close. *)
Fixpoint timed (t : Time) (acts : list act) : Prop :=
  match acts with
  | [] => True
  | Request now now' _ :: rest => (t <= now /\ now <= now' <= now + slack)%Z /\ timed now' rest
  | Cleanup now :: rest => (t <= now)%Z /\ timed now rest
  end.

Fixpoint clients (acts : list act) : gset string :=
  match acts with
  | [] => ∅
  | Request _ _ addr :: rest => {[ clientKey addr ]} ∪ clients rest
  | Cleanup _ :: rest => clients rest
  end.

(** The table knows a client as its own limiter does, or not at all and the
    limiter is like a new one. *)
Record agrees (S : gset string) (t : Time) (p : table) (own : string -> L) : Prop := mkAgrees {
  ag_fresh : fresh p = new;
  ag_dom : dom (limiters p) ⊆ S;
  ag_known : forall ip e, limiters p !! ip = Some e -> alike t (limiter e) (own ip);
  ag_used : forall ip e, limiters p !! ip = Some e -> exists a l, limiter e = (Allow a l).1 /\ (a <= lastSeen e + slack)%Z;
  ag_unknown : forall ip, limiters p !! ip = None -> alike t new (own ip);
}.

#[local] Instance alike_Equivalence t : Equivalence (alike t) := alike_equiv t.

Lemma no_eviction S t p own ip :
  agrees S t p own -> ip ∈ S -> (Z.of_nat (size S) <= rateLimiterMaxEntries)%Z -> limiters p !! ip = None ->
  (Z.of_nat (size (limiters p)) < rateLimiterMaxEntries)%Z.
Proof.
  intros [_ Hd _ _ _] Hip HS Hn.
  assert (Hsub : {[ ip ]} ∪ dom (limiters p) ⊆ S) by set_solver. apply subseteq_size in Hsub.
  rewrite size_union, size_singleton, size_dom in Hsub; [lia |].
  apply disjoint_singleton_l. by apply not_elem_of_dom.
Qed.

Lemma request_agrees S t p own now now' addr :
  agrees S t p own -> clientKey addr ∈ S -> (Z.of_nat (size S) <= rateLimiterMaxEntries)%Z ->
  (t <= now)%Z -> (now <= now' <= now + slack)%Z ->
  (step Allow walk (Request now now' addr) p).2 = (ownStep (Request now now' addr) own).2 /\
  agrees S now' (step Allow walk (Request now now' addr) p).1 (ownStep (Request now now' addr) own).1.
Proof.
  intros Ha Hip HS Ht Hn. pose proof Ha as [Hf Hd Hk Hu Hx]. cbn [step ownStep]. set (ip := clientKey addr) in *.
  unfold V1RateLimitMiddleware. fold ip.
  assert (Hget : exists l, getLimiter walk now ip p = (mkPerIP (<[ip := mkEntry l now]> (limiters p)) new, l) /\ alike t l (own ip)).
  { unfold getLimiter. destruct (limiters p !! ip) as [e |] eqn:E.
    - exists (limiter e). rewrite Hf. split; [done | by apply Hk].
    - pose proof (no_eviction S t p own ip Ha Hip HS E). destruct (Z.leb_spec rateLimiterMaxEntries (Z.of_nat (size (limiters p)))); [lia |].
      exists new. rewrite Hf. split; [done | by apply Hx]. }
  destruct Hget as (l & -> & Hl). destruct (alike_Allow t now' l (own ip)) as [Hr Hal]; [lia | done |].
  destruct (Allow now' l) as [l1 ok1] eqn:E1, (Allow now' (own ip)) as [l2 ok2] eqn:E2. cbn in Hr, Hal. subst ok2. cbn [fst snd].
  split; [done |]. unfold setLimiter. cbn [limiters]. rewrite lookup_insert_eq. cbn [lastSeen fresh]. rewrite insert_insert_eq.
  split; cbn [fresh limiters]; [done | | | |].
  - rewrite dom_insert. set_solver.
  - intros k e. destruct (String.eqb_spec k ip) as [-> | Hne].
    + rewrite lookup_insert_eq. by intros [= <-].
    + rewrite lookup_insert_ne by done. intros He. apply (alike_later t); [lia | by apply Hk].
  - intros k e. destruct (decide (ip = k)) as [<- | Hne].
    + rewrite lookup_insert_eq. intros [= <-]. exists now', l. cbn. rewrite E1. split; [done | lia].
    + rewrite lookup_insert_ne by done. apply Hu.
  - intros k. destruct (String.eqb_spec k ip) as [-> | Hne].
    + by rewrite lookup_insert_eq.
    + rewrite lookup_insert_ne by done. intros He. apply (alike_later t); [lia | by apply Hx].
Qed.

Lemma cleanup_agrees S t p own now :
  agrees S t p own -> (t <= now)%Z -> agrees S now (cleanup now p) own.
Proof.
  intros [Hf Hd Hk Hu Hx] Ht. unfold cleanup.
  assert (Hsub : forall k e, filter (fun kv => Before (lastSeen kv.2) (now - rateLimiterEntryTTL)%Z = false) (limiters p) !! k = Some e ->
    limiters p !! k = Some e) by (intros k e H; by apply map_lookup_filter_Some in H as [? _]).
  split; cbn [fresh limiters]; [done | | | |].
  - etrans; [| exact Hd]. apply subseteq_dom, map_filter_subseteq.
  - intros k e H. apply (alike_later t); [lia |]. apply Hk. by apply Hsub.
  - intros k e H. by apply (Hu k), Hsub.
  - intros k H. destruct (limiters p !! k) as [e |] eqn:E; [| apply (alike_later t); [lia | by apply Hx]].
    assert (Hold : Before (lastSeen e) (now - rateLimiterEntryTTL)%Z = true).
    { apply map_lookup_filter_None in H as [H | H]; [congruence |]. specialize (H e E). cbn in H.
      by destruct (Before (lastSeen e) (now - rateLimiterEntryTTL)%Z). }
    unfold Before in Hold. apply Z.ltb_lt in Hold. destruct (Hu k e E) as (a & l & El & Hle).
    transitivity (limiter e); [symmetry; rewrite El; apply alike_idle; lia |].
    apply (alike_later t); [lia | by apply Hk].
Qed.

Lemma steps_agree S acts : (Z.of_nat (size S) <= rateLimiterMaxEntries)%Z -> forall t p own,
  clients acts ⊆ S -> timed t acts -> agrees S t p own -> (steps Allow walk acts p).2 = ownSteps acts own.
Proof.
  intros HS. induction acts as [| a acts IH]; intros t p own Hc Ht Ha; [done |]. cbn [steps ownSteps].
  destruct a as [now now' addr | now].
  - cbn in Hc, Ht. destruct Ht as [[Hn Hn'] Ht].
    destruct (request_agrees S t p own now now' addr Ha) as [Hr Hag]; [set_solver | done | done | done |].
    destruct (step Allow walk (Request now now' addr) p) as [p1 r1], (ownStep (Request now now' addr) own) as [own1 r2].
    cbn in Hr, Hag. subst r2. specialize (IH now' p1 own1). destruct (steps Allow walk acts p1) as [p2 rs]. cbn in *.
    rewrite IH; [done | set_solver | done | done].
  - cbn in Hc, Ht. destruct Ht as [Hn Ht]. cbn [step ownStep].
    specialize (IH now (cleanup now p) own Hc Ht (cleanup_agrees S t p own now Ha Hn)).
    by destruct (steps Allow walk acts (cleanup now p)) as [p2 rs].
Qed.

(** C37: While no more clients than the bound come, the table decides every
    request as a limiter of the client's own would, although it forgets idle
    clients: a limiter that is forgotten has refilled. *)
Theorem ratelimit_as_own_limiter acts t :
  timed t acts -> (Z.of_nat (size (clients acts)) <= rateLimiterMaxEntries)%Z ->
  (steps Allow walk acts (newPerIPRateLimiter new)).2 = ownSteps acts (fun _ => new).
Proof.
  intros Ht Hc. apply (steps_agree (clients acts) acts Hc t); [done | done |].
  split; cbn [fresh limiters newPerIPRateLimiter]; [done | by rewrite dom_empty | | |].
  - intros ip e. by rewrite lookup_empty.
  - intros ip e. by rewrite lookup_empty.
  - intros ip _. reflexivity.
Qed.

End Spec.
(** ** Client addresses *)

Lemma LastIndex_absent s c : IndexByte s c = (-1)%Z -> LastIndex s c = (-1)%Z.
Proof.
  induction s as [| d s IH]; [done |]. cbn. destruct (Ascii.eqb d c); [lia |].
  destruct (Z.leb_spec 0 (IndexByte s c)); [lia |]. intros _. rewrite IH; [done |].
  clear IH. revert H. induction s as [| x s IHs]; [done |]. cbn. destruct (Ascii.eqb x c); [lia |].
  destruct (Z.leb_spec 0 (IndexByte s c)); lia.
Qed.

Definition plain_host (s : string) : Prop :=
  IndexByte s ":" = (-1)%Z /\ IndexByte s "[" = (-1)%Z /\ IndexByte s "]" = (-1)%Z.

Lemma rl_IndexByte_app a b c : IndexByte a c = (-1)%Z -> IndexByte b c = (-1)%Z -> IndexByte (a +:+ b) c = (-1)%Z.
Proof.
  intros Ha Hb. induction a as [| d a IH]; [done |]. cbn in *. destruct (Ascii.eqb d c); [lia |].
  destruct (Z.leb_spec 0 (IndexByte a c)); [lia |]. rewrite IH; [done |].
  clear -H. induction a as [| x a IHa]; [done |]. cbn in *. destruct (Ascii.eqb x c); [lia |].
  destruct (Z.leb_spec 0 (IndexByte a c)); [lia | done].
Qed.

Lemma rl_LastIndex_app a c b : IndexByte b c = (-1)%Z -> LastIndex (a +:+ String c b) c = Z.of_nat (String.length a).
Proof.
  intros Hb. induction a as [| d a IH].
  - cbn. rewrite (LastIndex_absent b c Hb), Ascii.eqb_refl. done.
  - change (String d a +:+ String c b) with (String d (a +:+ String c b)). cbn [LastIndex String.length]. rewrite IH.
    destruct (Z.leb_spec 0 (Z.of_nat (String.length a))); lia.
Qed.

Lemma SplitHostPort_plain host port :
  plain_host host -> plain_host port -> SplitHostPort (host +:+ String ":" port) = Ok (host, port).
Proof.
  intros (H1 & H2 & H3) (P1 & P2 & P3). unfold SplitHostPort. rewrite rl_LastIndex_app by done.
  destruct (Z.ltb_spec (Z.of_nat (String.length host)) 0); [lia |].
  assert (Hb : HasPrefix (host +:+ String ":" port) "[" = false).
  { destruct host as [| c host]; [done |]. cbn in H2. destruct (Ascii.eqb_spec c "["); [lia |].
    change ((Ascii.eqb "[" c && HasPrefix (host +:+ String ":" port) "") = false).
    destruct (Ascii.eqb_spec "[" c); [congruence | done]. }
  rewrite Hb. unfold slice_to, slice_from. rewrite Nat2Z.id, str_take_app, H1. cbn [Z.leb Z.compare].
  assert (E0 : forall s, str_drop (Z.to_nat 0) s = s) by (by intros []). rewrite !E0.
  assert (Hall : forall c, IndexByte host c = (-1)%Z -> IndexByte port c = (-1)%Z -> Ascii.eqb ":" c = false ->
    IndexByte (host +:+ String ":" port) c = (-1)%Z).
  { intros c Hh Hp Hc. apply rl_IndexByte_app; [done |]. cbn [IndexByte]. by rewrite Hc, Hp. }
  rewrite (Hall "["%char), (Hall "]"%char) by done. cbn [Z.leb Z.compare].
  replace (Z.to_nat (Z.of_nat (String.length host) + 1)) with (String.length (host +:+ ":")) by (rewrite str_length_app; cbn; lia).
  replace (host +:+ String ":" port) with ((host +:+ ":") +:+ port) by (by rewrite <- str_app_assoc).
  by rewrite str_drop_app.
Qed.

(** All connections of a client count against one limiter. *)
Lemma clientKey_host host port port' :
  host <> "" -> plain_host host -> plain_host port -> plain_host port' ->
  clientKey (host +:+ String ":" port) = clientKey (host +:+ String ":" port').
Proof.
  intros Hne Hh Hp Hp'. unfold clientKey. rewrite !SplitHostPort_plain by done. by apply String.eqb_neq in Hne as ->.
Qed.

Example clientKey_v6 : clientKey "[::1]:4000" = "::1" /\ clientKey "10.0.0.7:4000" = "10.0.0.7" /\ clientKey "@" = "@".
Proof. by vm_compute. Qed.

(** ** A concrete limiter *)

(** A token bucket in nanoseconds of credit: [cap] at most, [cost] per request. *)
Definition Bucket : Type := Z * Time.
Definition credit (cap : Z) (now : Time) (b : Bucket) : Z := Z.min cap (Z.max 0 b.1 + Z.max 0 (now - b.2)).
Definition bucketAllow (cap cost : Z) (now : Time) (b : Bucket) : Bucket * bool :=
  let c := credit cap now b in
  if (cost <=? c)%Z then ((c - cost, now)%Z, true) else ((c, now), false).
Definition bucketAlike (cap : Z) (t : Time) (b b' : Bucket) : Prop := forall u, (t <= u)%Z -> credit cap u b = credit cap u b'.

#[global] Instance bucket_laws cap cost : (0 <= cost <= cap)%Z ->
  LimiterLaws (bucketAllow cap cost) (cap, 0%Z) cap (bucketAlike cap).
Proof.
  intros Hc. split.
  - intros t. split.
    + by intros b u _.
    + intros b b' H u Hu. by rewrite H.
    + intros b1 b2 b3 H1 H2 u Hu. by rewrite H1, H2.
  - intros t t' l l' Ht H u Hu. apply H. lia.
  - intros t now l l' Ht H. unfold bucketAllow. rewrite (H now) by done. by destruct (Z.leb_spec cost (credit cap now l')).
  - intros now t [c last] Ht u Hu. unfold bucketAllow.
    assert (Hpos : (0 <= credit cap now (c, last))%Z) by (unfold credit; cbn; lia).
    destruct (Z.leb_spec cost (credit cap now (c, last))); unfold credit at 1 3; cbn [fst snd]; lia.
Qed.

(** The limiter of the downloads: ten requests a second, five at once. *)
Abbreviation dlAllow := (bucketAllow 500000000 100000000).
Definition dlHistory : list act :=
  [Request 0 1 "10.0.0.7:4000"; Request 2 3 "10.0.0.7:4001"; Request 4 5 "10.0.0.9:4000"; Request 6 7 "10.0.0.7:4002";
   Request 8 9 "10.0.0.7:4003"; Request 10 11 "10.0.0.7:4004"; Request 12 13 "10.0.0.7:4005"; Cleanup 700000000000;
   Request 700000000001 700000000002 "10.0.0.7:4006"].

Example dlHistory_answers :
  (steps dlAllow map_to_list dlHistory (newPerIPRateLimiter (500000000, 0)%Z)).2 =
    [true; true; true; true; true; true; false; true].
Proof. vm_compute. reflexivity. Qed.

Lemma ratelimit_as_own_limiter_witness :
  (steps dlAllow map_to_list dlHistory (newPerIPRateLimiter (500000000, 0)%Z)).2 = ownSteps dlAllow dlHistory (fun _ => (500000000, 0)%Z).
Proof.
  refine (@ratelimit_as_own_limiter _ dlAllow (500000000, 0)%Z map_to_list (fun m => reflexivity _) 500000000%Z 1000000000%Z (bucketAlike 500000000)
    (bucket_laws 500000000 100000000 _) _ dlHistory 0%Z _ _).
  - lia.
  - unfold rateLimiterEntryTTL. lia.
  - cbn. lia.
  - vm_compute. discriminate.
Defined.

Lemma ratelimit_table_bounded_witness :
  (Z.of_nat (size (limiters (steps dlAllow map_to_list dlHistory (newPerIPRateLimiter (500000000, 0)%Z)).1)) <= rateLimiterMaxEntries)%Z.
Proof.
  refine (proj1 (ratelimit_table_bounded dlAllow (500000000, 0)%Z map_to_list _ dlHistory)).
  intros m. reflexivity.
Defined.

End RateLimitSpec.
