(* ===== verification/WebSocket.v ===== *)
(** * File transfer over a websocket: server/handlers/websocket_transfer.go

    The handler upgrades the connection, then runs the download or the upload
    loop.  The connection is a parameter: the messages of the client in order,
    and whether a write, of a message or of a close frame, goes through after
    what was read and tried so far.  The handler records every write it tries,
    with its outcome. *)
From S2P Require Import Prelude GoStrings PathUtil Metadata Auth Backends Engine Handlers.
From Stdlib Require Import Ascii String.
Open Scope string_scope.
Open Scope bool_scope.
Open Scope go_scope.

Module WebSocket.
Import Engine Handlers PathUtils.

Definition wsChunkSize : nat := N.to_nat 65536.
Definition maxWSUpload : Z := Z.shiftl 100 20.

(** ** The origin check of the upgrader *)

(** [strings.Index] of a text; -1 when absent. *)
Fixpoint Index (s sub : string) : Z :=
  if HasPrefix s sub then 0
  else match s with
       | EmptyString => -1
       | String _ s' => let r := Index s' sub in if (0 <=? r)%Z then (r + 1)%Z else -1
       end.

Definition checkOrigin (origin host : string) : bool :=
  if String.eqb origin "" then true
  else
    let originHost := if (0 <=? Index origin "://")%Z then slice_from origin (Index origin "://" + 3) else origin in
    let originHost := if (0 <=? Index originHost "/")%Z then slice_to originHost (Index originHost "/") else originHost in
    String.eqb originHost host.

(** ** The connection *)

(** What ReadMessage answers: a message, or an error, with its code when it is
    a close error. *)
Inductive WSRead : Type :=
| Binary (data : string)
| Text (data : string)
| ReadError (closeCode : option Z).

Inductive Frame : Type :=
| SendBinary (data : string)
| SendText (text : string)
| SendClose (code : Z) (reason : string).

Definition CloseNormalClosure : Z := 1000.
Definition CloseGoingAway : Z := 1001.
Definition CloseUnsupportedData : Z := 1003.
Definition ClosePolicyViolation : Z := 1008.
Definition CloseMessageTooBig : Z := 1009.
Definition CloseInternalServerErr : Z := 1011.

(** The writes a handler tried, in order, and whether each went through. *)
Definition Sent : Type := list (Frame * bool).

(** [conn read sent f]: the frame [f] can be written after the messages [read]
    and the writes [sent]. *)
Definition Conn : Type := list WSRead -> Sent -> Frame -> bool.

(** [conn.WriteMessage] and [conn.WriteControl]. *)
Definition tryWrite (conn : Conn) (read : list WSRead) (sent : Sent) (f : Frame) : Sent :=
  (sent ++ [(f, conn read sent f)])%list.

(** How the handler ends: an HTTP answer before the upgrade, or the writes it
    tried after it. *)
Inductive Outcome : Type :=
| Answered (resp : Response)
| NotUpgraded
| Transferred (sent : Sent).

(** ** Download *)

(** [reader.Read(buf)]: a reader gives at least one byte while it has any, at
    most the buffer; [sched] is how many it gives at the k-th call. *)
Definition readSize (sched : nat -> nat) (k : nat) (rest : string) : nat :=
  Nat.min (Nat.min wsChunkSize (S (sched k))) (String.length rest).

Fixpoint downloadLoop (conn : Conn) (sched : nat -> nat) (fuel k : nat) (rest : string) (err : option gerr)
    (sent : Sent) : Sent :=
  match fuel with
  | O => sent
  | S f =>
      let n := readSize sched k rest in
      let readErr := Nat.eqb (String.length rest) 0 in
      let next sent :=
        if readErr then
          tryWrite conn [] sent (match err with
                                 | None => SendClose CloseNormalClosure "download complete"
                                 | Some _ => SendClose CloseInternalServerErr "file read failed"
                                 end)
        else downloadLoop conn sched f (S k) (str_drop n rest) err sent in
      if Nat.ltb 0 n then
        let chunk := SendBinary (str_take n rest) in
        if conn [] sent chunk then next (tryWrite conn [] sent chunk) else tryWrite conn [] sent chunk
      else next sent
  end.

(** One read per byte at most, and one for the end. *)
Definition downloadFrames (conn : Conn) (sched : nat -> nat) (rd : Reader) : Sent :=
  downloadLoop conn sched (S (String.length (rd_data rd))) 0 (rd_data rd) (rd_err rd) [].

(** ** Upload *)

Inductive Received : Type :=
| Payload (data : string) (read : list WSRead)
| TooLarge (read : list WSRead)
| Lost.

(** The read loop: binary messages are appended, others skipped, a normal or
    going-away close ends it. *)
Fixpoint receive (incoming : list WSRead) (payload : string) (read : list WSRead) : Received :=
  match incoming with
  | [] => Lost
  | m :: rest =>
      match m with
      | ReadError code =>
          if bool_decide (code = Some CloseNormalClosure \/ code = Some CloseGoingAway)
          then Payload payload (read ++ [m])%list else Lost
      | Text _ => receive rest payload (read ++ [m])%list
      | Binary data =>
          if (maxWSUpload <? Z.of_nat (String.length payload) + Z.of_nat (String.length data))%Z then TooLarge (read ++ [m])%list
          else receive rest (payload +:+ data) (read ++ [m])%list
      end
  end.

Section Transfer.
Context {W : Type} (e : Engine W) (authorizer : Authorizer W) (defaultBackend : string).
Abbreviation M A := (St (EState W) A) (only parsing).

(** A close frame, and the handler returns. *)
Definition closing (conn : Conn) (read : list WSRead) (code : Z) (reason : string) : M Outcome :=
  ret (Transferred (tryWrite conn read [] (SendClose code reason))).

Definition download (conn : Conn) (sched : nat -> nat) (userID path : string) : M Outcome := fun s =>
  match authorizer userID path ReadPerm (es_world s) with
  | Err _ => closing conn [] ClosePolicyViolation "read access denied" s
  | Ok _ =>
      (do opened <- GetFile e background path;
       match opened with
       | Err _ => closing conn [] CloseInternalServerErr "failed to open file"
       | Ok reader => ret (Transferred (downloadFrames conn sched reader))
       end) s
  end.

(** The acknowledgement and the close frame, after the file is stored: the
    close frame is tried whether or not the acknowledgement went through. *)
Definition acknowledge (conn : Conn) (read : list WSRead) (size : Z) : M Outcome :=
  let sent := tryWrite conn read [] (SendText ("ok:" +:+ Itoa size)) in
  ret (Transferred (tryWrite conn read sent (SendClose CloseNormalClosure "upload complete"))).

Definition storePayload (conn : Conn) (read : list WSRead) (name path payload : string) : M Outcome :=
  let size := Z.of_nat (String.length payload) in
  do existing <- GetMetadata e path;
  match existing with
  | Err er =>
      if negb (errors_Is er ErrNotFound) then closing conn read CloseInternalServerErr "metadata lookup failed"
      else
        do t <- gets (now e);
        do (_, created) <- CreateFile e background path (bytesReader payload) size
                             (newRecord name "file" "0644" defaultBackend t);
        match created with
        | Err _ => closing conn read CloseInternalServerErr "file create failed"
        | Ok _ => acknowledge conn read size
        end
  | Ok existingMd =>
      if negb (String.eqb (md_Type existingMd) "file") then closing conn read CloseUnsupportedData "target path is not a file"
      else
        do updated <- UpdateFile e background path (bytesReader payload) size;
        match updated with
        | Err _ => closing conn read CloseInternalServerErr "file update failed"
        | Ok _ => acknowledge conn read size
        end
  end.

Definition upload (conn : Conn) (incoming : list WSRead) (userID name path : string) : M Outcome := fun s =>
  match authorizer userID path WritePerm (es_world s) with
  | Err _ => closing conn [] ClosePolicyViolation "write access denied" s
  | Ok _ =>
      match receive incoming "" [] with
      | Lost => (s, Transferred [])
      | TooLarge read => closing conn read CloseMessageTooBig "upload too large" s
      | Payload payload read => storePayload conn read name path payload s
      end
  end.

(** [handshake]: whether the handshake of the request succeeds, apart from the
    origin check. *)
Definition V1WebSocketTransfer (host : string) (handshake : bool) (conn : Conn) (sched : nat -> nat)
    (incoming : list WSRead) (r : Request) : M Outcome :=
  let pathInfo := ParseFilePath (rq_urlPath r) in
  if IsInvalid pathInfo then ret (Answered (SendErrorResponse (EMsg "invalid path") 400))
  else if IsDirectory pathInfo then ret (Answered (SendErrorResponse (EMsg "websocket transfer requires a file path") 400))
  else match rq_userID r with
  | None => ret (Answered (SendErrorResponse ErrAuthenticationFailed 401))
  | Some userID =>
      let mode := ToLower (TrimSpace (rq_query r "mode")) in
      let mode := if String.eqb mode "" then "download" else mode in
      if negb (String.eqb mode "download") && negb (String.eqb mode "upload")
      then ret (Answered (SendErrorResponse (EMsg "mode must be one of: download, upload") 400))
      else if negb (handshake && checkOrigin (rq_header r "Origin") host) then ret NotUpgraded
      else if String.eqb mode "download" then download conn sched userID (FullPath pathInfo)
      else upload conn incoming userID (Name pathInfo) (FullPath pathInfo)
  end.

End Transfer.
End WebSocket.
