(* ===== verification/WebSocketSpec.v ===== *)
(** * What the websocket transfer promises

    An upload that is completed can be downloaded, chunk by chunk; nothing is
    sent or changed without authorization; and the client that ends an upload
    never sees the acknowledgement. *)
From S2P Require Import Prelude GoStrings PathUtil Metadata Json Auth Backends Engine EngineSpec Handlers HandlerSpec WebSocket.
From Stdlib Require Import Ascii String.
Open Scope string_scope.
Open Scope bool_scope.

Module WebSocketSpec.
Import Engine EngineSpec Handlers HandlerSpec PathUtils WebSocket.

(** ** The download loop *)

(** The writes that went through on a connection that takes every one. *)
Definition allTaken (fs : list Frame) : Sent := map (fun f => (f, true)) fs.

(** The data of the binary frames, in order. *)
Definition sentData (fs : list Frame) : string :=
  String.concat "" (omap (fun f => match f with SendBinary d => Some d | _ => None end) fs).

Definition small (f : Frame) : Prop :=
  match f with SendBinary d => 0 < String.length d <= wsChunkSize | _ => True end.

Lemma concat_snoc l d : String.concat "" (l ++ [d]) = String.concat "" l +:+ d.
Proof.
  induction l as [| x l IH]; [cbn; by rewrite ?str_app_nil_r |].
  change ((x :: l) ++ [d])%list with (x :: (l ++ [d]))%list. by rewrite !Json.concat_cons, IH, str_app_assoc.
Qed.

Lemma sentData_snoc fs f :
  sentData (fs ++ [f]) = sentData fs +:+ match f with SendBinary d => d | _ => "" end.
Proof.
  unfold sentData. rewrite omap_app. destruct f; cbn [omap list_omap]; [apply concat_snoc | |]; by rewrite app_nil_r, str_app_nil_r.
Qed.

Lemma ws_str_take_drop n (s : string) : str_take n s +:+ str_drop n s = s.
Proof. revert s. induction n as [| n IH]; intros s; [by destruct s |]. destruct s as [| c s]; [done |]. cbn. f_equal. apply IH. Qed.
Lemma str_length_take n (s : string) : n <= String.length s -> String.length (str_take n s) = n.
Proof. revert s. induction n as [| n IH]; intros s H; [by destruct s |]. destruct s as [| c s]; cbn in *; [lia |]. rewrite IH; lia. Qed.
Lemma str_length_drop n (s : string) : String.length (str_drop n s) = String.length s - n.
Proof. revert s. induction n as [| n IH]; intros s; [destruct s; cbn; lia |]. destruct s as [| c s]; cbn; [done |]. apply IH. Qed.

Lemma downloadLoop_spec (sched : nat -> nat) err fuel : forall k rest sent,
  String.length rest < fuel -> Forall small sent ->
  exists fs close, downloadLoop (fun _ _ _ => true) sched fuel k rest err (allTaken sent) = allTaken (fs ++ [close]) /\
    sentData fs = sentData sent +:+ rest /\ Forall small fs /\
    close = match err with
            | None => SendClose CloseNormalClosure "download complete"
            | Some _ => SendClose CloseInternalServerErr "file read failed"
            end.
Proof.
  induction fuel as [| fuel IH]; intros k rest sent Hf Hs; [lia |]. cbn [downloadLoop].
  set (n := readSize sched k rest).
  assert (Hn : n <= String.length rest /\ n <= wsChunkSize /\ (0 < String.length rest -> 0 < n)).
  { unfold n, readSize. assert (1 <= wsChunkSize) by (unfold wsChunkSize; lia). lia. }
  destruct (Nat.eqb_spec (String.length rest) 0) as [H0 | H0].
  - assert (n = 0) as -> by lia. destruct rest; [| done]. exists sent. eexists. cbn [Nat.ltb Nat.leb].
    unfold tryWrite, allTaken. rewrite map_app. split; [reflexivity |]. by rewrite str_app_nil_r.
  - destruct (Nat.ltb_spec 0 n); [| lia].
    destruct (IH (S k) (str_drop n rest) (sent ++ [SendBinary (str_take n rest)])%list) as (fs & close & E & Hd & Hall & Hc).
    + rewrite str_length_drop. lia.
    + apply Forall_app. split; [done |]. constructor; [| constructor]. cbn. rewrite str_length_take by lia. lia.
    + exists fs, close. split; [unfold tryWrite, allTaken in *; rewrite map_app in E; exact E |]. split; [| done]. by rewrite Hd, sentData_snoc, <- str_app_assoc, ws_str_take_drop.
Qed.

(** ** The upload loop *)

Definition binaryData (ms : list WSRead) : string :=
  String.concat "" (omap (fun m => match m with Binary d => Some d | _ => None end) ms).

Lemma binaryData_snoc ms m : binaryData (ms ++ [m]) = binaryData ms +:+ match m with Binary d => d | _ => "" end.
Proof.
  unfold binaryData. rewrite omap_app. destruct m; cbn [omap list_omap]; [apply concat_snoc | |]; by rewrite app_nil_r, str_app_nil_r.
Qed.

Lemma receive_spec incoming : forall payload read data read',
  receive incoming payload read = Payload data read' -> payload = binaryData read ->
  (Z.of_nat (String.length payload) <= maxWSUpload)%Z ->
  data = binaryData read' /\ (Z.of_nat (String.length data) <= maxWSUpload)%Z /\
  (exists rest, (read ++ incoming)%list = (read' ++ rest)%list) /\ (exists code, ReadError (Some code) ∈ read').
Proof.
  induction incoming as [| m incoming IH]; intros payload read data read'; cbn [receive]; [done |].
  destruct m as [d | d | code].
  - destruct (Z.ltb_spec maxWSUpload (Z.of_nat (String.length payload) + Z.of_nat (String.length d))) as [| Hle]; [done |].
    intros H Hp Hm. destruct (IH _ _ _ _ H) as (H1 & H2 & (rest & H3) & H4).
    + by rewrite binaryData_snoc, Hp.
    + rewrite str_length_app. lia.
    + split; [done |]. split; [done |]. split; [| done]. exists rest. by rewrite <- H3, <- app_assoc.
  - intros H Hp Hm. destruct (IH _ _ _ _ H) as (H1 & H2 & (rest & H3) & H4).
    + by rewrite binaryData_snoc, str_app_nil_r.
    + done.
    + split; [done |]. split; [done |]. split; [| done]. exists rest. by rewrite <- H3, <- app_assoc.
  - destruct (bool_decide _) eqn:Eb; [| done]. apply bool_decide_eq_true_1 in Eb. intros [= <- <-] Hp Hm.
    split; [by rewrite binaryData_snoc, str_app_nil_r |]. split; [done |].
    split; [exists incoming; by rewrite <- app_assoc |].
    destruct Eb as [-> | ->]; eexists; apply elem_of_app; right; by apply list_elem_of_singleton.
Qed.

(** ** Upload, then download *)
Section Transfer.
Context {W : Type} (e : Engine W) (view : W -> StoreView) (serving : W -> Prop)
        {store_spec : StoreSpec (e_metadataStore e) view serving} {env : EngineEnv e view serving}
        (bt : string) (content : W -> string -> option string) {cenv : ContentEnv e bt content}
        (authorizer : Authorizer W).

Abbreviation mds s := (view_md (view (es_world s))).
Abbreviation own := (anyOwner e).
Abbreviation arrived := (arrived view serving bt content own).

(** The handler came to its closing frame for a stored upload. *)
Definition completed (sent : Sent) : Prop := exists taken, (SendClose CloseNormalClosure "upload complete", taken) ∈ sent.

Lemma not_completed conn read code reason :
  reason <> "upload complete" -> ~ completed (tryWrite conn read [] (SendClose code reason)).
Proof. intros Hr [taken H]. apply list_elem_of_singleton in H. congruence. Qed.

Lemma storePayload_arrives conn read name path payload s s1 fs :
  good view serving s -> replaceable view bt own path s ->
  storePayload e bt conn read name path payload s = (s1, Transferred fs) -> completed fs ->
  arrived path (bytesReader payload) (Z.of_nat (String.length payload)) s1.
Proof.
  intros Hg Hrec H Hc. unfold storePayload, bind at 1 in H.
  destruct (GetMetadata_good_run e view serving path s Hg) as (s2 & E & Hg2 & Hw). rewrite E in H.
  destruct (mds s !! path) as [md |] eqn:Em.
  - destruct (String.eqb_spec (md_Type md) "file") as [Ht |]; cbn [negb] in H.
    2:{ unfold closing, ret in H. injection H as <- <-. by apply not_completed in Hc. }
    unfold bind in H. destruct (UpdateFile e background path (bytesReader payload) _ s2) as [s3 r] eqn:Eu.
    destruct r as [[] | er]; [| unfold closing, ret in H; injection H as <- <-; by apply not_completed in Hc].
    unfold acknowledge, ret in H. injection H as <- _. destruct (Hrec md Em) as (He & Hb & Ho).
    assert (Hp : plainRecord bt own path (md_Size md) md).
    { destruct Hg as (_ & Hk & _). unfold plainRecord. by rewrite (Hk _ _ Em). }
    assert (Hm2 : mds s2 !! path = Some md) by (by rewrite Hw).
    destruct (UpdateFile_holds e view serving bt content own background path (bytesReader payload) _ md Hp _ _ _ Eu) as [Hrd Hh];
      [by split; [apply Hg2 |] | done |].
    split; [| done]. apply (UpdateFile_good e view serving _ _ _ _ _ _ _ (or_intror eq_refl) Eu Hg2). intros md' Hmd'.
    rewrite Hm2 in Hmd'. injection Hmd' as <-. apply Hp.
  - cbn [errors_Is] in H. rewrite bool_decide_true in H by done. cbn [orb negb] in H. unfold bind, gets in H.
    destruct (CreateFile e background path (bytesReader payload) _ _ s2) as [s3 [md r]] eqn:Ec.
    destruct r as [[] | er]; [| unfold closing, ret in H; injection H as <- <-; by apply not_completed in Hc].
    unfold acknowledge, ret in H. injection H as <- _.
    destruct (CreateFile_holds e view serving bt content own background path (bytesReader payload) _
                (newRecord name "file" "0644" bt (now e s2)) eq_refl eq_refl eq_refl eq_refl _ _ _ Ec) as [_ Hu]; [apply Hg2 |].
    split; [by eapply CreateFile_good |]. by apply Hu.
Qed.

Abbreviation transfer := (V1WebSocketTransfer e authorizer bt).

(** The mode of a request. *)
Definition mode (r : Request) : string := ToLower (TrimSpace (rq_query r "mode")).

Lemma FullPath_engine u : IsDirectory (ParseFilePath u) = false -> enginePath (ParseFilePath u) = FullPath (ParseFilePath u).
Proof. intros H. unfold enginePath. by rewrite H. Qed.

(** C31: What is uploaded over a websocket can be downloaded over one: from a
    state whose cache agrees with the store, and where the path does not name a
    file that is erasure-coded, on another instance or on another backend, after
    an upload that the handler brought to its closing frame (whether or not the
    connection took the frame), the download of the path by a user with read
    access, over a connection that takes what is written, sends the binary
    messages of the upload, up to its closing message, in order, in chunks of at
    most 64 KiB, at most 100 MiB in all, and closes normally. *)
Theorem ws_upload_then_download host conn sched incoming r s s1 fs g uid u host' sched' incoming' :
  let path := FullPath (ParseFilePath (rq_urlPath r)) in
  good view serving s -> replaceable view bt own path s -> mode r = "upload" ->
  transfer host true conn sched incoming r s = (s1, Transferred fs) -> completed fs ->
  rq_urlPath g = rq_urlPath r -> rq_userID g = Some uid -> mode g = "" -> checkOrigin (rq_header g "Origin") host' = true ->
  authorizer uid path ReadPerm (es_world s1) = Ok u ->
  exists s2 chunks read rest,
    transfer host' true (fun _ _ _ => true) sched' incoming' g s1 =
      (s2, Transferred (allTaken (chunks ++ [SendClose CloseNormalClosure "download complete"]))) /\
    Forall small chunks /\ sentData chunks = binaryData read /\
    incoming = (read ++ rest)%list /\ (exists code, ReadError (Some code) ∈ read) /\
    (Z.of_nat (String.length (binaryData read)) <= maxWSUpload)%Z.
Proof.
  intros path Hg Hrec Hm H Hc Hurl Hu Hmg Ho Ha. unfold V1WebSocketTransfer in H. fold (mode r) in H. rewrite Hm in H.
  cbn [String.eqb Ascii.eqb Bool.eqb negb andb] in H.
  destruct (IsInvalid (ParseFilePath (rq_urlPath r))) eqn:Ei; [done |].
  destruct (IsDirectory (ParseFilePath (rq_urlPath r))) eqn:Ed; [done |].
  destruct (rq_userID r) as [uid0 |]; [| done]. destruct (checkOrigin (rq_header r "Origin") host); [| done].
  cbn [negb] in H. fold path in H. unfold WebSocket.upload in H.
  destruct (authorizer uid0 path WritePerm (es_world s)) as [u0 | er].
  2:{ unfold closing, ret in H. injection H as <- <-. by apply not_completed in Hc. }
  destruct (receive incoming "" []) as [payload read | |] eqn:Er.
  2:{ unfold closing, ret in H. injection H as <- <-. by apply not_completed in Hc. }
  2:{ injection H as <- <-. destruct Hc as [? Hc]. by apply elem_of_nil in Hc. }
  destruct (receive_spec _ _ _ _ _ Er) as (Hp & Hlen & (rest & Hin) & Hcode); [done | by vm_compute |].
  destruct (storePayload_arrives _ _ _ _ _ _ _ _ Hg Hrec H Hc) as (Hg1 & _ & Hh).
  destruct (GetFile_holds e view serving bt content own path payload _ s1 Hh) as (s2 & Eg & _);
    [by eapply good_sees |].
  destruct (downloadLoop_spec sched' None (S (String.length payload)) 0 payload []) as (fs2 & close & El & Hd & Hall & ->);
    [lia | done |].
  exists s2, fs2, read, rest. rewrite <- Hp. split; [| split; [done |]; split; [done |]; split; [done |]; split; done].
  unfold V1WebSocketTransfer. fold (mode g). rewrite Hurl, Ei, Ed, Hu, Hmg, Ho. cbn [String.eqb Ascii.eqb Bool.eqb negb andb].
  fold path. unfold WebSocket.download. rewrite Ha. unfold bind. rewrite Eg. unfold ret, downloadFrames, bytesReader. cbn [rd_data rd_err].
  change (allTaken []) with ([] : Sent) in El. by rewrite El.
Qed.

(** ** Mediation *)

Lemma closing_state conn read code reason (s : EState W) :
  closing conn read code reason s = (s, Transferred (tryWrite conn read [] (SendClose code reason))).
Proof. done. Qed.

(** The user of the request may do to the path what the mode needs. *)
Definition permitted (r : Request) (s : EState W) : Prop :=
  exists uid u, rq_userID r = Some uid /\
    authorizer uid (FullPath (ParseFilePath (rq_urlPath r)))
      (if String.eqb (mode r) "upload" then WritePerm else ReadPerm) (es_world s) = Ok u.

(** A websocket transfer changes nothing and sends no file data unless the
    path is valid, the request is authenticated, its origin is the host, and the
    user has the permission for the direction; although the connection is
    upgraded before the permission is looked at. *)
Theorem ws_mediated host handshake conn sched incoming r s s1 out :
  transfer host handshake conn sched incoming r s = (s1, out) ->
  (s1 = s /\ match out with
             | Answered resp => (400 <= rs_status resp < 500)%Z
             | NotUpgraded => True
             | Transferred fs => exists reason taken, fs = [(SendClose ClosePolicyViolation reason, taken)]
             end) \/
  (permitted r s /\ IsInvalid (ParseFilePath (rq_urlPath r)) = false /\ checkOrigin (rq_header r "Origin") host = true).
Proof.
  unfold V1WebSocketTransfer. fold (mode r). destruct (IsInvalid _) eqn:Ei; [intros [= <- <-]; left; by vm_compute |].
  destruct (IsDirectory _); [intros [= <- <-]; left; by vm_compute |].
  destruct (rq_userID r) as [uid |] eqn:Eu; [| intros [= <- <-]; left; by vm_compute].
  set (m := if String.eqb (mode r) "" then "download" else mode r).
  destruct (negb (String.eqb m "download") && negb (String.eqb m "upload")) eqn:Em; [intros [= <- <-]; left; by vm_compute |].
  destruct (handshake && checkOrigin (rq_header r "Origin") host) eqn:Eo; cbn [negb]; [| intros [= <- <-]; by left].
  apply andb_true_iff in Eo as [_ Eo]. set (path := FullPath (ParseFilePath (rq_urlPath r))).
  assert (Hup : String.eqb m "download" = negb (String.eqb (mode r) "upload")).
  { unfold m in *. destruct (String.eqb_spec (mode r) "") as [-> | Hne]; [done |].
    destruct (String.eqb_spec (mode r) "download") as [-> | Hd]; [done |].
    destruct (String.eqb_spec (mode r) "upload"); done. }
  rewrite Hup. unfold permitted. destruct (String.eqb (mode r) "upload"); cbn [negb].
  - unfold WebSocket.upload. destruct (authorizer uid path WritePerm (es_world s)) as [u | er] eqn:Ea.
    + intros _. right. split; [by exists uid, u | done].
    + rewrite closing_state. intros [= <- <-]. left. split; [done | by eexists _, _].
  - unfold WebSocket.download. destruct (authorizer uid path ReadPerm (es_world s)) as [u | er] eqn:Ea.
    + intros _. right. split; [by exists uid, u | done].
    + rewrite closing_state. intros [= <- <-]. left. split; [done | by eexists _, _].
Qed.

(** A connection that has received a close message has answered it and writes
    nothing after that.  So whatever the handler does with an upload, all it can
    tell the client is that the user may not write or that the upload is too
    large: no acknowledgement, no closing frame and no failure to store the file
    ever reaches it. *)
Lemma ws_upload_unacknowledged conn incoming uid name path s s1 sent :
  (forall read sent f code, ReadError (Some code) ∈ read -> conn read sent f = false) ->
  WebSocket.upload e authorizer bt conn incoming uid name path s = (s1, Transferred sent) ->
  forall f, (f, true) ∈ sent ->
  f = SendClose ClosePolicyViolation "write access denied" \/ f = SendClose CloseMessageTooBig "upload too large".
Proof.
  intros Hconn. unfold WebSocket.upload.
  assert (Hclose : forall read code reason (s0 : EState W),
    closing conn read code reason s0 = (s1, Transferred sent) -> forall f, (f, true) ∈ sent ->
    f = SendClose code reason /\ conn read [] f = true).
  { intros read code reason s0. rewrite closing_state. intros [= _ <-] f H. apply list_elem_of_singleton in H.
    by injection H as -> Ht. }
  destruct (authorizer uid path WritePerm (es_world s)); [| intros H f Hf; left; by eapply Hclose].
  destruct (receive incoming "" []) as [payload read | read |] eqn:Er;
    [| intros H f Hf; right; by eapply Hclose | intros [= _ <-] f H; by apply elem_of_nil in H].
  destruct (receive_spec _ _ _ _ _ Er) as (_ & _ & _ & (code & Hcode)); [done | by vm_compute |].
  assert (Hno : forall c reason (s0 : EState W), closing conn read c reason s0 = (s1, Transferred sent) ->
    forall f, (f, true) ∈ sent -> False).
  { intros c reason s0 H f Hf. destruct (Hclose _ _ _ _ H f Hf) as [_ Ht]. by rewrite (Hconn _ _ _ _ Hcode) in Ht. }
  assert (Hack : forall n (s0 : EState W), acknowledge conn read n s0 = (s1, Transferred sent) ->
    forall f, (f, true) ∈ sent -> False).
  { intros n s0. unfold acknowledge, ret, tryWrite. cbn [app]. intros [= _ <-] f Hf.
    apply elem_of_cons in Hf as [Hf | Hf%list_elem_of_singleton]; injection Hf as _ Hf; by rewrite (Hconn _ _ _ _ Hcode) in Hf. }
  intros H f Hf. exfalso. revert H f Hf. unfold storePayload, bind. destruct (GetMetadata e path s) as [s2 [md | er]].
  - destruct (negb _); [apply Hno |]. destruct (UpdateFile e background path _ _ s2) as [s3 [[] | er]]; [apply Hack | apply Hno].
  - destruct (negb _); [apply Hno |]. unfold gets.
    destruct (CreateFile e background path _ _ _ s2) as [s3 [md [[] | er']]]; [apply Hack | apply Hno].
Qed.

End Transfer.

(** ** Concrete runs *)

Example origin_exact :
  checkOrigin "https://callfs.internal:8443/app" "callfs.internal:8443" = true /\
  checkOrigin "https://callfs.internal:8443.attacker.com" "callfs.internal:8443" = false /\
  checkOrigin "" "callfs.internal:8443" = true.
Proof. by vm_compute. Qed.

Definition ws_request (q : string) : Request :=
  mkRequest "d/x/f" (Some "root") (fun _ => "") (fun _ => q) (bytesReader "") 0.
Definition ws_incoming : list WSRead := [Binary "good"; Text "ignored"; Binary "bye"; ReadError (Some CloseNormalClosure)].

Definition ws_uploaded : EState TW * Outcome :=
  V1WebSocketTransfer (twEngine false false) tw_allow "localfs" "h" true (fun _ _ _ => false) (fun _ => 0) ws_incoming
    (ws_request "upload") (tw_created false false).

Lemma ws_upload_then_download_witness :
  exists s2 chunks read rest,
    V1WebSocketTransfer (twEngine false false) tw_allow "localfs" "h" true (fun _ _ _ => true) (fun _ => 2) [] (ws_request "")
      ws_uploaded.1 = (s2, Transferred (allTaken (chunks ++ [SendClose CloseNormalClosure "download complete"]))) /\
    Forall small chunks /\ sentData chunks = binaryData read /\
    ws_incoming = (read ++ rest)%list /\ (exists code, ReadError (Some code) ∈ read) /\
    (Z.of_nat (String.length (binaryData read)) <= maxWSUpload)%Z.
Proof.
  refine (ws_upload_then_download (twEngine false false) tw_view (fun _ => True) "localfs" tw_content tw_allow "h"
    (fun _ _ _ => false) (fun _ => 0) ws_incoming (ws_request "upload") (tw_created false false) ws_uploaded.1
    [(SendText "ok:7", false); (SendClose CloseNormalClosure "upload complete", false)] (ws_request "") "root" tt "h" (fun _ => 2) []
    _ _ _ _ _ _ _ _ _ _).
  - exact (CreateFile_good (twEngine false false) tw_view (fun _ => True) None "/d/x/f" (bytesReader "hello") 5 tw_md
             tw0 (tw_created false false) _ (surjective_pairing _) tw0_good).
  - intros md Hmd. vm_compute in Hmd. injection Hmd as <-. split; [reflexivity |]. split; [reflexivity |]. by right.
  - reflexivity.
  - vm_compute. reflexivity.
  - exists false. apply elem_of_cons. right. apply list_elem_of_singleton. reflexivity.
  - reflexivity.
  - reflexivity.
  - reflexivity.
  - reflexivity.
  - reflexivity.
Defined.

Example ws_download_chunks :
  (V1WebSocketTransfer (twEngine false false) tw_allow "localfs" "h" true (fun _ _ _ => true) (fun _ => 2) [] (ws_request "")
     ws_uploaded.1).2 =
  Transferred (allTaken [SendBinary "goo"; SendBinary "dby"; SendBinary "e"; SendClose CloseNormalClosure "download complete"]).
Proof. vm_compute. reflexivity. Qed.

Definition ws_deny : Authorizer TW := fun _ _ _ _ => Err ErrPermissionDenied.
Definition ws_refused : EState TW * Outcome :=
  V1WebSocketTransfer (twEngine false false) ws_deny "localfs" "h" true (fun _ _ _ => true) (fun _ => 0) ws_incoming
    (ws_request "upload") (tw_created false false).

Lemma ws_mediated_witness :
  (ws_refused.1 = tw_created false false /\
   match ws_refused.2 with
   | Answered resp => (400 <= rs_status resp < 500)%Z
   | NotUpgraded => True
   | Transferred fs => exists reason taken, fs = [(SendClose ClosePolicyViolation reason, taken)]
   end) \/
  (permitted ws_deny (ws_request "upload") (tw_created false false) /\
   IsInvalid (ParseFilePath (rq_urlPath (ws_request "upload"))) = false /\
   checkOrigin (rq_header (ws_request "upload") "Origin") "h" = true).
Proof.
  exact (ws_mediated (twEngine false false) "localfs" ws_deny "h" true (fun _ _ _ => true) (fun _ => 0) ws_incoming
           (ws_request "upload") (tw_created false false) ws_refused.1 ws_refused.2 (surjective_pairing ws_refused)).
Defined.

End WebSocketSpec.
