(* ===== verification/Router.v ===== *)
(** * The router: server/router.go

    The routes with their middlewares as a table; the router library, which
    chooses the route of a request, is a parameter with its documented
    behaviour: the route it chooses matches, and one with a longer fixed part
    goes before a wildcard. *)
From S2P Require Import Prelude GoStrings Metadata Auth Erasure Engine Handlers HandlerSpec RateLimit.
From Stdlib Require Import Ascii String.
Open Scope string_scope.
Open Scope bool_scope.
Open Scope go_scope.

Module Router.
Import Handlers.

Inductive HandlerName : Type :=
| Health | MetricsHandler | WebSocketTransfer | GetFileH | HeadFile | PostFile | PutFile | DeleteFileH
| GetShardH | ListDirectoryH | GenerateLinkH | DownloadLink.

#[global] Instance HandlerName_eq_dec : EqDecision HandlerName.
Proof. solve_decision. Defined.

(** A pattern: a fixed text; a fixed prefix and the rest of the path; a prefix and
    one segment; or the wildcard of a router that is mounted at a path, which also
    answers at the path itself. *)
Inductive Pattern : Type :=
| Fixed (path : string)
| Rest (prefix : string)
| Segment (prefix : string)
| Mounted (path : string).

(** [rt_method]: none for every method. *)
Record Route := mkRoute {
  rt_method : option string;
  rt_pattern : Pattern;
  rt_auth : bool;
  rt_limit : option (Z * Z);     (* requests per second, burst *)
  rt_handler : HandlerName;
}.

Definition fixedPart (p : Pattern) : string := match p with Fixed x | Rest x | Segment x => x | Mounted x => x ++ "/" end.

Definition matches (p : Pattern) (path : string) : bool :=
  match p with
  | Fixed x => String.eqb path x
  | Rest x => HasPrefix path x
  | Segment x => HasPrefix path x && negb (Contains (TrimPrefix path x) "/") && negb (String.eqb path x)
  | Mounted x => String.eqb path x || HasPrefix path (x ++ "/")
  end.

(** [chi.URLParam]: the part of the path that varies. *)
Definition param (p : Pattern) (path : string) : string :=
  match p with
  | Fixed _ => ""
  | Rest x | Segment x => TrimPrefix path x
  | Mounted x => if String.eqb path x then "" else TrimPrefix path (x ++ "/")
  end.

Definition methodMatches (rt : Route) (method : string) : bool :=
  match rt_method rt with None => true | Some m => String.eqb m method end.

(** The table that NewRouter builds; the shard route only with erasure coding. *)
Definition routes (erasure : bool) : list Route :=
  ([mkRoute (Some "GET") (Fixed "/health") false None Health;
    mkRoute None (Fixed "/metrics") true None MetricsHandler;
    mkRoute (Some "GET") (Rest "/v1/files/ws/") true None WebSocketTransfer;
    mkRoute (Some "GET") (Mounted "/v1/files") true None GetFileH;
    mkRoute (Some "HEAD") (Mounted "/v1/files") true None HeadFile;
    mkRoute (Some "POST") (Mounted "/v1/files") true None PostFile;
    mkRoute (Some "PUT") (Mounted "/v1/files") true None PutFile;
    mkRoute (Some "DELETE") (Mounted "/v1/files") true None DeleteFileH] ++
   (if erasure then [mkRoute (Some "GET") (Mounted "/v1/shards") true None GetShardH] else []) ++
   [mkRoute (Some "GET") (Mounted "/v1/directories") true None ListDirectoryH;
    mkRoute (Some "POST") (Fixed "/v1/links/generate") true (Some (100, 1)%Z) GenerateLinkH;
    mkRoute (Some "GET") (Segment "/download/") false (Some (10, 5)%Z) DownloadLink])%list.

(** What arrives: the method, the path, the client address, whether over TLS, and
    what the handlers read. *)
Record Incoming := mkIncoming {
  in_method : string; in_path : string; in_remoteAddr : string; in_tls : bool; in_request : Request;
  in_random : Res string;       (* the eight random bytes of the request id *)
}.

Definition generateRequestID (random : Res string) : string :=
  match random with Err _ => "0000000000000000" | Ok b => EncodeToString b end.

(** The header that it adds to the answer. *)
Definition V1RequestIDMiddleware (random : Res string) : string * string := ("X-Request-ID", generateRequestID random).

(** What the middlewares around every route put into the answer: the request id
    and the security headers. *)
Definition commonHeaders (i : Incoming) : list (string * string) :=
  V1RequestIDMiddleware (in_random i) :: RateLimit.V1SecurityHeaders (in_tls i).

Section Dispatch.
Context {S : Type} (authn : Authenticator) (find : list Route -> string -> string -> option Route)
        (handle : HandlerName -> Request -> St S Response) (limit : HandlerName -> string -> St S bool).

Definition withPath (p : string) (r : Request) : Request :=
  mkRequest p (rq_userID r) (rq_header r) (rq_query r) (rq_body r) (rq_contentLength r).

(** The health check, the one handler of the router itself. *)
Definition quoted (s : string) : string := String "034" (s ++ String "034" "").
Definition health : Response :=
  mkResponse 200 [("Content-Type", "application/json")] (BText ("{" ++ quoted "status" ++ ":" ++ quoted "ok" ++ "}")).
Definition handlerOf (h : HandlerName) (r : Request) : St S Response :=
  match h with Health => ret health | _ => handle h r end.

(** The rate limiter around a handler. *)
Definition limited (rt : Route) (remoteAddr : string) (next : Request -> St S Response) (r : Request) : St S Response :=
  match rt_limit rt with
  | None => next r
  | Some _ =>
      do allowed <- limit (rt_handler rt) remoteAddr;
      if allowed then next r
      else ret (mkResponse 429 [("Content-Type", "application/json")] (BError "RATE_LIMIT_EXCEEDED" "Rate limit exceeded"))
  end.

Definition serveRoute (rt : Route) (i : Incoming) : St S Response :=
  let next := limited rt (in_remoteAddr i) (handlerOf (rt_handler rt)) in
  let r := withPath (param (rt_pattern rt) (in_path i)) (in_request i) in
  if rt_auth rt then V1AuthMiddleware authn next r else next r.

(** The answer of the router itself when no route fits: that of the router mounted
    at /v1 comes after its authentication. *)
Definition noRoute (erasure : bool) (i : Incoming) : St S Response :=
  let path := in_path i in
  let answer := if existsb (fun rt => matches (rt_pattern rt) path) (routes erasure) then status 405 else status 404 in
  if matches (Mounted "/v1") path then V1AuthMiddleware authn (fun _ => ret answer) (in_request i) else ret answer.

Definition dispatch (erasure : bool) (i : Incoming) : St S Response :=
  do resp <- match find (routes erasure) (in_method i) (in_path i) with
             | Some rt => serveRoute rt i
             | None => noRoute erasure i
             end;
  ret (mkResponse (rs_status resp) (commonHeaders i ++ rs_headers resp)%list (rs_body resp)).

End Dispatch.

(** ** What the router promises *)

Class RouterLaws (find : list Route -> string -> string -> option Route) : Prop := {
  find_in : forall rts m p rt, find rts m p = Some rt -> In rt rts /\ methodMatches rt m = true /\ matches (rt_pattern rt) p = true;
  find_longest : forall rts m p rt rt', find rts m p = Some rt -> In rt' rts -> methodMatches rt' m = true ->
    matches (rt_pattern rt') p = true -> String.length (fixedPart (rt_pattern rt')) <= String.length (fixedPart (rt_pattern rt));
  find_some : forall rts m p rt, In rt rts -> methodMatches rt m = true -> matches (rt_pattern rt) p = true ->
    exists rt', find rts m p = Some rt';
}.

(** Every request id has sixteen hexadecimal digits. *)
Lemma generateRequestID_length random :
  (forall b, random = Ok b -> String.length b = 8) -> String.length (generateRequestID random) = 16.
Proof.
  destruct random as [b | er]; cbn [generateRequestID]; [| done]. intros H. by rewrite EncodeToString_length, (H b eq_refl).
Qed.

Section Spec.
Context {S : Type} (authn : Authenticator) (find : list Route -> string -> string -> option Route)
        (handle : HandlerName -> Request -> St S Response) (limit : HandlerName -> string -> St S bool)
        `{!RouterLaws find}.

(** The routes that anyone may use. *)
Definition public (h : HandlerName) : bool := bool_decide (h = Health \/ h = DownloadLink).

Lemma routes_auth erasure rt : In rt (routes erasure) -> rt_auth rt = negb (public (rt_handler rt)).
Proof.
  destruct erasure; cbn; intros H; repeat (destruct H as [<- | H]; [reflexivity |]); done.
Qed.

Lemma routes_limited erasure rt : In rt (routes erasure) ->
  (rt_handler rt = GenerateLinkH \/ rt_handler rt = DownloadLink) -> rt_limit rt <> None.
Proof.
  destruct erasure; cbn; intros H Hor; repeat (destruct H as [<- | H]; [cbn in *; by destruct Hor |]); done.
Qed.

(** The token of the request is accepted. *)
Definition accepted (header : string -> string) : Prop :=
  exists uid, authn (header "Authorization") = Ok uid /\ header "Authorization" <> "".
Definition authenticated (i : Incoming) : Prop := accepted (rq_header (in_request i)).

Lemma auth_or_refused (next : Request -> St S Response) r s s' resp :
  V1AuthMiddleware authn next r s = (s', resp) -> accepted (rq_header r) \/ (s' = s /\ rs_status resp = 401%Z).
Proof using Type.
  unfold V1AuthMiddleware. destruct (String.eqb_spec (rq_header r "Authorization") "") as [E0 | Hne].
  - unfold ret. intros [= <- <-]. auto.
  - destruct (authn (rq_header r "Authorization")) as [uid | er] eqn:Eu; [left; by exists uid |].
    unfold ret. intros [= <- <-]. auto.
Qed.

(** What happens to a request without an accepted token. *)
Lemma dispatch_authenticates erasure i s s' resp :
  dispatch authn find handle limit erasure i s = (s', resp) ->
  (authenticated i \/ (s' = s /\ (rs_status resp = 401 \/ rs_status resp = 404 \/ rs_status resp = 405)%Z) \/
   (in_path i = "/health" \/ HasPrefix (in_path i) "/download/" = true)) /\
  forall h, h ∈ commonHeaders i -> h ∈ rs_headers resp.
Proof.
  unfold dispatch, bind, ret. generalize (commonHeaders i) as hs. intros hs.
  set (m := match find _ _ _ with Some _ => _ | None => _ end).
  destruct (m s) as [s1 r1] eqn:E. intros [= <- <-]. split; [| intros h Hh; cbn; apply elem_of_app; by left].
  subst m. destruct (find (routes erasure) (in_method i) (in_path i)) as [rt |] eqn:Ef.
  2:{ unfold noRoute in E. destruct (matches (Mounted "/v1") (in_path i)).
      - apply auth_or_refused in E as [Ha | [Hs Hr]]; [by left | right; left; split; [done | by left]].
      - destruct (existsb _ _); unfold ret in E; injection E as <- <-; right; left; cbn; auto. }
  destruct (find_in _ _ _ _ Ef) as (Hin & _ & Hm). pose proof (routes_auth erasure rt Hin) as Ha. unfold serveRoute in E. rewrite Ha in E.
  destruct (public (rt_handler rt)) eqn:Ep; cbn [negb] in E.
  - right. right. clear -Hin Hm Ep. destruct erasure; cbn in Hin;
      repeat (destruct Hin as [<- | Hin]; [try done; cbn in Hm; to_prop; auto |]); done.
  - apply auth_or_refused in E as [Hok | [Hs Hr]]; [by left | right; left; split; [done | by left]].
Qed.

(** A request without a valid token reaches no handler but the health check
    and the download of single-use links: the state stays as it is and the answer
    is 401, 404 or 405; every answer carries the request id and the security headers. *)
Theorem router_authenticates erasure i s s' resp :
  dispatch authn find handle limit erasure i s = (s', resp) ->
  (authenticated i \/ (s' = s /\ (rs_status resp = 401 \/ rs_status resp = 404 \/ rs_status resp = 405)%Z) \/
   (in_path i = "/health" \/ HasPrefix (in_path i) "/download/" = true)) /\
  forall h, h ∈ commonHeaders i -> h ∈ rs_headers resp.
Proof. apply dispatch_authenticates. Qed.

(** A GET below /v1/files/ws/ goes to the websocket handler: files below /ws
    cannot be downloaded with a plain GET. *)
Lemma ws_shadows_files erasure path rt :
  HasPrefix path "/v1/files/ws/" = true -> find (routes erasure) "GET" path = Some rt -> rt_handler rt = WebSocketTransfer.
Proof.
  intros Hp Ef. destruct (find_in _ _ _ _ Ef) as (Hin & _ & Hm).
  assert (Hws : In (mkRoute (Some "GET") (Rest "/v1/files/ws/") true None WebSocketTransfer) (routes erasure)).
  { right. right. by left. }
  pose proof (find_longest _ _ _ _ _ Ef Hws eq_refl Hp) as Hl. apply HasPrefix_inv in Hp as (q & ->).
  clear -Hin Hm Hl. destruct erasure; cbn in Hin;
    repeat (destruct Hin as [<- | Hin]; [first [done | (cbn in Hl; lia) | (exfalso; by vm_compute in Hm) | (cbn in Hm; done)] |]); done.
Qed.

End Spec.

(** ** The file API behind the router *)

Section Mediated.
Context {W : Type} (e : Engine.Engine W) (authorizer : Authorizer W) (authn : Authenticator)
        (em : Erasure.Manager W) (defaultBackend : string)
        (fmtTime : Time -> string) (peerOrder : list string) (shardOrder : list nat)
        (other : HandlerName -> Request -> St (Engine.EState W) Response)
        (find : list Route -> string -> string -> option Route)
        (limit : HandlerName -> string -> St (Engine.EState W) bool)
        `{!RouterLaws find}.

Definition fileRoute (h : HandlerName) : option HandlerSpec.Route :=
  match h with
  | GetFileH => Some HandlerSpec.RGet
  | HeadFile => Some HandlerSpec.RHead
  | PostFile => Some HandlerSpec.RPost
  | PutFile => Some HandlerSpec.RPut
  | DeleteFileH => Some HandlerSpec.RDelete
  | ListDirectoryH => Some HandlerSpec.RList
  | GetShardH => Some HandlerSpec.RShard
  | Health | MetricsHandler | WebSocketTransfer | GenerateLinkH | DownloadLink => None
  end.

(** The handlers of NewRouter on the state of the engine. *)
Definition handlers (h : HandlerName) : Request -> St (Engine.EState W) Response :=
  match fileRoute h with
  | Some route => HandlerSpec.serve e authorizer em defaultBackend fmtTime peerOrder shardOrder route
  | None => other h
  end.

Definition methodOf (route : HandlerSpec.Route) : string :=
  match route with
  | HandlerSpec.RPost => "POST"
  | HandlerSpec.RPut => "PUT"
  | HandlerSpec.RDelete => "DELETE"
  | HandlerSpec.RHead => "HEAD"
  | HandlerSpec.RGet | HandlerSpec.RList | HandlerSpec.RShard => "GET"
  end.

(** Where a route is mounted. *)
Definition mountOf (route : HandlerSpec.Route) : string :=
  match route with
  | HandlerSpec.RList => "/v1/directories/"
  | HandlerSpec.RShard => "/v1/shards/"
  | _ => "/v1/files/"
  end.

(** A request with the method and below the mount point of a file route gets to
    the handler of this route, with the rest of the path. *)
Lemma route_found erasure route rest rt :
  (route = HandlerSpec.RGet -> HasPrefix rest "ws/" = false) ->
  find (routes erasure) (methodOf route) (mountOf route +:+ rest) = Some rt ->
  rt_auth rt = true /\ rt_limit rt = None /\ fileRoute (rt_handler rt) = Some route /\
  param (rt_pattern rt) (mountOf route +:+ rest) = rest.
Proof using All.
  intros Hws Ef. destruct (find_in _ _ _ _ Ef) as (Hin & Hmeth & Hm). clear Ef.
  assert (Hpar : forall x, param (Mounted x) ((x +:+ "/") +:+ rest) = rest).
  { intros x. cbn [param]. rewrite TrimPrefix_app. destruct (String.eqb_spec ((x +:+ "/") +:+ rest) x) as [E | ]; [| done].
    apply (f_equal String.length) in E. rewrite !str_length_app in E. cbn in E. lia. }
  destruct erasure; cbn [routes app] in Hin;
    repeat (destruct Hin as [<- | Hin]; [destruct route;
      first [discriminate Hmeth | discriminate Hm | (cbn in Hm; rewrite Hws in Hm by done; discriminate Hm)
            | (do 3 (split; [done |]); apply Hpar)] |]); destruct Hin.
Qed.

(** What the router makes of a request for a file route: the authentication, the
    handler of the route, and the common headers. *)
Definition routed (route : HandlerSpec.Route) (rest : string) (i : Incoming) : St (Engine.EState W) Response :=
  do resp <- V1AuthMiddleware authn (HandlerSpec.serve e authorizer em defaultBackend fmtTime peerOrder shardOrder route)
               (withPath rest (in_request i));
  ret (mkResponse (rs_status resp) (commonHeaders i ++ rs_headers resp)%list (rs_body resp)).

Lemma dispatch_found erasure i route rest rt s :
  in_method i = methodOf route -> in_path i = mountOf route +:+ rest ->
  (route = HandlerSpec.RGet -> HasPrefix rest "ws/" = false) ->
  find (routes erasure) (in_method i) (in_path i) = Some rt ->
  dispatch authn find handlers limit erasure i s = routed route rest i s.
Proof using All.
  intros Hmeth Hpath Hws Ef. unfold dispatch, routed, bind. rewrite Ef. rewrite Hmeth, Hpath in Ef.
  destruct (route_found _ _ _ _ Hws Ef) as (Ha & Hl & Hr & Hp).
  unfold serveRoute. rewrite Ha, Hpath, Hp. unfold limited. rewrite Hl.
  assert (Hh : handlerOf handlers (rt_handler rt) = HandlerSpec.serve e authorizer em defaultBackend fmtTime peerOrder shardOrder route).
  { unfold handlerOf, handlers. destruct (rt_handler rt); try discriminate Hr; injection Hr as <-; reflexivity. }
  by rewrite Hh.
Qed.

(** The route of a method of the file API is always found. *)
Lemma dispatch_files erasure i route rest s :
  mountOf route = "/v1/files/" -> in_method i = methodOf route -> in_path i = "/v1/files/" +:+ rest ->
  (route = HandlerSpec.RGet -> HasPrefix rest "ws/" = false) ->
  dispatch authn find handlers limit erasure i s = routed route rest i s.
Proof using All.
  intros Hmount Hmeth Hpath Hws.
  assert (Hin : exists h, In (mkRoute (Some (methodOf route)) (Mounted "/v1/files") true None h) (routes erasure)).
  { destruct route; try discriminate Hmount; eexists; cbn; eauto 12. }
  destruct Hin as [h Hin].
  destruct (find_some (find := find) _ (in_method i) (in_path i) _ Hin) as [rt Ef].
  - cbn. rewrite Hmeth. apply String.eqb_refl.
  - cbn [rt_pattern matches]. rewrite Hpath. apply orb_true_iff. right.
    change "/v1/files/" with ("/v1/files" ++ "/"). apply HasPrefix_app.
  - eapply dispatch_found; [exact Hmeth | by rewrite Hmount | exact Hws | exact Ef].
Qed.

Lemma dispatch_mediates erasure i route rest s s' resp :
  in_method i = methodOf route -> in_path i = mountOf route +:+ rest ->
  (route = HandlerSpec.RGet -> HasPrefix rest "ws/" = false) ->
  dispatch authn find handlers limit erasure i s = (s', resp) ->
  (s' = s /\ (400 <= rs_status resp < 500)%Z) \/
  exists uid u, authn (rq_header (in_request i) "Authorization") = Ok uid /\
    authorizer uid (HandlerSpec.targetPath route rest) (HandlerSpec.needs route) (Engine.es_world s) = Ok u.
Proof using All.
  intros Hmeth Hpath Hws. destruct (find (routes erasure) (in_method i) (in_path i)) as [rt |] eqn:Ef.
  - rewrite (dispatch_found _ _ _ _ _ _ Hmeth Hpath Hws Ef). unfold routed, bind, ret. generalize (commonHeaders i) as hs. intros hs.
    destruct (V1AuthMiddleware _ _ _ s) as [s1 r1] eqn:E. intros [= <- <-]. cbn [rs_status].
    unfold V1AuthMiddleware in E. cbn [withPath rq_header] in E.
    destruct (String.eqb _ ""); [unfold ret in E; injection E as <- <-; left; cbn; split; [done | lia] |].
    destruct (authn _) as [uid | er]; [| unfold ret in E; injection E as <- <-; left; cbn; split; [done | lia]].
    apply HandlerSpec.serve_mediates in E as [[-> [Hs _]] | (uid' & Hu & _ & u & Hok)]; [by left | right].
    injection Hu as <-. by exists uid, u.
  - unfold dispatch, bind. rewrite Ef. unfold noRoute, V1AuthMiddleware, ret. destruct (existsb _ _), (matches (Mounted "/v1") (in_path i)),
      (String.eqb (rq_header (in_request i) "Authorization") ""), (authn (rq_header (in_request i) "Authorization"));
      intros [= <- <-]; left; cbn; split; (done || lia).
Qed.

(** Through the router, a request to the file, directory or shard API changes
    something or answers anything but an error of the 400s only when its token is
    accepted and the user has the permission of the method on the path that the URL
    names. *)
Theorem router_mediates erasure i route rest s s' resp :
  in_method i = methodOf route -> in_path i = mountOf route +:+ rest ->
  (route = HandlerSpec.RGet -> HasPrefix rest "ws/" = false) ->
  dispatch authn find handlers limit erasure i s = (s', resp) ->
  (s' = s /\ (400 <= rs_status resp < 500)%Z) \/
  exists uid u, authn (rq_header (in_request i) "Authorization") = Ok uid /\
    authorizer uid (HandlerSpec.targetPath route rest) (HandlerSpec.needs route) (Engine.es_world s) = Ok u.
Proof using All. apply dispatch_mediates. Qed.

End Mediated.

(** ** A concrete router *)

(** The first of the matching routes with the longest fixed part. *)
Fixpoint best (m p : string) (rts : list Route) : option Route :=
  match rts with
  | [] => None
  | rt :: rest =>
      let r := best m p rest in
      if methodMatches rt m && matches (rt_pattern rt) p then
        match r with
        | Some rt' => if Nat.ltb (String.length (fixedPart (rt_pattern rt))) (String.length (fixedPart (rt_pattern rt')))
                      then Some rt' else Some rt
        | None => Some rt
        end
      else r
  end.

Lemma best_none m p rts : best m p rts = None ->
  forall rt, In rt rts -> methodMatches rt m = true -> matches (rt_pattern rt) p = true -> False.
Proof.
  induction rts as [| z rts IH]; cbn [best]; [done |]. intros Ey rt [-> | Hin] Hm Hp.
  - rewrite Hm, Hp in Ey. cbn [andb] in Ey. by repeat case_match.
  - apply (IH ltac:(by repeat case_match) rt Hin Hm Hp).
Qed.

#[global] Instance best_laws : RouterLaws (fun rts m p => best m p rts).
Proof.
  split.
  - intros rts m p. induction rts as [| rt rts IH]; intros x; cbn [best]; [done |]. intros H.
    assert (Hor : x = rt /\ methodMatches rt m && matches (rt_pattern rt) p = true \/ best m p rts = Some x)
      by (repeat case_match; simplify_eq; auto).
    destruct Hor as [[-> E] | Hb]; [apply andb_true_iff in E as [? ?]; by split; [left |] |].
    destruct (IH x Hb) as (? & ? & ?). by split; [right |].
  - intros rts m p. induction rts as [| rt rts IH]; intros x x'; cbn [best]; [done |]. intros H Hin Hm Hp.
    destruct (methodMatches rt m && matches (rt_pattern rt) p) eqn:E.
    + destruct (best m p rts) as [y |] eqn:Ey.
      * assert (Hx : x' = rt \/ String.length (fixedPart (rt_pattern x')) <= String.length (fixedPart (rt_pattern y)))
          by (destruct Hin as [<- | Hin]; [by left | right; by apply IH]).
        destruct (Nat.ltb_spec (String.length (fixedPart (rt_pattern rt))) (String.length (fixedPart (rt_pattern y))));
          injection H as <-; destruct Hx as [-> | Hx]; lia.
      * injection H as <-. destruct Hin as [<- | Hin]; [done |]. destruct (best_none _ _ _ Ey _ Hin Hm Hp).
    + destruct Hin as [<- | Hin]; [by rewrite Hm, Hp in E | by apply IH].
  - intros rts m p rt Hin Hm Hp. destruct (best m p rts) as [y |] eqn:E; [by exists y |].
    destruct (best_none _ _ _ E _ Hin Hm Hp).
Qed.

Definition router_intruder : Incoming :=
  mkIncoming "DELETE" "/v1/files/a" "10.0.0.7:4000" true
    (mkRequest "" None (fun _ => "Bearer guess") (fun _ => "") (Backends.bytesReader "") 0)
    (Err (EMsg "no entropy")).
Definition router_refuses : nat * Response :=
  dispatch (fun _ => Err ErrAuthenticationFailed) (fun rts m p => best m p rts) (fun _ _ s => (S s, status 200))
    (fun _ _ s => (s, true)) true router_intruder 0.

Lemma router_authenticates_witness :
  (authenticated (fun _ => Err ErrAuthenticationFailed) router_intruder \/
   (router_refuses.1 = 0 /\ (rs_status router_refuses.2 = 401 \/ rs_status router_refuses.2 = 404 \/ rs_status router_refuses.2 = 405)%Z) \/
   (in_path router_intruder = "/health" \/ HasPrefix (in_path router_intruder) "/download/" = true)) /\
  forall h, h ∈ commonHeaders router_intruder -> h ∈ rs_headers router_refuses.2.
Proof.
  exact (router_authenticates (fun _ => Err ErrAuthenticationFailed) (fun rts m p => best m p rts)
    (fun _ _ s => (S s, status 200)) (fun _ _ s => (s, true)) true router_intruder 0 router_refuses.1 router_refuses.2
    (surjective_pairing router_refuses)).
Defined.

(** A user without the permission to delete. *)
Definition router_delete : Incoming :=
  mkIncoming "DELETE" "/v1/files/a" "10.0.0.7:4000" true
    (mkRequest "" None (fun h => if String.eqb h "Authorization" then "Bearer k" else "") (fun _ => "") (Backends.bytesReader "") 0)
    (Ok "01234567").
Definition deny_all : Authorizer HandlerSpec.EW := fun _ _ _ _ => Err ErrPermissionDenied.
Definition router_deleted : Engine.EState HandlerSpec.EW * Response :=
  dispatch HandlerSpec.ew_authn (fun rts m p => best m p rts)
    (handlers HandlerSpec.ewEngine deny_all HandlerSpec.ewErasure "localfs" Itoa [] [] (fun _ _ => ret (status 500)))
    (fun _ _ => ret true) true router_delete (HandlerSpec.ew0 ∅).

Lemma router_mediates_witness :
  router_deleted.1 = HandlerSpec.ew0 ∅ /\ (400 <= rs_status router_deleted.2 < 500)%Z.
Proof.
  destruct (router_mediates HandlerSpec.ewEngine deny_all HandlerSpec.ew_authn HandlerSpec.ewErasure "localfs" Itoa [] []
    (fun _ _ => ret (status 500)) (fun rts m p => best m p rts) (fun _ _ => ret true) true router_delete HandlerSpec.RDelete "a"
    (HandlerSpec.ew0 ∅) router_deleted.1 router_deleted.2 eq_refl eq_refl ltac:(discriminate) (surjective_pairing router_deleted))
    as [H | (uid & u & _ & H)]; [exact H | discriminate H].
Defined.

Example router_ws : best "GET" "/v1/files/ws/report.txt" (routes false) =
  Some (mkRoute (Some "GET") (Rest "/v1/files/ws/") true None WebSocketTransfer).
Proof. reflexivity. Qed.

End Router.
