(* ===== verification/S3.v ===== *)
(** * The S3 backend: backends/s3

    The adapter over the calls of the AWS SDK, which are a parameter ([S3Client])
    on the world the bucket lives in.  What S3 documents about them is in
    S3Spec.v. *)
From S2P Require Import Prelude GoStrings Metadata Backends Config.
From Stdlib Require Import Ascii String.
Open Scope string_scope.
Open Scope bool_scope.
Open Scope go_scope.

Module S3.
Import Config.

(** ** The SDK *)

(** The parts of an upload that the adapter sets: a field that is left out is none. *)
Record Attributes := mkAttributes {
  at_ServerSideEncryption : option string;
  at_SSEKMSKeyId : option string;
  at_ACL : option string;
  at_ContentType : option string;
}.
Definition noAttributes : Attributes := mkAttributes None None None None.

Record UploadInput := mkUploadInput {
  ui_Bucket : string; ui_Key : string; ui_Body : Reader; ui_Attributes : Attributes;
}.
Record HeadOutput := mkHeadOutput { ho_ContentLength : Z; ho_LastModified : option Time }.
Record Object := mkObject { ob_Key : option string; ob_Size : Z; ob_LastModified : option Time }.
Record ListInput := mkListInput {
  li_Bucket : string; li_Prefix : string; li_Delimiter : string; li_ContinuationToken : option string;
}.
Record ListOutput := mkListOutput {
  lo_CommonPrefixes : list (option string); lo_Contents : list Object; lo_NextContinuationToken : option string;
}.

(** [aws.Config], as far as the adapter sets it. *)
Record AwsConfig := mkAwsConfig {
  aw_Region : string; aw_AccessKey : string; aw_SecretKey : string;
  aw_Endpoint : option string; aw_DisableSSL : option bool;
  aw_S3ForcePathStyle : option bool; aw_S3DisableContentMD5Validation : option bool;
}.

Record S3Client (W : Type) := mkS3Client {
  sc_HeadBucket : string -> St W (Res unit);
  sc_GetObject : string -> string -> St W (Res Reader);
  sc_Upload : UploadInput -> St W (Res unit);
  sc_PutObject : string -> string -> Reader -> St W (Res unit);
  sc_DeleteObject : string -> string -> St W (Res unit);
  sc_HeadObject : string -> string -> St W (Res HeadOutput);
  sc_ListObjectsV2 : ListInput -> St W (Res ListOutput);
}.
Arguments sc_HeadBucket {W}. Arguments sc_GetObject {W}. Arguments sc_Upload {W}. Arguments sc_PutObject {W}.
Arguments sc_DeleteObject {W}. Arguments sc_HeadObject {W}. Arguments sc_ListObjectsV2 {W}.

(** [filepath.Ext]: from the last dot of the last part of the path on. *)
Fixpoint filepath_Ext (path : string) : string :=
  match path with
  | "" => ""
  | String c rest =>
      let e := filepath_Ext rest in
      if negb (String.eqb e "") then e
      else if Ascii.eqb c "." && negb (Contains rest "/") then String c rest else ""
  end.

Section Adapter.
Context {W : Type}.
Abbreviation M := (St W).

Record S3Adapter := mkS3Adapter {
  client : S3Client W;
  bucketName : string;
  serverSideEncryption : string;
  acl : string;
  kmsKeyID : string;
}.

Definition awsConfigOf (cfg : BackendConfig) : AwsConfig :=
  let endpoint := be_S3Endpoint cfg in
  if negb (String.eqb endpoint "") then
    mkAwsConfig (be_S3Region cfg) (be_S3AccessKey cfg) (be_S3SecretKey cfg)
      (Some endpoint) (Some (HasPrefix endpoint "http://")) (Some true) (Some true)
  else mkAwsConfig (be_S3Region cfg) (be_S3AccessKey cfg) (be_S3SecretKey cfg) None None None None.

(** [newSession] stands for [session.NewSession] and [s3.New]. *)
Definition NewS3Adapter (newSession : AwsConfig -> Res (S3Client W)) (cfg : BackendConfig) : M (Res S3Adapter) :=
  if String.eqb (be_S3BucketName cfg) "" then ret (Err (EMsg "S3 bucket name is required"))
  else
    match newSession (awsConfigOf cfg) with
    | Err er => ret (Err (EWrap "failed to create AWS session" er))
    | Ok c =>
        wrap "failed to access S3 bucket" in _ <- sc_HeadBucket c (be_S3BucketName cfg);
        ret (Ok (mkS3Adapter c (be_S3BucketName cfg) (be_S3ServerSideEncryption cfg) (be_S3ACL cfg) (be_S3KMSKeyID cfg)))
    end.

(** ** Names *)

Definition pathToKey (path : string) : string := TrimPrefix path "/".

Definition keyToPath (key : string) : string :=
  if String.eqb key "" then "/" else if negb (HasPrefix key "/") then "/" +:+ key else key.

Definition isS3NotFound (err : gerr) : bool :=
  let errStr := errorText err in
  Contains errStr "NoSuchKey" || Contains errStr "NotFound" || Contains errStr "status code: 404".

Definition getContentType (path : string) : string :=
  let ext := ToLower (filepath_Ext path) in
  let has x := String.eqb ext x in
  if has ".html" || has ".htm" then "text/html"
  else if has ".css" then "text/css"
  else if has ".js" then "application/javascript"
  else if has ".json" then "application/json"
  else if has ".xml" then "application/xml"
  else if has ".pdf" then "application/pdf"
  else if has ".jpg" || has ".jpeg" then "image/jpeg"
  else if has ".png" then "image/png"
  else if has ".gif" then "image/gif"
  else if has ".svg" then "image/svg+xml"
  else if has ".txt" then "text/plain"
  else if has ".md" then "text/markdown"
  else "application/octet-stream".

Context (a : S3Adapter).

(** ** Files *)

Definition Open (ctx : Ctx) (path : string) : M (Res Reader) :=
  do r <- sc_GetObject (client a) (bucketName a) (pathToKey path);
  ret match r with
      | Ok body => Ok body
      | Err er => if isS3NotFound er then Err ErrNotFound else Err (EWrap "failed to get object from S3" er)
      end.

(** The fields that are set only when they are configured. *)
Definition attributesOf (path : string) : Attributes :=
  let nonEmpty x := if String.eqb x "" then None else Some x in
  mkAttributes
    (nonEmpty (serverSideEncryption a))
    (if String.eqb (serverSideEncryption a) "aws:kms" then nonEmpty (kmsKeyID a) else None)
    (nonEmpty (acl a))
    (nonEmpty (getContentType path)).

Definition Create (ctx : Ctx) (path : string) (reader : Reader) (size : Z) : M (Res unit) :=
  wrap "failed to put object to S3" in _ <-
    sc_Upload (client a) (mkUploadInput (bucketName a) (pathToKey path) reader (attributesOf path));
  ret (Ok tt).

Definition Update (ctx : Ctx) (path : string) (reader : Reader) (size : Z) : M (Res unit) := Create ctx path reader size.

Definition Delete (ctx : Ctx) (path : string) : M (Res unit) :=
  wrap "failed to delete object from S3" in _ <- sc_DeleteObject (client a) (bucketName a) (pathToKey path);
  ret (Ok tt).

Definition orZero (t : option Time) : Time := default 0%Z t.

Definition Stat (ctx : Ctx) (path : string) : M (Res Metadata) :=
  let key := pathToKey path in
  do r <- sc_HeadObject (client a) (bucketName a) key;
  ret match r with
      | Err er => if isS3NotFound er then Err ErrNotFound else Err (EWrap "failed to stat object in S3" er)
      | Ok result =>
          let t := orZero (ho_LastModified result) in
          Ok (mkMetadata 0 None (filepath_Base path) ("/" +:+ key) "file" (ho_ContentLength result) "0644" 1000 1000
                t t t "s3" false None None 0 0)
      end.

(** ** Directories *)

(** The prefix that the keys below a directory start with. *)
Definition directoryPrefix (path : string) : string :=
  let prefix := TrimPrefix path "/" in
  if negb (String.eqb prefix "") && negb (HasSuffix prefix "/") then prefix +:+ "/" else prefix.

(** The body of the loop over common prefixes; [clock] gives the times read for an entry. *)
Definition directoryEntry (clock : string -> Time * Time * Time) (prefix : string) (commonPrefix : option string)
  : option Metadata :=
  match commonPrefix with
  | None => None
  | Some p =>
      let dirName := TrimSuffix (TrimPrefix p prefix) "/" in
      if String.eqb dirName "" then None
      else
        let '(atime, mtime, ctime) := clock p in
        Some (mkMetadata 0 None dirName (keyToPath (TrimSuffix p "/")) "directory" 0 "0755" 1000 1000
                atime mtime ctime "s3" false None None 0 0)
  end.

(** The body of the loop over objects. *)
Definition fileEntry (prefix : string) (object : Object) : option Metadata :=
  match ob_Key object with
  | None => None
  | Some key =>
      if HasSuffix key "/" then None
      else
        let fileName := TrimPrefix key prefix in
        if String.eqb fileName "" || Contains fileName "/" then None
        else
          let t := orZero (ob_LastModified object) in
          Some (mkMetadata 0 None fileName (keyToPath key) "file" (ob_Size object) "0644" 1000 1000
                  t t t "s3" false None None 0 0)
  end.

Definition pageEntries (clock : string -> Time * Time * Time) (prefix : string) (result : ListOutput) : list Metadata :=
  (omap (directoryEntry clock prefix) (lo_CommonPrefixes result) ++ omap (fileEntry prefix) (lo_Contents result))%list.

(** The loop over the pages.  It ends with the page that names no next one; the
    model gives it a number of pages to stop at, and says so with an error that
    the code does not have. *)
Definition outOfPages : gerr := EMsg "out of pages".

Fixpoint listPages (fuel : nat) (clock : string -> Time * Time * Time) (prefix : string) (token : option string)
    (results : list Metadata) : M (Res (list Metadata)) :=
  match fuel with
  | O => ret (Err outOfPages)
  | S fuel =>
      wrap "failed to list objects in S3" in result <-
        sc_ListObjectsV2 (client a) (mkListInput (bucketName a) prefix "/" token);
      let results := (results ++ pageEntries clock prefix result)%list in
      match lo_NextContinuationToken result with
      | None => ret (Ok results)
      | Some t => listPages fuel clock prefix (Some t) results
      end
  end.

Definition ListDirectory (fuel : nat) (clock : string -> Time * Time * Time) (ctx : Ctx) (path : string)
  : M (Res (list Metadata)) :=
  listPages fuel clock (directoryPrefix path) None [].

Definition CreateDirectory (ctx : Ctx) (path : string) : M (Res unit) :=
  let key := pathToKey path in
  let key := if negb (HasSuffix key "/") then key +:+ "/" else key in
  wrap "failed to create directory marker in S3" in _ <- sc_PutObject (client a) (bucketName a) key (bytesReader "");
  ret (Ok tt).

Definition Close : Res unit := Ok tt.

(** The adapter as a [Storage]. *)
Definition s3Storage (fuel : nat) (clock : string -> Time * Time * Time) : Storage W :=
  mkStorage W Open Create Update Delete Stat (ListDirectory fuel clock) CreateDirectory.

End Adapter.
Arguments S3Adapter : clear implicits.

Example content_type : getContentType "/docs/Index.HTML" = "text/html" /\ getContentType "a.b/c" = "application/octet-stream".
Proof. split; reflexivity. Qed.

End S3.
