(* ===== verification/S3Spec.v ===== *)
(** * The S3 backend: what it promises

    [S3Laws] is what S3 documents about the calls the adapter makes, on the
    objects of one bucket: single calls are atomic, a failed write may or may not
    have happened, a listing with a delimiter rolls keys up and comes in pages.
    [S3Up] adds that the reads are answered, to a caller that may list the bucket
    (S3 answers a missing key with 404 only then). *)
From S2P Require Import Prelude GoStrings PathUtil Metadata Locks Backends Config S3 Engine EngineSpec HandlerSpec.
From Stdlib Require Import Ascii String.
Open Scope string_scope.
Open Scope bool_scope.
Open Scope go_scope.

Module S3Spec.
Import Engine S3.

Record Blob := mkBlob { bl_data : string; bl_attributes : Attributes; bl_modified : Time }.

(** ** Listings *)

(** The text before the first slash, if there is one. *)
Fixpoint untilSlash (s : string) : option string :=
  match s with
  | "" => None
  | String c r => if Ascii.eqb c slash then Some "" else String c <$> untilSlash r
  end.

Inductive Entry : Type :=
| Rolled (prefix : string)               (* a common prefix *)
| Content (key : string) (size : Z) (modified : Time).

#[global] Instance Entry_eq_dec : EqDecision Entry.
Proof. solve_decision. Defined.

(** How a key shows in a listing below a prefix with the delimiter slash: keys with
    a slash after the prefix are rolled up to the text through that slash. *)
Definition entryOfKey (prefix key : string) (b : Blob) : option Entry :=
  if HasPrefix key prefix then
    match untilSlash (TrimPrefix key prefix) with
    | Some name => Some (Rolled (prefix +:+ (name +:+ "/")))
    | None => Some (Content key (Z.of_nat (String.length (bl_data b))) (bl_modified b))
    end
  else None.

Definition listing (m : gmap string Blob) (prefix : string) (l : list Entry) : Prop :=
  NoDup l /\ forall e, e ∈ l <-> exists key b, m !! key = Some b /\ entryOfKey prefix key b = Some e.

(** A page that shows the entries. *)
Definition prefixOf (e : Entry) : option (option string) := match e with Rolled p => Some (Some p) | Content _ _ _ => None end.
Definition objectOf (e : Entry) : option Object :=
  match e with Rolled _ => None | Content k n t => Some (mkObject (Some k) n (Some t)) end.
Definition shows (out : ListOutput) (l : list Entry) : Prop :=
  lo_CommonPrefixes out = omap prefixOf l /\ lo_Contents out = omap objectOf l.

(** The text of an [awserr.RequestFailure] with status 404. *)
Definition requestFailure (code message requestID : string) : gerr :=
  EMsg (code +:+ (": " +:+ message +:+ (String "010" (String "009" "") +:+ ("status code: 404, request id: " +:+ requestID)))).

Section Laws.
Context {W : Type} (c : S3Client W) (bucket : string) (objects : W -> gmap string Blob).

Class S3Laws (entries : gmap string Blob -> string -> list Entry) (pos : string -> nat) : Prop := {
  law_get : forall k w w' r, sc_GetObject c bucket k w = (w', r) -> objects w' = objects w /\
    match r with
    | Ok rd => exists b, objects w !! k = Some b /\ (rd = bytesReader (bl_data b) \/ rd_err rd <> None)
    | Err _ => True
    end;
  law_head : forall k w w' r, sc_HeadObject c bucket k w = (w', r) -> objects w' = objects w /\
    match r with
    | Ok h => exists b, objects w !! k = Some b /\
        h = mkHeadOutput (Z.of_nat (String.length (bl_data b))) (Some (bl_modified b))
    | Err _ => True
    end;
  law_upload : forall k rd at' w w' r, sc_Upload c (mkUploadInput bucket k rd at') w = (w', r) ->
    (is_Ok r = false /\ objects w' = objects w) \/
    (rd_err rd = None /\ exists t, objects w' = <[k := mkBlob (rd_data rd) at' t]> (objects w));
  law_put : forall k rd w w' r, sc_PutObject c bucket k rd w = (w', r) ->
    (is_Ok r = false /\ objects w' = objects w) \/
    (rd_err rd = None /\ exists t, objects w' = <[k := mkBlob (rd_data rd) noAttributes t]> (objects w));
  law_delete : forall k w w' r, sc_DeleteObject c bucket k w = (w', r) ->
    (is_Ok r = false /\ objects w' = objects w) \/ objects w' = delete k (objects w);
  law_listing : forall m prefix, listing m prefix (entries m prefix);
  law_list : forall prefix token w w' r, sc_ListObjectsV2 c (mkListInput bucket prefix "/" token) w = (w', r) ->
    objects w' = objects w /\
    match r with
    | Err _ => True
    | Ok out =>
        let all := entries (objects w) prefix in
        let start := from_option pos 0 token in
        exists n, shows out (take n (drop start all)) /\
          match lo_NextContinuationToken out with
          | None => List.length all <= start + n
          | Some t => pos t = start + n /\ 0 < n /\ start + n < List.length all
          end
    end;
}.

Class S3Up : Prop := {
  up_get : forall k b w, objects w !! k = Some b -> exists w', sc_GetObject c bucket k w = (w', Ok (bytesReader (bl_data b)));
  up_get_absent : forall k w, objects w !! k = None ->
    exists w' m i, sc_GetObject c bucket k w = (w', Err (requestFailure "NoSuchKey" m i));
  up_head_absent : forall k w, objects w !! k = None ->
    exists w' m i, sc_HeadObject c bucket k w = (w', Err (requestFailure "NotFound" m i));
  up_list : forall i w, exists w' out, sc_ListObjectsV2 c i w = (w', Ok out);
}.
End Laws.

(** ** Storage of whole files

    The contract of a backend that keeps whole files under keys: reads change
    nothing and tell what is there, writes and deletions happen at once or not at
    all, and happened when they succeed. *)
Class FileStorage {W : Type} (st : Storage W) (key : string -> string) (files : W -> gmap string string) : Prop := {
  fs_Open : forall ctx p w w' r, sg_Open st ctx p w = (w', r) -> files w' = files w /\
    match r with
    | Ok rd => rd_err rd = None -> files w !! key p = Some (rd_data rd)
    | Err _ => True
    end;
  fs_Create : forall ctx p rd n w w' r, sg_Create st ctx p rd n w = (w', r) ->
    (is_Ok r = false /\ files w' = files w) \/ (rd_err rd = None /\ files w' = <[key p := rd_data rd]> (files w));
  fs_Update : forall ctx p rd n w w' r, sg_Update st ctx p rd n w = (w', r) ->
    (is_Ok r = false /\ files w' = files w) \/ (rd_err rd = None /\ files w' = <[key p := rd_data rd]> (files w));
  fs_Delete : forall ctx p w w' r, sg_Delete st ctx p w = (w', r) ->
    (is_Ok r = false /\ files w' = files w) \/ files w' = delete (key p) (files w);
  fs_Stat : forall ctx p w w' r, sg_Stat st ctx p w = (w', r) -> files w' = files w /\
    match r with
    | Ok md => md_Type md = "file" /\ exists d, files w !! key p = Some d /\ md_Size md = Z.of_nat (String.length d)
    | Err _ => True
    end;
}.

(** ** Keys and entries *)

Lemma untilSlash_Some s n : untilSlash s = Some n <-> no_slash n = true /\ exists rest, s = n +:+ ("/" +:+ rest).
Proof.
  revert n. induction s as [| c s IH]; intros n; cbn [untilSlash].
  - split; [done |]. intros [_ [rest H]]. destruct n; discriminate H.
  - destruct (Ascii.eqb_spec c slash) as [-> | Hc].
    + split.
      * intros [= <-]. split; [done |]. by exists s.
      * intros [Hn [rest H]]. destruct n as [| c' n]; [done |]. injection H as <- _. by rewrite no_slash_cons in Hn.
    + split.
      * intros H. destruct (untilSlash s) as [m |]; [| done]. injection H as <-.
        destruct (proj1 (IH m) eq_refl) as [Hm [rest ->]]. rewrite no_slash_cons, Hm.
        split; [| by exists rest]. destruct (Ascii.eqb_spec slash c); [by subst | done].
      * intros [Hn [rest H]]. destruct n as [| c' n]; cbn in H; [by injection H as -> _ |]. injection H as <- ->.
        rewrite no_slash_cons in Hn. to_prop. rewrite (proj2 (IH n)); [done |]. split; [done | by exists rest].
Qed.

Lemma untilSlash_None s : untilSlash s = None <-> no_slash s = true.
Proof.
  induction s as [| c s IH]; [done |]. cbn [untilSlash]. rewrite no_slash_cons.
  destruct (Ascii.eqb_spec c slash) as [-> | Hc]; [done |].
  destruct (Ascii.eqb_spec slash c); [by subst |]. cbn [negb andb]. rewrite <- IH.
  by destruct (untilSlash s).
Qed.

Lemma entry_Content prefix key b k n t :
  entryOfKey prefix key b = Some (Content k n t) <->
  k = key /\ n = Z.of_nat (String.length (bl_data b)) /\ t = bl_modified b /\
  exists name, no_slash name = true /\ key = prefix +:+ name.
Proof.
  unfold entryOfKey. split.
  - destruct (HasPrefix key prefix) eqn:Hp; [| done]. apply HasPrefix_inv in Hp as [name ->]. rewrite TrimPrefix_app.
    destruct (untilSlash name) eqn:E; [done |]. intros [= <- <- <-]. apply untilSlash_None in E. by eauto 7.
  - intros (-> & -> & -> & name & Hn & ->). rewrite HasPrefix_app, TrimPrefix_app.
    by rewrite (proj2 (untilSlash_None name) Hn).
Qed.

Lemma entry_Rolled prefix key b p :
  entryOfKey prefix key b = Some (Rolled p) <->
  exists name rest, no_slash name = true /\ p = prefix +:+ (name +:+ "/") /\ key = prefix +:+ (name +:+ ("/" +:+ rest)).
Proof.
  unfold entryOfKey. split.
  - destruct (HasPrefix key prefix) eqn:Hp; [| done]. apply HasPrefix_inv in Hp as [name ->]. rewrite TrimPrefix_app.
    destruct (untilSlash name) as [n |] eqn:E; [| done]. intros [= <-]. apply untilSlash_Some in E as [Hn [rest ->]]. by exists n, rest.
  - intros (name & rest & Hn & -> & ->). rewrite HasPrefix_app, TrimPrefix_app.
    rewrite (proj2 (untilSlash_Some (name +:+ ("/" +:+ rest)) name)); [done |]. eauto.
Qed.

Lemma length_omap_le {A B} (f : A -> option B) l : List.length (omap f l) <= List.length l.
Proof. induction l as [| x l IH]; [done |]. cbn. destruct (f x); cbn; lia. Qed.

(** A listing has no more entries than the bucket has objects. *)
Lemma listing_length m prefix l : listing m prefix l -> List.length l <= size m.
Proof.
  intros [Hnd Hl]. rewrite <- (length_map_to_list m).
  etrans; [| apply (length_omap_le (fun kb => entryOfKey prefix kb.1 kb.2) (map_to_list m))].
  apply submseteq_length, NoDup_submseteq; [done |]. intros e He.
  apply Hl in He as (key & b & Hb & He). apply list_elem_of_omap. exists (key, b). split; [by apply elem_of_map_to_list | done].
Qed.

Lemma no_slash_snoc r : no_slash (r +:+ "/") = false.
Proof. induction r as [| c r IH]; [done |]. cbn [String.append]. by rewrite no_slash_cons, IH, andb_false_r. Qed.

(** A name without slashes at the end of a key. *)
Lemma HasSuffix_name p n : no_slash n = true -> n <> "" -> HasSuffix (p +:+ n) "/" = false.
Proof.
  intros Hn H0. destruct (HasSuffix (p +:+ n) "/") eqn:E; [| done]. exfalso.
  unfold HasSuffix in E. to_prop. pose proof (PathUtils.str_take_drop (String.length (p +:+ n) - String.length "/") (p +:+ n)) as Ht.
  match goal with H : str_drop _ _ = _ |- _ => rewrite H in Ht; clear H end.
  revert Ht. generalize (str_take (String.length (p +:+ n) - String.length "/") (p +:+ n)). clear -Hn H0.
  induction p as [| c p IH]; intros [| d r]; cbn [String.append]; intros H.
  - rewrite <- H in Hn. discriminate Hn.
  - rewrite <- H in Hn. change (String d (r +:+ "/")) with (String d r +:+ "/") in Hn. by rewrite no_slash_snoc in Hn.
  - injection H as _ H. by destruct p, n.
  - injection H as _ H. by apply (IH r).
Qed.

Lemma NoDup_omap_by {A B C} (f : A -> option B) (g : B -> C) l :
  NoDup l -> (forall x y u v, x ∈ l -> y ∈ l -> f x = Some u -> f y = Some v -> g u = g v -> x = y) ->
  NoDup (g <$> omap f l).
Proof.
  induction 1 as [| x l Hx Hnd IH]; intros H; [constructor |]. cbn.
  assert (IH' : NoDup (g <$> omap f l)) by (apply IH; intros; eapply H; eauto using list_elem_of_further).
  destruct (f x) as [u |] eqn:E; [| done]. constructor; [| done]. intros Hin.
  apply list_elem_of_fmap in Hin as (v & Hg & Hv). apply list_elem_of_omap in Hv as (y & Hy & Hv).
  apply Hx. by rewrite (H x y u v); [| left | right | | |].
Qed.

(** ** The adapter *)

Lemma Contains_app s sub t : Contains s sub = true -> Contains (s +:+ t) sub = true.
Proof.
  revert t. induction s as [| c s IH]; intros t; cbn [Contains String.append].
  - intros H. destruct sub; [by destruct t | done].
  - intros H. apply orb_true_iff in H as [H | H]; apply orb_true_iff; [left | right; by apply IH].
    apply HasPrefix_inv in H as [r Hr]. change (String c (s +:+ t)) with (String c s +:+ t).
    by rewrite Hr, <- str_app_assoc, HasPrefix_app.
Qed.

(** The errors of S3 for a key that is not there are recognized. *)
Lemma isS3NotFound_absent code m i : code = "NoSuchKey" \/ code = "NotFound" -> isS3NotFound (requestFailure code m i) = true.
Proof.
  unfold isS3NotFound, requestFailure. cbn [errorText].
  intros [-> | ->]; [by rewrite (Contains_app "NoSuchKey" "NoSuchKey") |].
  by rewrite (Contains_app "NotFound" "NotFound"), orb_true_r.
Qed.

Section Adapter.
Context {W : Type} (a : S3Adapter W) (objects : W -> gmap string Blob)
        (entries : gmap string Blob -> string -> list Entry) (pos : string -> nat)
        {laws : S3Laws (client a) (bucketName a) objects entries pos}
        (fuel : nat) (clock : string -> Time * Time * Time).

Definition files (w : W) : gmap string string := bl_data <$> objects w.

Lemma files_same w w' : objects w' = objects w -> files w' = files w.
Proof. unfold files. by intros ->. Qed.
Hint Resolve files_same : core.

Lemma Open_files ctx p w w' r : Open a ctx p w = (w', r) -> files w' = files w /\
  match r with
  | Ok rd => rd_err rd = None -> files w !! pathToKey p = Some (rd_data rd)
  | Err _ => True
  end.
Proof.
  unfold Open, bind, ret. destruct (sc_GetObject _ _ _ w) as [w1 r1] eqn:E. intros [= <- <-].
  destruct (law_get _ _ objects _ _ _ _ E) as [Hw H]. split; [auto |]. unfold files. rewrite lookup_fmap. destruct r1 as [rd | er].
  - destruct H as (b & -> & [-> | Hr]); [done |]. by intros ?.
  - by destruct (isS3NotFound er).
Qed.

Lemma Stat_files ctx p w w' r : Stat a ctx p w = (w', r) -> files w' = files w /\
  match r with
  | Ok md => md_Type md = "file" /\ exists d, files w !! pathToKey p = Some d /\ md_Size md = Z.of_nat (String.length d)
  | Err _ => True
  end.
Proof.
  unfold Stat, bind, ret. destruct (sc_HeadObject _ _ _ w) as [w1 r1] eqn:E. intros [= <- <-].
  destruct (law_head _ _ objects _ _ _ _ E) as [Hw H]. split; [auto |]. unfold files. rewrite lookup_fmap.
  destruct r1 as [h | er].
  - destruct H as (b & -> & ->). by eauto.
  - by destruct (isS3NotFound er).
Qed.

(** A write or a deletion with its error wrapped. *)
Lemma wrapped (m : St W (Res unit)) msg (P Q : W -> W -> Prop) :
  (forall w w' r, m w = (w', r) -> (is_Ok r = false /\ P w w') \/ Q w w') ->
  forall w w' r, (try_bind m (EWrap msg) (fun _ => ret (Ok tt))) w = (w', r) -> (is_Ok r = false /\ P w w') \/ Q w w'.
Proof using Type.
  intros Hm w w' r. unfold try_bind, ret. destruct (m w) as [w1 [u | er]] eqn:E; intros [= <- <-];
    destruct (Hm _ _ _ E) as [[Hr Hp] | Hq]; auto; discriminate Hr.
Qed.

(** What Create and Update store, with the attributes of the configuration. *)
Lemma Create_objects ctx p rd n w w' r : Create a ctx p rd n w = (w', r) ->
  (is_Ok r = false /\ objects w' = objects w) \/
  (rd_err rd = None /\ exists t, objects w' = <[pathToKey p := mkBlob (rd_data rd) (attributesOf a p) t]> (objects w)).
Proof.
  unfold Create. apply (wrapped _ _ (fun w w' => objects w' = objects w) (fun w w' => rd_err rd = None /\
    exists t, objects w' = <[pathToKey p := mkBlob (rd_data rd) (attributesOf a p) t]> (objects w))).
  intros. by eapply (law_upload _ _ objects).
Qed.

Lemma CreateDirectory_objects ctx p w w' r : CreateDirectory a ctx p w = (w', r) ->
  let key := if HasSuffix (pathToKey p) "/" then pathToKey p else pathToKey p +:+ "/" in
  (is_Ok r = false /\ objects w' = objects w) \/ exists t, objects w' = <[key := mkBlob "" noAttributes t]> (objects w).
Proof.
  unfold CreateDirectory. cbv zeta. rewrite if_negb. set (key := if HasSuffix _ _ then _ else _).
  apply (wrapped _ _ (fun w w' => objects w' = objects w) (fun w w' => exists t, objects w' = <[key := mkBlob "" noAttributes t]> (objects w))).
  intros w0 w1 r0 H. destruct (law_put _ _ objects _ _ _ _ _ H) as [? | [_ ?]]; auto.
Qed.

Lemma Delete_objects ctx p w w' r : Delete a ctx p w = (w', r) ->
  (is_Ok r = false /\ objects w' = objects w) \/ objects w' = delete (pathToKey p) (objects w).
Proof.
  unfold Delete. apply (wrapped _ _ (fun w w' => objects w' = objects w) (fun w w' => objects w' = delete (pathToKey p) (objects w))).
  intros. by eapply (law_delete _ _ objects).
Qed.

Lemma Create_files ctx p rd n w w' r : Create a ctx p rd n w = (w', r) ->
  (is_Ok r = false /\ files w' = files w) \/ (rd_err rd = None /\ files w' = <[pathToKey p := rd_data rd]> (files w)).
Proof.
  intros H. apply Create_objects in H as [[Hr H] | [Hr [t H]]]; [left; auto | right; split; [done |]].
  unfold files. by rewrite H, fmap_insert.
Qed.

Lemma Delete_files ctx p w w' r : Delete a ctx p w = (w', r) ->
  (is_Ok r = false /\ files w' = files w) \/ files w' = delete (pathToKey p) (files w).
Proof.
  intros H. apply Delete_objects in H as [[Hr H] | H]; [left; auto | right].
  unfold files. by rewrite H, fmap_delete.
Qed.

(** Reads of a bucket that answers them. *)
Lemma Open_up ctx p w : S3Up (client a) (bucketName a) objects ->
  exists w', Open a ctx p w = (w', match files w !! pathToKey p with Some d => Ok (bytesReader d) | None => Err ErrNotFound end).
Proof using Type.
  intros Hup. unfold Open, bind, ret, files. rewrite lookup_fmap. destruct (objects w !! pathToKey p) as [b |] eqn:E.
  - destruct (up_get (client a) (bucketName a) objects _ _ _ E) as [w' ->]. by exists w'.
  - destruct (up_get_absent (client a) (bucketName a) objects _ _ E) as (w' & m & i & ->).
    exists w'. by rewrite isS3NotFound_absent by auto.
Qed.

Lemma Stat_absent ctx p w : S3Up (client a) (bucketName a) objects -> files w !! pathToKey p = None ->
  exists w', Stat a ctx p w = (w', Err ErrNotFound).
Proof using Type.
  unfold files. rewrite lookup_fmap. intros Hup H%fmap_None. unfold Stat, bind, ret.
  destruct (up_head_absent (client a) (bucketName a) objects _ _ H) as (w' & m & i & ->).
  exists w'. by rewrite isS3NotFound_absent by auto.
Qed.


(** An object whose encryption key is gone is not missing, but S3 answers a read
    with a code that contains one of the adapter's marks, so it is reported so. *)
Lemma s3_present_not_found ctx p w w' m i :
  sc_GetObject (client a) (bucketName a) (pathToKey p) w =
    (w', Err (EMsg ("KMS.NotFoundException: " +:+ m +:+ i))) ->
  Open a ctx p w = (w', Err ErrNotFound).
Proof using Type.
  intros H. unfold Open, bind, ret. rewrite H. unfold isS3NotFound. cbn [errorText].
  by rewrite (Contains_app "KMS.NotFoundException: " "NotFound"), orb_true_r.
Qed.

(** ** Listing a directory *)

Definition entryMetadata (prefix : string) (e : Entry) : option Metadata :=
  match e with
  | Rolled p => directoryEntry clock prefix (Some p)
  | Content k n t => fileEntry prefix (mkObject (Some k) n (Some t))
  end.

Lemma shows_entries prefix out l : shows out l -> pageEntries clock prefix out ≡ₚ omap (entryMetadata prefix) l.
Proof using Type.
  intros [Hp Ho]. unfold pageEntries. rewrite Hp, Ho. clear. induction l as [| [p | k n t] l IH]; [done | |].
  - cbn -[directoryEntry]. destruct (directoryEntry clock prefix (Some p)); cbn; [by rewrite IH | done].
  - cbn -[fileEntry]. destruct (fileEntry prefix _); cbn; [| done]. by rewrite <- Permutation_middle, IH.
Qed.

(** The loop collects the entries that are left, in at most as many pages. *)
Lemma listPages_spec `{!S3Up (client a) (bucketName a) objects} prefix f token results w :
  let all := entries (objects w) prefix in let start := from_option pos 0 token in
  start <= List.length all -> List.length all - start < f ->
  exists w' mds, listPages a f clock prefix token results w = (w', Ok mds) /\ objects w' = objects w /\
    mds ≡ₚ results ++ omap (entryMetadata prefix) (drop start all).
Proof.
  revert token results w. induction f as [| f IH]; intros token results w all start Hs Hf; [lia |]. cbn [listPages]. unfold try_bind.
  destruct (up_list (client a) (bucketName a) objects (mkListInput (bucketName a) prefix "/" token) w) as (w1 & out & E). rewrite E.
  destruct (law_list _ _ objects _ _ _ _ _ E) as [Hw (n & Hn & Hnext)]. apply (shows_entries prefix) in Hn.
  fold all start in Hn, Hnext. rewrite <- (take_drop n (drop start all)), omap_app, drop_drop.
  destruct (lo_NextContinuationToken out) as [t |].
  - destruct Hnext as (Hpos & Hn0 & Hlt).
    destruct (IH (Some t) (results ++ pageEntries clock prefix out)%list w1) as (w' & mds & Hr & Hw' & Hm).
    + cbn [from_option]. rewrite Hw, Hpos. fold all. lia.
    + cbn [from_option]. rewrite Hw, Hpos. fold all. lia.
    + exists w', mds. split; [done |]. split; [by rewrite Hw' |].
      rewrite Hm. cbn [from_option]. rewrite Hw, Hpos, Hn. fold all. by rewrite <- app_assoc.
  - exists w1, (results ++ pageEntries clock prefix out)%list. split; [done |]. split; [done |].
    rewrite Hn, (drop_ge all (start + n)) by lia. cbn. by rewrite app_nil_r.
Qed.

Definition dirRecord (prefix name : string) : Metadata :=
  let '(atime, mtime, ctime) := clock (prefix +:+ (name +:+ "/")) in
  mkMetadata 0 None name (keyToPath (prefix +:+ name)) "directory" 0 "0755" 1000 1000 atime mtime ctime "s3" false None None 0 0.
Definition fileRecord (prefix name : string) (n : Z) (t : Time) : Metadata :=
  mkMetadata 0 None name (keyToPath (prefix +:+ name)) "file" n "0644" 1000 1000 t t t "s3" false None None 0 0.

Lemma rolled_md prefix name :
  entryMetadata prefix (Rolled (prefix +:+ (name +:+ "/"))) = if String.eqb name "" then None else Some (dirRecord prefix name).
Proof using Type.
  cbn [entryMetadata directoryEntry]. rewrite TrimPrefix_app, TrimSuffix_app, str_app_assoc, TrimSuffix_app, <- str_app_assoc.
  destruct (String.eqb name ""); [done |]. unfold dirRecord. by destruct (clock _) as [[? ?] ?].
Qed.

Lemma content_md prefix name n t : no_slash name = true ->
  entryMetadata prefix (Content (prefix +:+ name) n t) = if String.eqb name "" then None else Some (fileRecord prefix name n t).
Proof using Type.
  intros Hn. cbn [entryMetadata]. unfold fileEntry. cbn [ob_Key ob_Size ob_LastModified]. rewrite TrimPrefix_app.
  destruct (String.eqb_spec name "") as [-> | H0]; [by destruct (HasSuffix _ _) |].
  rewrite HasSuffix_name by done. cbn [orb]. unfold no_slash in Hn. by destruct (Contains name "/").
Qed.

(** What is directly below a prefix: a file, or a directory that some key is below. *)
Inductive below (m : gmap string Blob) (prefix : string) : Metadata -> Prop :=
| below_file name b : name <> "" -> no_slash name = true -> m !! (prefix +:+ name) = Some b ->
    below m prefix (fileRecord prefix name (Z.of_nat (String.length (bl_data b))) (bl_modified b))
| below_dir name rest b : name <> "" -> no_slash name = true -> m !! (prefix +:+ (name +:+ ("/" +:+ rest))) = Some b ->
    below m prefix (dirRecord prefix name).

Lemma listed_below m prefix md :
  md ∈ omap (entryMetadata prefix) (entries m prefix) <-> below m prefix md.
Proof.
  destruct (law_listing _ _ objects m prefix) as [_ Hl]. rewrite list_elem_of_omap. split.
  - intros (e & He & Hm). apply Hl in He as (key & b & Hb & He). destruct e as [p | k n t].
    + apply entry_Rolled in He as (name & rest & Hn & -> & ->). rewrite rolled_md in Hm.
      destruct (String.eqb_spec name ""); [done |]. injection Hm as <-. by econstructor.
    + apply entry_Content in He as (-> & -> & -> & name & Hn & ->). rewrite content_md in Hm by done.
      destruct (String.eqb_spec name ""); [done |]. injection Hm as <-. by constructor.
  - intros [name b H0 Hn Hb | name rest b H0 Hn Hb].
    + exists (Content (prefix +:+ name) (Z.of_nat (String.length (bl_data b))) (bl_modified b)). split.
      * apply Hl. exists (prefix +:+ name), b. split; [done |]. apply entry_Content. by eauto 7.
      * rewrite content_md by done. by destruct (String.eqb_spec name "").
    + exists (Rolled (prefix +:+ (name +:+ "/"))). split.
      * apply Hl. exists (prefix +:+ (name +:+ ("/" +:+ rest))), b. split; [done |]. apply entry_Rolled. by eauto 7.
      * rewrite rolled_md. by destruct (String.eqb_spec name "").
Qed.

Lemma dirRecord_fields prefix name : md_Type (dirRecord prefix name) = "directory" /\ md_Name (dirRecord prefix name) = name.
Proof using Type. unfold dirRecord. by destruct (clock _) as [[? ?] ?]. Qed.

(** No name is listed twice with the same type. *)
Lemma listed_once m prefix :
  NoDup ((fun md => (md_Type md, md_Name md)) <$> omap (entryMetadata prefix) (entries m prefix)).
Proof.
  destruct (law_listing _ _ objects m prefix) as [Hnd Hl]. apply NoDup_omap_by; [done |].
  intros e e' md md' He He' Hm Hm' [= Ht Hname]. apply Hl in He as (key & b & Hb & He), He' as (key' & b' & Hb' & He').
  assert (Hcase : forall key b e md, entryOfKey prefix key b = Some e -> entryMetadata prefix e = Some md ->
    (md_Type md = "directory" /\ e = Rolled (prefix +:+ (md_Name md +:+ "/"))) \/
    (md_Type md = "file" /\ key = prefix +:+ md_Name md /\
     e = Content key (Z.of_nat (String.length (bl_data b))) (bl_modified b))).
  { clear. intros key b [p | k n t] md He Hm.
    - apply entry_Rolled in He as (name & rest & _ & -> & _). rewrite rolled_md in Hm.
      destruct (String.eqb name ""); [done |]. injection Hm as <-. left. destruct (dirRecord_fields prefix name) as [-> ->]. done.
    - apply entry_Content in He as (-> & -> & -> & name & Hn & ->). rewrite content_md in Hm by done.
      destruct (String.eqb name ""); [done |]. injection Hm as <-. by right. }
  destruct (Hcase _ _ _ _ He Hm) as [[Ty Hx] | (Ty & Hk & Hx)], (Hcase _ _ _ _ He' Hm') as [[Ty' Hx'] | (Ty' & Hk' & Hx')];
    rewrite Ty, Ty' in Ht; try discriminate Ht; rewrite Hx, Hx'; [by rewrite Hname |].
  rewrite Hname in Hk. rewrite <- Hk' in Hk. subst key'. by simplify_eq.
Qed.


(** The marker of a directory has a slash at its end, which Delete does not add:
    a deleted directory stays in the bucket. *)
Lemma s3_deleted_directory_stays ctx ctx' p w w1 w2 :
  HasSuffix (pathToKey p) "/" = false -> CreateDirectory a ctx p w = (w1, Ok tt) -> Delete a ctx' p w1 = (w2, Ok tt) ->
  is_Some (objects w2 !! (pathToKey p +:+ "/")).
Proof.
  intros Hs Hc Hd. apply CreateDirectory_objects in Hc as [[[=] _] | [t Hc]]. rewrite Hs in Hc.
  apply Delete_objects in Hd as [[[=] _] | ->]. rewrite lookup_delete_ne, Hc, lookup_insert_eq; [done |].
  intros H. by rewrite H, HasSuffix_app in Hs.
Qed.

(** ** The engine over a bucket *)

Section Primary.
Context (e : Engine W) (Hs3 : e_s3Backend e = s3Storage a fuel clock)
        `{!S3Up (client a) (bucketName a) objects}.

Definition content (w : W) (p : string) : option string := files w !! pathToKey p.

Context (Hlock : forall k, HandlerSpec.files_quiet content (lm_Release (e_lockManager e) k))
        (Hcreate : forall md, HandlerSpec.files_quiet content (st_Create (e_metadataStore e) md))
        (Hupdate : forall md, HandlerSpec.files_quiet content (st_Update (e_metadataStore e) md))
        (Hreplica : forall rb, replicaTarget e "s3" = Some rb ->
           (forall ctx p rd n, HandlerSpec.files_quiet content (sg_Create (selectBackendByType e rb) ctx p rd n)) /\
           (forall ctx p rd n, HandlerSpec.files_quiet content (sg_Update (selectBackendByType e rb) ctx p rd n))).

(** The bucket is a backend as the transfer of files through the handlers needs
    it, when the other components leave it alone. *)
#[local] Instance s3_content_env : HandlerSpec.ContentEnv e "s3" content.
Proof using All.
  assert (Hw : forall ctx p rd n w w', Create a ctx p rd n w = (w', Ok tt) -> rd_err rd = None /\ content w' p = Some (rd_data rd)).
  { intros ctx p rd n w w' H. apply Create_files in H as [[[=] _] | [Hr Hf]]. split; [done |].
    unfold content. rewrite Hf. apply lookup_insert_eq. }
  assert (Hb : selectBackendByType e "s3" = s3Storage a fuel clock) by exact Hs3.
  split; try exact Hreplica; try rewrite Hb; auto.
  - intros ctx p d w. unfold content, files. rewrite lookup_fmap. intros H. cbn [s3Storage sg_Open]. unfold Open, bind, ret.
    destruct (objects w !! pathToKey p) as [b |] eqn:E; [| done]. injection H as <-.
    destruct (up_get (client a) (bucketName a) objects _ _ _ E) as [w' ->]. by exists w'.
  - intros ctx p w w' r H. destruct (Open_files ctx p w w' r H) as [Hf _]. unfold content. by rewrite Hf.
Qed.

End Primary.

End Adapter.

(** ** A concrete bucket

    One bucket as a map, with pages of two entries; the token of a page has the
    length of the position it starts at. *)

Definition bucketClock : Time := 1700000000000000000%Z.

Fixpoint dots (n : nat) : string := match n with O => "" | S n => String "." (dots n) end.

Definition bucketEntries (m : gmap string Blob) (prefix : string) : list Entry :=
  remove_dups (omap (fun kb => entryOfKey prefix kb.1 kb.2) (map_to_list m)).

Definition bucketPage (i : ListInput) (m : gmap string Blob) : ListOutput :=
  let all := bucketEntries m (li_Prefix i) in
  let start := from_option String.length 0 (li_ContinuationToken i) in
  let page := take 2 (drop start all) in
  mkListOutput (omap prefixOf page) (omap objectOf page)
    (if decide (start + 2 < List.length all) then Some (dots (start + 2)) else None).

Definition storeBlob (k : string) (rd : Reader) (at' : Attributes) : St (gmap string Blob) (Res unit) := fun m =>
  match rd_err rd with Some er => (m, Err er) | None => (<[k := mkBlob (rd_data rd) at' bucketClock]> m, Ok tt) end.

Definition bucketClient : S3Client (gmap string Blob) :=
  mkS3Client _ (fun _ => ret (Ok tt))
    (fun _ k m => (m, match m !! k with Some b => Ok (bytesReader (bl_data b)) | None => Err (requestFailure "NoSuchKey" "" "1") end))
    (fun u => storeBlob (ui_Key u) (ui_Body u) (ui_Attributes u))
    (fun _ k rd => storeBlob k rd noAttributes)
    (fun _ k m => (delete k m, Ok tt))
    (fun _ k m => (m, match m !! k with
                      | Some b => Ok (mkHeadOutput (Z.of_nat (String.length (bl_data b))) (Some (bl_modified b)))
                      | None => Err (requestFailure "NotFound" "" "1") end))
    (fun i m => (m, Ok (bucketPage i m))).

Definition bucketAdapter : S3Adapter (gmap string Blob) := mkS3Adapter bucketClient "files" "aws:kms" "" "key-1".

Lemma storeBlob_law k rd at' m m' r : storeBlob k rd at' m = (m', r) ->
  (is_Ok r = false /\ m' = m) \/ (rd_err rd = None /\ exists t, m' = <[k := mkBlob (rd_data rd) at' t]> m).
Proof. unfold storeBlob. destruct (rd_err rd); intros [= <- <-]; [by left | right]. split; [done |]. by eexists. Qed.

Lemma dots_length n : String.length (dots n) = n.
Proof. induction n as [| n IH]; [done |]. cbn. by rewrite IH. Qed.

#[global] Instance bucket_laws : S3Laws bucketClient "files" id bucketEntries String.length.
Proof.
  split; cbn [bucketClient sc_GetObject sc_HeadObject sc_Upload sc_PutObject sc_DeleteObject sc_ListObjectsV2].
  - intros k w w' r [= <- <-]. split; [done |]. unfold id. by destruct (w !! k); eauto.
  - intros k w w' r [= <- <-]. split; [done |]. unfold id. by destruct (w !! k); eauto.
  - intros k rd at' w w' r. apply storeBlob_law.
  - intros k rd w w' r. apply storeBlob_law.
  - intros k w w' r [= <- _]. by right.
  - intros m prefix. split; [apply NoDup_remove_dups |]. intros en. unfold bucketEntries.
    rewrite elem_of_remove_dups, list_elem_of_omap. split.
    + intros ([k b] & Hk & He). apply elem_of_map_to_list in Hk. by exists k, b.
    + intros (k & b & Hk & He). exists (k, b). split; [by apply elem_of_map_to_list | done].
  - intros prefix token w w' r [= <- <-]. split; [done |]. cbv zeta. exists 2. split; [done |].
    cbn [bucketPage lo_NextContinuationToken li_Prefix li_ContinuationToken]. unfold id.
    destruct (decide _); [| lia]. rewrite dots_length. lia.
Qed.

#[global] Instance bucket_up : S3Up bucketClient "files" id.
Proof.
  split; cbn [bucketClient sc_GetObject sc_HeadObject sc_ListObjectsV2]; unfold id.
  - intros k b w ->. by eexists.
  - intros k w ->. by eexists _, "", "1".
  - intros k w ->. by eexists _, "", "1".
  - intros i w. by eexists _, _.
Qed.

Definition bucketTimes (p : string) : Time * Time * Time := (bucketClock, bucketClock, bucketClock).


(** A directory marker, a file, a directory with two files, and a file elsewhere. *)
Definition bucketSample : gmap string Blob :=
  let blob d := mkBlob d noAttributes bucketClock in
  <["d/" := blob ""]> (<["d/a" := blob "abc"]> (<["d/sub/x" := blob "1"]> (<["d/sub/y" := blob "2"]> (<["e" := blob "3"]> ∅)))).


Example bucketSample_listed :
  (fun md => (md_Type md, md_Name md, md_Size md)) <$>
    match (ListDirectory bucketAdapter 9 bucketTimes background "/d" bucketSample).2 with Ok mds => mds | Err _ => [] end
  ≡ₚ [("directory", "sub", 0%Z); ("file", "a", 3%Z)].
Proof. vm_compute. first [reflexivity | apply Permutation_swap]. Qed.

End S3Spec.
