(* ===== verification/LogSanitize.v ===== *)
(** * What is written to the log: core/log/sanitize.go

    The mode of the package and the fields it sanitizes; SHA-256 is a parameter. *)
From S2P Require Import Prelude GoStrings Metadata Auth.
From Stdlib Require Import Ascii String.
Open Scope string_scope.
Open Scope bool_scope.

Module LogSanitize.

Inductive SanitizationMode : Type := ProductionMode | DevelopmentMode | DebugMode.

(** [init]: the mode that the value of CALLFS_LOG_MODE selects. *)
Definition initialMode (env : string) : SanitizationMode :=
  if String.eqb env "" then ProductionMode
  else if String.eqb (ToLower env) "production" then ProductionMode
  else if String.eqb (ToLower env) "development" then DevelopmentMode
  else if String.eqb (ToLower env) "debug" then DebugMode
  else ProductionMode.

Record LogFields := mkLogFields { Path : string; UserID : string; Backend : string; Size : Z; Operation : string }.

Section Sanitize.
Context (Sum256 : string -> string) (currentMode : SanitizationMode).

(** The first bytes of the hash, in hexadecimal. *)
Definition hashPrefix (n : nat) (s : string) : string := EncodeToString (str_take n (Sum256 s)).

Definition SanitizePath (path : string) : string :=
  if String.eqb path "" then ""
  else match currentMode with
       | ProductionMode => "hash:" +:+ hashPrefix 8 path
       | DevelopmentMode =>
           let len := Z.of_nat (String.length path) in
           if (len <=? 20)%Z then path else slice_to path 10 +:+ ("..." +:+ slice_from path (len - 7))
       | DebugMode => path
       end.

Definition SanitizeUserID (userID : string) : string :=
  if String.eqb userID "" then ""
  else match currentMode with
       | ProductionMode => "user_hash:" +:+ hashPrefix 6 userID
       | DevelopmentMode =>
           if (Z.of_nat (String.length userID) <=? 8)%Z then userID else slice_to userID 4 +:+ "****"
       | DebugMode => userID
       end.

Definition SanitizeBackendInfo (backendType : string) : string := backendType.

(** 64-bit arithmetic; the division of Go rounds towards zero. *)
Definition SanitizeSize (size : Z) : Z :=
  match currentMode with
  | ProductionMode => Unix.int64 (Z.quot (Unix.int64 (size + 512)) 1024 * 1024)
  | DevelopmentMode | DebugMode => size
  end.

Definition Sanitize (lf : LogFields) : LogFields :=
  mkLogFields (SanitizePath (Path lf)) (SanitizeUserID (UserID lf)) (SanitizeBackendInfo (Backend lf))
    (SanitizeSize (Size lf)) (Operation lf).

End Sanitize.

(** What the log of a production server may depend on. *)
Definition visible (Sum256 : string -> string) (lf : LogFields) : bool * string * bool * string * string * Z * string :=
  (String.eqb (Path lf) "", str_take 8 (Sum256 (Path lf)), String.eqb (UserID lf) "", str_take 6 (Sum256 (UserID lf)),
   Backend lf, ((Size lf + 512) / 1024)%Z, Operation lf).

(** Unless the environment says otherwise, two requests that agree on the first
    bytes of the hashes of path and user and on the size to the kilobyte are logged
    alike, and the text logged for a path has 21 bytes at most. *)
Theorem log_production_hides Sum256 env lf lf' :
  ToLower env <> "development" -> ToLower env <> "debug" ->
  (0 <= Size lf < 2 ^ 62)%Z -> (0 <= Size lf' < 2 ^ 62)%Z -> visible Sum256 lf = visible Sum256 lf' ->
  Sanitize Sum256 (initialMode env) lf = Sanitize Sum256 (initialMode env) lf' /\
  String.length (Path (Sanitize Sum256 (initialMode env) lf)) <= 21 /\
  (Z.abs (Size (Sanitize Sum256 (initialMode env) lf) - Size lf) <= 512)%Z.
Proof.
  intros Hdev Hdbg Hs Hs' Hv. assert (Hm : initialMode env = ProductionMode).
  { unfold initialMode. destruct (String.eqb env ""); [done |]. destruct (String.eqb _ "production"); [done |].
    by destruct (String.eqb_spec (ToLower env) "development"), (String.eqb_spec (ToLower env) "debug"). }
  rewrite Hm. injection Hv as Hp Hh Hu Hk Hb Hz Ho.
  change (str_take 8 (Sum256 (Path lf)) = str_take 8 (Sum256 (Path lf'))) in Hh.
  change (str_take 6 (Sum256 (UserID lf)) = str_take 6 (Sum256 (UserID lf'))) in Hk.
  assert (Hsize : forall n, (0 <= n < 2 ^ 62)%Z -> SanitizeSize ProductionMode n = ((n + 512) / 1024 * 1024)%Z).
  { intros n Hn. unfold SanitizeSize, Unix.int64. rewrite (Z.mod_small (n + 512 + 2 ^ 63)) by lia.
    rewrite Z.add_simpl_r, Z.quot_div_nonneg by lia.
    pose proof (Z.mul_div_le (n + 512) 1024 eq_refl). pose proof (Z.div_pos (n + 512) 1024). rewrite Z.mod_small; lia. }
  split; [| split].
  - unfold Sanitize, SanitizePath, SanitizeUserID, SanitizeBackendInfo, hashPrefix.
    by rewrite Hp, Hh, Hu, Hk, Hb, Ho, !Hsize, Hz by done.
  - cbn [Sanitize Path]. unfold SanitizePath, hashPrefix. destruct (String.eqb (Path lf) ""); [cbn; lia |].
    rewrite str_length_app, EncodeToString_length. cbn [String.length].
    assert (H : forall n s, String.length (str_take n s) <= n)
      by (induction n as [| n IH]; intros [| c s]; cbn; [lia | lia | lia | specialize (IH s); lia]).
    specialize (H 8 (Sum256 (Path lf))). lia.
  - cbn [Sanitize Size]. rewrite Hsize by done. pose proof (Z_div_mod_eq_full (Size lf + 512) 1024).
    pose proof (Z.mod_pos_bound (Size lf + 512) 1024 eq_refl). lia.
Qed.

(** A toy hash of 32 bytes for concrete evaluations. *)
Definition toyHash (s : string) : string := str_take 32 (s +:+ "................................").

Lemma log_production_hides_witness :
  let lf := mkLogFields "/salaries/2024.csv" "api-user-1" "s3" 1000 "get" in
  let lf' := mkLogFields "/salaries/2025.csv" "api-user-1" "s3" 1200 "get" in
  Sanitize toyHash (initialMode "") lf = Sanitize toyHash (initialMode "") lf' /\
  String.length (Path (Sanitize toyHash (initialMode "") lf)) <= 21 /\
  (Z.abs (Size (Sanitize toyHash (initialMode "") lf) - Size lf) <= 512)%Z.
Proof.
  exact (log_production_hides toyHash "" (mkLogFields "/salaries/2024.csv" "api-user-1" "s3" 1000 "get")
    (mkLogFields "/salaries/2025.csv" "api-user-1" "s3" 1200 "get") ltac:(done) ltac:(done) ltac:(cbn; lia) ltac:(cbn; lia) eq_refl).
Defined.

(** The rounding wraps around for the largest sizes: the log shows a negative size. *)
Example size_wraps : (SanitizeSize ProductionMode (2 ^ 63 - 1) < 0)%Z.
Proof. reflexivity. Qed.

End LogSanitize.
