(* ===== verification/Server.v ===== *)
(** * The whole server: the root handler of cmd/main.go

    The router behind the muxes that add the internal endpoints: the shards when
    erasure coding is enabled, joining and applying commands when the metadata are
    in a Raft store.  [http.ServeMux] is modelled as far as two of them nested
    use it: cleaning of paths, redirects, subtree and exact patterns. *)
From S2P Require Import Prelude GoStrings Metadata Auth Locks Backends Erasure Json RaftStore RaftTextSpec RaftNode Engine Handlers HandlerSpec Startup RateLimit Router.
From Stdlib Require Import Ascii String.
Open Scope string_scope.
Open Scope bool_scope.
Open Scope go_scope.

Module Server.
Import Handlers Router.

(** ** http.ServeMux *)

(** [cleanPath] of net/http. *)
Definition cleanPath (p : string) : string :=
  if String.eqb p "" then "/"
  else
    let p := if HasPrefix p "/" then p else "/" +:+ p in
    let np := filepath_Clean p in
    if HasSuffix p "/" && negb (String.eqb np "/") then np +:+ "/" else np.

(** What the muxes answer: an answer of the file API, or that of an endpoint of the
    Raft store. *)
Inductive Answer : Type :=
| Plain (r : Response)
| Joined (r : Z * option Startup.JoinResponse)
| Applied (r : Z * option Raft.ForwardApplyResponse).

Definition answerStatus (a : Answer) : Z := match a with Plain r => rs_status r | Joined r => r.1 | Applied r => r.1 end.

Definition redirect (location : string) : Answer := Plain (mkResponse 301 [("Location", location)] BEmpty).

Section Mux.
Context {S : Type}.
Abbreviation Handler := (Incoming -> St S Answer).

(** A pattern that ends with a slash stands for the subtree. *)
Definition muxMatches (pattern path : string) : bool :=
  if HasSuffix pattern "/" then HasPrefix path pattern else String.eqb path pattern.

(** The patterns of the code do not overlap but with the fallback, so that the
    first that matches is the longest. *)
Fixpoint muxFind (patterns : list (string * Handler)) (path : string) : option Handler :=
  match patterns with
  | [] => None
  | (pattern, h) :: rest => if muxMatches pattern path then Some h else muxFind rest path
  end.

Definition mux (patterns : list (string * Handler)) (fallback : Handler) : Handler := fun i =>
  let path := if String.eqb (in_method i) "CONNECT" then in_path i else cleanPath (in_path i) in
  if existsb (fun ph => String.eqb (path +:+ "/") ph.1) patterns then ret (redirect (path +:+ "/"))
  else if negb (String.eqb path (in_path i)) then ret (redirect path)
  else default fallback (muxFind patterns path) i.

End Mux.

(** ** Recovery from panics *)

(** How a handler ends: with an answer, or with a panic after it wrote [written] (none:
    nothing yet). *)
Inductive Outcome : Type :=
| Returned (a : Answer)
| Panicked (written : option Answer).

(** After what was written, WriteHeader changes nothing. *)
Definition recoverMiddleware {S} (next : Incoming -> St S Outcome) : Incoming -> St S Answer := fun i =>
  do outcome <- next i;
  ret (match outcome with
       | Returned a => a
       | Panicked written => default (Plain (status 500)) written
       end).

(** A handler that does not panic. *)
Definition returns {S} (h : Incoming -> St S Answer) : Incoming -> St S Outcome := fun i =>
  do a <- h i; ret (Returned a).

Lemma recover_returns {S} (h : Incoming -> St S Answer) i s : recoverMiddleware (returns h) i s = h i s.
Proof. unfold recoverMiddleware, returns, bind, ret. by destruct (h i s). Qed.

(** ** The root handler *)

Section Server.
Context {W : Type} (codec : Json.Codec) (routerHandler : Incoming -> St (Engine.EState W) Response)
        (localFS : Storage W) (secret : string)
        (raftStore : option (RaftNode.RaftLib W * RaftNode.NodeEnv W))
        (decodeJoin : Reader -> option Startup.JoinRequest) (decodeCommand : Reader -> option Raft.Command)
        (ctxErr : option gerr).
Abbreviation M := (St (Engine.EState W)).

(** The endpoint on the world of the components: it does not touch the engine. *)
Definition shardAnswer (i : Incoming) : St W Response :=
  let r := withPath (in_path i) (in_request i) in
  match Startup.shardRoute (in_method i) with
  | Startup.StoreShard => InternalStoreShardHandler localFS secret r
  | Startup.GetShard => InternalGetShardHandler localFS secret r
  | Startup.DeleteShard => InternalDeleteShardHandler localFS secret r
  | Startup.MethodNotAllowed => ret (status 405)
  end.
Definition shardEndpoint (i : Incoming) : M Answer := do resp <- Engine.lift (shardAnswer i); ret (Plain resp).

(** Bodies of more than 1 MiB end in an error of the reader. *)
Definition maxInternalBody : Z := Z.shiftl 1 20.

Definition raftJoin (lib : RaftNode.RaftLib W) (nenv : RaftNode.NodeEnv W) (i : Incoming) : M Answer :=
  do r <- Engine.lift (Startup.joinEndpoint lib nenv secret (in_method i) (rq_header (in_request i) "Authorization")
                         (decodeJoin (maxBytes maxInternalBody (rq_body (in_request i)))) ctxErr);
  ret (Joined r).

Definition raftApply (lib : RaftNode.RaftLib W) (i : Incoming) : M Answer :=
  do r <- Engine.lift (RaftNode.applyEndpoint codec lib secret (in_method i) (rq_header (in_request i) "Authorization")
                         (decodeCommand (maxBytes maxInternalBody (rq_body (in_request i)))));
  ret (Applied r).

Definition routerAnswer (i : Incoming) : M Answer := do r <- routerHandler i; ret (Plain r).

Definition rootHandler (erasureEnabled : bool) : Incoming -> M Answer :=
  let h := routerAnswer in
  let h := if erasureEnabled then mux [("/v1/internal/shards/", recoverMiddleware (returns shardEndpoint))] h else h in
  match raftStore with
  | Some (lib, nenv) => mux [("/v1/internal/raft/join", recoverMiddleware (returns (raftJoin lib nenv)));
                             ("/v1/internal/raft/metadata/apply", recoverMiddleware (returns (raftApply lib)))] h
  | None => h
  end.

(** ** Complete mediation *)

(** The request carries the secret of the cluster, in the form that the shard or
    the Raft endpoints take it. *)
Definition internal (i : Incoming) : Prop :=
  let auth := rq_header (in_request i) "Authorization" in
  authorizeInternal auth secret = true \/ RaftNode.bearerSecret auth = secret.

(** An answer that refuses or redirects, with nothing changed. *)
Definition turnedAway (s s' : Engine.EState W) (a : Answer) : Prop :=
  s' = s /\ (300 <= answerStatus a < 500)%Z.

Definition guards (ok : Incoming -> Engine.EState W -> Prop) (h : Incoming -> M Answer) : Prop :=
  forall i s s' a, h i s = (s', a) -> turnedAway s s' a \/ internal i \/ ok i s.

Lemma guards_recover ok h : guards ok h -> guards ok (recoverMiddleware (returns h)).
Proof using Type. intros H i s s' a. rewrite recover_returns. apply H. Qed.

Lemma guards_mux ok patterns fallback :
  Forall (fun ph => guards ok ph.2) patterns -> guards ok fallback -> guards ok (mux patterns fallback).
Proof using Type.
  intros Hp Hf i s s' a. unfold mux. set (path := if String.eqb _ _ then _ else _).
  assert (Hr : forall l, ret (redirect l) s = (s', a) -> turnedAway s s' a)
    by (intros l [= <- <-]; split; [done | cbn; lia]).
  destruct (existsb _ _); [intros H; left; by eapply Hr |]. destruct (negb _); [intros H; left; by eapply Hr |].
  induction Hp as [| [pat h] ps Hh Hp IH]; cbn [muxFind default]; [apply Hf |].
  destruct (muxMatches pat path); [apply Hh | exact IH].
Qed.

Lemma guards_shards ok : guards ok shardEndpoint.
Proof using Type.
  intros i s s' a. unfold shardEndpoint, shardAnswer, bind, ret, internal.
  destruct (authorizeInternal (rq_header (in_request i) "Authorization") secret) eqn:E; [by auto |].
  assert (Hg : forall k, shardGuard secret (withPath (in_path i) (in_request i)) k (Engine.es_world s) =
    (Engine.es_world s, text 401 "unauthorized"))
    by (intros k; unfold shardGuard; cbn [withPath rq_header]; by rewrite E).
  intros H. left. revert H. destruct s as [w c].
  destruct (Startup.shardRoute (in_method i));
    unfold Engine.lift, InternalStoreShardHandler, InternalGetShardHandler, InternalDeleteShardHandler, ret; rewrite ?Hg;
    cbn [Engine.es_world Engine.es_cache]; intros [= <- <-]; (split; [done | cbn; lia]).
Qed.

Lemma guards_join ok lib nenv : guards ok (raftJoin lib nenv).
Proof using Type.
  intros i s s' a. unfold raftJoin, bind, ret, internal, Engine.lift, Startup.joinEndpoint.
  destruct (String.eqb_spec (RaftNode.bearerSecret (rq_header (in_request i) "Authorization")) secret) as [E | E]; [by auto |].
  intros H. left. revert H. destruct s as [w c]. destruct (negb (String.eqb (in_method i) "POST")); cbn;
    intros [= <- <-]; (split; [done | cbn; lia]).
Qed.

Lemma guards_apply ok lib : guards ok (raftApply lib).
Proof using Type.
  intros i s s' a. unfold raftApply, bind, ret, internal, Engine.lift, RaftNode.applyEndpoint.
  destruct (String.eqb_spec (RaftNode.bearerSecret (rq_header (in_request i) "Authorization")) secret) as [E | E]; [by auto |].
  intros H. left. revert H. destruct s as [w c]. destruct (negb (String.eqb (in_method i) "POST")); cbn;
    intros [= <- <-]; (split; [done | cbn; lia]).
Qed.

Lemma guards_root ok erasureEnabled : guards ok routerAnswer -> guards ok (rootHandler erasureEnabled).
Proof using Type.
  intros Hr. unfold rootHandler.
  assert (He : guards ok (if erasureEnabled then mux [("/v1/internal/shards/", recoverMiddleware (returns shardEndpoint))] routerAnswer else routerAnswer)).
  { destruct erasureEnabled; [| done]. apply guards_mux; [| done].
    constructor; [apply guards_recover, guards_shards | constructor]. }
  destruct raftStore as [[lib nenv] |]; [| done]. apply guards_mux; [| done].
  constructor; [apply guards_recover, guards_join |]. constructor; [apply guards_recover, guards_apply | constructor].
Qed.

End Server.

Section Mediation.
Context {W : Type} (codec : Json.Codec) (authn : Authenticator) (find : list Route -> string -> string -> option Route)
        (handle : HandlerName -> Request -> St (Engine.EState W) Response) (limit : HandlerName -> string -> St (Engine.EState W) bool)
        (localFS : Storage W) (secret : string) (raftStore : option (RaftNode.RaftLib W * RaftNode.NodeEnv W))
        (decodeJoin : Reader -> option Startup.JoinRequest) (decodeCommand : Reader -> option Raft.Command)
        (ctxErr : option gerr) `{!RouterLaws find}.

(** Whatever the handlers do and whichever endpoints the configuration adds, a
    request that carries neither an accepted token nor the secret of the cluster
    is turned away with nothing changed, unless it asks for the health of the server
    or for the download of a single-use link. *)
Theorem server_mediates erasure erasureEnabled i s s' a :
  rootHandler codec (dispatch authn find handle limit erasure) localFS secret raftStore decodeJoin decodeCommand ctxErr
    erasureEnabled i s = (s', a) ->
  turnedAway s s' a \/ internal secret i \/ authenticated authn i \/
  in_path i = "/health" \/ HasPrefix (in_path i) "/download/" = true.
Proof using All.
  apply (guards_root _ _ _ _ _ _ _ _ (fun i _ => authenticated authn i \/ in_path i = "/health" \/ HasPrefix (in_path i) "/download/" = true)).
  clear i s s' a. intros i s s' a. unfold routerAnswer, bind, ret.
  destruct (dispatch authn find handle limit erasure i s) as [s1 r] eqn:E. intros [= <- <-].
  destruct (dispatch_authenticates authn find handle limit _ _ _ _ _ E) as [[Ha | [[-> Hs] | Hp]] _]; [by auto | | by auto].
  left. split; [done |]. cbn [answerStatus]. lia.
Qed.

End Mediation.

(** ** A concrete server *)

Definition shard_intruder : Incoming :=
  mkIncoming "DELETE" "/v1/internal/shards/abc/0" "10.0.0.7:4000" true
    (mkRequest "" None (fun _ => "Bearer guess") (fun _ => "") (bytesReader "") 0) (Ok "01234567").

Definition server_run (i : Incoming) : Engine.EState HandlerSpec.EW * Answer :=
  rootHandler RaftTextSpec.lineCodec (dispatch HandlerSpec.ew_authn (fun rts m p => best m p rts) (fun _ _ => ret (status 200)) (fun _ _ => ret true) true)
    HandlerSpec.ewFiles "cluster" None (fun _ => None) (fun _ => None) None true i (HandlerSpec.ew0 ∅).

Lemma server_mediates_witness :
  turnedAway (HandlerSpec.ew0 ∅) (server_run shard_intruder).1 (server_run shard_intruder).2.
Proof.
  destruct (server_mediates RaftTextSpec.lineCodec HandlerSpec.ew_authn (fun rts m p => best m p rts) (fun _ _ => ret (status 200)) (fun _ _ => ret true)
    HandlerSpec.ewFiles "cluster" None (fun _ => None) (fun _ => None) None true true shard_intruder (HandlerSpec.ew0 ∅)
    _ _ (surjective_pairing (server_run shard_intruder))) as [H | [[H | H] | [(uid & H & _) | [H | H]]]];
    [exact H | discriminate H ..].
Defined.

(** A path with a doubled slash is redirected once a mux is in front of the router. *)
Example doubled_slash_redirected :
  (server_run (mkIncoming "GET" "/v1/files/a//b" "10.0.0.7:4000" true (in_request shard_intruder) (Ok "01234567"))).2
  = redirect "/v1/files/a/b".
Proof. reflexivity. Qed.

End Server.
