(* ===== verification/Metrics.v ===== *)
(** * Metrics: metrics/metrics.go and the code that counts

    The table of metric families, the calls on them as a trace of events, and the
    code that makes these calls: the middleware of the router, the handlers for GET
    and for directory listings, the link manager and CreateFile.  The counted
    versions are written with their calls; MetricsSpec.v shows that they
    answer what the versions without do.  The Prometheus library is a parameter with
    its documented behaviour. *)
From S2P Require Import Prelude GoStrings PathUtil Metadata Json Auth Links Backends Erasure Engine Handlers Router.
From Stdlib Require Import Ascii String.
Open Scope string_scope.
Open Scope bool_scope.
Open Scope go_scope.

Module Metrics.
Import Engine PathUtils Handlers.

(** ** The families of metrics.go *)

Inductive Kind : Type := Counter | Histogram | Gauge.
#[global] Instance Kind_eq_dec : EqDecision Kind.
Proof. solve_decision. Defined.

(** A family without labels has one series, the others ([Vec]) one for each list of values. *)
Record Family := mkFamily { fm_Kind : Kind; fm_Name : string; fm_labels : list string }.
#[global] Instance Family_eq_dec : EqDecision Family.
Proof. solve_decision. Defined.

Definition HTTPRequestsTotal : Family := mkFamily Counter "callfs_http_requests_total" ["method"; "path"; "status_code"].
Definition HTTPRequestDuration : Family := mkFamily Histogram "callfs_http_request_duration_seconds" ["method"; "path"].
Definition BackendOpsTotal : Family := mkFamily Counter "callfs_backend_ops_total" ["backend_type"; "operation"].
Definition BackendOpDuration : Family := mkFamily Histogram "callfs_backend_op_duration_seconds" ["backend_type"; "operation"].
Definition MetadataDBQueriesTotal : Family := mkFamily Counter "callfs_metadata_db_queries_total" ["operation"].
Definition MetadataDBQueryDuration : Family := mkFamily Histogram "callfs_metadata_db_query_duration_seconds" ["operation"].
Definition SingleUseLinkGenerationsTotal : Family := mkFamily Counter "callfs_single_use_link_generations_total" [].
Definition SingleUseLinkConsumptionsTotal : Family := mkFamily Counter "callfs_single_use_link_consumptions_total" ["status"].
Definition LockOperationsTotal : Family := mkFamily Counter "callfs_lock_operations_total" ["operation"; "status"].
Definition LockOperationDuration : Family := mkFamily Histogram "callfs_lock_operation_duration_seconds" ["operation"].
Definition ActiveLocks : Family := mkFamily Gauge "callfs_active_locks" [].
Definition FileOperationsTotal : Family := mkFamily Counter "callfs_file_operations_total" ["operation"; "backend_type"].
Definition ErrorsTotal : Family := mkFamily Counter "callfs_errors_total" ["component"; "error_type"].

(** In the order of their initialisation, in which promauto registers them. *)
Definition families : list Family :=
  [HTTPRequestsTotal; HTTPRequestDuration; BackendOpsTotal; BackendOpDuration; MetadataDBQueriesTotal;
   MetadataDBQueryDuration; SingleUseLinkGenerationsTotal; SingleUseLinkConsumptionsTotal; LockOperationsTotal;
   LockOperationDuration; ActiveLocks; FileOperationsTotal; ErrorsTotal].

(** ** Events

    [f.WithLabelValues(ls).Inc()] (or [f.Inc()]) and
    [f.WithLabelValues(ls).Observe(d.Seconds())]. *)
Inductive Event : Type :=
| Inc (f : Family) (ls : list string)
| Observe (f : Family) (ls : list string) (d : Duration).
#[global] Instance Event_eq_dec : EqDecision Event.
Proof. solve_decision. Defined.

Definition ev_family (ev : Event) : Family := match ev with Inc f _ | Observe f _ _ => f end.
Definition ev_labels (ev : Event) : list string := match ev with Inc _ ls | Observe _ ls _ => ls end.

(** The call is well formed: the family is registered and has as many labels as
    values are given, and its kind has the method.  What else it takes not to
    panic depends on the values ([validLabels] below). *)
Definition wellLabelled (ev : Event) : bool :=
  bool_decide (ev_family ev ∈ families) &&
  bool_decide (List.length (ev_labels ev) = List.length (fm_labels (ev_family ev))) &&
  match ev with
  | Inc f _ => bool_decide (fm_Kind f <> Histogram)
  | Observe f _ _ => bool_decide (fm_Kind f = Histogram)
  end.

(** How often a trace increments a series. *)
Definition incs (f : Family) (ls : list string) (t : list Event) : nat :=
  List.length (List.filter (fun ev => bool_decide (ev = Inc f ls)) t).

(** ** Code that counts: the state beside the trace *)

Abbreviation C S A := (St (S * list Event) A) (only parsing).

Definition emit {S} (ev : Event) : C S unit := fun '(s, t) => ((s, t ++ [ev])%list, tt).
Definition inc {S} (f : Family) (ls : list string) : C S unit := emit (Inc f ls).
(** A call of code that does not count. *)
Definition quietly {S A} (m : St S A) : C S A := fun '(s, t) => let '(s', a) := m s in ((s', t), a).

(** [start := time.Now(); defer func() { f.WithLabelValues(ls).Observe(time.Since(start).Seconds()) }()] *)
Definition timed {S A} (clock : S -> Time) (f : Family) (ls : list string) (m : C S A) : C S A :=
  do start <- quietly (gets clock);
  do a <- m;
  do stop <- quietly (gets clock);
  do _ <- emit (Observe f ls (stop - start)%Z);
  ret a.

(** ** The handlers *)

(** The answer of a handler that returns without writing: the status of the wrapped
    writer is then zero, and the server writes 200. *)
Definition unwritten : Response := mkResponse 0 [] BEmpty.
Definition finish (r : Response) : Response :=
  if (rs_status r =? 0)%Z then mkResponse 200 (rs_headers r) (rs_body r) else r.

Section Handlers.
Context {W : Type} (e : Engine W) (authorizer : Authorizer W) (fmtTime : Time -> string).
Abbreviation CM A := (C (EState W) A) (only parsing).

Definition counted (method path : string) (code : Z) : CM unit := inc HTTPRequestsTotal [method; path; Itoa code].
(** [metrics....Inc(); SendErrorResponse(w, logger, err, code); return] *)
Definition countedError (method path : string) (code : Z) (er : gerr) : CM Response :=
  do _ <- counted method path code; ret (SendErrorResponse er code).

(** The start of both handlers, up to the lookup of the record. *)
Definition countedRead (method label : string) (r : Request) (k : string -> Metadata -> CM Response) : CM Response :=
  let pathInfo := ParseFilePath (rq_urlPath r) in
  if IsInvalid pathInfo then countedError method label 400 (EMsg "invalid path")
  else match rq_userID r with
       | None => countedError method label 401 ErrAuthenticationFailed
       | Some userID =>
           let path := enginePath pathInfo in
           do authorized <- quietly (gets (fun s => authorizer userID path ReadPerm (es_world s)));
           match authorized with
           | Err er => countedError method label 403 er
           | Ok _ =>
               do found <- quietly (GetMetadata e path);
               match found with
               | Err er => countedError method label 404 er
               | Ok md => k path md
               end
           end
       end.

Definition countedPlainFile (method path : string) (md : Metadata) : CM Response :=
  do reader <- quietly (GetFile e background path);
  match reader with
  | Err er => countedError method "/files/*" 500 er
  | Ok data =>
      do _ <- counted method "/files/*" 200;
      do _ <- inc FileOperationsTotal ["read"; md_BackendType md];
      ret (octetStream (Itoa (md_Size md)) data (attrHeaders fmtTime "file" (Itoa (md_Size md)) md))
  end.

(** get_file.go, with its counts. *)
Definition V1GetFile (method : string) (r : Request) : CM Response :=
  timed (now e) HTTPRequestDuration [method; "/files/*"] (countedRead method "/files/*" r (fun path md =>
    if String.eqb (md_Type md) "file" then
      match e_erasureManager e with
      | Some em =>
          if md_ErasureCoded md then
            if String.eqb (rq_query r "manifest") "true" then
              do resp <- quietly (HandleErasureManifest em path);
              do _ <- counted method "/files/*" 200;
              ret resp
            else
              do resp <- quietly (HandleErasureDownload e em path);
              do _ <- counted method "/files/*" 200;
              do _ <- inc FileOperationsTotal ["read"; "erasure"];
              ret resp
          else countedPlainFile method path md
      | None => countedPlainFile method path md
      end
    else if String.eqb (md_Type md) "directory" then
      do children <- quietly (gets (ListDirectory e path));
      match children with
      | Err er => countedError method "/files/*" 500 er
      | Ok cs =>
          do _ <- counted method "/files/*" 200;
          ret (mkResponse 200 (("Content-Type", "application/json") :: attrHeaders fmtTime "directory" "0" md)
                 (BFiles (fileInfoOf fmtTime <$> cs)))
      end
    else ret unwritten)).

(** list_directory.go, with its counts. *)
Definition V1ListDirectory (method : string) (r : Request) : CM Response :=
  let label := "/api/directories/*" in
  let pathParam := if String.eqb (rq_urlPath r) "" then "/" else "/" +:+ rq_urlPath r in
  timed (now e) HTTPRequestDuration [method; label]
   (countedRead method label
     (mkRequest pathParam (rq_userID r) (rq_header r) (rq_query r) (rq_body r) (rq_contentLength r)) (fun path md =>
    if negb (String.eqb (md_Type md) "directory") then countedError method label 400 (EMsg "path is not a directory")
    else
      let recursive := String.eqb (rq_query r "recursive") "true" in
      let maxDepth := parseMaxDepth (rq_query r "max_depth") in
      do children <- quietly (gets (fun s => if recursive then ListDirectoryRecursive e path maxDepth s
                                             else ListDirectory e path s));
      match children with
      | Err er => countedError method label 500 er
      | Ok cs =>
          let items := fileInfoOf fmtTime <$> cs in
          let count := Z.of_nat (List.length items) in
          do _ <- counted method label 200;
          ret (mkResponse 200 [("Content-Type", "application/json"); ("X-CallFS-Type", "directory");
                               ("X-CallFS-Count", Itoa count);
                               ("X-CallFS-Recursive", if recursive then "true" else "false")]
                 (BListing (mkListing path "directory" recursive (if recursive then maxDepth else 0) count items)))
      end)).

(** CreateFile of core/file_operations.go: the deferred function counts whatever
    the outcome, with the backend that the record then names. *)
Definition CreateFile (ctx : Ctx) (path : string) (reader : Reader) (size : Z) (md : Metadata) : CM (Metadata * Res unit) :=
  do start <- quietly (gets (now e));
  do (md, r) <- quietly (Engine.CreateFile e ctx path reader size md);
  do _ <- inc FileOperationsTotal ["create"; md_BackendType md];
  do stop <- quietly (gets (now e));
  do _ <- emit (Observe BackendOpDuration [md_BackendType md; "create"] (stop - start)%Z);
  ret (md, r).

(** ** The middleware of the router *)

(** What the router does with the counting handlers; [routePattern] is
    [chi.RouteContext(...).RoutePattern()] once the request is served. *)
Context (authn : Authenticator) (find : list Router.Route -> string -> string -> option Router.Route)
        (other : Router.HandlerName -> Request -> CM Response)
        (limit : Router.HandlerName -> string -> St (EState W) bool) (erasure : bool)
        (routePattern : Router.Incoming -> string).

(** The two handlers that count are mounted for GET only. *)
Definition handlers (h : Router.HandlerName) : Request -> CM Response :=
  match h with
  | Router.GetFileH => V1GetFile "GET"
  | Router.ListDirectoryH => V1ListDirectory "GET"
  | _ => other h
  end.

Definition patternLabel (i : Router.Incoming) : string :=
  if String.eqb (routePattern i) "" then "unmatched" else routePattern i.

Definition metricsMiddleware (next : Router.Incoming -> CM Response) (i : Router.Incoming) : CM Response :=
  do start <- quietly (gets (now e));
  do ww <- next i;
  do stop <- quietly (gets (now e));
  do _ <- inc HTTPRequestsTotal [Router.in_method i; patternLabel i; Itoa (rs_status ww)];
  do _ <- emit (Observe HTTPRequestDuration [Router.in_method i; patternLabel i] (stop - start)%Z);
  ret ww.

Definition serve (i : Router.Incoming) : CM Response :=
  do ww <- metricsMiddleware (Router.dispatch authn find handlers (fun h a => quietly (limit h a)) erasure) i;
  ret (finish ww).

End Handlers.

(** ** The link manager *)

Section Links.
Context {W : Type} (store : Store W) (c : Links.Crypto) (secretKey : string).
Abbreviation CM A := (C W A) (only parsing).

Definition GenerateLink (randRead : Res string) (now now' : Time) (filePath : string) (expiryDuration : Duration)
    : CM (Res string) :=
  do r <- quietly (Links.GenerateLink store c secretKey randRead now now' filePath expiryDuration);
  match r with
  | Err er => ret (Err er)
  | Ok token => do _ <- inc SingleUseLinkGenerationsTotal []; ret (Ok token)
  end.

Definition consumption (status : string) : CM unit := inc SingleUseLinkConsumptionsTotal [status].

Definition ValidateAndInvalidateLink (now now' : Time) (token userIP : string) : CM (Res string) :=
  do got <- quietly (gets (st_GetSingleUseLink store token));
  match got with
  | Err er =>
      if errors_Is er ErrNotFound then do _ <- consumption "not_found"; ret (Err ErrLinkNotFound)
      else ret (Err (EWrap "failed to retrieve link" er))
  | Ok link =>
      if After now (lk_ExpiresAt link) then do _ <- consumption "expired"; ret (Err ErrLinkExpired)
      else if negb (String.eqb (lk_Status link) "active") then do _ <- consumption "invalid"; ret (Err ErrLinkInvalid)
      else if negb (Links.verifySignature c secretKey token (lk_FilePath link))
           then do _ <- consumption "invalid"; ret (Err ErrLinkInvalid)
      else
        do r <- quietly (st_UpdateSingleUseLink store token "used" (Some now') (Some userIP));
        match r with
        | Err _ => ret (Err ErrLinkInvalid)
        | Ok _ => do _ <- consumption "success"; ret (Ok (lk_FilePath link))
        end
  end.

End Links.

(** ** The Prometheus library

    A registry refuses what it cannot register or count: [None] is a panic of
    promauto or of the call. *)
Record Registry (R : Type) := mkRegistry {
  rg_new : R;
  rg_Register : Family -> R -> option R;
  rg_apply : Event -> R -> option R;
  rg_value : Family -> list string -> R -> nat;         (* of a series of a counter *)
  rg_observed : Family -> list string -> R -> nat;      (* the number of observations of a histogram *)
}.
Arguments rg_new {R}. Arguments rg_Register {R}. Arguments rg_apply {R}. Arguments rg_value {R}. Arguments rg_observed {R}.

(** The names that Prometheus takes: [[a-zA-Z_:][a-zA-Z0-9_:]*], for labels without
    the colon. *)
Definition nameStart (ch : ascii) : bool :=
  let n := nat_of_ascii ch in
  ((65 <=? n)%nat && (n <=? 90)%nat) || ((97 <=? n)%nat && (n <=? 122)%nat) || (n =? 95)%nat.
Definition nameChar (ch : ascii) : bool :=
  let n := nat_of_ascii ch in nameStart ch || ((48 <=? n)%nat && (n <=? 57)%nat).
Fixpoint allChars (p : ascii -> bool) (s : string) : bool :=
  match s with EmptyString => true | String ch s => p ch && allChars p s end.
Definition validName (s : string) : bool :=
  match s with EmptyString => false | String ch s => nameStart ch && allChars nameChar s end.

(** A family that can be registered: valid names, no label twice, no label that
    Prometheus keeps for itself. *)
Definition validFamily (f : Family) : bool :=
  validName (fm_Name f) && forallb validName (fm_labels f) && bool_decide (NoDup (fm_labels f)) &&
  forallb (fun l => negb (HasPrefix l "__")) (fm_labels f) &&
  (negb (bool_decide (fm_Kind f = Histogram)) || negb (bool_decide ("le" ∈ fm_labels f))).

(** The label values of a call are valid UTF-8, as the library asks for. *)
Definition validLabels (ev : Event) : Prop := Forall Json.utf8 (ev_labels ev).
#[global] Instance validLabels_dec ev : Decision (validLabels ev).
Proof. unfold validLabels. apply _. Defined.

(** The documented behaviour, given the families [fs] that were registered so far. *)
Class RegistryLaws {R} (rg : Registry R) (registered : R -> list Family) : Prop := {
  reg_new : registered (rg_new rg) = [] /\ forall f ls, rg_value rg f ls (rg_new rg) = 0;
  reg_Register : forall f r, validFamily f = true -> (forall g, g ∈ registered r -> fm_Name g <> fm_Name f) ->
    exists r', rg_Register rg f r = Some r' /\ registered r' = (registered r ++ [f])%list /\
      forall g ls, rg_value rg g ls r' = rg_value rg g ls r;
  reg_apply : forall ev r, ev_family ev ∈ registered r -> List.length (ev_labels ev) = List.length (fm_labels (ev_family ev)) ->
    validLabels ev ->
    exists r', rg_apply rg ev r = Some r' /\ registered r' = registered r /\
      forall g ls, rg_value rg g ls r' = rg_value rg g ls r + (if bool_decide (ev = Inc g ls) then 1 else 0);
}.

Section Registry.
Context {R : Type} (rg : Registry R).

Fixpoint registerAll (fs : list Family) (r : R) : option R :=
  match fs with
  | [] => Some r
  | f :: fs => match rg_Register rg f r with Some r' => registerAll fs r' | None => None end
  end.

(** The initialisation of the package, and a trace of calls. *)
Definition initMetrics : option R := registerAll families (rg_new rg).
Fixpoint applyAll (t : list Event) (r : R) : option R :=
  match t with
  | [] => Some r
  | ev :: t => match rg_apply rg ev r with Some r' => applyAll t r' | None => None end
  end.
End Registry.

End Metrics.
