(* ===== verification/MetricsSpec.v ===== *)
(** * What the metrics show

    The counting code answers what the code without counts does, no call on a
    metric panics, and what the series of the requests and of the links say. *)
From S2P Require Import Prelude GoStrings PathUtil Metadata MemStore Json Auth Links Backends Erasure Engine Handlers HandlerSpec Router Metrics.
From Stdlib Require Import Ascii String.
Open Scope string_scope.
Open Scope bool_scope.
Open Scope go_scope.

Module MetricsSpec.
Import Engine PathUtils Handlers Metrics.

(** ** The judgement

    [tracks m' m f Q]: [m'] does to the state what [m] does, its value gives that of [m]
    through [f], and it appends to the trace events that [Q] accepts for the state
    at the start and the value. *)
Definition tracks {S A B} (m' : C S A) (m : St S B) (f : A -> B) (Q : S -> A -> list Event -> Prop) : Prop :=
  forall s t, exists a evs, m' (s, t) = (((m s).1, (t ++ evs)%list), a) /\ f a = (m s).2 /\ Q s a evs.

Section Rules.
Context {S : Type}.
Implicit Types s : S.

Lemma tracks_weaken {A B} (m' : C S A) (m : St S B) f (Q Q' : S -> A -> list Event -> Prop) :
  tracks m' m f Q -> (forall s a evs, f a = (m s).2 -> Q s a evs -> Q' s a evs) -> tracks m' m f Q'.
Proof. intros H HQ s t. destruct (H s t) as (a & evs & E & Ea & Hq). exists a, evs. eauto. Qed.

Lemma tracks_ret {A B} (f : A -> B) (a : A) b (Q : S -> A -> list Event -> Prop) :
  f a = b -> (forall s, Q s a []) -> tracks (ret a) (ret b) f Q.
Proof. intros <- HQ s t. exists a, []. by rewrite app_nil_r. Qed.

Lemma tracks_quietly {A B} (m : St S A) (f : A -> B) (m0 : St S B) (Q : S -> A -> list Event -> Prop) :
  (forall s, m0 s = ((m s).1, f (m s).2)) -> (forall s, Q s (m s).2 []) -> tracks (quietly m) m0 f Q.
Proof.
  intros H HQ s t. unfold quietly. specialize (H s). specialize (HQ s). destruct (m s) as [s' a]. rewrite H. cbn in *.
  exists a, []. by rewrite app_nil_r.
Qed.

(** A quiet step of both, then the rest; the rest may use what the step answered. *)
Lemma tracks_step {A B B'} (m : St S A) (k' : A -> C S B) (k : A -> St S B') f (Q : S -> B -> list Event -> Prop) :
  (forall s a, (m s).2 = a -> tracks (k' a) (k a) f (fun _ b evs => Q s b evs)) ->
  tracks (bind (quietly m) k') (bind m k) f Q.
Proof.
  intros H s t. unfold bind, quietly. specialize (H s _ eq_refl). destruct (m s) as [s1 a]. exact (H s1 t).
Qed.
(** A look at the state that only the counting code takes. *)
Lemma tracks_look {A B B'} (g : S -> A) (k' : A -> C S B) (m : St S B') f (Q : S -> B -> list Event -> Prop) :
  (forall a, tracks (k' a) m f Q) -> tracks (bind (quietly (gets g)) k') m f Q.
Proof. intros H s t. exact (H (g s) s t). Qed.

(** The events of the first part go to the front. *)
Lemma tracks_bind {A A' B B'} (m' : C S A) (m : St S A') f1 (Q1 : S -> A -> list Event -> Prop)
    (k' : A -> C S B) (k : A' -> St S B') f (Q : S -> B -> list Event -> Prop) :
  tracks m' m f1 Q1 ->
  (forall s a evs, f1 a = (m s).2 -> Q1 s a evs -> tracks (k' a) (k (f1 a)) f (fun _ b evs' => Q s b (evs ++ evs')%list)) ->
  tracks (bind m' k') (bind m k) f Q.
Proof.
  intros Hm Hk s t. destruct (Hm s t) as (a & evs & E & Ea & Hq). unfold bind. rewrite E.
  destruct (Hk s a evs Ea Hq (m s).1 (t ++ evs)%list) as (b & evs' & E' & Eb & Hb).
  destruct (m s) as [s1 a1]. cbn in *. subst a1. exists b, (evs ++ evs')%list. by rewrite E', app_assoc.
Qed.

Lemma tracks_emit {B B'} ev (k' : C S B) (m : St S B') f (Q : S -> B -> list Event -> Prop) :
  tracks k' m f (fun s b evs => Q s b (ev :: evs)) -> tracks (bind (emit ev) (fun _ => k')) m f Q.
Proof.
  intros H s t. unfold bind, emit. destruct (H s (t ++ [ev])%list) as (b & evs & E & Eb & Hq).
  exists b, (ev :: evs). by rewrite E, <- app_assoc.
Qed.

(** The histogram of a handler comes last. *)
Lemma tracks_timed {A B} clock fam ls (m' : C S A) (m : St S B) f (Q : S -> A -> list Event -> Prop) :
  tracks m' m f (fun s a evs => forall d, Q s a (evs ++ [Observe fam ls d])%list) -> tracks (timed clock fam ls m') m f Q.
Proof.
  intros H s t. destruct (H s t) as (a & evs & E & Ea & Hq). unfold timed, bind, quietly, gets, emit, ret. rewrite E.
  eexists a, _. split; [by rewrite <- app_assoc |]. by split.
Qed.

End Rules.

(** ** The handlers *)

(** What a handler counts for its answer: nothing when it writes nothing; the code it
    hands to SendErrorResponse; and 200, which for an erasure-coded file says
    nothing about the answer. *)
Inductive countedAs (coded : Prop) : Response -> option Z -> Prop :=
| as_unwritten : countedAs coded unwritten None
| as_ok resp : rs_status resp = 200%Z -> countedAs coded resp (Some 200%Z)
| as_error er code : (code ∈ [400; 401; 403; 404; 500])%Z -> countedAs coded (SendErrorResponse er code) (Some code)
| as_erasure resp : coded -> countedAs coded resp (Some 200%Z).

(** The events of one request: at most one request, at most one read, and the duration. *)
Definition requestEvents (method label : string) (code : option Z) : list Event :=
  match code with Some c => [Inc HTTPRequestsTotal [method; label; Itoa c]] | None => [] end.
Definition reads (evs : list Event) : Prop := evs = [] \/ exists backend, evs = [Inc FileOperationsTotal ["read"; backend]].

Definition handlerEvents (coded : Prop) (method label : string) (resp : Response) (evs : list Event) : Prop :=
  exists code more, evs = (requestEvents method label code ++ more)%list /\ reads more /\ countedAs coded resp code.

Definition timedEvents (coded : Prop) (method label : string) (resp : Response) (evs : list Event) : Prop :=
  exists evs' d, evs = (evs' ++ [Observe HTTPRequestDuration [method; label] d])%list /\ handlerEvents coded method label resp evs'.

Lemma finish_error er code : (code ∈ [400; 401; 403; 404; 500])%Z -> finish (SendErrorResponse er code) = SendErrorResponse er code.
Proof.
  intros H. unfold finish, SendErrorResponse.
  destruct er; cbn; try done; rewrite !elem_of_cons in H;
    (destruct (Z.eqb_spec code 0) as [-> | ]; [exfalso; rewrite elem_of_nil in H; lia | done]).
Qed.

Section HandlerCounts.
Context {W : Type} (e : Engine W) (authorizer : Authorizer W) (fmtTime : Time -> string).
Abbreviation St' A := (St (EState W) A) (only parsing).

Lemma tracks_error coded method label code er :
  (code ∈ [400; 401; 403; 404; 500])%Z ->
  tracks (S := EState W) (countedError method label code er) (ret (SendErrorResponse er code)) finish
    (fun _ => handlerEvents coded method label).
Proof.
  intros H. unfold countedError, counted, inc. apply tracks_emit, tracks_ret; [by apply finish_error |].
  intros _. exists (Some code), []. split; [done |]. split; [by left | by constructor].
Qed.
Hint Extern 1 (tracks (countedError _ _ _ _) _ _ _) => (apply tracks_error; set_solver) : core.

Lemma tracks_read coded method label r k' (k : PathInfo -> string -> Metadata -> St' Response) :
  (forall pathInfo path md, tracks (k' path md) (k pathInfo path md) finish (fun _ => handlerEvents coded method label)) ->
  tracks (countedRead e authorizer method label r k')
    (guarded authorizer ReadPerm r (fun pathInfo path => do found <- GetMetadata e path;
       match found with Err er => ret (SendErrorResponse er 404) | Ok md => k pathInfo path md end))
    finish (fun _ => handlerEvents coded method label).
Proof.
  intros Hk. unfold countedRead, guarded. destruct (IsInvalid _); [by auto |]. destruct (rq_userID r) as [userID |]; [| by auto].
  set (path := enginePath _).
  intros s t. unfold bind at 1, quietly at 1, gets. destruct (authorizer userID path ReadPerm (es_world s)) as [u | er].
  - revert s t. apply tracks_step. intros s found Hf. destruct found as [md | er]; [apply Hk | by auto].
  - revert s t. change (tracks (S := EState W) (countedError method label 403 er) (ret (SendErrorResponse er 403)) finish
      (fun _ => handlerEvents coded method label)). by auto.
Qed.

Lemma tracks_count coded method label code (resp : Response) (m : St' Response) more :
  reads more -> countedAs coded resp (Some code) -> (forall s, m s = (s, finish resp)) ->
  tracks (do _ <- counted method label code; fold_right (fun ev k => do _ <- emit ev; k) (ret resp) more) m finish
    (fun _ => handlerEvents coded method label).
Proof.
  intros Hm Hc Hr. unfold counted, inc. apply tracks_emit.
  intros s t. exists resp, more. rewrite Hr. split; [| split; [done |]].
  - revert t. destruct Hm as [-> | (b & ->)]; intros t; cbn; [by rewrite app_nil_r | done].
  - exists (Some code), more. done.
Qed.

Lemma tracks_plainFile coded method path md :
  tracks (countedPlainFile e fmtTime method path md) (getPlainFile e fmtTime path md) finish
    (fun _ => handlerEvents coded method "/files/*").
Proof.
  unfold countedPlainFile, getPlainFile. apply tracks_step. intros s [data | er] _; [| by auto].
  apply (tracks_count coded method "/files/*" 200 _ _ [Inc FileOperationsTotal ["read"; md_BackendType md]]);
    [right; by eexists | by constructor | done].
Qed.


(** Only an instance that keeps erasure-coded files has answers that the count says nothing about. *)
Abbreviation codes := (is_Some (e_erasureManager e)).

Lemma tracks_erasure method path (resp : St' Response) (ops : list Event) :
  codes -> reads ops -> (forall s, rs_status (resp s).2 <> 0%Z) ->
  tracks (do a <- quietly resp; do _ <- counted method path 200; fold_right (fun ev k => do _ <- emit ev; k) (ret a) ops)
    resp finish (fun _ => handlerEvents codes method path).
Proof.
  intros Hc Ho Hr s t. specialize (Hr s). unfold bind at 1, quietly. destruct (resp s) as [s1 r1]. cbn [fst snd] in *.
  apply (tracks_count codes method path 200 r1 (ret r1) ops Ho (as_erasure _ _ Hc)).
  intros s0. unfold ret, finish. by destruct (Z.eqb_spec (rs_status r1) 0).
Qed.

Lemma send_status_nonzero er code : code <> 0%Z -> rs_status (SendErrorResponse er code) <> 0%Z.
Proof. unfold SendErrorResponse. by destruct er. Qed.

Lemma V1GetFile_tracks method r :
  tracks (Metrics.V1GetFile e authorizer fmtTime method r) (Handlers.V1GetFile e authorizer fmtTime r) finish
    (fun _ => timedEvents codes method "/files/*").
Proof.
  unfold Metrics.V1GetFile, Handlers.V1GetFile. apply tracks_timed.
  eapply tracks_weaken; [apply (tracks_read codes method "/files/*") | intros s a evs _ H d; by exists evs, d].
  intros pathInfo path md. destruct (String.eqb (md_Type md) "file").
  - destruct (e_erasureManager e) as [em |] eqn:Em; [| apply tracks_plainFile].
    destruct (md_ErasureCoded md); [| rewrite <- Em; apply tracks_plainFile].
    rewrite <- Em. assert (Hc : codes) by (rewrite Em; by eexists).
    destruct (String.eqb (rq_query r "manifest") "true").
    + apply (tracks_erasure method "/files/*" (HandleErasureManifest em path) []); [done | by left |].
      intros s. unfold HandleErasureManifest. cbn. destruct (Erasure.GetManifest _ _ _); [done | by apply send_status_nonzero].
    + apply (tracks_erasure method "/files/*" (HandleErasureDownload e em path) [Inc FileOperationsTotal ["read"; "erasure"]]);
        [done | right; by eexists |].
      intros s. unfold HandleErasureDownload, bind, ret. destruct (lift _ s) as [s1 [data | er]]; [done | by apply send_status_nonzero].
  - destruct (String.eqb (md_Type md) "directory").
    + apply tracks_step. intros s [cs | er] _; [| apply tracks_error; set_solver].
      by apply (tracks_count codes method "/files/*" 200 _ _ []); [left | constructor |].
    + apply tracks_ret; [done |]. intros _. exists None, []. split; [done |]. split; [by left | by constructor].
Qed.

Lemma V1ListDirectory_tracks method r :
  tracks (Metrics.V1ListDirectory e authorizer fmtTime method r) (Handlers.V1ListDirectory e authorizer fmtTime r) finish
    (fun _ => timedEvents False method "/api/directories/*").
Proof.
  unfold Metrics.V1ListDirectory, Handlers.V1ListDirectory. apply tracks_timed.
  eapply tracks_weaken; [apply (tracks_read False method "/api/directories/*") | intros s a evs _ H d; by exists evs, d].
  intros pathInfo path md. destruct (negb (String.eqb (md_Type md) "directory")); [apply tracks_error; set_solver |].
  apply tracks_step. intros s [cs | er] _; [| apply tracks_error; set_solver].
  by apply (tracks_count False method "/api/directories/*" 200 _ _ []); [left | constructor |].
Qed.

(** Creating a file is counted once, whatever its outcome. *)
Lemma CreateFile_tracks ctx path reader size md :
  tracks (Metrics.CreateFile e ctx path reader size md) (Engine.CreateFile e ctx path reader size md) id
    (fun _ res evs => exists d, evs = [Inc FileOperationsTotal ["create"; md_BackendType res.1];
                                       Observe BackendOpDuration [md_BackendType res.1; "create"] d]).
Proof.
  intros s t. unfold Metrics.CreateFile, bind, quietly, gets, inc, emit, ret.
  destruct (Engine.CreateFile e ctx path reader size md s) as [s1 [md1 r1]] eqn:E.
  eexists _, _. split; [by rewrite <- app_assoc |]. split; [done |]. by eexists.
Qed.

End HandlerCounts.

(** ** The router *)

(** The label values that do not name a backend are valid text. *)
Definition ownLabels (ev : Event) : Prop := "backend_type" ∈ fm_labels (ev_family ev) \/ validLabels ev.

(** The events of handlers never belong to the series of the middleware, are well
    formed, and have valid label values except perhaps for the name of a backend,
    which they take from a record. *)
Definition ownEvent (ev : Event) : Prop :=
  (wellLabelled ev = true /\ ownLabels ev) /\
  forall m p c, ev = Inc HTTPRequestsTotal [m; p; c] -> p = "/files/*" \/ p = "/api/directories/*".

Lemma validLabels_3 f a b c : Json.utf8 a -> Json.utf8 b -> Json.utf8 c -> validLabels (Inc f [a; b; c]).
Proof. intros Ha Hb Hc. by repeat constructor. Qed.
Lemma validLabels_2 f a b d : Json.utf8 a -> Json.utf8 b -> validLabels (Observe f [a; b] d).
Proof. intros Ha Hb. by repeat constructor. Qed.

Lemma Forall_requestEvents label code :
  label = "/files/*" \/ label = "/api/directories/*" -> Forall ownEvent (requestEvents "GET" label code).
Proof.
  intros H. destruct code as [c |]; cbn; [| constructor].
  constructor; [| constructor]. split; [| intros m p c' [= <- <- <-]; done].
  split; [done |]. right. apply validLabels_3; [done | by destruct H as [-> | ->] | apply Json.Itoa_utf8].
Qed.

Lemma timedEvents_own coded label resp evs :
  label = "/files/*" \/ label = "/api/directories/*" -> timedEvents coded "GET" label resp evs -> Forall ownEvent evs.
Proof.
  intros Hl (evs' & d & -> & code & more & -> & Hm & _). rewrite !Forall_app. split; [split |].
  - by apply Forall_requestEvents.
  - destruct Hm as [-> | (b & ->)]; [constructor |]. apply Forall_singleton. split; [split; [done | left; cbn; set_solver] | done].
  - apply Forall_singleton. split; [split; [done | right] | done]. apply validLabels_2; [done | by destruct Hl as [-> | ->]].
Qed.

Section Served.
Context {W : Type} (e : Engine W) (authorizer : Authorizer W) (fmtTime : Time -> string)
        (authn : Authenticator) (find : list Router.Route -> string -> string -> option Router.Route)
        (other : Router.HandlerName -> Request -> C (EState W) Response)
        (plain : Router.HandlerName -> Request -> St (EState W) Response)
        (limit : Router.HandlerName -> string -> St (EState W) bool) (erasure : bool)
        (routePattern : Router.Incoming -> string).

(** The handlers that are not written out with their counts. *)
Definition countsOwn : Prop :=
  forall h r, tracks (other h r) (plain h r) finish (fun _ _ evs => Forall ownEvent evs).

Definition plainHandlers (h : Router.HandlerName) : Request -> St (EState W) Response :=
  match h with
  | Router.GetFileH => Handlers.V1GetFile e authorizer fmtTime
  | Router.ListDirectoryH => Handlers.V1ListDirectory e authorizer fmtTime
  | _ => plain h
  end.

Abbreviation own := (fun (_ : EState W) (_ : Response) evs => Forall ownEvent evs).
Abbreviation tracked m' m := (tracks m' m finish own).

Lemma handlers_tracked h r : countsOwn ->
  tracked (Metrics.handlers e authorizer fmtTime other h r) (plainHandlers h r).
Proof.
  intros Ho. destruct h; cbn [Metrics.handlers plainHandlers]; try apply Ho.
  - eapply tracks_weaken; [apply V1GetFile_tracks |]. intros s a evs _. apply timedEvents_own. by left.
  - eapply tracks_weaken; [apply V1ListDirectory_tracks |]. intros s a evs _. apply timedEvents_own. by right.
Qed.

Lemma tracked_ret resp : rs_status resp <> 0%Z -> tracked (ret resp) (ret resp).
Proof.
  intros H. apply tracks_ret; [| by constructor]. unfold finish. by destruct (Z.eqb_spec (rs_status resp) 0).
Qed.

Lemma auth_tracked next' next r : (forall r, tracked (next' r) (next r)) ->
  tracked (V1AuthMiddleware authn next' r) (V1AuthMiddleware authn next r).
Proof.
  intros H. unfold V1AuthMiddleware. destruct (String.eqb _ ""); [by apply tracked_ret |].
  destruct (authn _); [apply H | by apply tracked_ret].
Qed.

Lemma limited_tracked rt addr next' next r : (forall r, tracked (next' r) (next r)) ->
  tracked (Router.limited (fun h a => quietly (limit h a)) rt addr next' r) (Router.limited limit rt addr next r).
Proof.
  intros H. unfold Router.limited. destruct (Router.rt_limit rt); [| apply H].
  apply tracks_step. intros s [] _; [apply H | by apply tracked_ret].
Qed.

Lemma dispatch_tracked i : countsOwn ->
  tracked (Router.dispatch authn find (Metrics.handlers e authorizer fmtTime other) (fun h a => quietly (limit h a)) erasure i)
    (Router.dispatch authn find plainHandlers limit erasure i).
Proof.
  intros Ho. unfold Router.dispatch. apply (tracks_bind _ _ finish own).
  - destruct (find _ _ _) as [rt |].
    + assert (Hn : forall r, tracked
        (Router.limited (fun h a => quietly (limit h a)) rt (Router.in_remoteAddr i)
           (Router.handlerOf (Metrics.handlers e authorizer fmtTime other) (Router.rt_handler rt)) r)
        (Router.limited limit rt (Router.in_remoteAddr i) (Router.handlerOf plainHandlers (Router.rt_handler rt)) r)).
      { intros r. apply limited_tracked. intros r'. unfold Router.handlerOf.
        destruct (Router.rt_handler rt); first [by apply tracked_ret | by apply handlers_tracked]. }
      unfold Router.serveRoute. destruct (Router.rt_auth rt); [by apply auth_tracked | apply Hn].
    + unfold Router.noRoute. destruct (existsb _ _), (Router.matches _ _);
        first [by apply tracked_ret | apply auth_tracked; intros r; by apply tracked_ret].
  - intros s a evs _ Hq. generalize (Router.commonHeaders i) as hs. intros hs.
    apply tracks_ret; [| intros s'; cbn; by rewrite app_nil_r].
    unfold finish. cbn [rs_status rs_headers rs_body]. by destruct (rs_status a =? 0)%Z.
Qed.

(** The two events of the middleware come last. *)
Definition middlewareEvents (i : Router.Incoming) (ww : Response) (d : Duration) : list Event :=
  [Inc HTTPRequestsTotal [Router.in_method i; patternLabel routePattern i; Itoa (rs_status ww)];
   Observe HTTPRequestDuration [Router.in_method i; patternLabel routePattern i] d].

Lemma middleware_runs next i s t s1 t1 ww :
  next i (s, t) = ((s1, t1), ww) ->
  exists d, metricsMiddleware e routePattern next i (s, t) = ((s1, (t1 ++ middlewareEvents i ww d)%list), ww).
Proof.
  intros E. unfold metricsMiddleware, bind, quietly, gets, inc, emit, ret. rewrite E. eexists. by rewrite <- app_assoc.
Qed.

(** A call with the right family and labels. *)
Definition wellFormed (ev : Event) : Prop := wellLabelled ev = true /\ ownLabels ev.

Lemma own_well evs : Forall ownEvent evs -> Forall wellFormed evs.
Proof. intros H. eapply Forall_impl; [exact H |]. by intros ev [Hw _]. Qed.

(** What the middleware puts into the labels is valid text. *)
Definition validRequest (i : Router.Incoming) : Prop :=
  Json.utf8 (Router.in_method i) /\ Json.utf8 (patternLabel routePattern i).

Lemma middleware_well i ww d : validRequest i -> Forall wellFormed (middlewareEvents i ww d).
Proof.
  intros [Hm Hp]. apply Forall_cons. split; [| apply Forall_singleton]; (split; [done | right]); [apply validLabels_3; [done | done | apply Json.Itoa_utf8] | by apply validLabels_2].
Qed.

(** Counting changes no answer: the router with its counting middleware and
    handlers leaves the state and gives the answer of the router without them, and
    no call on a metric has the wrong number of labels, an unknown family, or a
    label value (other than the name of a backend) that is no valid text. *)
Theorem metrics_transparent i s t s' t' resp :
  countsOwn -> validRequest i ->
  Metrics.serve e authorizer fmtTime authn find other limit erasure routePattern i (s, t) = ((s', t'), resp) ->
  Router.dispatch authn find plainHandlers limit erasure i s = (s', resp) /\
  exists evs, t' = (t ++ evs)%list /\ Forall wellFormed evs.
Proof.
  intros Ho Hv. destruct (dispatch_tracked i Ho s t) as (ww & evs & E & Ef & Hq).
  destruct (middleware_runs _ _ _ _ _ _ _ E) as [d Em]. unfold serve, bind, ret. rewrite Em.
  destruct (Router.dispatch authn find plainHandlers limit erasure i s) as [s1 r1].
  cbn in Ef |- *. intros [= <- <- <-]. split; [by rewrite Ef |].
  eexists. rewrite <- app_assoc. split; [done |]. apply Forall_app. split; [by apply own_well | by apply middleware_well].
Qed.

(** ** The series of the requests *)

(** Requests one after the other, with the answers behind the middleware. *)
Fixpoint serveAll (reqs : list Router.Incoming) : C (EState W) (list (Router.Incoming * Response)) :=
  match reqs with
  | [] => ret []
  | i :: reqs =>
      do ww <- metricsMiddleware e routePattern
                 (Router.dispatch authn find (Metrics.handlers e authorizer fmtTime other) (fun h a => quietly (limit h a)) erasure) i;
      do rest <- serveAll reqs;
      ret ((i, ww) :: rest)
  end.

Definition seen (m p c : string) (ir : Router.Incoming * Response) : bool :=
  String.eqb (Router.in_method ir.1) m && String.eqb (patternLabel routePattern ir.1) p && String.eqb (Itoa (rs_status ir.2)) c.

Lemma incs_app f ls t t' : incs f ls (t ++ t') = incs f ls t + incs f ls t'.
Proof. unfold incs. by rewrite List.filter_app, length_app. Qed.

Lemma incs_own m p c evs :
  p <> "/files/*" -> p <> "/api/directories/*" -> Forall ownEvent evs -> incs HTTPRequestsTotal [m; p; c] evs = 0.
Proof.
  intros Hp1 Hp2. induction 1 as [| ev evs [_ H] Hevs IH]; [done |]. unfold incs in *. cbn [List.filter].
  destruct (bool_decide_reflect (ev = Inc HTTPRequestsTotal [m; p; c])) as [E |]; [by destruct (H _ _ _ E) | done].
Qed.

Lemma serveAll_counts reqs s t s' t' served :
  countsOwn -> Forall validRequest reqs -> serveAll reqs (s, t) = ((s', t'), served) ->
  exists evs, t' = (t ++ evs)%list /\ Forall wellFormed evs /\
    forall m p c, p <> "/files/*" -> p <> "/api/directories/*" ->
      incs HTTPRequestsTotal [m; p; c] evs = List.length (List.filter (seen m p c) served).
Proof.
  intros Ho Hv. revert s t s' t' served. induction Hv as [| i reqs Hi _ IH]; intros s t s' t' served; cbn [serveAll].
  { unfold ret. intros [= <- <- <-]. exists []. rewrite app_nil_r. done. }
  destruct (dispatch_tracked i Ho s t) as (ww & evs & E & _ & Hq).
  destruct (middleware_runs _ _ _ _ _ _ _ E) as [d Em]. unfold bind. rewrite Em.
  destruct (serveAll reqs _) as [[s2 t2] rest] eqn:Er. unfold ret. intros [= <- <- <-].
  apply IH in Er as (evs2 & -> & Hw & Hc).
  exists (evs ++ middlewareEvents i ww d ++ evs2)%list. rewrite <- !app_assoc. split; [done |]. split.
  - rewrite !Forall_app. split; [by apply own_well | split; [by apply middleware_well | done]].
  - intros m p c Hp1 Hp2. rewrite !incs_app, incs_own, Hc by done. cbn [List.filter].
    unfold seen at 2, middlewareEvents, incs. cbn [List.filter fst snd].
    rewrite (bool_decide_false (Observe _ _ _ = _)) by done.
    destruct (bool_decide_reflect (Inc HTTPRequestsTotal [Router.in_method i; patternLabel routePattern i; Itoa (rs_status ww)]
      = Inc HTTPRequestsTotal [m; p; c])) as [[= -> -> ->] | Hne].
    + by rewrite !String.eqb_refl.
    + destruct (String.eqb_spec (Router.in_method i) m), (String.eqb_spec (patternLabel routePattern i) p),
        (String.eqb_spec (Itoa (rs_status ww)) c); cbn [andb]; try done. by subst.
Qed.

(** ** The registry *)

Section Exact.
Context {R : Type} (rg : Registry R) (registered : R -> list Family) `{!RegistryLaws rg registered}.

Lemma registerAll_ok fs r :
  forallb validFamily fs = true -> NoDup (fm_Name <$> (registered r ++ fs)%list) ->
  exists r', registerAll rg fs r = Some r' /\ registered r' = (registered r ++ fs)%list /\
    forall g ls, rg_value rg g ls r' = rg_value rg g ls r.
Proof using RegistryLaws0.
  revert r. induction fs as [| f fs IH]; intros r Hv Hn; cbn [registerAll].
  { exists r. by rewrite app_nil_r. }
  cbn [forallb] in Hv. apply andb_true_iff in Hv as [Hf Hv].
  destruct (reg_Register f r Hf) as (r1 & E & Hr1 & V1).
  { intros g Hg Heq. rewrite fmap_app, NoDup_app in Hn. destruct Hn as (_ & Hn & _).
    apply (Hn (fm_Name g)); [by apply list_elem_of_fmap_2 |]. rewrite Heq. left. }
  destruct (IH r1 Hv) as (r2 & E2 & Hr2 & V2).
  { by rewrite Hr1, <- app_assoc. }
  exists r2. rewrite E, E2, Hr2, Hr1, <- app_assoc. split; [done |]. split; [done |]. intros g ls. by rewrite V2.
Qed.

(** The package initialises: no name is taken twice and all names are valid, so
    that promauto does not panic. *)
Lemma initMetrics_ok : exists r, initMetrics rg = Some r /\ registered r = families /\ forall g ls, rg_value rg g ls r = 0.
Proof using RegistryLaws0.
  destruct reg_new as [Hr Hv]. destruct (registerAll_ok families (rg_new rg)) as (r & E & Hreg & V).
  - by vm_compute.
  - rewrite Hr. apply (bool_decide_eq_true_1 _). by vm_compute.
  - exists r. rewrite Hr in Hreg. split; [done |]. split; [done |]. intros g ls. by rewrite V.
Qed.

Lemma applyAll_ok t r :
  Forall wellFormed t -> Forall (fun ev => "backend_type" ∈ fm_labels (ev_family ev) -> validLabels ev) t ->
  registered r = families -> exists r', applyAll rg t r = Some r' /\ forall g ls, rg_value rg g ls r' = rg_value rg g ls r + incs g ls t.
Proof using RegistryLaws0.
  intros Ht. revert r. induction Ht as [| ev t [Hev Hown] Ht IH]; intros r Hb Hr; cbn [applyAll].
  { exists r. split; [done |]. intros g ls. unfold incs. cbn. lia. }
  apply Forall_cons in Hb as [Hev' Hb]. assert (Hval : validLabels ev) by (destruct Hown; auto).
  unfold wellLabelled in Hev. to_prop. destruct (reg_apply ev r) as (r1 & E & Hr1 & V1); [by rewrite Hr | done | done |].
  destruct (IH r1 Hb ltac:(by rewrite Hr1)) as (r2 & E2 & V2). exists r2. rewrite E, E2. split; [done |].
  intros g ls. rewrite V2, V1. unfold incs. cbn [List.filter]. destruct (bool_decide _); cbn [List.length]; lia.
Qed.

(** C35: The counter of the requests is exact: once the package is initialised, which
    does not panic, the series of a method, a route and a status is the number of
    requests with this method that were served by this route with this status, and
    no call panics on the way, as long as the methods and the patterns of the routes
    are valid UTF-8, and the names of backends that the events label series with.  The
    two labels the handlers make up themselves are apart. *)
Theorem requests_total_exact reqs s s' t served :
  countsOwn -> Forall validRequest reqs -> serveAll reqs (s, []) = ((s', t), served) ->
  Forall (fun ev => "backend_type" ∈ fm_labels (ev_family ev) -> validLabels ev) t ->
  exists r0 r, initMetrics rg = Some r0 /\ applyAll rg t r0 = Some r /\
    forall m p c, p <> "/files/*" -> p <> "/api/directories/*" ->
      rg_value rg HTTPRequestsTotal [m; p; c] r = List.length (List.filter (seen m p c) served).
Proof using RegistryLaws0.
  intros Ho Hv E Hb. apply serveAll_counts in E as (evs & -> & Hw & Hc); [| done | done].
  destruct initMetrics_ok as (r0 & E0 & Hr0 & V0). destruct (applyAll_ok evs r0 Hw Hb Hr0) as (r & Er & V).
  exists r0, r. split; [done |]. split; [done |]. intros m p c Hp1 Hp2. by rewrite V, V0, Hc.
Qed.
End Exact.

End Served.

(** ** What the handlers count *)

(** A file that does not exist is answered 404, and counted as a 403: the authorizer
    finds out first, and the handler counts every error of it as a refusal. *)
Theorem get_missing_counted_403 {W} (e : Engine W) (store : Store W) (view : W -> StoreView) (serving : W -> Prop)
    `{!StoreSpec store view serving} fmtTime method r uid s t :
  let path := enginePath (ParseFilePath (rq_urlPath r)) in
  serving (es_world s) -> IsInvalid (ParseFilePath (rq_urlPath r)) = false -> rq_userID r = Some uid ->
  view_md (view (es_world s)) !! path = None ->
  exists d, Metrics.V1GetFile e (Unix.Authorize store) fmtTime method r (s, t) =
    ((s, (t ++ [Inc HTTPRequestsTotal [method; "/files/*"; "403"]; Observe HTTPRequestDuration [method; "/files/*"] d])%list),
     SendErrorResponse ErrNotFound 404).
Proof.
  intros path Hs Hv Hu Hn.
  assert (Ha : Unix.Authorize store uid path ReadPerm (es_world s) = Err ErrNotFound).
  { unfold Unix.Authorize. by rewrite spec_Get, Hn by done. }
  unfold Metrics.V1GetFile, timed, countedRead. rewrite Hv, Hu. fold path.
  unfold bind, quietly, gets. rewrite Ha. unfold countedError, counted, inc, bind, emit, ret.
  eexists. by rewrite <- app_assoc.
Qed.

(** ** The link manager *)

Section LinkCounts.
Context {W : Type} (store : Store W) (c : Links.Crypto) (secretKey : string)
        (view : W -> StoreView) (serving : W -> Prop) `{!StoreSpec store view serving}.

(** A consumption is counted as a success exactly when the path is handed out. *)
Lemma ValidateAndInvalidateLink_tracks now now' token ip :
  tracks (Metrics.ValidateAndInvalidateLink store c secretKey now now' token ip)
    (Links.ValidateAndInvalidateLink store c secretKey now now' token ip) id
    (fun _ r evs => incs SingleUseLinkGenerationsTotal [] evs = 0 /\
       incs SingleUseLinkConsumptionsTotal ["success"] evs = if is_Ok r then 1 else 0).
Proof using Type.
  unfold Metrics.ValidateAndInvalidateLink. intros s t. unfold bind at 1, quietly at 1, gets.
  assert (Hret : forall (r : Res string) s, exists a evs, ret (S := W * list Event) r (s, t) = ((s, (t ++ evs)%list), a) /\
            a = r /\ evs = []).
  { intros r s1. exists r, []. by rewrite app_nil_r. }
  unfold Links.ValidateAndInvalidateLink, try_bind, gets, Links.checkLink, Links.consumeLink.
  destruct (st_GetSingleUseLink store token s) as [link | er].
  2:{ destruct (errors_Is er ErrNotFound); [by eexists _, _ |].
      destruct (Hret (Err (EWrap "failed to retrieve link" er)) s) as (a & evs & -> & -> & ->). by eexists _, _. }
  destruct (After now (lk_ExpiresAt link)); [by eexists _, _ |].
  destruct (negb (String.eqb _ "active")); [by eexists _, _ |].
  destruct (negb _); [by eexists _, _ |].
  unfold bind at 1, quietly. destruct (st_UpdateSingleUseLink _ _ _ _ _ s) as [s1 [u | er]]; [by eexists _, _ |].
  destruct (Hret (Err ErrLinkInvalid) s1) as (a & evs & -> & -> & ->). by eexists _, _.
Qed.

Lemma GenerateLink_tracks rnd now now' path d :
  tracks (Metrics.GenerateLink store c secretKey rnd now now' path d)
    (Links.GenerateLink store c secretKey rnd now now' path d) id
    (fun _ r evs => incs SingleUseLinkConsumptionsTotal ["success"] evs = 0 /\
       incs SingleUseLinkGenerationsTotal [] evs = if is_Ok r then 1 else 0).
Proof using Type.
  intros s t. unfold Metrics.GenerateLink, bind, quietly. destruct (Links.GenerateLink _ _ _ _ _ _ _ _ s) as [s1 [token | er]].
  - by eexists _, _.
  - unfold ret. eexists _, []. by rewrite app_nil_r.
Qed.

(** Links are made, used and cleaned up, one call after the other. *)
Inductive linkStep : W * list Event -> W * list Event -> Prop :=
| lk_generate rnd now now' path d s s' r :
    Metrics.GenerateLink store c secretKey rnd now now' path d s = (s', r) -> linkStep s s'
| lk_validate now now' token ip s s' r :
    Metrics.ValidateAndInvalidateLink store c secretKey now now' token ip s = (s', r) -> linkStep s s'
| lk_cleanup w w' t :
    serving w' -> view_links (view w') ⊆ view_links (view w) -> linkStep (w, t) (w', t).

Definition isActive (l : SingleUseLink) : bool := String.eqb (lk_Status l) "active".
Definition activeLinks (w : W) : gmap string SingleUseLink := filter (fun kv => isActive kv.2 = true) (view_links (view w)).

Definition generated (t : list Event) : nat := incs SingleUseLinkGenerationsTotal [] t.
Definition consumed (t : list Event) : nat := incs SingleUseLinkConsumptionsTotal ["success"] t.

Lemma active_generated rnd now now' path d w w' r :
  serving w -> Links.GenerateLink store c secretKey rnd now now' path d w = (w', r) ->
  serving w' /\ size (activeLinks w') <= size (activeLinks w) + (if is_Ok r then 1 else 0).
Proof using StoreSpec0.
  intros Hs E. destruct (Links.GenerateLink_spec store c secretKey view serving _ _ _ _ _ _ _ _ Hs E) as (Hs' & _ & H).
  split; [done |]. unfold activeLinks. destruct r as [token | er]; cbn [is_Ok].
  - destruct H as (Hn & l & -> & _ & Hst & _). rewrite map_filter_insert_True by (cbn; unfold isActive; by rewrite Hst).
    rewrite map_size_insert_None; [lia |]. apply map_lookup_filter_None. by left.
  - rewrite H. lia.
Qed.

Lemma active_consumed now now' token ip w w' r :
  serving w -> Links.ValidateAndInvalidateLink store c secretKey now now' token ip w = (w', r) ->
  serving w' /\ size (activeLinks w') + (if is_Ok r then 1 else 0) <= size (activeLinks w).
Proof using StoreSpec0.
  intros Hs. unfold Links.ValidateAndInvalidateLink, try_bind, gets.
  destruct (Links.checkLink _ _ _ _ _ w) as [path | er]; [| intros [= <- <-]; cbn [is_Ok]; split; [done | lia]].
  intros E. destruct (Links.consumeLink_spec store view serving _ _ _ _ _ _ _ Hs E) as (Hs' & _ & H).
  split; [done |]. destruct (Links.active view token w) eqn:Ea.
  - destruct H as (-> & Hna & Hl). cbn [is_Ok].
    assert (Hdel : activeLinks w' = delete token (activeLinks w)).
    { apply map_eq. intros k. apply option_eq. intros l. rewrite lookup_delete_Some. unfold activeLinks.
      rewrite !map_lookup_filter_Some. unfold isActive, Links.active in *. cbn. split.
      - intros [Hk Hact]. destruct (decide (token = k)) as [<- | Hne]; [by rewrite Hk, Hact in Hna |].
        by rewrite <- Hl.
      - intros (Hne & Hk & Hact). by rewrite Hl. }
    rewrite Hdel. unfold Links.active in Ea. destruct (view_links (view w) !! token) as [l |] eqn:El; [| done].
    assert (Hin : activeLinks w !! token = Some l) by (by apply map_lookup_filter_Some).
    rewrite (map_size_delete_Some _ _ (mk_is_Some _ _ Hin)). assert (size (activeLinks w) <> 0).
    { intros H0. apply map_size_empty_inv in H0. by rewrite H0, lookup_empty in Hin. }
    lia.
  - destruct H as [-> Hl]. cbn [is_Ok]. unfold activeLinks. rewrite Hl. lia.
Qed.

Lemma active_subset w w' : view_links (view w') ⊆ view_links (view w) -> size (activeLinks w') <= size (activeLinks w).
Proof using Type. intros H. apply map_subseteq_size. by apply map_filter_subseteq_mono. Qed.

Definition balanced (n : nat) (s : W * list Event) : Prop :=
  serving s.1 /\ consumed s.2 + size (activeLinks s.1) <= n + generated s.2.

Lemma linkStep_balanced n s s' : linkStep s s' -> balanced n s -> balanced n s'.
Proof using StoreSpec0.
  intros H [Hs Hb]. destruct H as [rnd now now' path d s s' r H | now now' token ip s s' r H | w w' t Hs' H].
  - destruct s as [w t]. destruct (GenerateLink_tracks rnd now now' path d w t) as (a & evs & E & Ea & Hc & Hg).
    rewrite H in E. injection E as -> ->.
    destruct (Links.GenerateLink _ _ _ _ _ _ _ _ w) as [w1 r1] eqn:El. cbn in Ea. subst a. cbn [fst snd] in *.
    apply active_generated in El as [Hs1 Hsz]; [| done]. split; [done |].
    unfold consumed, generated in *. cbn [fst snd] in *. rewrite !incs_app, Hc, Hg. lia.
  - destruct s as [w t]. destruct (ValidateAndInvalidateLink_tracks now now' token ip w t) as (a & evs & E & Ea & Hg & Hc).
    rewrite H in E. injection E as -> ->.
    destruct (Links.ValidateAndInvalidateLink _ _ _ _ _ _ _ w) as [w1 r1] eqn:El. cbn in Ea. subst a. cbn [fst snd] in *.
    apply active_consumed in El as [Hs1 Hsz]; [| done]. split; [done |].
    unfold consumed, generated in *. cbn [fst snd] in *. rewrite !incs_app, Hc, Hg. lia.
  - apply active_subset in H. split; [done |]. cbn [fst snd] in *. lia.
Qed.

(** C36: The counters of the links keep their balance: the successful consumptions
    counted and the links still active are never more than the links generated and
    those active at the start. *)
Theorem link_counters_balance w0 w t :
  serving w0 -> rtc linkStep (w0, []) (w, t) ->
  consumed t + size (activeLinks w) <= size (activeLinks w0) + generated t.
Proof using StoreSpec0.
  intros Hs H. assert (Hb : balanced (size (activeLinks w0)) (w, t)); [| by destruct Hb].
  remember (w0, []) as s0. assert (Hb : balanced (size (activeLinks w0)) s0) by (subst s0; by split; [| cbn; lia]).
  clear Heqs0. induction H as [s | s s1 s2 H1 _ IH]; [done |]. by eapply IH, linkStep_balanced.
Qed.

End LinkCounts.

(** ** A concrete registry and concrete runs *)

(** The families registered so far, and the trace of the calls. *)
Definition traceRegistry : Registry (list Family * list Event) :=
  mkRegistry _ ([], [])
    (fun f '(fs, t) => if validFamily f && negb (bool_decide (fm_Name f ∈ (fm_Name <$> fs))) then Some ((fs ++ [f])%list, t) else None)
    (fun ev '(fs, t) =>
       if bool_decide (ev_family ev ∈ fs) && (List.length (ev_labels ev) =? List.length (fm_labels (ev_family ev)))%nat
          && bool_decide (validLabels ev)
       then Some (fs, (t ++ [ev])%list) else None)
    (fun f ls '(_, t) => incs f ls t)
    (fun f ls '(_, t) => List.length (List.filter (fun ev => match ev with Observe g ks _ => bool_decide ((g, ks) = (f, ls)) | _ => false end) t)).

#[global] Instance traceRegistry_laws : RegistryLaws traceRegistry fst.
Proof.
  split.
  - done.
  - intros f [fs t] Hv Hn. cbn in *. rewrite Hv, bool_decide_false; [by eexists |].
    intros (g & Hg & Hin)%list_elem_of_fmap. by apply (Hn g).
  - intros ev [fs t] Hin Hlen Hval. cbn in *. rewrite !bool_decide_true by done. rewrite Hlen, Nat.eqb_refl. cbn [andb].
    eexists. split; [done |]. split; [done |]. intros g ls. cbn. rewrite incs_app. f_equal.
    unfold incs. cbn [List.filter]. by destruct (bool_decide _).
Qed.

Import HandlerSpec.

Definition mt_other (h : Router.HandlerName) (r : Request) : C (EState EW) Response := ret (status 200).
Definition mt_find (rts : list Router.Route) (m p : string) : option Router.Route := Router.best m p rts.
Definition mt_limit (h : Router.HandlerName) (addr : string) : St (EState EW) bool := ret true.
(** The pattern of the file routes for what matched below them. *)
Definition mt_pattern (i : Router.Incoming) : string :=
  if HasPrefix (Router.in_path i) "/v1/files/" then "/v1/files/*" else "".
Definition mt_get (path token : string) : Router.Incoming :=
  Router.mkIncoming "GET" path "10.0.0.7:4000" true
    (mkRequest "" None (fun h => if String.eqb h "Authorization" then token else "") (fun _ => "") (bytesReader "") 0) (Ok "01234567").

Lemma mt_countsOwn : countsOwn mt_other (fun _ _ => ret (status 200)).
Proof. intros h r. apply tracks_ret; [done | by constructor]. Qed.

Definition mt_record : Metadata := mkMetadata 1 None "a" "/a" "directory" 0 "0755" 0 0 0 0 0 "localfs" false None None 0 0.
Definition mt_state : EState EW := ew0 {[ "/a" := mt_record ]}.
Definition mt_serve (i : Router.Incoming) : C (EState EW) Response :=
  Metrics.serve ewEngine ew_allow Itoa ew_authn mt_find mt_other mt_limit true mt_pattern i.

Lemma metrics_transparent_witness :
  rs_status (mt_serve (mt_get "/v1/files/a" "Bearer k") (mt_state, [])).2 = 200%Z /\
  Router.dispatch ew_authn mt_find (plainHandlers ewEngine ew_allow Itoa (fun _ _ => ret (status 200))) mt_limit true
    (mt_get "/v1/files/a" "Bearer k") mt_state =
  ((mt_serve (mt_get "/v1/files/a" "Bearer k") (mt_state, [])).1.1, (mt_serve (mt_get "/v1/files/a" "Bearer k") (mt_state, [])).2).
Proof.
  split; [vm_compute; reflexivity |].
  apply (metrics_transparent ewEngine ew_allow Itoa ew_authn mt_find mt_other (fun _ _ => ret (status 200)) mt_limit true mt_pattern
    (mt_get "/v1/files/a" "Bearer k") mt_state [] _ (mt_serve (mt_get "/v1/files/a" "Bearer k") (mt_state, [])).1.2).
  - apply mt_countsOwn.
  - split; reflexivity.
  - rewrite <- surjective_pairing. apply surjective_pairing.
Defined.

(** Two requests are served and one is refused: the series say so. *)
Definition mt_reqs : list Router.Incoming :=
  [mt_get "/v1/files/a" "Bearer k"; mt_get "/v1/files/a" "Bearer x"; mt_get "/v1/files/a" "Bearer k"; mt_get "/other" "Bearer k"].
Definition mt_run : EState EW * list Event * list (Router.Incoming * Response) :=
  serveAll ewEngine ew_allow Itoa ew_authn mt_find mt_other mt_limit true mt_pattern mt_reqs (mt_state, []).

Lemma requests_total_exact_witness :
  exists r0 r, initMetrics traceRegistry = Some r0 /\ applyAll traceRegistry mt_run.1.2 r0 = Some r /\
    rg_value traceRegistry HTTPRequestsTotal ["GET"; "/v1/files/*"; "200"] r = 2 /\
    rg_value traceRegistry HTTPRequestsTotal ["GET"; "/v1/files/*"; "401"] r = 1 /\
    rg_value traceRegistry HTTPRequestsTotal ["GET"; "unmatched"; "404"] r = 1.
Proof.
  destruct (requests_total_exact ewEngine ew_allow Itoa ew_authn mt_find mt_other (fun _ _ => ret (status 200)) mt_limit true mt_pattern
    traceRegistry fst mt_reqs mt_state mt_run.1.1 mt_run.1.2 mt_run.2) as (r0 & r & E0 & Er & V).
  - apply mt_countsOwn.
  - unfold mt_reqs. repeat (apply Forall_cons; split; [split; vm_compute; reflexivity |]). by constructor.
  - unfold mt_run. rewrite <- !surjective_pairing. reflexivity.
  - apply (bool_decide_unpack _). vm_compute. exact I.
  - exists r0, r. split; [exact E0 |]. split; [exact Er |].
    rewrite !V by discriminate. vm_compute. repeat split.
Defined.

Lemma get_missing_counted_403_witness :
  rs_status (Metrics.V1GetFile ewEngine (Unix.Authorize (e_metadataStore ewEngine)) Itoa "GET"
    (ew_request (fun _ => "") "" 0) (ew0 ∅, [])).2 = 404%Z.
Proof.
  destruct (get_missing_counted_403 ewEngine (e_metadataStore ewEngine) snd (fun _ => True)
    (StoreSpec0 := memStore_spec snd (fun v w => (w.1, v)) (fun _ _ => eq_refl)) Itoa "GET"
    (ew_request (fun _ => "") "" 0) "root" (ew0 ∅) [] I) as [d E]; [vm_compute; reflexivity ..|].
  rewrite E. reflexivity.
Defined.

(** A link is made and used. *)
Definition mt_used : StoreView * list Event :=
  (Metrics.ValidateAndInvalidateLink viewStore Links.toy "k" 1 1 Links.w_token "1.2.3.4"
    (Metrics.GenerateLink viewStore Links.toy "k" (Ok "ab.") 0 0 "/f" 60 (mkView ∅ ∅, [])).1).1.

Lemma link_counters_balance_witness :
  consumed mt_used.2 = 1 /\ generated mt_used.2 = 1 /\
  consumed mt_used.2 + size (activeLinks id mt_used.1) <= size (activeLinks id (mkView ∅ ∅)) + generated mt_used.2.
Proof.
  split; [reflexivity |]. split; [reflexivity |].
  apply (link_counters_balance viewStore Links.toy "k" id (fun _ => True) (mkView ∅ ∅) mt_used.1 mt_used.2 I).
  eapply rtc_l; [eapply lk_generate with (rnd := Ok "ab.") (now := 0%Z) (now' := 0%Z) (path := "/f") (d := 60%Z); apply surjective_pairing |].
  eapply rtc_l; [eapply lk_validate with (now := 1%Z) (now' := 1%Z) (token := Links.w_token) (ip := "1.2.3.4"); apply surjective_pairing |].
  rewrite <- surjective_pairing. apply rtc_refl.
Defined.

End MetricsSpec.
