(* ===== verification/App.v ===== *)
(** * The configured server: what runServer of cmd/main.go puts together

    The engine, the authenticator, the authorizer and the link manager are made
    from one configuration and handed to NewRouter, whose handler goes behind the
    muxes.  The theorems are about this composition: who can get at what. *)
From S2P Require Import Prelude GoStrings PathUtil Metadata MemStore Auth Links Locks Backends Erasure Json RaftStore RaftTextSpec RaftNode Engine Handlers HandlerSpec Config ConfigSpec Startup RateLimit Router Server.
From Stdlib Require Import Ascii String.
Open Scope string_scope.
Open Scope bool_scope.
Open Scope go_scope.

Module App.
Import Handlers Router Config.

(** ** The parts *)

(** What the start opened before, the libraries, and the choices of the runtime. *)
Record Parts (W : Type) := mkParts {
  pt_store : Store W;
  pt_erasureStore : ErasureMetadataStore W;
  pt_localFS : Storage W;
  pt_s3 : Storage W;
  pt_proxy : Storage W;
  pt_proxyAdapter : option (Engine.ProxyAdapter W);
  pt_locks : LockManager W;
  pt_codec : Json.Codec;                     (* encoding/json *)
  pt_raft : option (RaftNode.RaftLib W * RaftNode.NodeEnv W);
  pt_rs : Erasure.ReedSolomon;
  pt_checksum : string -> string;
  pt_hashPrefix : string -> string;
  pt_http : HttpClient W;
  pt_crypto : Links.Crypto;
  pt_clock : W -> Time;
  pt_random : W -> Res string;
  pt_sched : Engine.Schedule;
  pt_keyOrder : list (string * string);      (* the order of the map of keys *)
  pt_peerOrder : list string;
  pt_shardOrder : list nat;
  pt_fmtTime : Time -> string;
  pt_decodeLink : Reader -> option (string * Z);
  pt_decodeJoin : Reader -> option Startup.JoinRequest;
  pt_decodeCommand : Reader -> option Raft.Command;
  pt_find : list Route -> string -> string -> option Route;
  pt_limit : HandlerName -> string -> St (Engine.EState W) bool;
  pt_metrics : Request -> St (Engine.EState W) Response;    (* promhttp.Handler *)
  pt_webSocket : Request -> St (Engine.EState W) Response;  (* the answer before the upgrade, or 101 *)
}.
Arguments pt_store {W}. Arguments pt_erasureStore {W}. Arguments pt_localFS {W}. Arguments pt_s3 {W}. Arguments pt_proxy {W}.
Arguments pt_proxyAdapter {W}. Arguments pt_codec {W}. Arguments pt_locks {W}. Arguments pt_raft {W}. Arguments pt_rs {W}. Arguments pt_checksum {W}.
Arguments pt_hashPrefix {W}. Arguments pt_http {W}. Arguments pt_crypto {W}. Arguments pt_clock {W}. Arguments pt_random {W}.
Arguments pt_sched {W}. Arguments pt_keyOrder {W}. Arguments pt_peerOrder {W}. Arguments pt_shardOrder {W}. Arguments pt_fmtTime {W}.
Arguments pt_decodeLink {W}. Arguments pt_decodeJoin {W}. Arguments pt_decodeCommand {W}. Arguments pt_find {W}. Arguments pt_limit {W}.
Arguments pt_metrics {W}. Arguments pt_webSocket {W}.

Section App.
Context {W : Type} (cfg : AppConfig) (pt : Parts W).
Abbreviation M A := (St (Engine.EState W) A) (only parsing).

(** ** Putting them together *)

Definition erasureManager : Erasure.Manager W :=
  (Erasure.NewManager (pt_rs pt) (pt_checksum pt) (pt_hashPrefix pt) (pt_http pt) (pt_erasureStore pt)
     (if String.eqb (ToLower (TrimSpace (er_ShardBackend (Config.Erasure cfg)))) "s3" then pt_s3 pt else pt_localFS pt)
     (Erasure.mkErasureConfig (er_DataShards (Config.Erasure cfg)) (er_ParityShards (Config.Erasure cfg))
        (er_ShardBackend (Config.Erasure cfg)))
     (id_InstanceID (InstanceDiscovery cfg)) (Startup.erasurePeers cfg) (auth_InternalProxySecret (Auth cfg))).1.

Definition coreEngine : Engine.Engine W :=
  let e := (Engine.NewEngine (pt_store pt) (pt_localFS pt) (pt_s3 pt) (pt_proxy pt) (pt_proxyAdapter pt) (pt_locks pt)
              (id_InstanceID (InstanceDiscovery cfg)) (id_PeerEndpoints (InstanceDiscovery cfg))
              (ha_ReplicationEnabled (HA cfg)) (ha_ReplicaBackend (HA cfg)) (ha_RequireReplicaSuccess (HA cfg))
              (pt_clock pt) (pt_sched pt)).1 in
  if er_Enabled (Config.Erasure cfg) then Engine.SetErasureManager e erasureManager else e.

Definition authenticator : Authenticator := ApiKeys.Authenticate (pt_keyOrder pt).
Definition validKeys : gmap string string :=
  ApiKeys.NewAPIKeyAuthenticator (auth_APIKeys (Auth cfg)) (auth_InternalProxySecret (Auth cfg)).
Definition authorizer : Authorizer W := Unix.Authorize (pt_store pt).
(** The link manager is its hashed secret; a failure ends the start. *)
Definition linkManager : Res string := Links.NewLinkManager (pt_crypto pt) (auth_SingleUseLinkSecret (Auth cfg)).
Definition linkKey : string := match linkManager with Ok key => key | Err _ => "" end.

(** The handlers that are not those of the file API; [i] is the request they serve. *)
Definition otherHandlers (i : Incoming) (h : HandlerName) (r : Request) : M Response :=
  match h with
  | GenerateLinkH => fun s =>
      V1GenerateLinkHandler coreEngine authorizer (pt_crypto pt) linkKey (srv_ExternalURL (Config.Server cfg))
        (pt_random pt (Engine.es_world s)) (rq_userID r) (pt_decodeLink pt (rq_body r)) s
  | DownloadLink =>
      V1DownloadLinkHandler coreEngine (pt_crypto pt) linkKey (rq_urlPath r) (RateLimit.getUserIP (in_remoteAddr i))
  | WebSocketTransfer => pt_webSocket pt r
  | _ => pt_metrics pt r
  end.

Definition routerErasure : bool := match Engine.GetErasureManager coreEngine with Some _ => true | None => false end.

Definition router (i : Incoming) : M Response :=
  dispatch authenticator (pt_find pt)
    (handlers coreEngine authorizer erasureManager (be_DefaultBackend (Backend cfg)) (pt_fmtTime pt) (pt_peerOrder pt)
       (pt_shardOrder pt) (otherHandlers i))
    (pt_limit pt) routerErasure i.

Definition server (i : Incoming) : M Server.Answer :=
  Server.rootHandler (pt_codec pt) router (pt_localFS pt) (auth_InternalProxySecret (Auth cfg)) (pt_raft pt)
    (pt_decodeJoin pt) (pt_decodeCommand pt) None (er_Enabled (Config.Erasure cfg)) i.

(** The server of the metrics has a mux of its own, with nothing in front of it. *)
Definition metricsServer : Incoming -> M Server.Answer :=
  Server.mux [("/metrics", fun i => do r <- pt_metrics pt (in_request i); ret (Server.Plain r))]
    (fun _ => ret (Server.Plain (text 404 "404 page not found"))).

(** What the servers that runServer starts answer: HTTP, HTTPS and QUIC with the root
    handler, the metrics listener with its own. *)
Definition serveOn (l : Startup.Listener) : Incoming -> M Server.Answer :=
  match l with Startup.MetricsServer _ => metricsServer | _ => server end.

(** ** Who gets at what *)

Abbreviation header i := (rq_header (in_request i) "Authorization").
Abbreviation secret := (auth_InternalProxySecret (Auth cfg)).

(** The request carries [token], behind the word Bearer. *)
Definition carries (i : Incoming) (token : string) : Prop :=
  exists prefix, prefix ∈ ["Bearer "; "Bearer"] /\ TrimSpace (TrimPrefix (header i) prefix) = token.

(** A key of the configuration, under its user, or the secret of the cluster. *)
Inductive knownAs (token : string) : string -> Prop :=
| known_key n : token ∈ auth_APIKeys (Auth cfg) -> 16 <= String.length token -> knownAs token ("api-user-" +:+ Itoa n)
| known_secret : token = secret -> knownAs token "internal-proxy".

Definition configured : Prop := ConfigSpec.valid cfg /\ pt_keyOrder pt ≡ₚ map_to_list validKeys.

Lemma authenticator_known i uid : configured -> authenticator (header i) = Ok uid ->
  exists token, carries i token /\ knownAs token uid.
Proof.
  intros [Hv Hp]. unfold authenticator. rewrite (ApiKeys.Authenticate_lookup _ _ _ Hp) by apply ApiKeys.new_empty.
  destruct (validKeys !! ApiKeys.headerToken (header i)) as [u |] eqn:E; [| done]. intros [= ->].
  exists (ApiKeys.headerToken (header i)). split; [exists "Bearer "; split; [by left | done] |].
  unfold validKeys, ApiKeys.NewAPIKeyAuthenticator in E.
  destruct (negb (String.eqb secret "")); [apply lookup_insert_Some in E as [[<- <-] | [_ E]]; [by apply known_secret |] |];
    (apply ApiKeys.add_keys_lookup in E as [E | (_ & Hin & n & _ & ->)]; [done |]);
    (apply known_key; [done |]); destruct (ConfigSpec.valid_keys _ Hv) as [_ Hk]; rewrite Forall_forall in Hk;
    by apply (Hk _ Hin).
Qed.

Lemma internal_known i : Server.internal secret i -> exists token, carries i token /\ knownAs token "internal-proxy".
Proof using Type.
  intros H. exists secret. split; [| by apply known_secret]. destruct H as [H | H].
  - unfold authorizeInternal in H. destruct (String.eqb secret ""); [done |]. to_prop.
    exists "Bearer ". split; [by left | done].
  - exists "Bearer". split; [by right; left | done].
Qed.

(** The metrics listener has one page, and turns everything else away. *)
Lemma metricsServer_answers i s s' a : metricsServer i s = (s', a) ->
  Server.turnedAway s s' a \/
  (in_path i = "/metrics" /\ exists r, pt_metrics pt (in_request i) s = (s', r) /\ a = Server.Plain r).
Proof using Type.
  unfold metricsServer, Server.mux. set (path := if String.eqb _ _ then _ else _).
  assert (Hr : forall l, ret (Server.redirect l) s = (s', a) -> Server.turnedAway s s' a)
    by (intros l [= <- <-]; split; [done | cbn; lia]).
  destruct (existsb _ _); [intros H; left; by eapply Hr |].
  destruct (String.eqb_spec path (in_path i)) as [Ep |]; cbn [negb]; [| intros H; left; by eapply Hr].
  cbn [Server.muxFind]. destruct (Server.muxMatches "/metrics" path) eqn:Em; cbn [default].
  - unfold id, bind, ret. destruct (pt_metrics pt (in_request i) s) as [s1 r] eqn:E. intros [= <- <-].
    right. split; [| by exists r]. apply String.eqb_eq in Em. congruence.
  - unfold ret. intros [= <- <-]. left. split; [done | cbn; lia].
Qed.

(** C6: Whatever the configuration that was loaded, only somebody who knows an API
    key of it, of sixteen characters or more, or the secret of the cluster gets
    anything from any of the servers that are started but refusals and redirects, or
    changes anything, through any of their endpoints; the exceptions are the health
    check, the download of single-use links, and the page /metrics of the metrics
    listener, which the Prometheus handler answers to everybody. *)
Theorem app_serves_known {K} (koanf : Koanf K) path l i s s' a `{!RouterLaws (pt_find pt)} :
  LoadConfigFromFile koanf path = Ok cfg -> pt_keyOrder pt ≡ₚ map_to_list validKeys ->
  l ∈ Startup.listenersOf cfg -> serveOn l i s = (s', a) ->
  Server.turnedAway s s' a \/ (exists token uid, carries i token /\ knownAs token uid) \/
  in_path i = "/health" \/ HasPrefix (in_path i) "/download/" = true \/
  (l = Startup.MetricsServer (met_ListenAddr (Metrics cfg)) /\ in_path i = "/metrics" /\
   exists r, pt_metrics pt (in_request i) s = (s', r) /\ a = Server.Plain r).
Proof.
  intros Hload Hp Hl H. assert (Hc : configured) by (split; [by eapply ConfigSpec.loaded_valid | done]).
  assert (Hcase : (exists addr, l = Startup.MetricsServer addr) \/ server i s = (s', a)) by (destruct l; cbn [serveOn] in H; eauto).
  destruct Hcase as [[addr ->] | Hs].
  { clear Hc. apply metricsServer_answers in H as [H | H]; [by left |]. do 4 right. split; [| done].
    unfold Startup.listenersOf in Hl. rewrite !elem_of_app in Hl. destruct Hl as [Hl | [Hl | Hl]].
    - unfold Startup.metricsListener in Hl. destruct (negb _); [by apply list_elem_of_singleton in Hl | by apply elem_of_nil in Hl].
    - unfold Startup.quicListener in Hl. destruct (srv_EnableQUIC _); [by apply list_elem_of_singleton in Hl | by apply elem_of_nil in Hl].
    - apply list_elem_of_singleton in Hl. unfold Startup.apiListener in Hl.
      destruct (String.eqb _ "http"); [done |]. destruct (String.eqb _ "auto"); [| done]. by destruct (_ && _). }
  clear H.
  apply (Server.guards_root _ _ _ _ _ _ _ _ (fun i _ => authenticated authenticator i \/ in_path i = "/health" \/
    HasPrefix (in_path i) "/download/" = true)) in Hs as H.
  - destruct H as [H | [H | [(uid & H & _) | [H | H]]]]; [by left | | | by auto | by auto].
    + right. left. apply internal_known in H as (token & ? & ?). by eexists _, _.
    + right. left. apply authenticator_known in H as (token & ? & ?); [| done]. by eexists _, _.
  - clear -RouterLaws0. intros i s s' a. unfold Server.routerAnswer, router, bind, ret.
    destruct (dispatch _ _ _ _ _ i s) as [s1 r] eqn:E. intros [= <- <-].
    destruct (dispatch_authenticates _ _ _ _ _ _ _ _ _ E) as [[Ha | [[-> Hs] | Hx]] _]; [by auto | | by auto].
    left. split; [done |]. cbn [Server.answerStatus]. lia.
Qed.

(** What a user may do to a path, by the record that governs it: the user is root, or
    the bit of the mode for the owner, group or others is set; a write to a path
    right below a root without record is allowed. *)
Definition granted (view : W -> StoreView) (uid path : string) (perm : PermissionType) (w : W) : Prop :=
  match Unix.governing view path perm w with
  | Some md => exists mode, Unix.parseModeBits (md_Mode md) = Ok mode /\
      (Unix.userIDs uid = 0%Z \/ Z.testbit mode (Unix.grant_bit (Unix.userIDs uid) perm md) = true)
  | None => perm = WritePerm /\ view_md (view w) !! "/" = None /\ (LastIndex path slash <= 0)%Z
  end.

(** C7: Access to files through the configured server: a request to the file,
    directory or shard API that changes something or gets anything but a refusal or
    a redirect carries the secret of the cluster, or an API key of the
    configuration whose user the mode of the governing record grants the permission on the path that
    the URL names. *)
Theorem app_grants_by_mode {K} (koanf : Koanf K) cfgPath (view : W -> StoreView) (serving : W -> Prop)
    `{!StoreSpec (pt_store pt) view serving} `{!RouterLaws (pt_find pt)} i route rest s s' a :
  LoadConfigFromFile koanf cfgPath = Ok cfg -> pt_keyOrder pt ≡ₚ map_to_list validKeys -> serving (Engine.es_world s) ->
  in_method i = methodOf route -> in_path i = mountOf route +:+ rest ->
  (route = HandlerSpec.RGet -> HasPrefix rest "ws/" = false) ->
  server i s = (s', a) ->
  Server.turnedAway s s' a \/ carries i secret \/
  exists key uid, carries i key /\ knownAs key uid /\ key ∈ auth_APIKeys (Auth cfg) /\
    granted view uid (HandlerSpec.targetPath route rest) (HandlerSpec.needs route) (Engine.es_world s).
Proof.
  intros Hload Hp Hs Hmeth Hpath Hws H. assert (Hc : configured) by (split; [by eapply ConfigSpec.loaded_valid | done]).
  apply (Server.guards_root _ _ _ _ _ _ _ _ (fun i s =>
    in_method i = methodOf route -> in_path i = mountOf route +:+ rest -> serving (Engine.es_world s) ->
    exists uid, authenticator (header i) = Ok uid /\
      granted view uid (HandlerSpec.targetPath route rest) (HandlerSpec.needs route) (Engine.es_world s))) in H.
  - destruct H as [H | [H | H]]; [by left | |].
    + right. left. apply internal_known in H as (token & Ht & Hk). inversion Hk; by subst.
    + destruct (H Hmeth Hpath Hs) as (uid & Hu & Hg). apply authenticator_known in Hu as (token & Ht & Hk); [| done].
      right. destruct Hk as [n Hin Hlen | ->]; [| by left]. right. eexists token, _. split; [done |].
      split; [by apply known_key | done].
  - clear -RouterLaws0 StoreSpec0 Hws. intros i s s' a. unfold Server.routerAnswer, router, bind, ret.
    destruct (dispatch _ _ _ _ _ i s) as [s1 r] eqn:E. intros [= <- <-].
    destruct (decide (in_method i = methodOf route /\ in_path i = mountOf route +:+ rest)) as [[Hm Hpa] | Hn];
      [| right; right; intros; exfalso; by apply Hn].
    destruct (dispatch_mediates _ _ _ _ _ _ _ _ _ _ _ _ _ _ _ _ _ _ Hm Hpa Hws E) as [[-> Hr] | (uid & [] & Hu & Hg)].
    + left. split; [done |]. cbn [Server.answerStatus]. lia.
    + right. right. intros _ _ Hs. exists uid. split; [done |]. by apply (Unix.Authorize_granted (pt_store pt) view serving).
Qed.

End App.
(** ** A concrete server *)

Import HandlerSpec.

Definition app_cfg : AppConfig := ConfigSpec.sampleLoaded.
Definition app_parts : Parts EW :=
  mkParts EW (Engine.e_metadataStore ewEngine) (Erasure.m_erasureStore ewErasure) ewFiles (Noop.noopStorage EW) ewProxy None
    (Engine.e_lockManager ewEngine) RaftTextSpec.lineCodec None (Erasure.m_rs ewErasure) (Erasure.m_ShardChecksum ewErasure) (Erasure.m_hashPrefix ewErasure)
    (Erasure.m_httpClient ewErasure) Links.toy (fun _ => 7%Z) (fun _ => Ok "ab.") (Engine.e_sched ewEngine)
    (map_to_list (validKeys app_cfg)) [] [] Itoa (fun _ => None) (fun _ => None) (fun _ => None)
    (fun rts m p => best m p rts) (fun _ _ => ret true) (fun _ => ret (status 200)) (fun _ => ret (status 101)).

Lemma app_loaded : LoadConfigFromFile (ConfigSpec.sampleKoanf ConfigSpec.sampleVars) "" = Ok app_cfg.
Proof. vm_compute. reflexivity. Qed.

#[global] Instance app_store_spec : StoreSpec (pt_store app_parts) snd (fun _ => True).
Proof. exact (memStore_spec snd (fun v w => (w.1, v)) (fun _ _ => eq_refl)). Qed.

Definition app_request (token : string) : Incoming :=
  mkIncoming "GET" "/v1/directories/d" "10.0.0.7:4000" true
    (mkRequest "" None (fun h => if String.eqb h "Authorization" then token else "") (fun _ => "") (bytesReader "") 0) (Ok "01234567").
Definition app_dir : Metadata := mkMetadata 1 None "d" "/d" "directory" 0 "0755" 0 0 0 0 0 "localfs" false None None 0 0.
Definition app_state : Engine.EState EW := ew0 {[ "/d" := app_dir ]}.
Definition app_run (token : string) : Engine.EState EW * Server.Answer := server app_cfg app_parts (app_request token) app_state.

(** A guessed key is refused by the server of the API. *)
Lemma app_serves_known_witness : Server.turnedAway app_state (app_run "Bearer guess").1 (app_run "Bearer guess").2.
Proof.
  destruct (app_serves_known app_cfg app_parts (ConfigSpec.sampleKoanf ConfigSpec.sampleVars) ""
    (Startup.apiListener (Config.Server app_cfg)) (app_request "Bearer guess") app_state
    (app_run "Bearer guess").1 (app_run "Bearer guess").2 app_loaded (reflexivity _)
    ltac:(apply elem_of_app; right; apply elem_of_app; right; by apply list_elem_of_singleton) (surjective_pairing _))
    as [H | [(token & uid & (prefix & Hin & <-) & Hk) | [H | [H | [H _]]]]]; [exact H | exfalso | discriminate H ..].
  apply elem_of_cons in Hin as [-> | Hin]; [| apply list_elem_of_singleton in Hin as ->];
    (inversion Hk as [n Hin Hlen Eu | Es]; [by vm_compute in Hlen; lia | by vm_compute in Es]).
Defined.

(** The configured key lists a directory that others may read. *)
Lemma app_grants_by_mode_witness :
  Server.answerStatus (app_run "Bearer 0123456789abcdef").2 = 200%Z /\
  exists key uid, carries (app_request "Bearer 0123456789abcdef") key /\ knownAs app_cfg key uid /\
    key ∈ auth_APIKeys (Auth app_cfg) /\ granted snd uid "/d" ReadPerm (Engine.es_world app_state).
Proof.
  split; [vm_compute; reflexivity |].
  destruct (app_grants_by_mode app_cfg app_parts (ConfigSpec.sampleKoanf ConfigSpec.sampleVars) "" snd (fun _ => True)
    (app_request "Bearer 0123456789abcdef") RList "d" app_state
    (app_run "Bearer 0123456789abcdef").1 (app_run "Bearer 0123456789abcdef").2 app_loaded (reflexivity _) I eq_refl eq_refl
    ltac:(discriminate) (surjective_pairing _)) as [[_ H] | [H | H]].
  - exfalso. vm_compute in H. destruct H as [H _]. by apply H.
  - exfalso. destruct H as (prefix & Hin & H). apply elem_of_cons in Hin as [-> | Hin]; [| apply list_elem_of_singleton in Hin as ->];
      by vm_compute in H.
  - exact H.
Defined.

End App.
