(* ===== verification/AppTransfer.v ===== *)
(** * Transfers through the configured server

    What a client puts with one API key of the configuration can be got with
    any other that may read it, through all that stands between the socket and the
    disk: the muxes, the router, the authentication, the handler, the engine. *)
From S2P Require Import Prelude GoStrings PathUtil Metadata MemStore Auth Links Locks Backends Erasure Json RaftStore RaftTextSpec RaftNode Engine EngineSpec Handlers HandlerSpec Config ConfigSpec Startup RateLimit Router Server App.
From Stdlib Require Import Ascii String.
Open Scope string_scope.
Open Scope bool_scope.
Open Scope go_scope.

Module AppTransfer.
Import Engine PathUtils EngineSpec Handlers Router Config App.

(** ** The muxes in front of the router *)

Section Muxes.
Context {S : Type}.

(** Whether a request is redirected depends on its path only. *)
Lemma mux_by_path ps (fallback : Incoming -> St S Server.Answer) path :
  Server.muxFind ps path = None ->
  (exists location, forall i s, in_method i <> "CONNECT" -> in_path i = path ->
     Server.mux ps fallback i s = (s, Server.redirect location)) \/
  (forall i s, in_method i <> "CONNECT" -> in_path i = path -> Server.mux ps fallback i s = fallback i s).
Proof.
  intros Hf. destruct (existsb (fun ph => String.eqb (Server.cleanPath path +:+ "/") ph.1) ps) eqn:Ee.
  { left. exists (Server.cleanPath path +:+ "/"). intros i s Hm%String.eqb_neq Hp. unfold Server.mux. by rewrite Hm, Hp, Ee. }
  destruct (String.eqb_spec (Server.cleanPath path) path) as [Ec | Ec%String.eqb_neq].
  - right. intros i s Hm%String.eqb_neq Hp. unfold Server.mux. by rewrite Hm, Hp, Ee, Ec, String.eqb_refl, Hf.
  - left. exists (Server.cleanPath path). intros i s Hm%String.eqb_neq Hp. unfold Server.mux. by rewrite Hm, Hp, Ee, Ec.
Qed.

End Muxes.

Section Root.
Context {W : Type} (codec : Json.Codec) (routerHandler : Incoming -> St (Engine.EState W) Response) (localFS : Storage W) (secret : string)
        (raftStore : option (RaftNode.RaftLib W * RaftNode.NodeEnv W))
        (decodeJoin : Reader -> option Startup.JoinRequest) (decodeCommand : Reader -> option Raft.Command)
        (ctxErr : option gerr) (erasureEnabled : bool).
Abbreviation root := (Server.rootHandler codec routerHandler localFS secret raftStore decodeJoin decodeCommand ctxErr erasureEnabled).

(** A request to the file API gets to the router, unless the muxes redirect
    all requests for its path. *)
Lemma root_files rest :
  (exists location, forall i s, in_method i <> "CONNECT" -> in_path i = "/v1/files/" +:+ rest ->
     root i s = (s, Server.redirect location)) \/
  (forall i s, in_method i <> "CONNECT" -> in_path i = "/v1/files/" +:+ rest ->
     root i s = Server.routerAnswer routerHandler i s).
Proof.
  unfold Server.rootHandler. set (inner := if erasureEnabled then _ else _).
  assert (Hi : (exists location, forall i s, in_method i <> "CONNECT" -> in_path i = "/v1/files/" +:+ rest ->
      inner i s = (s, Server.redirect location)) \/
    (forall i s, in_method i <> "CONNECT" -> in_path i = "/v1/files/" +:+ rest ->
      inner i s = Server.routerAnswer routerHandler i s)).
  { subst inner. destruct erasureEnabled; [by apply mux_by_path | by right]. }
  destruct raftStore as [[lib nenv] |]; [| exact Hi].
  match goal with |- context [Server.mux ?ps inner] =>
    destruct (mux_by_path ps inner ("/v1/files/" +:+ rest) eq_refl) as [Ho | Ho] end; [by left |].
  destruct Hi as [[location Hi] | Hi]; [left; exists location | right]; intros i s Hm Hp; rewrite Ho by done; by apply Hi.
Qed.

End Root.

(** ** Putting and getting *)

Section Transfer.
Context {W : Type} (cfg : AppConfig) (pt : Parts W).
Abbreviation e := (coreEngine cfg pt).
Abbreviation bt := (be_DefaultBackend (Backend cfg)).
Abbreviation header i := (rq_header (in_request i) "Authorization").

Context `{!RouterLaws (pt_find pt)}.

(** What the router makes of a request to the file API. *)
Lemma router_files i route rest s :
  mountOf route = "/v1/files/" -> in_method i = methodOf route -> in_path i = "/v1/files/" +:+ rest ->
  (route = HandlerSpec.RGet -> HasPrefix rest "ws/" = false) ->
  router cfg pt i s =
  routed e (authorizer pt) (authenticator pt) (erasureManager cfg pt) bt (pt_fmtTime pt) (pt_peerOrder pt) (pt_shardOrder pt) route rest i s.
Proof. intros. unfold router. by apply dispatch_files. Qed.

(** A handler that succeeds behind the authentication has run, as some user. *)
Lemma routed_success em route rest i s s1 r :
  routed e (authorizer pt) (authenticator pt) em bt (pt_fmtTime pt) (pt_peerOrder pt) (pt_shardOrder pt) route rest i s = (s1, r) ->
  HandlerSpec.succeeded r ->
  exists req resp, rq_urlPath req = rest /\ rq_header req = rq_header (in_request i) /\ rq_query req = rq_query (in_request i) /\
    rq_body req = rq_body (in_request i) /\ rq_contentLength req = rq_contentLength (in_request i) /\
    HandlerSpec.serve e (authorizer pt) em bt (pt_fmtTime pt) (pt_peerOrder pt) (pt_shardOrder pt) route req s = (s1, resp) /\
    HandlerSpec.succeeded resp.
Proof.
  unfold routed, bind, ret. destruct (V1AuthMiddleware _ _ _ s) as [s2 resp] eqn:E. intros [= <- <-] Hok.
  unfold HandlerSpec.succeeded in Hok. cbn [rs_status] in Hok. unfold V1AuthMiddleware, ret in E.
  destruct (String.eqb _ ""); [injection E as <- <-; exfalso; cbn in Hok; lia |].
  destruct (authenticator pt _) as [uid | er]; [| injection E as <- <-; exfalso; cbn in Hok; lia].
  eexists _, resp. by split_and!; [.. | exact E | exact Hok].
Qed.

(** A request with a key of the configuration is served as the user of the key. *)
Lemma routed_known em route rest i uid s : pt_keyOrder pt ≡ₚ map_to_list (validKeys cfg) ->
  validKeys cfg !! ApiKeys.headerToken (header i) = Some uid ->
  routed e (authorizer pt) (authenticator pt) em bt (pt_fmtTime pt) (pt_peerOrder pt) (pt_shardOrder pt) route rest i s =
  (let '(s', resp) := HandlerSpec.serve e (authorizer pt) em bt (pt_fmtTime pt) (pt_peerOrder pt) (pt_shardOrder pt) route
      (mkRequest rest (Some uid) (rq_header (in_request i)) (rq_query (in_request i)) (rq_body (in_request i))
         (rq_contentLength (in_request i))) s in
   (s', mkResponse (rs_status resp) (commonHeaders i ++ rs_headers resp)%list (rs_body resp))).
Proof.
  intros Hp Hk.
  assert (Hne : String.eqb (header i) "" = false).
  { apply String.eqb_neq. intros Hh. rewrite Hh in Hk. unfold validKeys in Hk.
    change (ApiKeys.headerToken "") with "" in Hk. by rewrite ApiKeys.new_empty in Hk. }
  unfold routed, bind, ret, V1AuthMiddleware. cbn [withPath rq_header].
  rewrite Hne. unfold authenticator. rewrite (ApiKeys.Authenticate_lookup _ _ _ Hp) by apply ApiKeys.new_empty. by rewrite Hk.
Qed.

Context (view : W -> StoreView) (serving : W -> Prop) (content : W -> string -> option string)
        {store_spec : StoreSpec (pt_store pt) view serving} {env : EngineEnv e view serving}
        {cenv : HandlerSpec.ContentEnv e bt content}.

#[local] Instance core_store : StoreSpec (Engine.e_metadataStore e) view serving.
Proof. unfold coreEngine. by destruct (er_Enabled _). Qed.

(** C1: What is put can be got: when the server that is put together from a
    configuration answers a PUT or POST to the file API with 200 or 201, it
    answers a later GET of the same path with 200, exactly the bytes of the upload
    and their number as Content-Length, to everybody with an API key of the
    configuration whose user may read the file by its mode.  The upload starts in a
    state whose cache agrees with the store, does not ask for erasure coding, and
    its path names no directory, no file that is erasure-coded, on another instance
    or on another backend, and nothing below /ws/, where a GET goes to the
    websocket handler. *)
Theorem app_put_then_get (put : bool) rest p g s s1 resp uid :
  let path := HandlerSpec.targetPath HandlerSpec.RGet rest in
  pt_keyOrder pt ≡ₚ map_to_list (validKeys cfg) ->
  EngineSpec.good view serving s -> HandlerSpec.replaceable view bt (HandlerSpec.anyOwner e) path s ->
  IsDirectory (ParseFilePath rest) = false -> HandlerSpec.plainUpload e (in_request p) -> HasPrefix rest "ws/" = false ->
  in_method p = (if put then "PUT" else "POST") -> in_path p = "/v1/files/" +:+ rest ->
  server cfg pt p s = (s1, Server.Plain resp) -> HandlerSpec.succeeded resp ->
  in_method g = "GET" -> in_path g = in_path p ->
  validKeys cfg !! ApiKeys.headerToken (header g) = Some uid ->
  granted view uid path ReadPerm (Engine.es_world s1) ->
  exists s2 hdrs, server cfg pt g s1 =
    (s2, Server.Plain (mkResponse 200 hdrs (BData (bytesReader (rd_data (rq_body (in_request p))))))) /\
    ("Content-Length", Itoa (HandlerSpec.transferSize (in_request p))) ∈ hdrs.
Proof.
  intros path Hkeys Hg Hrec Hd Hplain Hws Hmp Hpath H Hok Hmg Hpg Hk Hgr. rewrite Hpath in Hpg.
  destruct (root_files (pt_codec pt) (router cfg pt) (pt_localFS pt) (auth_InternalProxySecret (Auth cfg)) (pt_raft pt)
    (pt_decodeJoin pt) (pt_decodeCommand pt) None (er_Enabled (Config.Erasure cfg)) rest) as [[l Hr] | Hr];
    unfold server in H |- *; rewrite Hr in H by (done || by rewrite Hmp; destruct put).
  { injection H as <- <-. exfalso. destruct Hok; done. }
  rewrite Hr by (done || by rewrite Hmg). clear Hr. unfold Server.routerAnswer, bind, ret in H |- *.
  set (route := if put then HandlerSpec.RPut else HandlerSpec.RPost).
  rewrite (router_files p route rest) in H by (try done; by destruct put).
  rewrite (router_files g HandlerSpec.RGet rest) by done. rewrite routed_known with (uid := uid) by done.
  destruct (routed _ _ _ _ _ _ _ _ route rest p s) as [s1' r] eqn:E. injection H as <- <-.
  apply routed_success in E as (req & resp & Hu & Hh0 & Hq & Hb & Hl & E & Hok'); [| done].
  destruct (HandlerSpec.upload_arrives e view serving bt content (HandlerSpec.anyOwner e) (authorizer pt) (pt_peerOrder pt)
    (pt_shardOrder pt) put req s s1' resp) as (Hv & Hgood & _ & Hh).
  - done.
  - by rewrite Hu.
  - by rewrite Hu.
  - unfold HandlerSpec.plainUpload. by rewrite Hh0, Hq.
  - by destruct put.
  - done.
  - rewrite Hu in Hh, Hv. fold path in Hh. rewrite Hb in Hh.
    assert (Ha : authorizer pt uid path ReadPerm (Engine.es_world s1') = Ok tt)
      by (apply (Unix.Authorize_granted (pt_store pt) view serving); [by apply Hh | exact Hgr]).
    cbn [HandlerSpec.serve]. destruct (HandlerSpec.download e view serving bt content (HandlerSpec.anyOwner e) (authorizer pt) (pt_fmtTime pt)
      (mkRequest rest (Some uid) (rq_header (in_request g)) (rq_query (in_request g)) (rq_body (in_request g)) (rq_contentLength (in_request g)))
      uid path (rd_data (rq_body (in_request p))) (HandlerSpec.transferSize req) s1' tt) as (s2 & hdrs & -> & Hin);
      [done | by eapply HandlerSpec.good_sees | done .. |].
    eexists _, _. split; [reflexivity |]. apply elem_of_app. right. revert Hin. unfold HandlerSpec.transferSize. by rewrite Hb, Hl.
Qed.
End Transfer.

(** ** A concrete server on the map-backed components of EngineSpec.v *)

Definition tr_cfg : AppConfig := ConfigSpec.sampleLoaded.
Definition tr_none {X} : St TW (Res X) := ret (Err (EMsg "not reachable")).
Definition tr_parts : Parts TW :=
  mkParts TW (memStore tw_view tw_put) (mkErasureStore TW (fun _ _ => tr_none) (fun _ _ => Err ErrNotFound) (fun _ => tr_none))
    twFiles (Noop.noopStorage TW) (Noop.noopStorage TW) None twLocks RaftTextSpec.lineCodec None (Erasure.m_rs HandlerSpec.ewErasure) id id
    (mkHttpClient TW (fun _ => Err (EMsg "not reachable")) (fun _ => tr_none)) Links.toy (fun w => LocalLocks.lw_now (tw_locks w))
    (fun _ => Ok "ab.") (e_sched (twEngine false false)) (map_to_list (validKeys tr_cfg)) [] [] Itoa
    (fun _ => None) (fun _ => None) (fun _ => None) (fun rts m p => best m p rts) (fun _ _ => ret true) (fun _ => ret (status 200))
    (fun _ => ret (status 101)).
Abbreviation tr_engine := (coreEngine tr_cfg tr_parts).

#[global] Instance tr_store : StoreSpec (pt_store tr_parts) tw_view (fun _ => True) := tw_store_spec false false.
#[global] Instance tr_env : EngineEnv tr_engine tw_view (fun _ => True).
Proof. destruct (tw_env false false). by constructor. Qed.
#[global] Instance tr_content : HandlerSpec.ContentEnv tr_engine "localfs" HandlerSpec.tw_content.
Proof. destruct (HandlerSpec.tw_content_env false false). by constructor. Qed.

Definition tr_request (method token : string) (body : string) (n : Z) : Incoming :=
  mkIncoming method "/v1/files/d/x/f" "10.0.0.7:4000" true
    (mkRequest "" None (fun h => if String.eqb h "Authorization" then "Bearer " +:+ token else "") (fun _ => "") (bytesReader body) n)
    (Ok "01234567").
Definition tr_put : Incoming := tr_request "PUT" "proxy" "goodbye" (-1).
Definition tr_get : Incoming := tr_request "GET" "0123456789abcdef" "" 0.
Definition tr_created : EState TW := (CreateFile tr_engine None "/d/x/f" (bytesReader "hello") 5 tw_md tw0).1.
Definition tr_after : EState TW * Server.Answer := server tr_cfg tr_parts tr_put tr_created.

(** A peer of the cluster replaces a file, a user of the API reads it. *)
Lemma app_put_then_get_witness :
  exists s2 hdrs, server tr_cfg tr_parts tr_get tr_after.1 = (s2, Server.Plain (mkResponse 200 hdrs (BData (bytesReader "goodbye")))) /\
    ("Content-Length", "7") ∈ hdrs.
Proof.
  refine (app_put_then_get tr_cfg tr_parts tw_view (fun _ => True) HandlerSpec.tw_content true "d/x/f" tr_put tr_get
    tr_created tr_after.1 (match tr_after.2 with Server.Plain r => r | _ => status 500 end) "api-user-1"
    _ _ _ _ _ _ _ _ _ _ _ _ _ _).
  - reflexivity.
  - exact (CreateFile_good tr_engine tw_view (fun _ => True) None "/d/x/f" (bytesReader "hello") 5 tw_md
             tw0 tr_created _ (surjective_pairing _) tw0_good).
  - intros md Hmd. vm_compute in Hmd. injection Hmd as <-. split; [reflexivity |]. split; [reflexivity |]. vm_compute. auto.
  - vm_compute. reflexivity.
  - left. reflexivity.
  - reflexivity.
  - reflexivity.
  - reflexivity.
  - vm_compute. reflexivity.
  - vm_compute. auto.
  - reflexivity.
  - reflexivity.
  - vm_compute. reflexivity.
  - vm_compute. eexists. split; [reflexivity |]. right. reflexivity.
Defined.

End AppTransfer.
