(* ===== verification/ErasureCluster.v ===== *)
(** * Erasure coding across instances

    The managers of several instances, each with its disk, reach each other's
    shard endpoints: what erasure/manager.go sends to a peer is answered by the
    handlers of server/handlers/internal_shard_handlers.go there.  A file that
    one instance stores can be read through any other. *)
From S2P Require Import Prelude GoStrings PathUtil Metadata Auth Backends S3Spec Erasure Engine Handlers Startup Router Server.
From Stdlib Require Import Ascii String.
Open Scope string_scope.
Open Scope bool_scope.
Open Scope go_scope.

Module ErasureCluster.
Import Erasure Handlers Router S3Spec.

(** ** Paths of shards *)

Definition shardTarget (prefix : string) (idx : Z) : string := "/v1/internal/shards/" +:+ prefix +:+ "/" +:+ Itoa idx.

(** A hash prefix: a single name that a path may have. *)
Definition plainPrefix (hp : string) : Prop := plain_name hp = true /\ PathUtil.ValidatePath hp = Ok tt.

Lemma parse_Itoa (i : nat) : parse_digits 10 0 (Itoa (Z.of_nat i)) = Some (Z.of_nat i).
Proof.
  destruct i as [| i]; [by vm_compute |]. unfold Itoa. set (p := Pos.of_succ_nat i).
  change (Z.of_nat (S i)) with (Z.pos p). change (pretty (Z.pos p)) with (pretty (N.pos p)).
  unfold pretty, pretty_N. rewrite decide_False by done. by rewrite Unix.parse_pretty_go.
Qed.

Lemma parse_digits_no_slash b acc s v : parse_digits b acc s = Some v -> no_slash s = true.
Proof.
  revert acc. induction s as [| c s IH]; intros acc; [done |]. cbn [parse_digits]. rewrite no_slash_cons.
  destruct (digit_of b c) eqn:E; [| done]. intros H%IH. rewrite H.
  destruct (Ascii.eqb_spec slash c) as [<- |]; [by destruct (b =? 0)%Z | done].
Qed.

Lemma Itoa_no_slash (i : nat) : no_slash (Itoa (Z.of_nat i)) = true.
Proof. eapply parse_digits_no_slash, parse_Itoa. Qed.

Lemma Atoi_Itoa_nat (i : nat) : (Z.of_nat i < 2 ^ 63)%Z -> Atoi (Itoa (Z.of_nat i)) = Some (Z.of_nat i).
Proof. intros H. destruct i as [| i]; [by vm_compute | apply Unix.Atoi_Itoa; lia]. Qed.

(** The last part of the path comes off. *)
Lemma split_last (hp : string) (i : nat) :
  let s := hp +:+ "/" +:+ Itoa (Z.of_nat i) in
  (LastIndex s slash <? 0)%Z = false /\ slice_to s (LastIndex s slash) = hp /\
  slice_from s (LastIndex s slash + 1) = Itoa (Z.of_nat i).
Proof.
  cbv zeta. rewrite str_app_assoc, (LastIndex_app hp) by apply Itoa_no_slash.
  unfold slice_to, slice_from. split; [apply Z.ltb_ge; lia |]. rewrite Nat2Z.id, <- str_app_assoc. split; [apply str_take_app |].
  replace (Z.to_nat _) with (String.length (hp +:+ "/")) by (rewrite str_length_app; cbn; lia).
  by rewrite str_app_assoc, str_drop_app.
Qed.

(** The manager takes its own paths apart again. *)
Lemma extract_shardPath hp i : extractShardPrefix (shardPath hp i) = hp.
Proof.
  unfold extractShardPrefix, shardPath. rewrite TrimPrefix_app. destruct (split_last hp i) as (-> & -> & _). done.
Qed.

(** The endpoint parses the path that the manager asks for, into the path of the shard. *)
Lemma parse_target hp i : plainPrefix hp -> (Z.of_nat i < 2 ^ 63)%Z ->
  parseShardPath (shardTarget hp (Z.of_nat i)) = Ok (shardPath hp i, Z.of_nat i).
Proof.
  intros [_ Hv] Hi. unfold parseShardPath, shardTarget. rewrite TrimPrefix_app.
  destruct (String.eqb_spec (hp +:+ "/" +:+ Itoa (Z.of_nat i)) ("/v1/internal/shards/" +:+ hp +:+ "/" +:+ Itoa (Z.of_nat i))) as [E |].
  { apply (f_equal String.length) in E. rewrite (str_length_app "/v1/internal/shards/") in E. cbn in E. lia. }
  destruct (split_last hp i) as (-> & -> & ->). rewrite Atoi_Itoa_nat, Hv by done. done.
Qed.

Lemma Itoa_plain (i : nat) : plain_name (Itoa (Z.of_nat i)) = true.
Proof.
  pose proof (parse_Itoa i) as H. unfold plain_name. rewrite Itoa_no_slash, andb_true_r.
  destruct i as [| i]; [by vm_compute |].
  destruct (String.eqb_spec (Itoa (Z.of_nat (S i))) "") as [E | _]; [rewrite E in H; injection H; lia |].
  destruct (String.eqb_spec (Itoa (Z.of_nat (S i))) ".") as [E | _]; [by rewrite E in H |].
  by destruct (String.eqb_spec (Itoa (Z.of_nat (S i))) "..") as [E | _]; [rewrite E in H |].
Qed.

(** The path needs no cleaning, so that the muxes do not redirect it. *)
Lemma target_clean hp i : plainPrefix hp -> Server.cleanPath (shardTarget hp (Z.of_nat i)) = shardTarget hp (Z.of_nat i).
Proof.
  intros [Hp _].
  assert (Hr : shardTarget hp (Z.of_nat i) = render_path true ["v1"; "internal"; "shards"; hp; Itoa (Z.of_nat i)]) by reflexivity.
  assert (Hn : Forall (fun c => plain_name c = true) ["v1"; "internal"; "shards"; hp; Itoa (Z.of_nat i)])
    by (repeat (constructor; [by rewrite ?Itoa_plain |]); constructor).
  assert (Hc : filepath_Clean (shardTarget hp (Z.of_nat i)) = shardTarget hp (Z.of_nat i)).
  { rewrite Hr. unfold filepath_Clean. by rewrite render_path_abs, path_comps_render by (exists 0; eexists; done). }
  assert (Hs : HasSuffix (shardTarget hp (Z.of_nat i)) "/" = false).
  { unfold shardTarget. rewrite (str_app_assoc hp "/"), str_app_assoc. apply HasSuffix_name; [apply Itoa_no_slash |].
    pose proof (Itoa_plain i) as H. intros E. by rewrite E in H. }
  unfold Server.cleanPath. change (String.eqb (shardTarget hp (Z.of_nat i)) "") with false.
  change (HasPrefix (shardTarget hp (Z.of_nat i)) "/") with true. cbv iota zeta. by rewrite Hc, Hs.
Qed.

(** The whole server, with or without a Raft store, hands such a request to the shard endpoint. *)
Lemma root_serves_shards {W} codec routerHandler (disk : Storage W) secret raftStore decodeJoin decodeCommand ctxErr hp i n s :
  plainPrefix hp -> in_path n = shardTarget hp (Z.of_nat i) ->
  Server.rootHandler codec routerHandler disk secret raftStore decodeJoin decodeCommand ctxErr true n s =
  (do resp <- Engine.lift (Server.shardAnswer disk secret n); ret (Server.Plain resp)) s.
Proof.
  intros Hp Hpath.
  assert (Hm : forall ps fb, Server.muxFind ps (shardTarget hp (Z.of_nat i)) = None ->
    existsb (fun ph => String.eqb (shardTarget hp (Z.of_nat i) +:+ "/") ph.1) ps = false ->
    Server.mux (S := Engine.EState W) ps fb n s = fb n s).
  { intros ps fb Hf He. unfold Server.mux. rewrite Hpath, target_clean by done.
    destruct (String.eqb (in_method n) "CONNECT"); rewrite He, String.eqb_refl; cbn [negb]; by rewrite Hf. }
  assert (Hs : Server.mux [("/v1/internal/shards/", Server.recoverMiddleware (Server.returns (Server.shardEndpoint disk secret)))]
      (Server.routerAnswer routerHandler) n s = (do resp <- Engine.lift (Server.shardAnswer disk secret n); ret (Server.Plain resp)) s).
  { unfold Server.mux. rewrite Hpath, target_clean by done.
    assert (He : existsb (fun ph : string * (Incoming -> St (Engine.EState W) Server.Answer) =>
        String.eqb (shardTarget hp (Z.of_nat i) +:+ "/") ph.1)
        [("/v1/internal/shards/", Server.recoverMiddleware (Server.returns (Server.shardEndpoint disk secret)))] = false).
    { cbn [existsb fst]. rewrite orb_false_r. apply String.eqb_neq. intros E. apply (f_equal String.length) in E.
      unfold shardTarget in E. rewrite !str_length_app in E. cbn in E. lia. }
    destruct (String.eqb (in_method n) "CONNECT"); rewrite He, String.eqb_refl; cbn [negb];
      (assert (Hf : Server.muxFind [("/v1/internal/shards/", Server.recoverMiddleware (Server.returns (Server.shardEndpoint disk secret)))]
         (shardTarget hp (Z.of_nat i)) = Some (Server.recoverMiddleware (Server.returns (Server.shardEndpoint disk secret))))
         by (cbn [Server.muxFind]; unfold Server.muxMatches, shardTarget; by rewrite HasPrefix_app));
      rewrite Hf; cbn [default from_option]; unfold id; by rewrite Server.recover_returns. }
  unfold Server.rootHandler. destruct raftStore as [[lib nenv] |]; [| exact Hs]. by rewrite Hm.
Qed.

(** ** The instances *)

(** What the instances share, and what each has: its own disk and its bucket,
    of which one is configured for the shards. *)
Record Nodes (W : Type) := mkNodes {
  nd_rs : ReedSolomon;
  nd_checksum : string -> string;
  nd_hashPrefix : string -> string;
  nd_store : ErasureMetadataStore W;
  nd_config : ErasureConfig;
  nd_peers : gmap string string;
  nd_secret : string;
  nd_disk : string -> Storage W;
  nd_s3 : string -> Storage W;
  nd_client : string -> HttpClient W;
}.
Arguments nd_rs {W}. Arguments nd_checksum {W}. Arguments nd_hashPrefix {W}. Arguments nd_store {W}. Arguments nd_config {W}.
Arguments nd_peers {W}. Arguments nd_secret {W}. Arguments nd_disk {W}. Arguments nd_s3 {W}. Arguments nd_client {W}.

Section Cluster.
Context {W : Type} (nd : Nodes W).

(** The backend of the shards of an instance (run of cmd/main.go). *)
Definition shardBackend (id : string) : Storage W :=
  let shardBackendType := ToLower (TrimSpace (ec_ShardBackend (nd_config nd))) in
  if String.eqb shardBackendType "s3" then nd_s3 nd id else nd_disk nd id.

Definition managerOf (id : string) : Manager W :=
  (NewManager (nd_rs nd) (nd_checksum nd) (nd_hashPrefix nd) (nd_client nd id) (nd_store nd) (shardBackend id) (nd_config nd) id
     (nd_peers nd) (nd_secret nd)).1.

(** The shard endpoint of an instance: whatever is configured for the shards, it
    serves the local disk. *)
Definition shardService (id : string) : Incoming -> St W Response := Server.shardAnswer (nd_disk nd id) (nd_secret nd).

(** ** What the network and the disks do *)

Record arrives (req : HttpRequest) (path : string) (i : Incoming) : Prop := {
  ar_method : in_method i = hq_Method req;
  ar_path : in_path i = path;
  ar_auth : rq_header (in_request i) "Authorization" = hq_Auth req;
  ar_body : rq_body (in_request i) = default (bytesReader "") (hq_Body req);
}.

(** A client sees a body only when it was read to its end. *)
Definition delivered (resp : Response) (hresp : HttpResponse) : Prop :=
  hr_Status hresp = rs_status resp /\
  forall rd, rs_body resp = BData rd -> rd_err rd = None /\ hr_Body hresp = rd_data rd.
Definition readsWhole (resp : Response) : Prop := forall rd, rs_body resp = BData rd -> rd_err rd = None.

Definition asks (req : HttpRequest) (endpoint prefix : string) (idx : Z) : Prop :=
  hq_URL req = TrimRight endpoint slash +:+ shardTarget prefix idx.

(** A request to the endpoint of an instance is answered there; when the client
    gets an error the request may have arrived, whole or not.  An instance that is [up] is reached. *)
Class Network (up : string -> Prop) : Prop := {
  net_Do : forall from id ep req prefix idx w w' r,
    nd_peers nd !! id = Some ep -> asks req ep prefix idx -> hc_Do (nd_client nd from) req w = (w', r) ->
    match r with
    | Ok hresp => exists i resp, arrives req (shardTarget prefix idx) i /\ shardService id i w = (w', resp) /\ delivered resp hresp
    | Err _ => w' = w \/ exists i resp, in_method i = hq_Method req /\ in_path i = shardTarget prefix idx /\ shardService id i w = (w', resp)
    end;
  net_up : forall from id, up id -> exists ep, nd_peers nd !! id = Some ep /\
    forall req prefix idx w, asks req ep prefix idx ->
      hc_NewRequest (nd_client nd from) req = Ok tt /\
      exists i w' resp, arrives req (shardTarget prefix idx) i /\ shardService id i w = (w', resp) /\
        (readsWhole resp -> exists hresp, hc_Do (nd_client nd from) req w = (w', Ok hresp) /\ delivered resp hresp);
}.

(** Each disk is a storage of whole files of its own, in which different shards have
    different keys; that of an instance that is up can be read. *)
Class Disks (up : string -> Prop) (key : string -> string) (files : string -> W -> gmap string string) : Prop := {
  dk_files :: forall id, FileStorage (nd_disk nd id) key (files id);
  dk_key : forall hp i j, key (shardPath hp i) = key (shardPath hp j) -> i = j;
  dk_Open_up : forall id ctx p w d, up id -> files id w !! key p = Some d ->
    exists w', sg_Open (nd_disk nd id) ctx p w = (w', Ok (bytesReader d));
  dk_Open : forall id id' ctx p w w' r, id' <> id -> sg_Open (nd_disk nd id) ctx p w = (w', r) -> files id' w' = files id' w;
  dk_Create : forall id id' ctx p rd n w w' r, id' <> id -> sg_Create (nd_disk nd id) ctx p rd n w = (w', r) -> files id' w' = files id' w;
  dk_Update : forall id id' ctx p rd n w w' r, id' <> id -> sg_Update (nd_disk nd id) ctx p rd n w = (w', r) -> files id' w' = files id' w;
}.

Context (up : string -> Prop) (key : string -> string) (files : string -> W -> gmap string string)
        `{!Network up} `{!Disks up key files}
        (local_shards : ToLower (TrimSpace (ec_ShardBackend (nd_config nd))) <> "s3")
        (secret_ok : nd_secret nd <> "" /\ TrimSpace (nd_secret nd) = nd_secret nd)
        (hash_ok : forall data, plainPrefix (nd_hashPrefix nd data)).

(** ** The service *)

(** Only the file of the shard [i] of [hp] on the disk of [id] can have changed. *)
Definition only (id hp : string) (i : nat) (w w' : W) : Prop :=
  forall id' p, (id' <> id \/ p <> key (shardPath hp i)) -> files id' w' !! p = files id' w !! p.
Definition unchanged (w w' : W) : Prop := forall id, files id w' = files id w.

Lemma unchanged_only id hp i w w' : unchanged w w' -> only id hp i w w'.
Proof using Type. intros H id' p _. by rewrite H. Qed.

Lemma only_trans id hp i w w1 w2 : only id hp i w w1 -> only id hp i w1 w2 -> only id hp i w w2.
Proof using Type. intros H1 H2 id' p Hp. by rewrite H2, H1. Qed.

Lemma only_insert id hp i d w w' :
  files id w' = <[key (shardPath hp i) := d]> (files id w) -> (forall id', id' <> id -> files id' w' = files id' w) -> only id hp i w w'.
Proof using Type.
  intros Hi Ho id' p Hp. destruct (decide (id' = id)) as [-> | Hne]; [| by rewrite Ho].
  rewrite Hi, lookup_insert_ne; [done |]. destruct Hp; congruence.
Qed.

Lemma disk_Open id ctx p w w' r : sg_Open (nd_disk nd id) ctx p w = (w', r) -> unchanged w w'.
Proof using Disks0.
  intros E id'. destruct (decide (id' = id)) as [-> | Hne]; [| by eapply dk_Open].
  by apply (fs_Open (files := files id)) in E as [E _].
Qed.

(** Create and Update write the shard, whole, or leave it. *)
Lemma disk_write id (upd : bool) ctx hp i rd n w w' r :
  (if upd then sg_Update (nd_disk nd id) else sg_Create (nd_disk nd id)) ctx (shardPath hp i) rd n w = (w', r) ->
  only id hp i w w' /\ (is_Ok r = true -> files id w' !! key (shardPath hp i) = Some (rd_data rd)).
Proof using Disks0.
  intros E.
  assert (Hd : (is_Ok r = false /\ files id w' = files id w) \/
               (rd_err rd = None /\ files id w' = <[key (shardPath hp i) := rd_data rd]> (files id w))).
  { destruct upd; [by apply (fs_Update (files := files id)) in E | by apply (fs_Create (files := files id)) in E]. }
  assert (Ho : forall id', id' <> id -> files id' w' = files id' w).
  { intros id' Hne. destruct upd; [by eapply dk_Update | by eapply dk_Create]. }
  destruct Hd as [[Hr Hs] | [_ Hi]].
  - split; [| congruence]. intros id' p _. destruct (decide (id' = id)) as [-> | Hne]; [by rewrite Hs | by rewrite Ho].
  - split; [by eapply only_insert | intros _; by rewrite Hi, lookup_insert_eq].
Qed.

Lemma shardBackend_local id : shardBackend id = nd_disk nd id.
Proof using local_shards. unfold shardBackend. apply String.eqb_neq in local_shards as ->. done. Qed.

Lemma authorized i : rq_header (in_request i) "Authorization" = "Bearer " +:+ nd_secret nd ->
  authorizeInternal (rq_header (in_request i) "Authorization") (nd_secret nd) = true.
Proof using secret_ok.
  intros ->. unfold authorizeInternal. destruct secret_ok as [Hne Ht]. apply String.eqb_neq in Hne as ->.
  rewrite TrimPrefix_app, Ht. apply String.eqb_refl.
Qed.

(** A PUT writes only its shard, and has when it answers with a success. *)
Lemma service_put id hp i n w w' resp :
  plainPrefix hp -> (Z.of_nat i < 2 ^ 63)%Z ->
  in_method n = "PUT" -> in_path n = shardTarget hp (Z.of_nat i) -> shardService id n w = (w', resp) ->
  only id hp i w w' /\
  ((rs_status resp =? 200)%Z || (rs_status resp =? 201)%Z = true -> rd_err (rq_body (in_request n)) = None ->
   files id w' !! key (shardPath hp i) = Some (rd_data (rq_body (in_request n)))).
Proof using Disks0.
  intros Hp Hi Hm Hpath. unfold shardService, Server.shardAnswer. rewrite Hm. cbn [Startup.shardRoute String.eqb].
  change (Startup.shardRoute "PUT") with Startup.StoreShard. cbv iota.
  unfold InternalStoreShardHandler, shardGuard. cbn [withPath rq_header rq_urlPath rq_body]. rewrite Hpath, parse_target by done.
  destruct (negb _); [unfold ret; intros [= <- <-]; split; [by apply unchanged_only | done] |].
  unfold maxBytes. destruct (maxShardBytes <? _)%Z; cbn [rd_err rd_data]; [unfold ret; intros [= <- <-]; split; [by apply unchanged_only | done] |].
  destruct (rd_err (rq_body (in_request n))) eqn:Eb; [unfold ret; intros [= <- <-]; split; [by apply unchanged_only | done] |].
  unfold bind, ret. destruct (sg_Create _ _ _ _ _ w) as [w1 r1] eqn:E1. destruct (disk_write id false _ _ _ _ _ _ _ _ E1) as [O1 D1].
  destruct r1 as [u | e]; [intros [= <- <-]; split; [done | intros _ _; by apply D1] |].
  destruct (sg_Update _ _ _ _ _ w1) as [w2 r2] eqn:E2. destruct (disk_write id true _ _ _ _ _ _ _ _ E2) as [O2 D2].
  destruct r2 as [u | e']; intros [= <- <-]; (split; [by eapply only_trans |]); [intros _ _; by apply D2 | done].
Qed.

(** A GET changes nothing. *)
Lemma service_get_unchanged id hp i n w w' resp :
  plainPrefix hp -> (Z.of_nat i < 2 ^ 63)%Z ->
  in_method n = "GET" -> in_path n = shardTarget hp (Z.of_nat i) -> shardService id n w = (w', resp) -> unchanged w w'.
Proof using Disks0.
  intros Hp Hi Hm Hpath. unfold shardService, Server.shardAnswer. rewrite Hm.
  change (Startup.shardRoute "GET") with Startup.GetShard. cbv iota.
  unfold InternalGetShardHandler, shardGuard. cbn [withPath rq_header rq_urlPath]. rewrite Hpath, parse_target by done.
  destruct (negb _); [unfold ret; by intros [= <- <-] |].
  unfold bind, ret. destruct (sg_Open _ _ _ w) as [w1 r1] eqn:E1. apply disk_Open in E1. by intros [= <- <-].
Qed.

(** With the secret it answers with the shard. *)
Lemma service_get id hp i n w d w' resp :
  plainPrefix hp -> (Z.of_nat i < 2 ^ 63)%Z -> up id -> files id w !! key (shardPath hp i) = Some d ->
  in_method n = "GET" -> in_path n = shardTarget hp (Z.of_nat i) ->
  rq_header (in_request n) "Authorization" = "Bearer " +:+ nd_secret nd -> shardService id n w = (w', resp) ->
  rs_status resp = 200%Z /\ rs_body resp = BData (bytesReader d).
Proof using Disks0 secret_ok.
  intros Hp Hi Hup Hd Hm Hpath Ha. unfold shardService, Server.shardAnswer. rewrite Hm.
  change (Startup.shardRoute "GET") with Startup.GetShard. cbv iota.
  unfold InternalGetShardHandler, shardGuard. cbn [withPath rq_header rq_urlPath]. rewrite Hpath, parse_target by done.
  rewrite authorized by done. cbn [negb]. unfold bind, ret.
  destruct (dk_Open_up id background (shardPath hp i) w d Hup Hd) as [w1 ->]. by intros [= <- <-].
Qed.

(** ** The manager *)

Lemma remote_store from id hp i data w w' r :
  plainPrefix hp -> (Z.of_nat i < 2 ^ 63)%Z -> storeRemoteShard (managerOf from) id hp (Z.of_nat i) data w = (w', r) ->
  only id hp i w w' /\ (is_Ok r = true -> files id w' !! key (shardPath hp i) = Some data).
Proof using Disks0 Network0.
  intros Hp Hi. unfold storeRemoteShard, shardDo, try_bind, ret. cbn [managerOf NewManager fst m_peerEndpoints m_httpClient].
  destruct (nd_peers nd !! id) as [ep |] eqn:Ep; [| intros [= <- <-]; split; [by apply unchanged_only | done]].
  destruct (hc_NewRequest _ _); [| intros [= <- <-]; split; [by apply unchanged_only | done]].
  set (req := shardRequest _ _ _ _ _ _ _). destruct (hc_Do _ req w) as [w1 r1] eqn:E.
  apply (net_Do from id ep req hp (Z.of_nat i)) in E; [| done | reflexivity].
  destruct r1 as [hresp | e].
  - destruct E as (n & resp & [Hm Hpa _ Hb] & Hs & [Hst _]).
    destruct (service_put id hp i n w w1 resp Hp Hi Hm Hpa Hs) as [O D].
    rewrite Hb in D. cbn [req shardRequest hq_Body fmap option_fmap option_map default rd_err rd_data bytesReader] in D.
    rewrite <- Hst in D. intros [= <- <-]. split; [done |].
    destruct (hr_Status hresp =? 200)%Z, (hr_Status hresp =? 201)%Z; cbn in D |- *; intros H; first [by apply D | done].
  - intros [= <- <-]. split; [| done]. destruct E as [-> | (n & resp & Hm & Hpa & Hs)]; [by apply unchanged_only |].
    by destruct (service_put id hp i n w w1 resp Hp Hi Hm Hpa Hs).
Qed.

Lemma writeShard_files from ctx hp shards asg i w w' r :
  plainPrefix hp -> (Z.of_nat i < 2 ^ 63)%Z -> writeShard (managerOf from) ctx hp shards asg i w = (w', r) ->
  only (nth i asg "") hp i w w' /\ (is_Ok r = true -> files (nth i asg "") w' !! key (shardPath hp i) = Some (nth i shards "")).
Proof using Disks0 Network0 local_shards.
  intros Hp Hi. unfold writeShard, try_bind, ret. cbn [managerOf NewManager fst m_instanceID m_localBackend].
  destruct (String.eqb_spec (nth i asg "") from) as [Ea | Hne].
  - rewrite shardBackend_local. destruct (sg_Create _ _ _ _ _ w) as [w1 r1] eqn:E. rewrite Ea. destruct (disk_write from false _ _ _ _ _ _ _ _ E) as [O D].
    destruct r1 as [u | e]; intros [= <- <-]; (split; [done |]); [intros _; by apply D | done].
  - destruct (storeRemoteShard _ _ _ _ _ w) as [w1 r1] eqn:E. destruct (remote_store _ _ _ _ _ _ _ _ Hp Hi E) as [O D].
    destruct r1 as [u | e]; intros [= <- <-]; (split; [done |]); [intros _; by apply D | done].
Qed.

(** When all goroutines succeeded every shard is on the disk of its instance. *)
Lemma writeShards_files from ctx hp shards asg order infos w w' infos' :
  plainPrefix hp -> NoDup order -> Forall (fun i => (Z.of_nat i < 2 ^ 63)%Z) order ->
  writeShards (managerOf from) ctx hp shards asg order infos None w = (w', (infos', None)) ->
  (forall i, i ∈ order -> files (nth i asg "") w' !! key (shardPath hp i) = Some (nth i shards "")) /\
  (forall id p, (forall i, i ∈ order -> p <> key (shardPath hp i)) -> files id w' !! p = files id w !! p).
Proof using Disks0 Network0 local_shards.
  intros Hp. revert infos w. induction order as [| x order IH]; intros infos w Hnd Hlt; cbn [writeShards].
  { unfold ret. intros [= <- <-]. split; [intros i Hin; by apply elem_of_nil in Hin | done]. }
  apply NoDup_cons in Hnd as [Hx Hnd]. apply Forall_cons in Hlt as [Hix Hlt].
  unfold bind. destruct (writeShard _ _ _ _ _ x w) as [w1 r1] eqn:E. destruct (writeShard_files _ _ _ _ _ _ _ _ _ Hp Hix E) as [O D].
  destruct r1 as [si | e]; [| intros H; by apply writeShards_err in H].
  intros H. apply IH in H as [Hin Hout]; [| done | done]. split.
  - intros i [-> | Hi]%elem_of_cons; [| by apply Hin]. rewrite Hout; [by apply D |].
    intros j Hj He. apply dk_key in He as ->. done.
  - intros id p Hne. rewrite Hout by (intros j Hj; apply Hne; by right). apply O. right. apply Hne. by left.
Qed.

Lemma slice_to_all (s : string) (n : Z) : (Z.of_nat (String.length s) <= n)%Z -> slice_to s n = s.
Proof using Type.
  intros H. unfold slice_to. assert (Hl : String.length s <= Z.to_nat n) by lia. revert Hl. generalize (Z.to_nat n) as k. clear H.
  induction s as [| c s IH]; intros [| k] Hk; cbn in *; [done | done | lia | f_equal; apply IH; lia].
Qed.

(** Reading a shard, from the own disk or from that of another instance. *)
Lemma fetch_files from ctx hp shards asg i w w' r :
  plainPrefix hp -> (Z.of_nat i < 2 ^ 63)%Z ->
  fetchShard (managerOf from) ctx (infoOf (managerOf from) hp shards asg i) w = (w', r) ->
  unchanged w w' /\
  forall d, up (nth i asg "") -> files (nth i asg "") w !! key (shardPath hp i) = Some d ->
    (Z.of_nat (String.length d) <= maxShardReadBytes)%Z -> r = Ok d.
Proof using Disks0 Network0 local_shards secret_ok.
  intros Hp Hi. unfold fetchShard. cbn [infoOf si_InstanceID si_Path si_Index managerOf NewManager fst m_instanceID].
  destruct (String.eqb_spec (nth i asg "") from) as [Ea | Hne].
  - unfold readLocalShard, try_bind, ret. cbn [m_localBackend]. rewrite shardBackend_local, Ea. destruct (sg_Open _ _ _ w) as [w1 r1] eqn:E.
    pose proof (disk_Open _ _ _ _ _ _ E) as Hu.
    assert (Hr : forall d, up from -> files from w !! key (shardPath hp i) = Some d -> r1 = Ok (bytesReader d)).
    { intros d Hup Hd. destruct (dk_Open_up from ctx (shardPath hp i) w d Hup Hd) as [w2 E2]. congruence. }
    destruct r1 as [rd | e]; intros [= <- <-]; (split; [done |]); intros d Hup Hd _; specialize (Hr d Hup Hd); [by injection Hr as -> | done].
  - rewrite extract_shardPath. unfold fetchRemoteShard, shardDo, try_bind, ret. cbn [m_peerEndpoints m_httpClient].
    set (id := nth i asg ""). destruct (nd_peers nd !! id) as [ep |] eqn:Ep.
    2:{ intros [= <- <-]. split; [done |]. intros d Hup. destruct (net_up from id Hup) as (ep & E & _). congruence. }
    set (req := shardRequest _ _ _ _ _ _ _).
    assert (Hreach : forall d, up id -> files id w !! key (shardPath hp i) = Some d ->
      hc_NewRequest (nd_client nd from) req = Ok tt /\
      exists w1 hresp, hc_Do (nd_client nd from) req w = (w1, Ok hresp) /\ hr_Status hresp = 200%Z /\ hr_Body hresp = d).
    { intros d Hup Hd. destruct (net_up from id Hup) as (ep' & E' & Hreq). rewrite E' in Ep. injection Ep as ->.
      destruct (Hreq req hp (Z.of_nat i) w) as (Hnew & n & w1 & resp & [Hm Hpa Ha _] & Hs & Hdo); [reflexivity |].
      destruct (service_get id hp i n w d w1 resp Hp Hi Hup Hd Hm Hpa Ha Hs) as [Hst Hb].
      destruct Hdo as (hresp & Ed & Hst' & Hb'); [intros rd Hrd; rewrite Hb in Hrd; by injection Hrd as <- |].
      split; [done |]. exists w1, hresp. split; [done |]. destruct (Hb' _ Hb) as [_ Hbody]. by rewrite Hst', Hbody. }
    destruct (hc_NewRequest _ req) as [u | e] eqn:En.
    2:{ intros [= <- <-]. split; [done |]. intros d Hup Hd _. by destruct (Hreach d Hup Hd) as [? _]. }
    destruct (hc_Do _ req w) as [w1 r1] eqn:E.
    assert (Hu : unchanged w w1).
    { apply (net_Do from id ep req hp (Z.of_nat i)) in E; [| done | reflexivity]. destruct r1 as [hresp | e].
      - destruct E as (n & resp & [Hm Hpa _ _] & Hs & _). by eapply (service_get_unchanged id hp i n).
      - destruct E as [-> | (n & resp & Hm & Hpa & Hs)]; [done |]. by eapply (service_get_unchanged id hp i n). }
    intros H. assert (w' = w1) as -> by (destruct r1; by injection H). split; [done |].
    intros d Hup Hd Hlen. destruct (Hreach d Hup Hd) as (_ & w2 & hresp & E2 & Hst & Hb). injection E2 as -> ->.
    rewrite Hst, Hb in H. cbn in H. injection H as <-. by rewrite slice_to_all.
Qed.

(** ** Storing through one instance, retrieving through another *)

Context (codeword : Z -> Z -> list string -> Prop) (eview : W -> gmap string ErasureFileInfo)
        `{!RSLaws (nd_rs nd) codeword} `{!ErasureSpec (nd_store nd) eview}
        (store_disks : forall path info w w' r, es_CreateErasureInfo (nd_store nd) path info w = (w', r) -> unchanged w w').

(** The shard of a record is on the disk that the record names. *)
Definition kept (w : W) (si : ShardInfo) (s : string) : Prop :=
  files (si_InstanceID si) w !! key (si_Path si) = Some s.

(** C23: Where the shards are kept on the local disks (shard_backend is not s3), a
    file that one instance stores with erasure coding over the others can be
    read through any: once StoreFile has succeeded, every shard is on the disk of
    the instance that the record names; and as long as the record is there and so many shards as
    are needed lie untouched on instances that can be reached, RetrieveFile at every
    instance returns the data, in whatever order the answers come, and whatever the
    other instances answer, as long as it does not have the checksum of a shard that
    it is not. *)
Theorem erasure_any_instance storer reader peerOrder order ctx path data n opts w w1 info :
  order ≡ₚ seq 0 (Z.to_nat ((shardCounts (managerOf storer) opts).1 + (shardCounts (managerOf storer) opts).2)) ->
  ((shardCounts (managerOf storer) opts).1 + (shardCounts (managerOf storer) opts).2 < 2 ^ 63)%Z ->
  StoreFile (managerOf storer) peerOrder order ctx path data n opts w = (w1, Ok info) ->
  (forall si, si ∈ ei_Shards info -> exists s, kept w1 si s /\ nd_checksum nd s = si_Checksum si /\ si_Size si = Z.of_nat (String.length s)) /\
  forall w2 good order2 late ctx2,
    eview w2 !! path = Some info -> order2 (ei_Shards info) ≡ₚ ei_Shards info ->
    (forall i si s, ei_Shards info !! i = Some si -> good i = true -> kept w1 si s ->
       up (si_InstanceID si) /\ kept w2 si s /\ (si_Size si <= maxShardReadBytes)%Z) ->
    (ei_DataShards info <= Z.of_nat (List.length (List.filter good (seq 0 (List.length (ei_Shards info))))))%Z ->
    (forall si s d, si ∈ ei_Shards info -> kept w1 si s -> nd_checksum nd d = nd_checksum nd s -> d = s) ->
    exists w3, RetrieveFile (managerOf reader) order2 late ctx2 path w2 = (w3, Ok data).
Proof using Disks0 Network0 local_shards RSLaws0 ErasureSpec0 secret_ok hash_ok store_disks.
  intros Hord Hmax Hst. pose proof (hash_ok data) as Hp.
  destruct (StoreFile_Ok (managerOf storer) eview (es_spec := ErasureSpec0) _ _ _ _ _ _ _ _ _ _ Hord Hst) as (shards & asg & H).
  destruct (shardCounts (managerOf storer) opts) as [d p]. cbn [fst snd] in Hord, Hmax.
  destruct H as (Hn & Henc & _ & Hsz & Hd & Hpar & Hsh & w0 & infos & Hw & Hrec).
  destruct (Encode_Ok _ codeword _ _ _ _ _ Henc) as (Hd1 & Hp1 & _ & Hlen & _).
  replace (Z.to_nat (d + p)) with (List.length shards) in Hsh, Hord, Hw by lia.
  set (hp := nd_hashPrefix nd data) in *.
  assert (Hi : forall i, i < List.length shards -> (Z.of_nat i < 2 ^ 63)%Z) by (intros i Hlt; lia).
  assert (Hon : forall i, i < List.length shards -> files (nth i asg "") w1 !! key (shardPath hp i) = Some (nth i shards "")).
  { apply store_disks in Hrec. intros i Hlt. rewrite Hrec.
    destruct (writeShards_files storer ctx hp shards asg order (repeat None (List.length shards)) w w0 infos Hp) as [Hin _];
      [| | exact Hw |].
    - rewrite Hord. apply NoDup_seq.
    - rewrite Hord. apply Forall_forall. intros j Hj. apply elem_of_seq in Hj. apply Hi. lia.
    - apply Hin. rewrite Hord. apply elem_of_seq. lia. }
  assert (Hnth : forall i si, ei_Shards info !! i = Some si ->
    i < List.length shards /\ si = infoOf (managerOf storer) hp shards asg i).
  { intros i si Hsi. rewrite Hsh, list_lookup_fmap in Hsi.
    destruct (seq 0 (List.length shards) !! i) as [j |] eqn:Ej; [| done]. apply lookup_seq in Ej as [-> Hlt].
    cbn in Hsi. injection Hsi as <-. done. }
  split.
  - intros si Hsi. apply list_elem_of_lookup in Hsi as [i Hsi]. destruct (Hnth i si Hsi) as [Hlt ->].
    exists (nth i shards ""). split; [by apply Hon | done].
  - intros w2 good order2 late ctx2 Hv Hperm Hgood Hcount Hcoll.
    assert (Hcoll' : forall i s data', i < List.length shards -> shards !! i = Some s -> nd_checksum nd data' = nd_checksum nd s -> data' = s).
    { intros i s data' Hlt Hs. apply (Hcoll (infoOf (managerOf storer) hp shards asg i)).
      - rewrite Hsh. apply list_elem_of_In, in_map_iff. exists i. split; [done |]. apply in_seq. lia.
      - unfold kept. cbn [infoOf si_InstanceID si_Path]. rewrite Hon by done. by rewrite nth_lookup, Hs. }
    rewrite Hsh, List.length_map, List.length_seq, Hd in Hcount.
    apply (RetrieveFile_readable (managerOf reader) codeword eview (rs_laws := RSLaws0) (es_spec := ErasureSpec0) path info data n d p shards asg hp order2 late ctx2 (unchanged w2) good w2);
      [exact Henc | exact Hn | exact Hsz | exact Hd | exact Hpar | exact Hsh | exact Hv | done | | exact Hcount | exact Hperm].
    intros i si s w3 w4 r Hsi Hs HI Hf. destruct (Hnth i si Hsi) as [Hlt ->].
    destruct (fetch_files reader ctx2 hp shards asg i w3 w4 r Hp (Hi i Hlt) Hf) as [Hu Hok].
    assert (Hs' : nth i shards "" = s) by (by rewrite nth_lookup, Hs).
    split; [intros id; by rewrite Hu, HI |]. split.
    + intros Hg. destruct (Hgood i _ s Hsi Hg) as (Hup & Hk & Hsize); 
        [unfold kept; cbn [infoOf si_InstanceID si_Path]; by rewrite Hon, Hs' |].
      apply Hok; [exact Hup | by rewrite HI | cbn [infoOf si_Size] in Hsize; by rewrite Hs' in Hsize].
    + intros data' _ Hck. by apply (Hcoll' i s).
Qed.

End Cluster.

(** ** Two concrete instances *)

Record World := mkWorld { cw_disks : string -> gmap string string; cw_infos : gmap string ErasureFileInfo }.

Definition onDisk (id : string) (f : gmap string string -> gmap string string) (w : World) : World :=
  mkWorld (fun id' => if String.eqb id' id then f (cw_disks w id') else cw_disks w id') (cw_infos w).
Definition cw_files (id : string) (w : World) : gmap string string := cw_disks w id.

(** Like the local file system, Create refuses what exists. *)
Definition cwDisk (id : string) : Storage World := mkStorage World
  (fun _ p w => (w, match cw_disks w id !! p with Some d => Ok (bytesReader d) | None => Err ErrNotFound end))
  (fun _ p rd _ w => match cw_disks w id !! p, rd_err rd with
                     | None, None => (onDisk id <[p := rd_data rd]> w, Ok tt)
                     | _, _ => (w, Err ErrAlreadyExists) end)
  (fun _ p rd _ w => match rd_err rd with None => (onDisk id <[p := rd_data rd]> w, Ok tt) | Some e => (w, Err e) end)
  (fun _ p w => (onDisk id (delete p) w, Ok tt))
  (fun _ p w => (w, Err (EMsg "not used"))) (fun _ _ w => (w, Ok [])) (fun _ _ w => (w, Ok tt)).

Definition cwStore : ErasureMetadataStore World := mkErasureStore World
  (fun p i w => (mkWorld (cw_disks w) (<[p := i]> (cw_infos w)), Ok tt))
  (fun p w => match cw_infos w !! p with Some i => Ok i | None => Err ErrNotFound end)
  (fun p w => (mkWorld (cw_disks w) (delete p (cw_infos w)), Ok tt)).

(** The request as the server of [id] takes it off the wire. *)
Definition cwIncoming (req : HttpRequest) (ep : string) : Incoming :=
  mkIncoming (hq_Method req) (TrimPrefix (hq_URL req) ep) "10.0.0.7:4000" true
    (mkRequest "" None (fun h => if String.eqb h "Authorization" then hq_Auth req else "") (fun _ => "")
       (default (bytesReader "") (hq_Body req)) (hq_ContentLength req)) (Ok "01234567").
Definition cwResponse (resp : Response) : Res HttpResponse :=
  match rs_body resp with
  | BData rd => match rd_err rd with
                | Some e => Err e
                | None => Ok (mkHttpResponse (rs_status resp) (fun _ => "") (rd_data rd))
                end
  | _ => Ok (mkHttpResponse (rs_status resp) (fun _ => "") "")
  end.
Definition cwEndpoint (id : string) : string := "https://" +:+ id.
Definition cwServe (id : string) (req : HttpRequest) : St World (Res HttpResponse) := fun w =>
  let '(w', resp) := Server.shardAnswer (cwDisk id) "secret" (cwIncoming req (cwEndpoint id)) w in (w', cwResponse resp).
Definition cwClient : HttpClient World := mkHttpClient World (fun _ => Ok tt)
  (fun req => if HasPrefix (hq_URL req) "https://n1" then cwServe "n1" req
              else if HasPrefix (hq_URL req) "https://n2" then cwServe "n2" req
              else fun w => (w, Err (EMsg "no such host"))).

Definition cwNodes : Nodes World :=
  mkNodes World copyRS id (fun _ => "00ff") cwStore (mkErasureConfig 1 2 "localfs")
    {[ "n1" := "https://n1"; "n2" := "https://n2" ]} "secret" cwDisk (fun id => cwDisk ("s3-" +:+ id)) (fun _ => cwClient).
Definition cwUp (id : string) : Prop := id = "n1" \/ id = "n2".

Lemma cw_peers id ep : nd_peers cwNodes !! id = Some ep -> cwUp id /\ ep = cwEndpoint id.
Proof.
  intros H. cbn [nd_peers cwNodes] in H. apply lookup_insert_Some in H as [[<- <-] | [_ H]]; [by split; [left |] |].
  apply lookup_singleton_Some in H as [<- <-]. by split; [right |].
Qed.

Lemma cw_Do id req prefix idx w : cwUp id -> asks req (cwEndpoint id) prefix idx ->
  hc_Do cwClient req w = cwServe id req w /\ arrives req (shardTarget prefix idx) (cwIncoming req (cwEndpoint id)).
Proof.
  intros Hup Ha. unfold asks in Ha.
  assert (Hu : hq_URL req = cwEndpoint id +:+ shardTarget prefix idx) by (by destruct Hup as [-> | ->]).
  split.
  - unfold cwClient. cbn [hc_Do]. rewrite Hu. by destruct Hup as [-> | ->].
  - split; [done | | done | done]. cbn [cwIncoming in_path]. by rewrite Hu, TrimPrefix_app.
Qed.

Lemma cw_delivered resp hresp : cwResponse resp = Ok hresp -> delivered resp hresp.
Proof.
  unfold cwResponse, delivered. destruct (rs_body resp) as [| | | | rd | | | | |]; try (intros [= <-]; split; [done | by intros]).
  destruct (rd_err rd) eqn:E; [done |]. intros [= <-]. split; [done |]. by intros rd' [= <-].
Qed.

#[global] Instance cw_network : Network cwNodes cwUp.
Proof.
  split.
  - intros from id ep req prefix idx w w' r Hp Ha Hdo. apply cw_peers in Hp as [Hup ->].
    destruct (cw_Do id req prefix idx w Hup Ha) as [E Har]. cbn [nd_client cwNodes] in Hdo. rewrite E in Hdo. unfold cwServe in Hdo.
    destruct (Server.shardAnswer _ _ _ w) as [w1 resp] eqn:Es. injection Hdo as <- <-.
    destruct (cwResponse resp) as [hresp | e] eqn:Er.
    + eexists _, resp. split; [exact Har |]. split; [exact Es | by apply cw_delivered].
    + right. eexists _, resp. split; [by destruct Har |]. split; [by destruct Har | exact Es].
  - intros from id Hup. exists (cwEndpoint id). split; [by destruct Hup as [-> | ->] |].
    intros req prefix idx w Ha. split; [done |]. destruct (cw_Do id req prefix idx w Hup Ha) as [E Har].
    destruct (Server.shardAnswer (cwDisk id) "secret" (cwIncoming req (cwEndpoint id)) w) as [w1 resp] eqn:Es.
    eexists _, w1, resp. split; [exact Har |]. split; [exact Es |]. intros Hw.
    assert (Hok : exists hresp, cwResponse resp = Ok hresp).
    { unfold cwResponse. unfold readsWhole in Hw. destruct (rs_body resp) as [| | | | rd | | | | |]; try by eexists.
      rewrite (Hw rd eq_refl). by eexists. }
    destruct Hok as [hresp Hr]. exists hresp. split; [| by apply cw_delivered].
    cbn [nd_client cwNodes]. rewrite E. unfold cwServe. by rewrite Es, Hr.
Qed.

Lemma onDisk_same id f w : cw_files id (onDisk id f w) = f (cw_files id w).
Proof. unfold cw_files, onDisk. cbn. by rewrite String.eqb_refl. Qed.
Lemma onDisk_other id id' f w : id' <> id -> cw_files id' (onDisk id f w) = cw_files id' w.
Proof. intros H. unfold cw_files, onDisk. cbn. apply String.eqb_neq in H. by rewrite H. Qed.

#[global] Instance cw_disks_ok : Disks cwNodes cwUp id cw_files.
Proof.
  split.
  - intros i. split; cbn [cwNodes nd_disk cwDisk sg_Open sg_Create sg_Update sg_Delete sg_Stat].
    + intros ctx p w w' r [= <- <-]. split; [done |]. change (cw_disks w i !! p) with (cw_files i w !! p).
      destruct (cw_files i w !! p) eqn:E; cbn; by intros.
    + intros ctx p rd n w w' r. destruct (cw_disks w i !! p), (rd_err rd) eqn:E; intros [= <- <-]; try by left.
      right. split; [done |]. apply onDisk_same.
    + intros ctx p rd n w w' r. destruct (rd_err rd) eqn:E; intros [= <- <-]; [by left |].
      right. split; [done |]. apply onDisk_same.
    + intros ctx p w w' r [= <- <-]. right. apply onDisk_same.
    + intros ctx p w w' r [= <- <-]. by split.
  - intros hp i j. unfold id, shardPath. intros H.
    assert (Hs : slice_from (hp +:+ "/" +:+ Itoa (Z.of_nat i)) (Z.of_nat (String.length hp) + 1) =
                 slice_from (hp +:+ "/" +:+ Itoa (Z.of_nat j)) (Z.of_nat (String.length hp) + 1)).
    { f_equal. apply (f_equal (str_drop 9)) in H. exact H. }
    unfold slice_from in Hs.
    replace (Z.to_nat _) with (String.length (hp +:+ "/")) in Hs by (rewrite str_length_app; cbn; lia).
    rewrite !(str_app_assoc hp "/"), !str_drop_app in Hs. apply (f_equal (parse_digits 10 0)) in Hs.
    rewrite !parse_Itoa in Hs. injection Hs. lia.
  - intros i ctx p w d _ H. unfold cw_files, id in H. cbn. rewrite H. by eexists.
  - intros i j ctx p w w' r _ [= <- <-]. done.
  - intros i j ctx p rd n w w' r Hne. cbn. destruct (cw_disks w i !! p), (rd_err rd); intros [= <- <-]; try done. by apply onDisk_other.
  - intros i j ctx p rd n w w' r Hne. cbn. destruct (rd_err rd); intros [= <- <-]; [done |]. by apply onDisk_other.
Qed.

#[global] Instance cwStore_spec : ErasureSpec (nd_store cwNodes) cw_infos.
Proof.
  split; [done | |].
  - intros p i w w' H. by injection H as <-.
  - intros p w w' H. by injection H as <-.
Qed.

Definition cw_empty : World := mkWorld (fun _ => ∅) ∅.
Definition cw_run : World * Res ErasureFileInfo :=
  StoreFile (managerOf cwNodes "n1") ["n2"; "n1"] [2; 0; 1] None "/a" "abc" 3 None cw_empty.
Definition cw_stored : World := cw_run.1.
Definition cw_info : ErasureFileInfo := Eval vm_compute in
  match cw_run.2 with Ok i => i | Err _ => mkErasureInfo "" 0 0 0 0 [] end.

(** The first instance stores, the second retrieves although the disk of the first is lost. *)
Definition cw_lost : World := onDisk "n1" (fun _ => ∅) cw_stored.

Lemma erasure_any_instance_witness :
  exists w3, RetrieveFile (managerOf cwNodes "n2") (@rev _) (fun _ => false) None "/a" cw_lost = (w3, Ok "abc").
Proof.
  destruct (erasure_any_instance cwNodes cwUp id cw_files ltac:(vm_compute; discriminate) ltac:(split; [discriminate | vm_compute; reflexivity])
     ltac:(intros; split; vm_compute; reflexivity) copies cw_infos ltac:(intros ? ? ? ? ? [= <- <-]; intros ?; reflexivity)
     "n1" "n2" ["n2"; "n1"] [2; 0; 1] None "/a" "abc" 3 None cw_empty cw_stored cw_info) as [_ H].
  { change (_ + _)%Z with 3%Z. cbn. by apply (Permutation_middle [0; 1] [] 2). }
  { vm_compute. reflexivity. }
  { vm_compute. reflexivity. }
  apply (H cw_lost (fun i => Nat.eqb i 1) (@rev _) (fun _ => false) None).
  - vm_compute. reflexivity.
  - symmetry. apply Permutation_rev.
  - intros i si s Hi Hg Hk. apply Nat.eqb_eq in Hg as ->. vm_compute in Hi. injection Hi as <-.
    split; [by right |]. split; [| vm_compute; discriminate]. vm_compute in Hk. vm_compute. exact Hk.
  - vm_compute. discriminate.
  - intros si s d _ _ E. exact E.
Defined.

End ErasureCluster.
