(* ===== verification/LocalFSSpec.v ===== *)
(** * The local file system as the backend of the transfer theorems

    When nothing below the root directory is a symbolic link, the local adapter
    keeps the contract of HandlerSpec.v that uploads and downloads are proved
    against. *)
From S2P Require Import Prelude GoStrings PathUtil Metadata MemStore Cache Locks Backends LocalFS Engine EngineSpec Handlers HandlerSpec.
From Stdlib Require Import Ascii String.
Open Scope string_scope.
Open Scope bool_scope.

Module LocalFSSpec.
Import Engine LocalFS.

(** What the operating system adds to [FSLaws] on such a directory: resolving
    links changes nothing, the root directory is there, files can be opened. *)
Class PlainRoot {W} (os : OS W) (rootPath : string) (file : W -> string -> option string) : Prop := {
  root_abs : filepath_IsAbs rootPath = true;
  root_links : forall w p q, os_EvalSymlinks os w p = Some q -> q = p;
  root_there : forall w, os_EvalSymlinks os w (filepath_Clean rootPath) = Some (filepath_Clean rootPath);
  root_open : forall p d w, file w p = Some d -> exists w', os_Open os p w = (w', Ok (bytesReader d));
}.

Section Contract.
Context {W : Type} (os : OS W) (rootPath : string) (file : W -> string -> option string)
        {laws : FSLaws os file} {plain : PlainRoot os rootPath file}.

(** The content at a path is that of the file the path stands for below the root. *)
Definition content (w : W) (path : string) : option string :=
  match PathUtil.SafeJoin (fun _ => None) rootPath path with Ok fullPath => file w fullPath | Err _ => None end.

Lemma resolved w path : PathUtil.SafeJoin (os_EvalSymlinks os w) rootPath path = PathUtil.SafeJoin (fun _ => None) rootPath path.
Proof using plain.
  destruct plain as [Habs Hl Hr _]. apply PathUtil.SafeJoin_plain; [done | by apply PathUtil.rooted_names | apply Hl | apply Hr].
Qed.

Lemma Create_content ctx path rd size w w' :
  Create os rootPath ctx path rd size w = (w', Ok tt) -> rd_err rd = None /\ content w' path = Some (rd_data rd).
Proof using laws plain.
  intros H. destruct (Create_outcome os rootPath file _ _ _ _ _ _ _ H) as [_ Hr].
  destruct (Hr eq_refl) as [Hrd (fullPath & Hj & _ & Hf)]. split; [done |].
  unfold content. by rewrite <- (resolved w path), Hj.
Qed.

Lemma Update_content ctx path rd size w w' :
  Update os rootPath ctx path rd size w = (w', Ok tt) -> rd_err rd = None /\ content w' path = Some (rd_data rd).
Proof using laws plain.
  intros H. destruct (Update_outcome os rootPath file _ _ _ _ _ _ _ H) as [Hrd (fullPath & Hj & Hf & _)]. split; [done |].
  unfold content. by rewrite <- (resolved w path), Hj.
Qed.

Lemma Open_content ctx path d w : content w path = Some d ->
  exists w', Open os rootPath ctx path w = (w', Ok (bytesReader d)).
Proof using plain.
  unfold content, Open, withFullPath. rewrite resolved. destruct (PathUtil.SafeJoin _ _ _) as [fullPath |]; [| done].
  intros H. destruct (root_open _ _ _ H) as [w' E]. exists w'. by rewrite E.
Qed.

Lemma Open_keeps ctx path w w' r : Open os rootPath ctx path w = (w', r) -> forall p, content w' p = content w p.
Proof using laws.
  unfold Open, withFullPath. destruct (PathUtil.SafeJoin _ _ path) as [fullPath | e]; [| by intros [= <- _]].
  destruct (os_Open os fullPath w) as [w1 r1] eqn:E. intros H p. assert (w' = w1) as -> by (by destruct r1; injection H).
  unfold content. destruct (PathUtil.SafeJoin _ _ p); [| done]. by apply (law_Open os file _ _ _ _ E).
Qed.

Context (e : Engine W) (Hlocal : e_localFSBackend e = localStorage os rootPath)
        (Hlock : forall k, HandlerSpec.files_quiet content (lm_Release (e_lockManager e) k))
        (Hcreate : forall md, HandlerSpec.files_quiet content (st_Create (e_metadataStore e) md))
        (Hupdate : forall md, HandlerSpec.files_quiet content (st_Update (e_metadataStore e) md))
        (Hreplica : forall rb, replicaTarget e "localfs" = Some rb ->
           (forall ctx p rd n, HandlerSpec.files_quiet content (sg_Create (selectBackendByType e rb) ctx p rd n)) /\
           (forall ctx p rd n, HandlerSpec.files_quiet content (sg_Update (selectBackendByType e rb) ctx p rd n))).

(** The local adapter as the primary backend, when the other components leave the
    directory alone. *)
Lemma localfs_content_env : HandlerSpec.ContentEnv e "localfs" content.
Proof using All.
  assert (Hb : selectBackendByType e "localfs" = localStorage os rootPath) by exact Hlocal.
  split; try exact Hreplica; try rewrite Hb; auto; cbn [localStorage sg_Create sg_Update sg_Open].
  - apply Create_content.
  - apply Update_content.
  - apply Open_content.
  - intros ctx p w w' r. apply Open_keeps.
Qed.

End Contract.

(** ** A concrete directory *)

(** The file system of LocalFS.v with the directory /srv. *)
Definition diskOS : OS memfs :=
  mkOS memfs
    (fun w p => if String.eqb p "/srv" then Some p else match w !! p with Some _ => Some p | None => None end)
    (os_IsNotExist memOS) (os_Open memOS) (os_MkdirAll memOS) (os_CreateTemp memOS) (os_Copy memOS) (os_Sync memOS)
    (os_Chmod memOS) (os_Lstat memOS) (os_Stat memOS) (os_Rename memOS) (os_Remove memOS) (os_ReadDir memOS).

#[global] Instance disk_laws : FSLaws diskOS (fun w p => w !! p).
Proof. destruct memOS_laws. by split. Qed.

#[global] Instance disk_plain : PlainRoot diskOS "/srv" (fun w p => w !! p).
Proof.
  split; cbn [diskOS os_EvalSymlinks os_Open memOS].
  - done.
  - intros w p q. destruct (String.eqb p "/srv"); [by intros [= <-] |]. destruct (w !! p); [by intros [= <-] | done].
  - done.
  - intros p d w ->. by exists w.
Qed.

(** An engine over the directory, in a world of files and records. *)
Definition Disk : Type := (memfs * StoreView)%type.
Definition onFiles {A} (m : St memfs A) : St Disk A := fun w => let '(f, a) := m w.1 in ((f, w.2), a).
Definition liftOS (os : OS memfs) : OS Disk :=
  mkOS Disk (fun w => os_EvalSymlinks os w.1) (os_IsNotExist os) (fun p => onFiles (os_Open os p)) (fun p => onFiles (os_MkdirAll os p))
    (fun d p => onFiles (os_CreateTemp os d p)) (fun t rd => onFiles (os_Copy os t rd)) (fun t => onFiles (os_Sync os t))
    (fun t m => onFiles (os_Chmod os t m)) (fun w => os_Lstat os w.1) (fun w => os_Stat os w.1)
    (fun a b => onFiles (os_Rename os a b)) (fun p => onFiles (os_Remove os p)) (fun p w => os_ReadDir os p w.1).

Definition diskEngine : Engine Disk :=
  mkEngine Disk (memStore snd (fun v w => (w.1, v))) (localStorage (liftOS diskOS) "/srv")
    (Noop.noopStorage Disk) (Noop.noopStorage Disk) None
    (mkLockManager Disk (fun _ => ret (Ok true)) (fun _ => ret (Ok tt))) "n1" ∅ false "" false None
    (fun _ => 7%Z) (mkSchedule (fun c => map_to_list (Cache.mc_cache c)) id (fun _ => false)).
Definition disk_allow : Auth.Authorizer Disk := fun _ _ _ _ => Ok tt.
Definition disk0 : EState Disk := mkEState (∅, mkView ∅ ∅) newEngineCache.
Definition disk_request (body : string) (n : Z) : Handlers.Request :=
  Handlers.mkRequest "docs/a.txt" (Some "root") (fun _ => "") (fun _ => "") (bytesReader body) n.

(** A POST leaves the file below the root directory, and a GET sends it. *)
Example disk_upload_download :
  let '(s1, posted) := Handlers.V1PostFileEnhanced diskEngine disk_allow "localfs" [] [] (disk_request "good" 4) disk0 in
  let '(s2, got) := Handlers.V1GetFile diskEngine disk_allow Itoa (disk_request "" 0) s1 in
  Handlers.rs_status posted = 201%Z /\ (es_world s1).1 !! "/srv/docs/a.txt" = Some "good" /\
  Handlers.rs_status got = 200%Z /\ Handlers.rs_body got = Handlers.BData (bytesReader "good").
Proof. vm_compute. repeat split. Qed.

End LocalFSSpec.
