(* ===== verification/Threads.v ===== *)
(** * Interleaved threads

    A thread is a program whose actions are atomic changes of the shared state;
    an action may be observed as an event.  A schedule says which thread takes
    the next action.  The lemmas relate what each thread does alone to what a
    trace of all of them shows. *)
From S2P Require Import Prelude.
From Stdlib Require Import Ascii String.

Module Threads.

(** What is observed of an action: a lock was granted or given back, a record was
    created, and a record was deleted or the instance that holds its file was
    asked to delete it. *)
Inductive Event : Type :=
| Took (key : string)
| Gave (key : string)
| Created (path : string)
| Deleted (path : string).

#[global] Instance Event_eq_dec : EqDecision Event.
Proof. solve_decision. Defined.

Inductive Prog (S A : Type) : Type :=
| Done (a : A)
| Act {X : Type} (m : St S X) (ev : X -> option Event) (k : X -> Prog S A).
Arguments Done {S A}. Arguments Act {S A X}.

Section Prog.
Context {S : Type}.

(** The program without interruption. *)
Fixpoint run {A} (p : Prog S A) : St S A :=
  match p with
  | Done a => ret a
  | Act m _ k => bind m (fun x => run (k x))
  end.

Fixpoint pbind {A B} (p : Prog S A) (k : A -> Prog S B) : Prog S B :=
  match p with
  | Done a => k a
  | Act m ev h => Act m ev (fun x => pbind (h x) k)
  end.

Definition ptry {A B} (p : Prog S (Res A)) (f : gerr -> gerr) (k : A -> Prog S (Res B)) : Prog S (Res B) :=
  pbind p (fun r => match r with Ok a => k a | Err er => Done (Err (f er)) end).

(** One action that is not observed, and one that is. *)
Definition atomic {A} (m : St S A) : Prog S A := Act m (fun _ => None) Done.
Definition observed {A} (ev : A -> option Event) (m : St S A) : Prog S A := Act m ev Done.

End Prog.

Declare Scope prog_scope.
Delimit Scope prog_scope with prog.
Notation "'do' x <- m ; k" := (pbind m (fun x => k))
  (at level 10, x pattern, m at level 100, k at level 200) : prog_scope.
Notation "'try' x <- m ; k" := (ptry m (fun e => e) (fun x => k))
  (at level 10, x pattern, m at level 100, k at level 200) : prog_scope.
Notation "'wrap' msg 'in' x <- m ; k" := (ptry m (EWrap msg) (fun x => k))
  (at level 10, msg at level 0, x pattern, m at level 100, k at level 200) : prog_scope.

(** ** Schedules *)

Section Exec.
Context {S A : Type}.

Definition pstep (p : Prog S A) (s : S) : S * Prog S A * option Event :=
  match p with
  | Done a => (s, Done a, None)
  | Act m ev k => let '(s', x) := m s in (s', k x, ev x)
  end.

Fixpoint exec (sched : list nat) (ps : list (Prog S A)) (s : S) : list (Prog S A) * S * list (nat * Event) :=
  match sched with
  | [] => (ps, s, [])
  | i :: rest =>
      match ps !! i with
      | None => exec rest ps s
      | Some p =>
          let '(s', p', ev) := pstep p s in
          let '(ps', s'', tr) := exec rest (<[i := p']> ps) s' in
          (ps', s'', (match ev with Some e => [(i, e)] | None => [] end) ++ tr)
      end
  end.

Definition finished (p : Prog S A) : option A := match p with Done a => Some a | Act _ _ _ => None end.

(** An invariant over states, threads and the trace so far holds at the end of
    every schedule. *)
Lemma exec_ind (I : list (Prog S A) -> S -> list (nat * Event) -> Prop) :
  (forall ps s tr i p s' p' ev, I ps s tr -> ps !! i = Some p -> pstep p s = (s', p', ev) ->
     I (<[i := p']> ps) s' (tr ++ match ev with Some e => [(i, e)] | None => [] end)) ->
  forall sched ps s ps' s' tr, I ps s [] -> exec sched ps s = (ps', s', tr) -> I ps' s' tr.
Proof.
  intros Hstep sched ps s ps' s' tr HI He.
  enough (H : forall tr0, I ps s tr0 -> I ps' s' (tr0 ++ tr)) by (by apply (H [])).
  clear HI. revert ps s ps' s' tr He. induction sched as [| i sched IH]; intros ps s ps' s' tr He tr0 HI; cbn [exec] in He; revert He.
  - intros [= <- <- <-]. by rewrite app_nil_r.
  - destruct (ps !! i) as [p |] eqn:Ep; [| intros He; by apply (IH _ _ _ _ _ He)].
    destruct (pstep p s) as [[s1 p1] ev] eqn:Es. destruct (exec sched _ s1) as [[ps2 s2] tr2] eqn:Ee.
    intros [= <- <- <-]. rewrite app_assoc. eapply IH; [exact Ee |]. by eapply Hstep.
Qed.

End Exec.

(** ** Programs and the functions they refine *)

Section Runs.
Context {S : Type}.

(** The program without interruption is the function. *)
Definition runs {A} (p : Prog S A) (m : St S A) : Prop := forall s, run p s = m s.

Lemma runs_ret {A} (a : A) : runs (Done a) (ret a).
Proof. by intros s. Qed.
Lemma runs_act {A} (m : St S A) ev : runs (Act m ev Done) m.
Proof. intros s. cbn. unfold bind, ret. by destruct (m s). Qed.
Lemma runs_bind {A B} (p : Prog S A) m (k : A -> Prog S B) h :
  runs p m -> (forall a, runs (k a) (h a)) -> runs (pbind p k) (bind m h).
Proof.
  intros Hp Hk s. unfold bind. rewrite <- Hp. clear Hp m. revert s. induction p as [a | X m ev p IH]; intros s; cbn.
  - unfold ret. apply Hk.
  - unfold bind. destruct (m s) as [s1 x]. apply IH.
Qed.
Lemma runs_try {A B} (p : Prog S (Res A)) m f (k : A -> Prog S (Res B)) h :
  runs p m -> (forall a, runs (k a) (h a)) -> runs (ptry p f k) (try_bind m f h).
Proof.
  intros Hp Hk s. unfold ptry. transitivity (bind m (fun r => match r with Ok a => h a | Err er => ret (Err (f er)) end) s).
  - apply runs_bind; [done |]. intros [a | er]; [apply Hk | apply runs_ret].
  - unfold bind, try_bind, ret. by destruct (m s) as [s1 [a | er]].
Qed.
End Runs.
Create HintDb runs.
#[export] Hint Resolve runs_ret runs_act : runs.

(** ** Between two beginnings there is an end

    [there s r]: the thing [r] is there in [s].  An action that begins [r] finds it
    gone and leaves it there; only one that ends it takes it away. *)

Section Alternation.
Context {S A R : Type} (Inv : S -> Prop) (there : S -> R -> Prop) (begins ends : Event -> option R).

(** [Inv] is an invariant of the state that the actions rely on. *)
Definition alternating {X} (m : St S X) (ev : X -> option Event) : Prop :=
  forall s s' x, Inv s -> m s = (s', x) -> Inv s' /\
    (forall r, there s r -> (ev x ≫= ends) <> Some r -> there s' r) /\
    (forall r, (ev x ≫= begins) = Some r -> ~ there s r /\ there s' r).

(** Every action of the program is such. *)
Fixpoint each (P : forall X, St S X -> (X -> option Event) -> Prop) (p : Prog S A) : Prop :=
  match p with
  | Done _ => True
  | Act m ev k => P _ m ev /\ forall x, each P (k x)
  end.

Lemma each_pstep P p s s' p' ev : each P p -> pstep p s = (s', p', ev) -> each P p'.
Proof.
  destruct p as [a | X m evf k]; cbn; [by intros _ [= <- <- <-] |]. intros [_ Hk].
  destruct (m s) as [s1 x]. intros [= <- <- <-]. apply Hk.
Qed.

(** What a trace says when it is well alternated in a state. *)
Definition begun (s : S) (tr : list (nat * Event)) : Prop :=
  forall r a i e b, tr = a ++ (i, e) :: b -> begins e = Some r ->
    (forall j e', (j, e') ∈ b -> ends e' <> Some r) -> there s r.
Definition alternates (tr : list (nat * Event)) : Prop :=
  forall r a i e b j e' c, tr = a ++ (i, e) :: b ++ (j, e') :: c -> begins e = Some r -> begins e' = Some r ->
    exists l e'', (l, e'') ∈ b /\ ends e'' = Some r.

Context `{EqDecision R}.

Lemma begun_step (ev : option Event) i s s' tr :
  (forall r, there s r -> (ev ≫= ends) <> Some r -> there s' r) ->
  (forall r, (ev ≫= begins) = Some r -> ~ there s r /\ there s' r) ->
  begun s tr -> begun s' (tr ++ match ev with Some e => [(i, e)] | None => [] end).
Proof using Type.
  intros Hkeep Hbegin IH r a j e b Htr Hb Hno. destruct ev as [e1 |]; [| rewrite app_nil_r in Htr; apply Hkeep; [by eapply IH | done]].
  destruct b as [| l b' _] using rev_ind.
  - apply app_inj_tail in Htr as [<- [= <- <-]]. by apply Hbegin.
  - rewrite app_comm_cons, app_assoc in Htr. apply app_inj_tail in Htr as [-> <-].
    apply Hkeep; [| apply (Hno i); apply elem_of_app; right; by left].
    eapply IH; [done | done |]. intros j' e' Hin. apply (Hno j'). apply elem_of_app. by left.
Qed.

Lemma alternates_step (ev : option Event) i s tr :
  (forall r, (ev ≫= begins) = Some r -> ~ there s r) ->
  begun s tr -> alternates tr -> alternates (tr ++ match ev with Some e => [(i, e)] | None => [] end).
Proof using All.
  intros Hbegin Hb IH r a j e b j' e' c Htr He He'. destruct ev as [e1 |]; [| rewrite app_nil_r in Htr; by eapply IH].
  destruct c as [| l c' _] using rev_ind.
  - rewrite app_comm_cons, app_assoc in Htr. apply app_inj_tail in Htr as [-> [= <- <-]].
    destruct (decide (Exists (fun je => ends je.2 = Some r) b)) as [Hex | Hno].
    + apply Exists_exists in Hex as ([l e''] & Hin & Hl). by exists l, e''.
    + exfalso. apply (Hbegin r He'). eapply Hb; [done | done |]. intros l e'' Hin Hl. apply Hno, Exists_exists. by exists (l, e'').
  - rewrite !app_comm_cons, !app_assoc in Htr. apply app_inj_tail in Htr as [-> _]. rewrite <- app_assoc in IH. by eapply IH.
Qed.

(** In every trace, between two beginnings of the same thing there is an end. *)
Lemma exec_alternates sched (ps : list (Prog S A)) s ps' s' tr :
  Inv s -> Forall (each (@alternating)) ps -> exec sched ps s = (ps', s', tr) -> alternates tr.
Proof using All.
  intros Hi Hall He.
  enough (H : (Inv s' /\ Forall (each (@alternating)) ps') /\ begun s' tr /\ alternates tr) by apply H.
  revert He. apply (exec_ind (fun ps s tr => (Inv s /\ Forall (each (@alternating)) ps) /\ begun s tr /\ alternates tr)).
  - clear sched ps s ps' s' tr Hi Hall. intros ps s tr i p s' p' ev ([Hi Hall] & Hb & Ha) Hp Hs.
    assert (Hp' : each (@alternating) p) by (by eapply Forall_lookup_1 in Hall).
    assert (Hps : Forall (each (@alternating)) (<[i := p']> ps)) by (apply Forall_insert; [done | by eapply each_pstep]).
    destruct p as [y | X m evf k]; cbn in Hs.
    { injection Hs as <- <- <-. by rewrite app_nil_r. }
    destruct Hp' as [Hm _]. destruct (m s) as [s1 x] eqn:Em. injection Hs as <- <- <-.
    destruct (Hm _ _ _ Hi Em) as (Hi' & Hkeep & Hbegin). split; [done |]. split; [by apply (begun_step _ _ s) |].
    apply (alternates_step _ _ s); [intros r Hr; by apply Hbegin | done | done].
  - split; [done |]. split; [by intros r [] i e b | by intros r [] i e b j e' c].
Qed.

End Alternation.
(** ** Brackets *)

Section Brackets.
Context {S A : Type} (Inv : S -> Prop) (held : S -> string -> Prop).

Definition tookKey (e : Event) : option string := match e with Took k => Some k | _ => None end.
Definition gaveKey (e : Event) : option string := match e with Gave k => Some k | _ => None end.

(** What the locks that a thread holds become. *)
Definition after (e : option Event) (H : list string) : option (list string) :=
  match e with
  | Some (Took key) => Some (key :: H)
  | Some (Gave key) => match H with key' :: T => if String.eqb key key' then Some T else None | [] => None end
  | _ => Some H
  end.

(** The program gives back the locks it took, the last first, and ends with [H']
    when it starts with [H]. *)
Fixpoint bracketed {B} (H H' : list string) (p : Prog S B) : Prop :=
  match p with
  | Done _ => H = H'
  | Act m ev k => forall x, match after (ev x) H with Some H1 => bracketed H1 H' (k x) | None => False end
  end.

Lemma bracketed_bind {B C} H H' H'' (p : Prog S B) (k : B -> Prog S C) :
  bracketed H H' p -> (forall b, bracketed H' H'' (k b)) -> bracketed H H'' (pbind p k).
Proof using Type.
  intros Hp Hk. revert H Hp. induction p as [b | X m ev h IH]; intros H; cbn; [intros ->; apply Hk |].
  intros Hp x. specialize (Hp x). destruct (after (ev x) H); [by apply IH | done].
Qed.

Lemma bracketed_try {B C} H (p : Prog S (Res B)) f (k : B -> Prog S (Res C)) :
  bracketed H H p -> (forall b, bracketed H H (k b)) -> bracketed H H (ptry p f k).
Proof using Type. intros Hp Hk. apply (bracketed_bind H H H); [done |]. intros [b | er]; [apply Hk | done]. Qed.

(** The locks that a thread holds after a trace. *)
Fixpoint holding (i : nat) (tr : list (nat * Event)) (H : list string) : list string :=
  match tr with
  | [] => H
  | (j, e) :: rest => holding i rest (if decide (i = j) then default H (after (Some e) H) else H)
  end.

Lemma holding_app i tr tr' H : holding i (tr ++ tr') H = holding i tr' (holding i tr H).
Proof using Type. revert H. induction tr as [| [j e] tr IH]; intros H; cbn; [done | apply IH]. Qed.

Lemma after_keeps e H key : key ∈ H -> e <> Gave key -> key ∈ default H (after (Some e) H).
Proof using Type.
  intros Hin He. destruct e as [k | k | k | k]; cbn; [by right | | done | done].
  destruct H as [| k' T]; [done |]. destruct (String.eqb_spec k k') as [<- |]; [| done]. cbn.
  apply elem_of_cons in Hin as [-> | Hin]; [by destruct He | done].
Qed.

(** A lock that was taken and not given back is held. *)
Lemma holding_took i key a b : (i, Gave key) ∉ b -> key ∈ holding i (a ++ (i, Took key) :: b) [].
Proof using Type.
  intros Hb. rewrite holding_app. cbn. destruct (decide (i = i)); [| done]. cbn.
  assert (Hin : key ∈ key :: holding i a []) by (by left).
  revert Hb Hin. generalize (key :: holding i a []). induction b as [| [j e'] b IH]; intros H Hb Hin; cbn; [done |].
  apply IH; [intros Hin'; apply Hb; by right |]. destruct (decide (i = j)) as [<- |]; [| done].
  apply after_keeps; [done |]. intros ->. apply Hb. by left.
Qed.

(** The invariant: every thread can give back what it holds, and what is held is
    held by one thread. *)
Definition separate (ps : list (Prog S A)) (s : S) (tr : list (nat * Event)) : Prop :=
  Inv s /\ Forall (each (@alternating S string Inv held tookKey gaveKey)) ps /\
  (forall i p, ps !! i = Some p -> bracketed (holding i tr []) [] p) /\
  (forall i key, key ∈ holding i tr [] -> held s key) /\
  (forall i j key, key ∈ holding i tr [] -> key ∈ holding j tr [] -> i = j) /\
  (forall i, NoDup (holding i tr [])).

Lemma holding_event i j tr ev H1 :
  after ev (holding i tr []) = Some H1 ->
  holding j (tr ++ match ev with Some e => [(i, e)] | None => [] end) [] = if decide (j = i) then H1 else holding j tr [].
Proof using Type.
  intros Ha. destruct ev as [e |].
  - rewrite holding_app. cbn [holding]. destruct (decide (j = i)) as [-> |]; [by rewrite Ha | done].
  - rewrite app_nil_r. injection Ha as <-. by destruct (decide (j = i)) as [-> |].
Qed.

(** The lists of locks after one action. *)
Lemma after_cases ev H H1 : after ev H = Some H1 ->
  (exists key, ev = Some (Took key) /\ H1 = key :: H) \/ (exists key, ev = Some (Gave key) /\ H = key :: H1) \/
  (H1 = H /\ (ev ≫= tookKey) = None /\ (ev ≫= gaveKey) = None).
Proof using Type.
  destruct ev as [[k | k | p | p] |]; cbn; try (intros [= <-]; by eauto).
  destruct H as [| k' T]; [done |]. destruct (String.eqb_spec k k') as [<- |]; [| done]. intros [= <-]. right. left. by exists k.
Qed.

Lemma separate_step ps s tr i p s' p' ev :
  separate ps s tr -> ps !! i = Some p -> pstep p s = (s', p', ev) ->
  separate (<[i := p']> ps) s' (tr ++ match ev with Some e => [(i, e)] | None => [] end).
Proof using Type.
  intros (Hi & Hall & Hbr & Hheld & Hdis & Hnd) Hp Hs.
  assert (Hp' : each (@alternating S string Inv held tookKey gaveKey) p) by (by eapply Forall_lookup_1 in Hall).
  destruct p as [y | X m evf k]; cbn in Hs.
  { injection Hs as <- <- <-. rewrite app_nil_r, list_insert_id by done. by split. }
  pose proof (Hbr _ _ Hp) as Hb. cbn in Hb. destruct Hp' as [Hm Hk]. destruct (m s) as [s1 x] eqn:Em. injection Hs as <- <- <-.
  specialize (Hb x). destruct (after (evf x) (holding i tr [])) as [H1 |] eqn:Ea; [| done].
  destruct (Hm _ _ _ Hi Em) as (Hi' & Hkeep & Htook). unfold separate.
  assert (Hh : forall j, holding j (tr ++ match evf x with Some e => [(i, e)] | None => [] end) [] =
    if decide (j = i) then H1 else holding j tr []) by (intros j; by apply holding_event).
  assert (Hold : forall j key, key ∈ (if decide (j = i) then H1 else holding j tr []) ->
    (key ∈ holding j tr [] /\ (evf x ≫= gaveKey) <> Some key) \/ (j = i /\ (evf x ≫= tookKey) = Some key)).
  { intros j key Hin. destruct (after_cases _ _ _ Ea) as [(k0 & He & ->) | [(k0 & He & HH) | (-> & _ & Hg)]].
    - destruct (decide (j = i)) as [-> |]; [| by rewrite He; left].
      apply elem_of_cons in Hin as [-> | Hin]; [right; by rewrite He | left; by rewrite He].
    - left. rewrite He. cbn. destruct (decide (j = i)) as [-> | Hji].
      + specialize (Hnd i). rewrite HH in Hnd |- *. apply NoDup_cons in Hnd as [Hn _]. split; [by right | congruence].
      + split; [done |]. intros [= ->]. apply Hji, (Hdis j i key); [done |]. rewrite HH. by left.
    - left. rewrite Hg. by destruct (decide (j = i)) as [-> |]. }
  split; [done |]. split; [| split; [| split; [| split]]].
  - by apply Forall_insert.
  - intros j q Hq. rewrite Hh. destruct (decide (j = i)) as [-> | Hji].
    + rewrite list_lookup_insert_eq in Hq by (by eapply lookup_lt_Some). by injection Hq as <-.
    + rewrite list_lookup_insert_ne in Hq by done. by apply Hbr.
  - intros j key Hin. rewrite Hh in Hin. destruct (Hold _ _ Hin) as [[Hin' Hne] | [_ Ht]]; [apply Hkeep; [by eapply Hheld | done] | by apply Htook].
  - intros j l key Hj Hl. rewrite Hh in Hj, Hl.
    destruct (Hold _ _ Hj) as [[Hj' _] | [-> Ht]], (Hold _ _ Hl) as [[Hl' _] | [-> Ht']]; [by eapply Hdis | | | done];
      exfalso; eapply (proj1 (Htook _ ltac:(eassumption))); by eapply Hheld.
  - intros j. rewrite Hh. destruct (decide (j = i)) as [-> |]; [| apply Hnd].
    destruct (after_cases _ _ _ Ea) as [(k0 & He & ->) | [(k0 & He & HH) | (-> & _ & _)]]; [| | apply Hnd].
    + constructor; [| apply Hnd]. intros Hin. rewrite He in Htook. by apply (proj1 (Htook k0 eq_refl)), (Hheld i).
    + specialize (Hnd i). rewrite HH in Hnd. by apply NoDup_cons in Hnd as [_ ?].
Qed.

(** Nobody else takes a lock that a thread took before that thread gives it back. *)
Lemma exec_exclusive sched (ps : list (Prog S A)) s ps' s' tr :
  Inv s -> Forall (fun p => each (@alternating S string Inv held tookKey gaveKey) p /\ bracketed [] [] p) ps ->
  exec sched ps s = (ps', s', tr) ->
  forall key a i b j c, tr = a ++ (i, Took key) :: b ++ (j, Took key) :: c -> (i, Gave key) ∈ b.
Proof using Type.
  intros Hi Hall He.
  enough (H : separate ps' s' tr /\ forall key a i b j c, tr = a ++ (i, Took key) :: b ++ (j, Took key) :: c -> (i, Gave key) ∈ b)
    by apply H.
  revert He. apply (exec_ind (fun ps s tr => separate ps s tr /\
    forall key a i b j c, tr = a ++ (i, Took key) :: b ++ (j, Took key) :: c -> (i, Gave key) ∈ b)).
  - clear sched ps s ps' s' tr Hi Hall. intros ps s tr i p s' p' ev [Hsep IH] Hp Hs. split; [by eapply separate_step |].
    intros key a j b l c Htr. destruct ev as [e1 |]; [| rewrite app_nil_r in Htr; by eapply IH].
    destruct c as [| z c' _] using rev_ind.
    + rewrite app_comm_cons, app_assoc in Htr. apply app_inj_tail in Htr as [-> [= <- ->]].
      destruct (decide ((j, Gave key) ∈ b)) as [| Hno]; [done |]. exfalso.
      destruct Hsep as (Hi & Hsep & _ & Hheld & _). pose proof (Hheld j key (holding_took j key a b Hno)) as Hk.
      assert (Hp' : each (@alternating S string Inv held tookKey gaveKey) p) by (by eapply Forall_lookup_1 in Hsep).
      destruct p as [y | X m evf k]; cbn in Hs; [discriminate Hs |]. destruct Hp' as [Hm _].
      destruct (m s) as [s1 x] eqn:Em. injection Hs as <- <- Hev. destruct (Hm _ _ _ Hi Em) as (_ & _ & Ht). by apply (Ht key); [rewrite Hev |].
    + rewrite !app_comm_cons, !app_assoc in Htr. apply app_inj_tail in Htr as [-> _]. rewrite <- app_assoc in IH. by eapply IH.
  - split; [| by intros key [] i b j c]. split; [done |]. split; [by eapply Forall_impl; [exact Hall | intros ? []] |].
    split; [intros i p Hp; by eapply Forall_lookup_1 in Hall as [_ ?] |]. split; [by intros i key Hin%elem_of_nil |].
    split; [by intros i j key Hin%elem_of_nil | intros i; constructor].
Qed.

End Brackets.

(** Programs that take and give back locks in brackets. *)
Section Tidy.
Context {S : Type} (Inv : S -> Prop) (held : S -> string -> Prop).

Definition tidy {A} (p : Prog S A) : Prop :=
  each (@alternating S string Inv held tookKey gaveKey) p /\ forall H, bracketed H H p.

Lemma each_bind {A B} P (p : Prog S A) (k : A -> Prog S B) :
  each P p -> (forall a, each P (k a)) -> each P (pbind p k).
Proof using Type.
  intros Hp Hk. induction p as [a | X m ev h IH]; cbn; [apply Hk |]. destruct Hp as [Hm Hp]. split; [done |]. intros x. by apply IH.
Qed.

Lemma tidy_ret {A} (a : A) : tidy (Done a).
Proof using Type. by split. Qed.
Lemma tidy_bind {A B} (p : Prog S A) (k : A -> Prog S B) : tidy p -> (forall a, tidy (k a)) -> tidy (pbind p k).
Proof using Type.
  intros [Hp Hp'] Hk. split; [apply each_bind; [done | apply Hk] |].
  intros H. eapply bracketed_bind; [apply Hp' | intros a; apply Hk].
Qed.
Lemma tidy_try {A B} (p : Prog S (Res A)) f (k : A -> Prog S (Res B)) :
  tidy p -> (forall a, tidy (k a)) -> tidy (ptry p f k).
Proof using Type. intros Hp Hk. apply tidy_bind; [done |]. intros [a | er]; [apply Hk | apply tidy_ret]. Qed.

(** An action that takes no lock and gives none back. *)
Lemma tidy_act {A} (m : St S A) ev :
  (forall x, after (ev x) = Some) -> (forall x, (ev x ≫= tookKey) = None) ->
  (forall s s' x, Inv s -> m s = (s', x) -> Inv s' /\ forall k, held s k -> held s' k) -> tidy (Act m ev Done).
Proof using Type.
  intros Ha Ht Hm. split; [| by intros H x; rewrite Ha]. split; [| done]. intros s s' x Hi E.
  destruct (Hm _ _ _ Hi E) as [Hi' Hk]. split; [done |]. split; [by auto |]. by rewrite Ht.
Qed.

(** Nobody takes a lock that somebody else took and still has. *)
Lemma exec_tidy {A} sched (ps : list (Prog S A)) s ps' s' tr key a i b j c :
  Inv s -> Forall tidy ps -> exec sched ps s = (ps', s', tr) ->
  tr = a ++ (i, Took key) :: b ++ (j, Took key) :: c -> (i, Gave key) ∈ b.
Proof using Type.
  intros Hi Hall He. eapply (exec_exclusive Inv held); [exact Hi | | exact He].
  eapply Forall_impl; [exact Hall |]. intros p [H1 H2]. split; [done | apply H2].
Qed.
End Tidy.

(** ** What a result tells about the trace *)

Section Emits.
Context {S : Type} (e : Event).

(** A good result comes only after the event. *)
Fixpoint emits {A} (good : A -> Prop) (seen : Prop) (p : Prog S A) : Prop :=
  match p with
  | Done a => good a -> seen
  | Act m ev k => forall x, emits good (seen \/ ev x = Some e) (k x)
  end.

Lemma emits_impl {A} (good : A -> Prop) (P Q : Prop) p : (P -> Q) -> emits good P p -> emits good Q p.
Proof using Type.
  revert P Q. induction p as [a | X m ev k IH]; intros P Q HPQ; cbn; [by auto |].
  intros H x. by apply (IH x (P \/ ev x = Some e)); [intros [? | ?]; auto |].
Qed.

(** What the parts of a program emit. *)
Lemma emits_true {A} (good : A -> Prop) (P : Prop) p : P -> emits good P p.
Proof using Type. revert P. induction p as [a | X m ev k IH]; intros P HP; cbn; [done |]. intros x. apply IH. by left. Qed.

Lemma emits_bind {A B} (good : B -> Prop) (have : A -> Prop) P (p : Prog S A) (k : A -> Prog S B) :
  emits have P p -> (forall a (P' : Prop), (have a -> P') -> emits good P' (k a)) -> emits good P (pbind p k).
Proof using Type.
  intros Hp Hk. revert P Hp. induction p as [a | X m ev h IH]; intros P; cbn; [apply Hk |]. intros Hp x. by apply IH.
Qed.

Lemma emits_after {A B} (good : B -> Prop) P (p : Prog S A) (k : A -> Prog S B) :
  (forall a, emits good False (k a)) -> emits good P (pbind p k).
Proof using Type.
  intros Hk. revert P. induction p as [a | X m ev h IH]; intros P; cbn; [by eapply emits_impl; [| apply Hk] | by intros x].
Qed.

Lemma exec_emits {A} (good : A -> Prop) sched (ps : list (Prog S A)) s ps' s' tr i p a :
  ps !! i = Some p -> emits good False p -> exec sched ps s = (ps', s', tr) -> ps' !! i = Some (Done a) -> good a -> (i, e) ∈ tr.
Proof using Type.
  intros Hp Hem He. assert (H : forall q, ps' !! i = Some q -> emits good ((i, e) ∈ tr) q); [| intros Hd Hg; by apply (H _ Hd)].
  revert He. apply (exec_ind (fun ps _ tr => forall q, ps !! i = Some q -> emits good ((i, e) ∈ tr) q)).
  - clear sched ps s ps' s' tr p Hp Hem. intros ps s tr j p s' p' ev IH Hp Hs q Hq.
    assert (Hold : forall r, ps !! i = Some r -> emits good ((i, e) ∈ tr ++ match ev with Some e => [(j, e)] | None => [] end) r).
    { intros r Hr. eapply emits_impl; [| by apply IH]. intros Hin. apply elem_of_app. by left. }
    destruct (decide (i = j)) as [<- | Hij]; [| rewrite list_lookup_insert_ne in Hq by done; by apply Hold].
    rewrite list_lookup_insert_eq in Hq by (by eapply lookup_lt_Some). injection Hq as <-.
    destruct p as [y | X m evf k]; cbn in Hs; [injection Hs as <- <- <-; by apply Hold |].
    destruct (m s) as [s1 x]. injection Hs as <- <- <-. specialize (IH _ Hp). cbn in IH.
    eapply emits_impl; [| apply (IH x)]. intros [Hin | ->]; apply elem_of_app; [by left | right; by left].
  - intros q Hq. rewrite Hp in Hq. injection Hq as <-. by eapply emits_impl; [| exact Hem].
Qed.
End Emits.

(** ** How long a program can be *)

Section Within.
Context {S : Type}.

(** The program ends after at most [n] actions, whatever they return. *)
Fixpoint within {A} (n : nat) (p : Prog S A) {struct p} : Prop :=
  match p with
  | Done _ => True
  | Act m ev k => match n with O => False | Datatypes.S n' => forall x, within n' (k x) end
  end.

Lemma within_le {A} n n' (p : Prog S A) : n <= n' -> within n p -> within n' p.
Proof.
  revert n n'. induction p as [a | X m ev k IH]; intros n n' Hle; cbn; [done |].
  destruct n as [| n]; [done |]. destruct n' as [| n']; [lia |]. intros H x. eapply IH; [| apply H]. lia.
Qed.

Lemma within_bind {A B} n n' N (p : Prog S A) (k : A -> Prog S B) :
  within n p -> (forall a, within n' (k a)) -> n + n' <= N -> within N (pbind p k).
Proof.
  intros Hp Hk HN. apply (within_le (n + n')); [done |]. clear HN N.
  revert n Hp. induction p as [a | X m ev h IH]; intros n; cbn.
  - intros _. eapply within_le; [| apply Hk]. lia.
  - destruct n as [| n]; [done |]. intros Hp x. by apply IH.
Qed.

Lemma within_one {A B} n (m : St S A) ev (k : A -> Prog S B) :
  (forall a, within n (k a)) -> within (Datatypes.S n) (pbind (Act m ev Done) k).
Proof. intros H x. apply H. Qed.

(** Whoever takes [n] steps is done, whatever the others do in between. *)
Lemma exec_within {A} n sched (ps : list (Prog S A)) s ps' s' tr i p :
  ps !! i = Some p -> within n p -> exec sched ps s = (ps', s', tr) ->
  n <= count_occ Nat.eq_dec sched i -> exists a, ps' !! i = Some (Done a).
Proof.
  revert n ps s ps' s' tr p. induction sched as [| j sched IH]; intros n ps s ps' s' tr p Hp Hn; cbn [exec count_occ].
  - intros [= <- <- <-] Hle. destruct p as [a | X m ev k]; [by exists a |]. cbn in Hn. destruct n; [done | lia].
  - destruct (ps !! j) as [q |] eqn:Eq.
    2: { destruct (Nat.eq_dec j i) as [-> |]; [congruence |]. intros He Hle. by eapply IH. }
    destruct (pstep q s) as [[s1 q'] ev] eqn:Es. destruct (exec sched _ s1) as [[ps2 s2] tr2] eqn:Ee. intros [= <- <- <-] Hle.
    destruct (Nat.eq_dec j i) as [-> | Hji].
    2: { eapply IH; [| exact Hn | exact Ee | done]. by rewrite list_lookup_insert_ne. }
    rewrite Hp in Eq. injection Eq as <-.
    assert (Hq : <[i := q']> ps !! i = Some q') by (apply list_lookup_insert_eq; by eapply lookup_lt_Some).
    destruct p as [a | X m ev' k]; cbn in Es.
    + injection Es as <- <- <-. eapply (IH 0); [exact Hq | done | exact Ee | lia].
    + destruct (m s) as [s3 x]. injection Es as <- <- <-. destruct n as [| n]; [done |].
      eapply (IH n); [exact Hq | apply Hn | exact Ee | lia].
Qed.

(** A program that runs alone computes its function. *)
Lemma exec_alone {A} n (p : Prog S A) s :
  within n p -> exists tr, exec (repeat 0 n) [p] s = ([Done (run p s).2], (run p s).1, tr).
Proof.
  revert n s. induction p as [a | X m ev k IH]; intros n s Hn.
  - exists []. clear Hn. induction n as [| n IHn]; cbn; [done | by rewrite IHn].
  - destruct n as [| n]; [done |]. cbn. unfold bind. destruct (m s) as [s1 x].
    destruct (IH x n s1 (Hn x)) as [tr Htr]. rewrite Htr. by eexists.
Qed.
End Within.

(** ** Rely and guarantee

    [R] is what every action of every thread is allowed to do to the state. *)

Section Rely.
Context {S : Type} (R : S -> S -> Prop) `{!PreOrder R}.

Definition stable (P : S -> Prop) : Prop := forall s s', R s s' -> P s -> P s'.

(** From [s], with others interfering, every action of the program is allowed and
    the result is as [Q] says. *)
Fixpoint wp {A} (p : Prog S A) (Q : A -> S -> Prop) (s : S) : Prop :=
  match p with
  | Done a => Q a s
  | Act m ev k => forall s0 s1 x, R s s0 -> m s0 = (s1, x) -> R s0 s1 /\ wp (k x) Q s1
  end.
Definition guided {A} (P : S -> Prop) (p : Prog S A) (Q : A -> S -> Prop) : Prop := forall s, P s -> wp p Q s.

Lemma guided_ret {A} (P : S -> Prop) (a : A) (Q : A -> S -> Prop) : (forall s, P s -> Q a s) -> guided P (Done a) Q.
Proof using Type. intros H s Hs. by apply H. Qed.

Lemma wp_conseq {A} (p : Prog S A) (Q Q' : A -> S -> Prop) s : (forall a s, Q a s -> Q' a s) -> wp p Q s -> wp p Q' s.
Proof using Type.
  intros H. revert s. induction p as [a | X m ev k IH]; intros s; cbn; [apply H |].
  intros Hp s0 s1 x Hs Hm. destruct (Hp _ _ _ Hs Hm) as [? ?]. split; [done | by apply IH].
Qed.

Lemma guided_conseq {A} (P P' : S -> Prop) (p : Prog S A) (Q Q' : A -> S -> Prop) :
  (forall s, P' s -> P s) -> guided P p Q -> (forall a s, Q a s -> Q' a s) -> guided P' p Q'.
Proof using Type. intros HP Hp HQ s Hs. eapply wp_conseq; [exact HQ | by apply Hp, HP]. Qed.

Lemma guided_weaken {A} (P P' : S -> Prop) (p : Prog S A) (Q : A -> S -> Prop) :
  (forall s, P' s -> P s) -> guided P p Q -> guided P' p Q.
Proof using Type. intros HP Hp s Hs. by apply Hp, HP. Qed.

Lemma guided_bind {A B} (P : S -> Prop) (p : Prog S A) (k : A -> Prog S B) (Q : A -> S -> Prop) (Q' : B -> S -> Prop) :
  guided P p Q -> (forall a, guided (Q a) (k a) Q') -> guided P (pbind p k) Q'.
Proof using Type.
  intros Hp Hk s Hs. specialize (Hp s Hs). clear Hs. revert s Hp.
  induction p as [a | X m ev h IH]; intros s; cbn; [apply Hk |].
  intros Hp s0 s1 x Hr Hm. destruct (Hp _ _ _ Hr Hm) as [? ?]. split; [done | by apply IH].
Qed.

Lemma guided_try {A B} (P : S -> Prop) (p : Prog S (Res A)) f (k : A -> Prog S (Res B)) (Q : Res A -> S -> Prop) (Q' : Res B -> S -> Prop) :
  guided P p Q -> (forall a, guided (Q (Ok a)) (k a) Q') -> (forall er s, Q (Err er) s -> Q' (Err (f er)) s) ->
  guided P (ptry p f k) Q'.
Proof using Type. intros Hp Hk He. eapply guided_bind; [exact Hp |]. intros [a | er]; [apply Hk |]. by intros s Hs; apply He. Qed.

Lemma guided_act {A} (P : S -> Prop) (m : St S A) ev (Q : A -> S -> Prop) :
  stable P -> (forall s s' a, P s -> m s = (s', a) -> R s s' /\ Q a s') -> guided P (Act m ev Done) Q.
Proof using Type. intros HP Hm s Hs s0 s1 x Hr E. by eapply Hm; [eapply HP |]. Qed.

Lemma wp_stable {A} (p : Prog S A) (Q : A -> S -> Prop) s s' : (forall a, stable (Q a)) -> R s s' -> wp p Q s -> wp p Q s'.
Proof using All.
  intros HQ Hr. destruct p as [a | X m ev k]; cbn; [by apply HQ |]. intros Hp s0 s1 x Hr' Hm. apply (Hp s0); [by etrans | done].
Qed.

(** In every schedule every thread does what it does by itself, and the state
    changes in allowed ways only. *)
Lemma exec_guided {A} (Q : nat -> A -> S -> Prop) sched (ps : list (Prog S A)) s ps' s' tr :
  (forall i a, stable (Q i a)) -> (forall i p, ps !! i = Some p -> wp p (Q i) s) -> exec sched ps s = (ps', s', tr) ->
  R s s' /\ forall i p, ps' !! i = Some p -> wp p (Q i) s'.
Proof using All.
  intros HQ Hps. apply (exec_ind (fun ps s' _ => R s s' /\ forall i p, ps !! i = Some p -> wp p (Q i) s')); [| done].
  clear sched ps ps' s' tr Hps. intros ps s1 tr i p s2 p' ev [Hr Hps] Hp Hs.
  assert (Hstep : R s1 s2 /\ wp p' (Q i) s2).
  { specialize (Hps _ _ Hp). destruct p as [a | X m evf k]; cbn in Hs; [by injection Hs as <- <- <- |].
    destruct (m s1) as [s3 x] eqn:E. injection Hs as <- <- <-. by apply (Hps s1). }
  destruct Hstep as [Hr' Hp']. split; [by etrans |]. intros j q Hq. destruct (decide (j = i)) as [-> | Hji].
  - rewrite list_lookup_insert_eq in Hq by (by eapply lookup_lt_Some). by injection Hq as <-.
  - rewrite list_lookup_insert_ne in Hq by done. eapply wp_stable; [apply HQ | exact Hr' | by apply Hps].
Qed.

End Rely.

(** ** What a thread learns on the way

    [G] holds in every state that the schedule passes, [I] is kept by every action
    from such states, and what the answer of a thread tells does not change any
    more, whatever the other threads do. *)

Section Along.
Context {S : Type}.

Fixpoint along (G I : S -> Prop) {A} (p : Prog S A) (Q : A -> Prop) : Prop :=
  match p with
  | Done a => Q a
  | Act m _ k => forall s s' x, G s -> I s -> m s = (s', x) -> I s' /\ along G I (k x) Q
  end.

(** The states that a schedule passes, from the first to the last. *)
Fixpoint passes {A} (sched : list nat) (ps : list (Prog S A)) (s : S) : list S :=
  match sched with
  | [] => [s]
  | i :: rest =>
      match ps !! i with
      | None => passes rest ps s
      | Some p => let '(s', p', _) := pstep p s in s :: passes rest (<[i := p']> ps) s'
      end
  end.

Lemma passes_first {A} sched (ps : list (Prog S A)) s : s ∈ passes sched ps s.
Proof.
  revert ps. induction sched as [| i sched IH]; intros ps; cbn [passes]; [by left |].
  destruct (ps !! i) as [p |]; [| apply IH]. destruct (pstep p s) as [[s1 p1] ev]. by left.
Qed.

Context (G I : S -> Prop).

Lemma along_conseq {A} (p : Prog S A) (Q Q' : A -> Prop) :
  (forall a, Q a -> Q' a) -> along G I p Q -> along G I p Q'.
Proof.
  intros HQ. induction p as [a | X m ev h IH]; cbn; [apply HQ |].
  intros Hp s s' x Hg Hi Hm. destruct (Hp _ _ _ Hg Hi Hm) as [? ?]. split; [done | by apply IH].
Qed.

Lemma along_bind {A B} (p : Prog S A) (k : A -> Prog S B) (Q : A -> Prop) (Q' : B -> Prop) :
  along G I p Q -> (forall a, Q a -> along G I (k a) Q') -> along G I (pbind p k) Q'.
Proof.
  intros Hp Hk. induction p as [a | X m ev h IH]; cbn in *; [by apply Hk |].
  intros s s' x Hg Hi Hm. destruct (Hp _ _ _ Hg Hi Hm) as [? ?]. split; [done | by apply IH].
Qed.

Lemma along_try {A B} (p : Prog S (Res A)) f (k : A -> Prog S (Res B)) (Q : Res A -> Prop) (Q' : Res B -> Prop) :
  along G I p Q -> (forall a, Q (Ok a) -> along G I (k a) Q') -> (forall er, Q (Err er) -> Q' (Err (f er))) ->
  along G I (ptry p f k) Q'.
Proof. intros Hp Hk He. eapply along_bind; [exact Hp |]. intros [a | er] Ha; [by apply Hk | by apply He]. Qed.

Lemma along_act {A} (m : St S A) ev (Q : A -> Prop) :
  (forall s s' a, G s -> I s -> m s = (s', a) -> I s' /\ Q a) -> along G I (Act m ev Done) Q.
Proof. done. Qed.

(** In every schedule the invariant is kept, and every answer tells what its thread learned. *)
Lemma exec_along {A} (Q : nat -> A -> Prop) sched (ps : list (Prog S A)) s ps' s' tr :
  I s -> (forall s1, s1 ∈ passes sched ps s -> G s1) -> (forall i p, ps !! i = Some p -> along G I p (Q i)) ->
  exec sched ps s = (ps', s', tr) ->
  I s' /\ forall i p, ps' !! i = Some p -> along G I p (Q i).
Proof.
  revert ps s ps' s' tr. induction sched as [| i sched IH]; intros ps s ps' s' tr Hi Hg Hps; cbn [exec passes] in *.
  - by intros [= <- <- <-].
  - destruct (ps !! i) as [p |] eqn:Ep; [| by apply IH].
    destruct (pstep p s) as [[s1 p1] ev] eqn:Es. destruct (exec sched _ s1) as [[ps2 s2] tr2] eqn:Ee. intros [= <- <- <-].
    assert (Hstep : I s1 /\ along G I p1 (Q i)).
    { specialize (Hps i p Ep). destruct p as [a | X m evf k]; cbn in Es; [by injection Es as <- <- <- |].
      destruct (m s) as [s3 x] eqn:Em. injection Es as <- <- <-. apply (Hps s); [apply Hg; by left | done | done]. }
    destruct Hstep as [Hi1 Hp1]. eapply IH; [exact Hi1 | intros s3 H; apply Hg; by right | | exact Ee].
    intros j q Hq. destruct (decide (j = i)) as [-> | Hne].
    + rewrite list_lookup_insert_eq in Hq by (by eapply lookup_lt_Some). by injection Hq as <-.
    + rewrite list_lookup_insert_ne in Hq by done. by apply Hps.
Qed.

End Along.

End Threads.
