(* ===== verification/EngineThreads.v ===== *)
(** * The engine operations as threads

    The operations of core/ again, with every call to a component, every reading of
    the clock and every cache operation as an action of its own, so that operations
    of concurrent requests can be interleaved.  The text of an operation is that of
    Engine.v; [GetMetadata] is cut where the code calls the cache, the store and
    the cache again.  A call of the erasure manager is one action. *)
From S2P Require Import Prelude GoStrings PathUtil Metadata Cache Locks Backends Erasure Engine EngineSpec Threads.
From Stdlib Require Import Ascii String.
Open Scope string_scope.
Open Scope bool_scope.
Open Scope go_scope.
Open Scope prog_scope.

Module EngineThreads.
Import Threads.

(** What an operation returns. *)
Inductive Answer : Type :=
| AMd (r : Res Metadata)
| AReader (r : Res Reader)
| AUnit (r : Res unit)
| ARecord (md : Metadata) (r : Res unit).

Section Operations.
Context {W : Type} (e : Engine.Engine W).
Abbreviation T A := (Prog (Engine.EState W) A) (only parsing).
Abbreviation selectBackend := (Engine.selectBackend e).
Abbreviation selectBackendByType := (Engine.selectBackendByType e).

(** ** The actions *)

Definition call {A} (m : St W A) : T A := atomic (Engine.lift m).
Definition clock : T Time := atomic (gets (Engine.now e)).
Definition storeGet (path : string) : T (Res Metadata) := atomic (Engine.storeGet e path).
Definition cacheInvalidate (path : string) : T unit := atomic (Engine.cacheInvalidate path).
Definition cacheInvalidatePrefix (prefix : string) : T unit := atomic (Engine.cacheInvalidatePrefix e prefix).
Definition cacheGet (path : string) : T (option Metadata) :=
  atomic (gets (fun s => Cache.Get (Engine.now e s) path (Engine.es_cache s))).
Definition cacheSet (path : string) (md : Metadata) : T unit :=
  atomic (fun s => (Engine.mkEState (Engine.es_world s)
    (Cache.Set_ (Engine.now e s) (Engine.now e s) (Engine.sc_range (Engine.e_sched e) (Engine.es_cache s)) path md
       (Engine.es_cache s)), tt)).

Definition acquire (key : string) : T (Res bool) :=
  observed (fun r => match r with Ok true => Some (Took key) | _ => None end)
    (Engine.lift (lm_Acquire (Engine.e_lockManager e) key)).
Definition release (key : string) : T (Res unit) :=
  observed (fun _ => Some (Gave key)) (Engine.lift (lm_Release (Engine.e_lockManager e) key)).
Definition storeCreate (md : Metadata) : T (Metadata * Res unit) :=
  observed (fun '(_, r) => match r with Ok _ => Some (Created (md_Path md)) | Err _ => None end)
    (Engine.lift (st_Create (Engine.e_metadataStore e) md)).
Definition storeUpdate (md : Metadata) : T (Metadata * Res unit) := call (st_Update (Engine.e_metadataStore e) md).
Definition storeDelete (path : string) : T (Res unit) :=
  observed (fun r => match r with Ok _ => Some (Deleted path) | Err _ => None end)
    (Engine.lift (st_Delete (Engine.e_metadataStore e) path)).
(** Another instance that is asked to delete the file of a record deletes the record
    too, when one is there by then. *)
Definition backendDelete (storage : Storage W) (ctx : Ctx) (relativePath : string) : T (Res unit) :=
  observed (fun _ => Some (Deleted ("/" +:+ relativePath))) (Engine.lift (sg_Delete storage ctx relativePath)).

(** ** The operations *)

Definition withLock {A} (lockKey msg : string) (fail : gerr -> A) (body : T A) : T A :=
  do acquired <- acquire lockKey;
  match acquired with
  | Err er => Done (fail (EWrap "failed to acquire lock" er))
  | Ok false => Done (fail (EMsg msg))
  | Ok true =>
      do r <- body;
      do _ <- release lockKey;
      Done r
  end.

Definition CreateDirectoryWith (ensureParents : string -> T (Res unit)) (ctx : Ctx)
    (path : string) (md : Metadata) : T (Metadata * Res unit) :=
  let lockKey := "dir:" +:+ path in
  withLock lockKey "failed to acquire lock for directory creation" (fun er => (md, Err er)) (
    do existing <- storeGet path;
    match existing with
    | Ok _ => Done (md, Err ErrAlreadyExists)
    | Err _ =>
        do parents <- ensureParents (md_BackendType md);
        match parents with
        | Err er => Done (md, Err (EWrap "failed to ensure parent directories" er))
        | Ok _ =>
            let md := if String.eqb (md_BackendType md) "localfs"
                      then set_CallFSInstanceID (Some (Engine.e_currentInstanceID e)) md else md in
            let storage := selectBackendByType (md_BackendType md) in
            let relativePath := TrimPrefix path "/" in
            do created <- call (sg_CreateDirectory storage ctx relativePath);
            match created with
            | Err er => Done (md, Err (EWrap "failed to create directory in backend" er))
            | Ok _ =>
                do t <- clock;
                let md := Engine.stamp t (set_Size 0 (set_Type "directory" (set_Path path md))) in
                do (md, stored) <- storeCreate md;
                match stored with
                | Err er =>
                    do _ <- call (sg_Delete storage ctx relativePath);
                    Done (md, Err (EWrap "failed to store metadata" er))
                | Ok _ => Done (md, Ok tt)
                end
            end
        end
    end).

(** The record of the parent is missing: its parents first, then its directory. *)
Definition ensureMissing (ensureParents : string -> T (Res unit)) (ctx : Ctx) (parentPath backendType : string)
  : T (Res unit) :=
  do parent <- storeGet parentPath;
  match parent with
  | Ok _ => Done (Ok tt)
  | Err _ =>
      try _ <- ensureParents backendType;
      let backendType := if String.eqb backendType "" then "localfs" else backendType in
      do (_, r) <- CreateDirectoryWith ensureParents ctx parentPath (Engine.parentMd parentPath backendType);
      Done (match r with
           | Err er => if bool_decide (er = ErrAlreadyExists) then Ok tt else Err er
           | Ok _ => Ok tt
           end)
  end.

(** [ensureParentDirectories] calls itself on the parent, which is shorter
    ([Dir_shorter]). *)
Fixpoint ensureParentDirectories (ctx : Ctx) (path backendType : string) (ends : Acc lt (String.length path)) {struct ends}
  : T (Res unit) :=
  let parentPath := filepath_Dir path in
  match Sumbool.sumbool_of_bool (atTop parentPath) with
  | left _ => Done (Ok tt)
  | right below =>
      ensureMissing (fun bt => ensureParentDirectories ctx parentPath bt (Acc_inv ends (Dir_shorter path below)))
        ctx parentPath backendType
  end.

Definition ensureParents (ctx : Ctx) (path backendType : string) : T (Res unit) :=
  ensureParentDirectories ctx path backendType (length_ends path).

Definition CreateDirectory (ctx : Ctx) (path : string) (md : Metadata) : T (Metadata * Res unit) :=
  CreateDirectoryWith (ensureParents ctx path) ctx path md.

Definition EnsureRootDirectory : T (Res unit) :=
  do root <- storeGet "/";
  match root with
  | Ok _ => Done (Ok tt)
  | Err _ =>
      do t <- clock;
      let rootMd := set_Path "/" (newMetadata "/" "directory" "0777" 0 0 "localfs" t) in
      do (_, r) <- storeCreate rootMd;
      Done (match r with
           | Err er => Err (EWrap "failed to create root directory metadata" er)
           | Ok _ => Ok tt
           end)
  end.

Definition GetMetadata (path : string) : T (Res Metadata) :=
  do cached <- cacheGet path;
  match cached with
  | Some cachedMd => Done (Ok cachedMd)
  | None =>
      try md <- storeGet path;
      do _ <- cacheSet path md;
      Done (Ok md)
  end.

Definition GetFile (ctx : Ctx) (path : string) : T (Res Reader) :=
  wrap "failed to get file metadata" in md <- GetMetadata path;
  if negb (String.eqb (md_Type md) "file") then Done (Err (EMsg "path is not a file"))
  else
    let fromBackend :=
      let '(ctx, storage) := selectBackend ctx md in
      let relativePath := TrimPrefix path "/" in
      wrap "failed to open file" in reader <- call (sg_Open storage ctx relativePath);
      Done (Ok reader) in
    match Engine.e_erasureManager e with
    | Some em =>
        if md_ErasureCoded md then
          wrap "failed to retrieve erasure-coded file" in data <-
            call (Erasure.RetrieveFile em (Engine.sc_shards (Engine.e_sched e)) (Engine.sc_late (Engine.e_sched e)) ctx path);
          Done (Ok (bytesReader data))
        else fromBackend
    | None => fromBackend
    end.

Definition replicateFileToSecondaryBackend (ctx : Ctx) (path : string) (size : Z) (primaryBackend : string)
  : T (Res unit) :=
  match Engine.replicaTarget e primaryBackend with
  | None => Done (Ok tt)
  | Some replicaBackend =>
      let primaryStorage := selectBackendByType primaryBackend in
      let replicaStorage := selectBackendByType replicaBackend in
      let relativePath := TrimPrefix path "/" in
      do opened <- call (sg_Open primaryStorage ctx relativePath);
      match opened with
      | Err er => Done (Engine.replicaError e "failed to open source for replication" er)
      | Ok reader =>
          do updated <- call (sg_Update replicaStorage ctx relativePath reader size);
          match updated with
          | Ok _ => Done (Ok tt)
          | Err _ =>
              do reopened <- call (sg_Open primaryStorage ctx relativePath);
              match reopened with
              | Err er => Done (Engine.replicaError e "failed to reopen source for replica create" er)
              | Ok reader2 =>
                  do created <- call (sg_Create replicaStorage ctx relativePath reader2 size);
                  Done (match created with
                       | Err er => Engine.replicaError e "failed to replicate file to secondary backend" er
                       | Ok _ => Ok tt
                       end)
              end
          end
      end
  end.

Definition deleteReplicatedFile (ctx : Ctx) (path primaryBackend : string) : T (Res unit) :=
  match Engine.replicaTarget e primaryBackend with
  | None => Done (Ok tt)
  | Some replicaBackend =>
      do deleted <- call (sg_Delete (selectBackendByType replicaBackend) ctx (TrimPrefix path "/"));
      Done (match deleted with
           | Err er => Engine.replicaError e "failed to delete replicated file" er
           | Ok _ => Ok tt
           end)
  end.

Definition CreateFile (ctx : Ctx) (path : string) (reader : Reader) (size : Z) (md : Metadata) : T (Metadata * Res unit) :=
  let lockKey := "file:" +:+ path in
  withLock lockKey "failed to acquire lock for file creation" (fun er => (md, Err er)) (
    do existing <- storeGet path;
    match existing with
    | Ok _ => Done (md, Err ErrAlreadyExists)
    | Err _ =>
        do parents <- ensureParents ctx path (md_BackendType md);
        match parents with
        | Err er => Done (md, Err (EWrap "failed to ensure parent directories" er))
        | Ok _ =>
            let md := if String.eqb (md_BackendType md) "localfs"
                      then set_CallFSInstanceID (Some (Engine.e_currentInstanceID e)) md else md in
            let storage := selectBackendByType (md_BackendType md) in
            let relativePath := TrimPrefix path "/" in
            do created <- call (sg_Create storage ctx relativePath reader size);
            match created with
            | Err er => Done (md, Err (EWrap "failed to create file in backend" er))
            | Ok _ =>
                do t <- clock;
                let md := Engine.stamp t (set_Size size (set_Path path md)) in
                do (md, stored) <- storeCreate md;
                match stored with
                | Err er =>
                    do _ <- call (sg_Delete storage ctx relativePath);
                    Done (md, Err (EWrap "failed to store metadata" er))
                | Ok _ =>
                    do replicated <- replicateFileToSecondaryBackend ctx path size (md_BackendType md);
                    match replicated with
                    | Err er => Done (md, Err er)
                    | Ok _ =>
                        do _ <- cacheInvalidatePrefix (filepath_Dir path);
                        Done (md, Ok tt)
                    end
                end
            end
        end
    end).

Definition UpdateFile (ctx : Ctx) (path : string) (reader : Reader) (size : Z) : T (Res unit) :=
  let lockKey := "file:" +:+ path in
  withLock lockKey "failed to acquire lock for file update" Err (
    wrap "failed to get existing metadata" in existingMd <- storeGet path;
    if negb (String.eqb (md_Type existingMd) "file") then Done (Err (EMsg "path is not a file"))
    else
      let '(ctx, storage) := selectBackend ctx existingMd in
      let relativePath := TrimPrefix path "/" in
      wrap "failed to update file in backend" in _ <- call (sg_Update storage ctx relativePath reader size);
      do t <- clock;
      let existingMd := set_UpdatedAt t (set_MTime t (set_Size size existingMd)) in
      let existingMd :=
        match md_CallFSInstanceID existingMd with
        | None => if String.eqb (md_BackendType existingMd) "localfs"
                  then set_CallFSInstanceID (Some (Engine.e_currentInstanceID e)) existingMd else existingMd
        | Some _ => existingMd
        end in
      do (existingMd, updated) <- storeUpdate existingMd;
      match updated with
      | Err er =>
          do _ <- cacheInvalidate path;
          Done (Err (EWrap "failed to update metadata" er))
      | Ok _ =>
          try _ <- replicateFileToSecondaryBackend ctx path size (md_BackendType existingMd);
          do _ <- cacheInvalidate path;
          do _ <- cacheInvalidatePrefix (filepath_Dir path);
          Done (Ok tt)
      end).

Definition checkEmpty (path : string) (md : Metadata) : T (Res unit) :=
  if String.eqb (md_Type md) "directory" then
    wrap "failed to check directory contents" in children <-
      atomic (gets (fun s => st_ListChildren (Engine.e_metadataStore e) path (Engine.es_world s)));
    Done (match children with [] => Ok tt | _ => Err (EMsg "directory not empty") end)
  else Done (Ok tt).

Definition DeleteFile (ctx : Ctx) (path : string) : T (Res unit) :=
  let lockKey := "file:" +:+ path in
  withLock lockKey "failed to acquire lock for file deletion" Err (
    wrap "failed to get metadata" in md <- storeGet path;
    try _ <- checkEmpty path md;
    let invalidate :=
      do _ <- cacheInvalidate path;
      do _ <- cacheInvalidatePrefix (filepath_Dir path);
      Done (Ok tt) in
    let fromBackend :=
      let '(ctx, storage) := selectBackend ctx md in
      let relativePath := TrimPrefix path "/" in
      wrap "failed to delete metadata" in _ <- storeDelete path;
      do _ <- backendDelete storage ctx relativePath;
      try _ <- deleteReplicatedFile ctx path (md_BackendType md);
      invalidate in
    match Engine.e_erasureManager e with
    | Some em =>
        if md_ErasureCoded md then
          wrap "failed to delete erasure-coded file" in _ <-
            call (Erasure.DeleteFile em (Engine.sc_shards (Engine.e_sched e)) ctx path);
          wrap "failed to delete metadata" in _ <- storeDelete path;
          invalidate
        else fromBackend
    | None => fromBackend
    end).

Definition CreateErasureMetadata (ctx : Ctx) (path : string) (md : Metadata) : T (Metadata * Res unit) :=
  do parents <- ensureParents ctx path "localfs";
  match parents with
  | Err er => Done (md, Err (EWrap "failed to ensure parent directories" er))
  | Ok _ =>
      do t <- clock;
      let md := Engine.stamp t (set_Path path md) in
      do (md, stored) <- storeCreate md;
      match stored with
      | Err er => Done (md, Err (EWrap "failed to store erasure metadata" er))
      | Ok _ => do _ <- cacheInvalidatePrefix (filepath_Dir path); Done (md, Ok tt)
      end
  end.

Definition UpdateMetadataOnly (md : Metadata) : T (Metadata * Res unit) :=
  do (md, updated) <- storeUpdate md;
  match updated with
  | Err er => Done (md, Err (EWrap "failed to update metadata" er))
  | Ok _ => do _ <- cacheInvalidate (md_Path md); Done (md, Ok tt)
  end.

(** ** The thread of an operation *)

Definition thread (o : EngineSpec.eop) : T Answer :=
  match o with
  | EngineSpec.OpGetMetadata p => do r <- GetMetadata p; Done (AMd r)
  | EngineSpec.OpGetFile ctx p => do r <- GetFile ctx p; Done (AReader r)
  | EngineSpec.OpCreateFile ctx p rd n md => do (md, r) <- CreateFile ctx p rd n md; Done (ARecord md r)
  | EngineSpec.OpCreateDirectory ctx p md => do (md, r) <- CreateDirectory ctx p md; Done (ARecord md r)
  | EngineSpec.OpUpdateFile ctx p rd n => do r <- UpdateFile ctx p rd n; Done (AUnit r)
  | EngineSpec.OpDeleteFile ctx p => do r <- DeleteFile ctx p; Done (AUnit r)
  | EngineSpec.OpCreateErasureMetadata ctx p md => do (md, r) <- CreateErasureMetadata ctx p md; Done (ARecord md r)
  | EngineSpec.OpUpdateMetadataOnly md => do (md, r) <- UpdateMetadataOnly md; Done (ARecord md r)
  | EngineSpec.OpEnsureRootDirectory => do r <- EnsureRootDirectory; Done (AUnit r)
  end.

(** The same operation without interruption. *)
Definition perform (o : EngineSpec.eop) : St (Engine.EState W) Answer :=
  (match o with
  | EngineSpec.OpGetMetadata p => do r <- Engine.GetMetadata e p; ret (AMd r)
  | EngineSpec.OpGetFile ctx p => do r <- Engine.GetFile e ctx p; ret (AReader r)
  | EngineSpec.OpCreateFile ctx p rd n md => do (md, r) <- Engine.CreateFile e ctx p rd n md; ret (ARecord md r)
  | EngineSpec.OpCreateDirectory ctx p md => do (md, r) <- Engine.CreateDirectory e ctx p md; ret (ARecord md r)
  | EngineSpec.OpUpdateFile ctx p rd n => do r <- Engine.UpdateFile e ctx p rd n; ret (AUnit r)
  | EngineSpec.OpDeleteFile ctx p => do r <- Engine.DeleteFile e ctx p; ret (AUnit r)
  | EngineSpec.OpCreateErasureMetadata ctx p md => do (md, r) <- Engine.CreateErasureMetadata e ctx p md; ret (ARecord md r)
  | EngineSpec.OpUpdateMetadataOnly md => do (md, r) <- Engine.UpdateMetadataOnly e md; ret (ARecord md r)
  | EngineSpec.OpEnsureRootDirectory => do r <- Engine.EnsureRootDirectory e; ret (AUnit r)
  end)%go.

End Operations.

(** The directories between the root and a path. *)
Fixpoint levelsFrom (path : string) (ends : Acc lt (String.length path)) {struct ends} : nat :=
  match Sumbool.sumbool_of_bool (atTop (filepath_Dir path)) with
  | left _ => 0
  | right below => Datatypes.S (levelsFrom (filepath_Dir path) (Acc_inv ends (Dir_shorter path below)))
  end.
Definition levels (path : string) : nat := levelsFrom path (length_ends path).

(** How many actions [ensureParentDirectories] takes at most below so many
    directories: the parents of one that is missing are looked for twice, before the
    lock of the directory is taken and under it, and others may have deleted what
    was created in between. *)
Fixpoint ensure_steps (levels : nat) : nat :=
  match levels with O => 0 | Datatypes.S n => 8 + ensure_steps n + ensure_steps n end.

Definition steps (o : EngineSpec.eop) : nat :=
  match o with
  | EngineSpec.OpGetMetadata _ => 3
  | EngineSpec.OpGetFile _ _ => 4
  | EngineSpec.OpCreateFile _ p _ _ _ => 11 + ensure_steps (levels p)
  | EngineSpec.OpCreateDirectory _ p _ => 7 + ensure_steps (levels p)
  | EngineSpec.OpUpdateFile _ _ _ _ => 12
  | EngineSpec.OpDeleteFile _ _ => 9
  | EngineSpec.OpCreateErasureMetadata _ p _ => 3 + ensure_steps (levels p)
  | EngineSpec.OpUpdateMetadataOnly _ => 2
  | EngineSpec.OpEnsureRootDirectory => 3
  end.

End EngineThreads.
