(* ===== verification/EngineThreadsSpec.v ===== *)
(** * Properties of interleaved engine operations

    What holds of the operations of core/ when requests run at the same time, in
    every interleaving of their actions, and what does not. *)
From S2P Require Import Prelude GoStrings PathUtil Metadata MemStore Cache Locks Backends Erasure Engine EngineSpec Threads EngineThreads.
From Stdlib Require Import Ascii String.
Open Scope string_scope.
Open Scope bool_scope.

Module EngineThreadsSpec.
Import Threads EngineThreads.
Create HintDb threads.

(** ** Induction along the parents of a path *)

Section Parents.
Context {W : Type} (e : Engine.Engine W) (ctx : Ctx).
Abbreviation Ens := (string -> Prog (Engine.EState W) (Res unit)) (only parsing).

Lemma thread_ensureParents_ind (P : string -> Ens -> Prop) :
  (forall path, atTop (filepath_Dir path) = true -> P path (fun _ => Done (Ok tt))) ->
  (forall path rec, atTop (filepath_Dir path) = false -> P (filepath_Dir path) rec ->
     P path (ensureMissing e rec ctx (filepath_Dir path))) ->
  forall path, P path (ensureParents e ctx path).
Proof.
  intros Htop Hmiss path. unfold ensureParents. generalize (length_ends path) as ends.
  induction path as [path IH] using (induction_ltof1 _ String.length). intros [h]. cbn [ensureParentDirectories].
  destruct (Sumbool.sumbool_of_bool _) as [E | E]; [by apply Htop |]. apply Hmiss; [done |]. by apply IH, Dir_shorter.
Qed.

(** On a canonical path. *)
Lemma thread_ensureParents_names_ind (P : list string -> string -> Ens -> Prop) :
  (forall n, P [] n (fun _ => Done (Ok tt))) ->
  (forall cs n0 n rec, EngineSpec.names (cs ++ [n0])%list -> P cs n0 rec ->
     P (cs ++ [n0])%list n (ensureMissing e rec ctx (render_path true (cs ++ [n0])%list))) ->
  forall cs n, EngineSpec.names (cs ++ [n])%list -> P cs n (ensureParents e ctx (render_path true (cs ++ [n])%list)).
Proof.
  intros Htop Hmiss cs n. remember (render_path true (cs ++ [n])%list) as path eqn:Hp. revert path cs n Hp.
  assert (Hd : forall cs n, EngineSpec.names (cs ++ [n])%list -> filepath_Dir (render_path true (cs ++ [n])%list) = render_path true cs /\ EngineSpec.names cs).
  { intros cs n [Hcs Hn%Forall_cons_1]%Forall_app. by rewrite Dir_render by (done || apply Hn). }
  assert (Ht : forall cs, EngineSpec.names cs -> atTop (render_path true cs) = true -> cs = []).
  { intros cs Hcs [E | E]%orb_true_iff; to_prop; [apply (EngineSpec.abs_inj cs []); [done | constructor | done] | by destruct cs]. }
  refine (thread_ensureParents_ind (fun path ens => forall cs n, path = render_path true (cs ++ [n])%list -> EngineSpec.names (cs ++ [n])%list -> P cs n ens) _ _).
  - intros path E cs n -> Hn. destruct (Hd cs n Hn) as [Hdir Hcs]. rewrite Hdir in E. by rewrite (Ht cs Hcs E).
  - intros path rec E IH cs n -> Hn. destruct (Hd cs n Hn) as [Hdir Hcs]. rewrite Hdir in E, IH |- *.
    destruct (list.list_eq_nil_dec cs) as [-> | Hne]; [done |]. destruct (exists_last Hne) as (cs0 & n0 & ->).
    apply Hmiss; [done | by apply IH].
Qed.

End Parents.

(** ** Alone, a thread is the operation *)

Section Runs.
Context {W : Type} (e : Engine.Engine W).

Ltac runs := repeat first
  [ apply runs_ret | apply runs_act | solve [eauto with runs]
  | apply runs_bind; [| intros ?] | apply runs_try; [| intros ?]
  | progress cbv beta iota zeta
  | match goal with
    | |- runs (match ?x with _ => _ end) _ => destruct x
    | |- runs (if ?x then _ else _) _ => destruct x
    end ].

Lemma withLock_runs {A} key msg (fail : gerr -> A) p m :
  runs p m -> runs (withLock e key msg fail p) (Engine.withLock e key msg fail m).
Proof. intros H. unfold withLock, Engine.withLock. runs. Qed.

Lemma CreateDirectoryWith_runs ens ens' ctx path md :
  (forall bt, runs (ens bt) (ens' bt)) ->
  runs (CreateDirectoryWith e ens ctx path md) (Engine.CreateDirectoryWith e ens' ctx path md).
Proof. intros H. unfold CreateDirectoryWith, Engine.CreateDirectoryWith. apply withLock_runs. runs. Qed.

Lemma ensure_runs ctx path bt ends :
  runs (ensureParentDirectories e ctx path bt ends) (Engine.ensureParentDirectories e ctx path bt ends).
Proof.
  revert bt ends. induction path as [path IH] using (induction_ltof1 _ String.length). intros bt [h].
  cbn [ensureParentDirectories Engine.ensureParentDirectories]. destruct (Sumbool.sumbool_of_bool _) as [E | E]; [runs |].
  match goal with |- runs (ensureMissing e ?r _ _ _) (Engine.ensureMissing e ?r' _ _ _) =>
    assert (Hr : forall bt, runs (r bt) (r' bt)) by (intros bt'; by apply IH, Dir_shorter) end.
  pose proof (CreateDirectoryWith_runs _ _ ctx (filepath_Dir path) (Engine.parentMd (filepath_Dir path) 
    (if String.eqb bt "" then "localfs" else bt)) Hr) as Hc.
  unfold ensureMissing, Engine.ensureMissing. runs.
Qed.

Lemma ensureParents_runs ctx path bt : runs (ensureParents e ctx path bt) (Engine.ensureParents e ctx path bt).
Proof. apply ensure_runs. Qed.
Hint Resolve ensureParents_runs : runs.

Lemma replicate_runs ctx path size pb :
  runs (replicateFileToSecondaryBackend e ctx path size pb) (Engine.replicateFileToSecondaryBackend e ctx path size pb).
Proof. unfold replicateFileToSecondaryBackend, Engine.replicateFileToSecondaryBackend. runs. Qed.
Lemma deleteReplicated_runs ctx path pb : runs (deleteReplicatedFile e ctx path pb) (Engine.deleteReplicatedFile e ctx path pb).
Proof. unfold deleteReplicatedFile, Engine.deleteReplicatedFile. runs. Qed.
Hint Resolve replicate_runs deleteReplicated_runs : runs.

Lemma GetMetadata_runs path : runs (GetMetadata e path) (Engine.GetMetadata e path).
Proof.
  intros s. unfold Engine.GetMetadata. cbn. unfold bind, gets. destruct (Cache.Get _ _ _); [done |]. cbn.
  unfold bind, Engine.storeGet, gets, try_bind, ret. by destruct (st_Get _ _ _).
Qed.
Hint Resolve GetMetadata_runs : runs.

Lemma thread_runs o : runs (thread e o) (perform e o).
Proof.
  destruct o; cbn [thread perform].
  - runs.
  - unfold GetFile, Engine.GetFile. runs.
  - apply runs_bind; [| intros ?; runs]. unfold CreateFile, Engine.CreateFile. apply withLock_runs. runs.
  - apply runs_bind; [| intros ?; runs]. apply CreateDirectoryWith_runs, ensureParents_runs.
  - apply runs_bind; [| intros ?; runs]. unfold UpdateFile, Engine.UpdateFile. apply withLock_runs. runs.
  - apply runs_bind; [| intros ?; runs]. unfold DeleteFile, Engine.DeleteFile, checkEmpty, Engine.checkEmpty. apply withLock_runs. runs.
  - unfold CreateErasureMetadata, Engine.CreateErasureMetadata. runs.
  - unfold UpdateMetadataOnly, Engine.UpdateMetadataOnly. runs.
  - unfold EnsureRootDirectory, Engine.EnsureRootDirectory. runs.
Qed.

End Runs.

(** ** Every operation ends by itself *)

Section Steps.
Context {W : Type} (e : Engine.Engine W).

(** Count the actions of a program. *)
Ltac count := repeat first
  [ exact I
  | progress (unfold ptry; cbn [Nat.add])
  | apply within_one; intros ?
  | progress cbv beta iota zeta
  | match goal with
    | |- within _ (match ?x with _ => _ end) => destruct x
    | |- within _ (if ?x then _ else _) => destruct x
    end ].

Lemma withLock_within {A} n key msg (fail : gerr -> A) p : within n p -> within (2 + n) (withLock e key msg fail p).
Proof.
  intros H. unfold withLock. count. apply (within_bind n 1); [done | | lia]. intros r. count.
Qed.

Lemma CreateDirectoryWith_within n ens ctx path md :
  (forall bt, within n (ens bt)) -> within (7 + n) (CreateDirectoryWith e ens ctx path md).
Proof.
  intros H. unfold CreateDirectoryWith. apply (withLock_within (5 + n)). count.
  apply (within_bind n 4); [done | | lia]. intros r. count.
Qed.

Lemma ensure_within ctx path bt ends : within (ensure_steps (levelsFrom path ends)) (ensureParentDirectories e ctx path bt ends).
Proof.
  revert bt ends. induction path as [path IH] using (induction_ltof1 _ String.length). intros bt [h].
  cbn [ensureParentDirectories levelsFrom]. destruct (Sumbool.sumbool_of_bool _) as [E | E]; [done |].
  cbn [ensure_steps]. set (n := ensure_steps _).
  assert (Hr : forall bt, within n (ensureParentDirectories e ctx (filepath_Dir path) bt (h _ (Dir_shorter path E))))
    by (intros bt'; by apply IH, Dir_shorter).
  unfold ensureMissing. count. apply (within_bind n (7 + n)); [apply Hr | | lia].
  intros [[] | er]; [| done]. apply (within_bind (7 + n) 0); [| intros r; count | lia].
  by apply CreateDirectoryWith_within.
Qed.
Lemma ensureParents_within ctx path bt : within (ensure_steps (levels path)) (ensureParents e ctx path bt).
Proof. apply ensure_within. Qed.

(** On a canonical path the levels are the names before the last. *)
Lemma levels_names cs n : EngineSpec.names (cs ++ [n])%list -> levels (render_path true (cs ++ [n])%list) = List.length cs.
Proof.
  unfold levels. remember (render_path true (cs ++ [n])%list) as path eqn:Hp. generalize (length_ends path) as ends.
  revert cs n Hp. induction path as [path IH] using (induction_ltof1 _ String.length). intros cs n Hp [h] Hn.
  assert (Hd : filepath_Dir path = render_path true cs).
  { rewrite Hp. apply Forall_app in Hn as [Hcs Hn%Forall_cons_1]. by apply Dir_render; [| apply Hn]. }
  assert (Hcs : EngineSpec.names cs) by (by apply Forall_app in Hn as [Hcs _]).
  cbn [levelsFrom]. destruct (Sumbool.sumbool_of_bool _) as [E | E].
  - rewrite Hd in E. apply orb_true_iff in E as [E | E]; to_prop; [| by destruct cs].
    by rewrite (EngineSpec.abs_inj cs []) by (done || constructor).
  - destruct (list.list_eq_nil_dec cs) as [-> | Hne]; [exfalso; clear -Hd E; by rewrite Hd in E |]. destruct (exists_last Hne) as (cs0 & n0 & ->).
    rewrite List.length_app. cbn [List.length]. rewrite Nat.add_1_r. f_equal.
    by apply (IH _ (Dir_shorter _ E) cs0 n0).
Qed.

Lemma ensure_steps_pow n : ensure_steps n = 8 * (2 ^ n - 1).
Proof.
  induction n as [| n IH]; [done |]. cbn [ensure_steps Nat.pow]. rewrite IH.
  pose proof (Nat.pow_nonzero 2 n). lia.
Qed.

Lemma GetMetadata_within path : within 3 (GetMetadata e path).
Proof. unfold GetMetadata. count. Qed.
Lemma replicate_within ctx path size pb : within 4 (replicateFileToSecondaryBackend e ctx path size pb).
Proof. unfold replicateFileToSecondaryBackend. count. Qed.
Lemma deleteReplicated_within ctx path pb : within 1 (deleteReplicatedFile e ctx path pb).
Proof. unfold deleteReplicatedFile. count. Qed.

Lemma CreateFile_within n ctx path rd size md :
  (forall bt, within n (ensureParents e ctx path bt)) -> within (11 + n) (CreateFile e ctx path rd size md).
Proof.
  intros H. unfold CreateFile. apply (withLock_within (9 + n)). count.
  apply (within_bind n 8); [apply H | | lia]. intros r. count.
  apply (within_bind 4 1); [apply replicate_within | | lia]. intros r'. count.
Qed.
Lemma CreateErasureMetadata_within n ctx path md :
  (forall bt, within n (ensureParents e ctx path bt)) -> within (3 + n) (CreateErasureMetadata e ctx path md).
Proof. intros H. unfold CreateErasureMetadata. apply (within_bind n 3); [apply H | | lia]. intros r. count. Qed.

Lemma UpdateFile_within ctx path rd size : within 12 (UpdateFile e ctx path rd size).
Proof.
  unfold UpdateFile. apply (withLock_within 10). count.
  all: apply (within_bind 4 2); [apply replicate_within | | lia]; intros r'; count.
Qed.

Lemma DeleteFile_within ctx path : within 9 (DeleteFile e ctx path).
Proof.
  unfold DeleteFile. apply (withLock_within 7). count. apply (within_bind 1 5); [| | lia].
  - unfold checkEmpty. count.
  - intros r. count. all: apply (within_bind 1 2); [apply deleteReplicated_within | | lia]; intros r'; count.
Qed.

Lemma thread_within o : within (steps o) (thread e o).
Proof.
  destruct o; cbn [thread steps].
  all: match goal with |- within ?n (pbind ?p _) => apply (within_bind n 0); [| intros r; count | lia] end.
  - apply GetMetadata_within.
  - apply (within_bind 3 1); [apply GetMetadata_within | | lia]. intros r. count.
  - apply CreateFile_within. intros bt. apply ensureParents_within.
  - apply CreateDirectoryWith_within. intros bt. apply ensureParents_within.
  - apply UpdateFile_within.
  - apply DeleteFile_within.
  - apply CreateErasureMetadata_within. intros bt. apply ensureParents_within.
  - unfold UpdateMetadataOnly. count.
  - unfold EnsureRootDirectory. count.
Qed.

Lemma perform_state o s : (perform e o s).1 = EngineSpec.run_op e o s.
Proof.
  destruct o; cbn [perform EngineSpec.run_op]; unfold bind;
    match goal with |- context [let '(s', a) := ?m in _] => destruct m as [s1 a] end; by destruct a.
Qed.

(** A request that is not interrupted does what its operation does: after as many
    steps as the operation can take, the thread has ended with the operation's
    answer and in its state. *)
Theorem engine_thread_alone o s :
  exists tr, exec (repeat 0 (steps o)) [thread e o] s = ([Done (perform e o s).2], EngineSpec.run_op e o s, tr).
Proof.
  destruct (exec_alone (steps o) (thread e o) s (thread_within o)) as [tr Htr].
  exists tr. by rewrite Htr, thread_runs, perform_state.
Qed.

(** C29: No operation waits for another: a lock that is taken is an error and not a
    queue, so a request that takes as many steps as its operation can need has
    ended with an answer, whatever requests run beside it, however they are
    interleaved and whatever the components answer them.  An operation needs at
    most twelve steps, and one that makes parent directories 8 (2^n - 1) steps
    more for [n] directories between the root and its path: each may be gone again
    when it is looked for a second time. *)
Theorem engine_wait_free sched os s ps s' tr i o :
  exec sched (thread e <$> os) s = (ps, s', tr) -> os !! i = Some o ->
  steps o <= count_occ Nat.eq_dec sched i -> exists a, ps !! i = Some (Done a).
Proof.
  intros He Ho Hle. eapply exec_within; [| apply (thread_within o) | exact He | done].
  by rewrite list_lookup_fmap, Ho.
Qed.

End Steps.

(** ** Locks exclude each other *)

Section Exclusion.
Context {W : Type} (e : Engine.Engine W) (held : W -> string -> Prop)
        {lease_spec : LeaseSpec (Engine.e_lockManager e) held}.

(** A call that takes no lock away. *)
Definition keeps {A} (m : St W A) : Prop := forall w w' a, m w = (w', a) -> forall k, held w k -> held w' k.

Record keeps_storage (st : Storage W) : Prop := {
  kl_Open : forall ctx p, keeps (sg_Open st ctx p);
  kl_Create : forall ctx p rd n, keeps (sg_Create st ctx p rd n);
  kl_Update : forall ctx p rd n, keeps (sg_Update st ctx p rd n);
  kl_Delete : forall ctx p, keeps (sg_Delete st ctx p);
  kl_CreateDirectory : forall ctx p, keeps (sg_CreateDirectory st ctx p);
}.

(** The other components leave the locks alone. *)
Class LeaseEnv : Prop := {
  lease_local : keeps_storage (Engine.e_localFSBackend e);
  lease_s3 : keeps_storage (Engine.e_s3Backend e);
  lease_proxy : keeps_storage (Engine.e_internalProxyBackend e);
  lease_Create : forall md, keeps (st_Create (Engine.e_metadataStore e) md);
  lease_Update : forall md, keeps (st_Update (Engine.e_metadataStore e) md);
  lease_Delete : forall p, keeps (st_Delete (Engine.e_metadataStore e) p);
  lease_erasure : forall em, Engine.e_erasureManager e = Some em ->
    (forall order ctx p, keeps (Erasure.DeleteFile em order ctx p)) /\
    (forall order late ctx p, keeps (Erasure.RetrieveFile em order late ctx p));
}.
Context {lease_env : LeaseEnv}.

Abbreviation Inv := (fun _ : Engine.EState W => True).
Abbreviation held' := (fun (s : Engine.EState W) => held (Engine.es_world s)).
Abbreviation tidy := (tidy Inv held').

Lemma tidy_none {A} (m : St (Engine.EState W) A) :
  (forall s s' x, m s = (s', x) -> forall k, held' s k -> held' s' k) -> tidy (atomic m).
Proof using Type. intros Hm. apply tidy_act; [done | done |]. intros s s' x _ E. split; [done | by eapply Hm]. Qed.
Lemma lift_keeps {A} (m : St W A) s s' x : keeps m -> Engine.lift m s = (s', x) -> forall k, held' s k -> held' s' k.
Proof using Type. intros Hm. unfold Engine.lift. destruct (m _) as [w a] eqn:E. intros [= <- <-]. by eapply Hm. Qed.
Lemma tidy_call {A} (m : St W A) : keeps m -> tidy (call m).
Proof using Type. intros Hm. apply tidy_none. intros s s' x. by apply lift_keeps. Qed.

Lemma tidy_clock : tidy (clock e).
Proof using Type. apply tidy_none. by intros s s' x [= <- <-]. Qed.
Lemma tidy_storeGet path : tidy (storeGet e path).
Proof using Type. apply tidy_none. by intros s s' x [= <- <-]. Qed.
Lemma tidy_gets {A} (f : Engine.EState W -> A) : tidy (atomic (gets f)).
Proof using Type. apply tidy_none. by intros s s' x [= <- <-]. Qed.
Lemma tidy_cacheSet path md : tidy (cacheSet e path md).
Proof using Type. apply tidy_none. by intros s s' x [= <- <-]. Qed.
Lemma tidy_invalidate path : tidy (cacheInvalidate path).
Proof using Type. apply tidy_none. by intros s s' x [= <- <-]. Qed.
Lemma tidy_invalidatePrefix path : tidy (cacheInvalidatePrefix e path).
Proof using Type. apply tidy_none. by intros s s' x [= <- <-]. Qed.

Lemma tidy_storeCreate md : tidy (storeCreate e md).
Proof using All.
  apply tidy_act; [by intros [? [[] |]] | by intros [? [[] |]] |]. intros s s' x _ E. split; [done |].
  eapply lift_keeps; [apply lease_Create | exact E].
Qed.
Lemma tidy_storeUpdate md : tidy (storeUpdate e md).
Proof using All. apply tidy_call, lease_Update. Qed.
Lemma tidy_storeDelete path : tidy (storeDelete e path).
Proof using All.
  apply tidy_act; [by intros [[] |] | by intros [[] |] |]. intros s s' x _ E. split; [done |].
  eapply lift_keeps; [apply lease_Delete | exact E].
Qed.

Lemma tidy_backendDelete st ctx path : keeps (sg_Delete st ctx path) -> tidy (backendDelete st ctx path).
Proof using Type. intros Hm. apply tidy_act; [done | done |]. intros s s' x _ E. split; [done | by eapply lift_keeps]. Qed.

Lemma byType_keeps bt : keeps_storage (Engine.selectBackendByType e bt).
Proof using All. unfold Engine.selectBackendByType. repeat case_goal; apply lease_local || apply lease_s3. Qed.
Lemma selected_keeps ctx md : keeps_storage (Engine.selectBackend e ctx md).2.
Proof using All.
  unfold Engine.selectBackend. destruct (md_CallFSInstanceID md) as [id |]; [destruct (String.eqb id _) |]; cbn [snd];
    repeat case_goal; apply lease_local || apply lease_s3 || apply lease_proxy.
Qed.

Hint Resolve tidy_ret tidy_call tidy_clock tidy_storeGet tidy_gets tidy_cacheSet tidy_invalidate tidy_invalidatePrefix
  tidy_storeCreate tidy_storeUpdate tidy_storeDelete tidy_backendDelete : threads.
Hint Resolve kl_Open kl_Create kl_Update kl_Delete kl_CreateDirectory byType_keeps lease_local lease_s3 lease_proxy : threads.

Ltac tidy := repeat first
  [ solve [eauto with threads]
  | apply tidy_bind; [| intros ?] | apply tidy_try; [| intros ?]
  | progress cbv beta iota zeta
  | case_goal ].

(** The body runs between the lock and its release. *)
Lemma withLock_tidy {A} key msg (fail : gerr -> A) p : tidy p -> tidy (withLock e key msg fail p).
Proof using All.
  intros [Hp Hp']. split.
  - cbn. split.
    + intros s s' x _ E. unfold Engine.lift in E. destruct (lm_Acquire _ key _) as [w r] eqn:Ea. injection E as <- <-.
      apply lease_Acquire in Ea as [Hk Hg]. split; [done |]. split; [intros k Hk' _; by apply Hk |].
      intros k. destruct r as [[] |]; cbn; [intros [= <-]; by apply Hg | done | done].
    + intros [[] | er]; [| done | done]. apply each_bind; [done |]. intros r. cbn. split; [| done].
      intros s s' x _ E. unfold Engine.lift in E. destruct (lm_Release _ key _) as [w r'] eqn:Er. injection E as <- <-.
      split; [done |]. split; [| done]. cbn. intros k Hk Hne. eapply lease_Release; [exact Er | congruence | done].
  - intros H. cbn. intros [[] | er]; cbn; [| done | done].
    eapply bracketed_bind; [apply Hp' |]. intros r. cbn. intros _. by rewrite String.eqb_refl.
Qed.
Hint Resolve withLock_tidy : threads.

Lemma CreateDirectoryWith_tidy ens ctx path md :
  (forall bt, tidy (ens bt)) -> tidy (CreateDirectoryWith e ens ctx path md).
Proof using All. intros He. unfold CreateDirectoryWith. apply withLock_tidy. tidy. Qed.
Lemma ensureParents_tidy ctx path bt : tidy (ensureParents e ctx path bt).
Proof using All.
  revert path bt. refine (thread_ensureParents_ind e ctx (fun _ ens => forall bt, tidy (ens bt)) _ _); [intros path _ bt; tidy |].
  intros path rec _ Hrec bt. pose proof (CreateDirectoryWith_tidy rec ctx (filepath_Dir path)) as Hc. unfold ensureMissing. tidy.
Qed.
Lemma replicate_tidy ctx path size pb : tidy (replicateFileToSecondaryBackend e ctx path size pb).
Proof using All. unfold replicateFileToSecondaryBackend. tidy. Qed.
Lemma deleteReplicated_tidy ctx path pb : tidy (deleteReplicatedFile e ctx path pb).
Proof using All. unfold deleteReplicatedFile. tidy. Qed.
Lemma GetMetadata_tidy path : tidy (GetMetadata e path).
Proof using All. unfold GetMetadata, cacheGet. tidy. Qed.
Hint Resolve ensureParents_tidy replicate_tidy deleteReplicated_tidy GetMetadata_tidy : threads.

Lemma thread_tidy o : tidy (thread e o).
Proof using All.
  destruct o; cbn [thread]; apply tidy_bind; try (intros ?; tidy).
  - tidy.
  - unfold GetFile. apply tidy_try; [tidy | intros md]. destruct (negb _); [tidy |].
    pose proof (selected_keeps ctx md) as Hs. destruct (Engine.selectBackend e ctx md) as [c st]. cbn [snd] in Hs.
    pose proof (fun em H o l c p => tidy_call _ (proj2 (lease_erasure em H) o l c p)) as Her.
    destruct (Engine.e_erasureManager e) as [em |]; [specialize (Her em eq_refl) |]; tidy.
  - unfold CreateFile. apply withLock_tidy. tidy.
  - apply CreateDirectoryWith_tidy, ensureParents_tidy.
  - unfold UpdateFile. apply withLock_tidy, tidy_try; [tidy | intros md]. destruct (negb _); [tidy |].
    pose proof (selected_keeps ctx md) as Hs. destruct (Engine.selectBackend e ctx md) as [c st]. cbn [snd] in Hs. tidy.
  - unfold DeleteFile, checkEmpty. apply withLock_tidy, tidy_try; [tidy | intros md]. apply tidy_try; [tidy | intros _].
    pose proof (selected_keeps ctx md) as Hs. destruct (Engine.selectBackend e ctx md) as [c st]. cbn [snd] in Hs.
    pose proof (fun em H o c p => tidy_call _ (proj1 (lease_erasure em H) o c p)) as Her.
    destruct (Engine.e_erasureManager e) as [em |]; [specialize (Her em eq_refl) |]; tidy.
  - unfold CreateErasureMetadata. tidy.
  - unfold UpdateMetadataOnly. tidy.
  - unfold EnsureRootDirectory. tidy.
Qed.

(** C12: Two requests are never in the critical section of the same path at the same
    time: in every interleaving of any requests, between two grants of one lock key
    the first holder has given it back.  The lock manager's leases must not run
    out while a request holds one ([LocalManager] grants thirty seconds). *)
Theorem engine_lock_exclusion sched os s ps s' tr key a i b j c :
  exec sched (thread e <$> os) s = (ps, s', tr) ->
  tr = (a ++ (i, Took key) :: b ++ (j, Took key) :: c)%list -> (i, Gave key) ∈ b.
Proof using All.
  intros He. eapply (exec_tidy Inv held'); [exact I | | exact He]. apply Forall_fmap, Forall_true. intros o. apply thread_tidy.
Qed.

End Exclusion.
(** ** Concrete requests *)

#[global] Instance tw_lease_spec b a : LeaseSpec (Engine.e_lockManager (EngineSpec.twEngine b a)) EngineSpec.tw_held.
Proof.
  split; cbn [EngineSpec.twEngine Engine.e_lockManager EngineSpec.twLocks lm_Acquire lm_Release]; intros k w w' r.
  - destruct (lm_Acquire LocalLocks.localManager k (EngineSpec.tw_locks w)) as [l r'] eqn:E. intros H; injection H as <- <-.
    by apply (lease_Acquire _ _ _ _ E).
  - destruct (lm_Release LocalLocks.localManager k (EngineSpec.tw_locks w)) as [l r'] eqn:E. intros H; injection H as <- <-.
    by apply (lease_Release _ _ _ _ E).
Qed.

#[global] Instance tw_lease b a : LeaseEnv (EngineSpec.twEngine b a) EngineSpec.tw_held.
Proof.
  assert (Hn : keeps_storage EngineSpec.tw_held (Noop.noopStorage EngineSpec.TW)).
  { constructor; cbn [Noop.noopStorage sg_Open sg_Create sg_Update sg_Delete sg_CreateDirectory];
      intros; unfold keeps, ret; intros w w' r H; by injection H as <- _. }
  constructor; cbn [EngineSpec.twEngine Engine.e_lockManager Engine.e_localFSBackend Engine.e_s3Backend
                    Engine.e_internalProxyBackend Engine.e_erasureManager Engine.e_metadataStore memStore st_Create st_Update st_Delete].
  - constructor; cbn [EngineSpec.twFiles sg_Open sg_Create sg_Update sg_Delete sg_CreateDirectory];
      intros; intros w w' r H; repeat case_if_in H; by injection H as <- _.
  - done.
  - done.
  - intros md w w' r. destruct (_ !! md_Path md); intros H; by injection H as <- _.
  - intros md w w' r. destruct (_ !! md_Path md); intros H; by injection H as <- _.
  - intros p w w' r. destruct (_ !! p); intros H; by injection H as <- _.
  - done.
Qed.

(** Two uploads to one path and a reader: the second upload finds the lock taken, tries
    again after the first has ended and finds the file. *)
Definition upload (data : string) : EngineSpec.eop :=
  EngineSpec.OpCreateFile None "/d/f" (bytesReader data) (Z.of_nat (String.length data)) EngineSpec.tw_md.
Definition twoUploads : list EngineSpec.eop := [upload "one"; upload "two"; upload "three"].
Definition oneByOne : list nat := ([0; 0; 1; 1] ++ repeat 0 30 ++ repeat 2 30)%list.
Abbreviation tw := (EngineSpec.twEngine false false).

Example uploads_trace :
  (exec oneByOne (thread tw <$> twoUploads) EngineSpec.tw0).2 =
    [(0, Took "file:/d/f"); (0, Took "dir:/d"); (0, Created "/d"); (0, Gave "dir:/d"); (0, Created "/d/f");
     (0, Gave "file:/d/f"); (2, Took "file:/d/f"); (2, Gave "file:/d/f")] /\
  (finished <$> (exec oneByOne (thread tw <$> twoUploads) EngineSpec.tw0).1.1) !! 1 =
    Some (Some (ARecord EngineSpec.tw_md (Err (EMsg "failed to acquire lock for file creation")))).
Proof. vm_compute. by split. Qed.

Lemma engine_wait_free_witness : exists a, (exec oneByOne (thread tw <$> twoUploads) EngineSpec.tw0).1.1 !! 0 = Some (Done a).
Proof.
  refine (engine_wait_free tw oneByOne twoUploads EngineSpec.tw0 _ _ _ 0 (upload "one") _ eq_refl _).
  - rewrite <- !surjective_pairing. reflexivity.
  - apply Nat.leb_le. vm_compute. reflexivity.
Defined.

Lemma engine_lock_exclusion_witness :
  (0, Gave "file:/d/f") ∈ [(0, Took "dir:/d"); (0, Created "/d"); (0, Gave "dir:/d"); (0, Created "/d/f"); (0, Gave "file:/d/f")].
Proof.
  refine (engine_lock_exclusion tw EngineSpec.tw_held oneByOne twoUploads EngineSpec.tw0 _ _ _ "file:/d/f" [] 0 _ 2
    [(2, Gave "file:/d/f")] _ _).
  - rewrite <- !surjective_pairing. reflexivity.
  - vm_compute. reflexivity.
Defined.

End EngineThreadsSpec.
