(* ===== verification/EngineRecordsSpec.v ===== *)
(** * The metadata under interleaved requests

    What the operations of core/ guarantee for the records of the metadata store in
    every interleaving of requests, and the interleavings that break what a request
    alone keeps. *)
From S2P Require Import Prelude GoStrings PathUtil Metadata MemStore Cache Locks Backends Erasure Engine EngineSpec Threads EngineThreads EngineThreadsSpec.
From S2P Require Import S3.
From Stdlib Require Import Ascii String.
Open Scope string_scope.
Open Scope bool_scope.

Module EngineRecordsSpec.
Import Threads EngineThreads EngineThreadsSpec.
Create HintDb calms.
Create HintDb alts.
Create HintDb safe.

(** ** Records under interleaved requests *)

Section Records.
Context {W : Type} (e : Engine.Engine W) (view : W -> StoreView) (serving : W -> Prop)
        {store_spec : StoreSpec (Engine.e_metadataStore e) view serving} {env : EngineSpec.EngineEnv e view serving}.

Abbreviation mds s := (view_md (view (Engine.es_world s))).
Abbreviation up s := (serving (Engine.es_world s)).
Abbreviation there s p := (is_Some (mds s !! p)).

(** An action that creates and deletes no record. *)
Definition calm {A} (m : St (Engine.EState W) A) : Prop :=
  forall s s' a, m s = (s', a) -> up s -> up s' /\ forall p, there s' p <-> there s p.

(** One that deletes no record and keeps the records closed under parents. *)
Definition adds {A} (m : St (Engine.EState W) A) : Prop :=
  forall s s' a, m s = (s', a) -> up s -> up s' /\ (forall p, there s p -> there s' p) /\
    (EngineSpec.closed (mds s) -> EngineSpec.closed (mds s')).
(** One that deletes the record of [path] at most. *)
Definition spares {A} (path : string) (m : St (Engine.EState W) A) : Prop :=
  forall s s' a, m s = (s', a) -> up s -> up s' /\ forall p, p <> path -> there s p -> there s' p.

(** What the engine relies on when it calls a peer: an upload there may create the
    record of the file, when it has gone by then, and those of its parents; a
    deletion may delete the record of the file, when there is one again. *)
Class PeerEnv : Prop := {
  peer_Update : forall ctx p rd n, adds (Engine.lift (sg_Update (Engine.e_internalProxyBackend e) ctx p rd n));
  peer_Delete : forall ctx p, spares ("/" +:+ p) (Engine.lift (sg_Delete (Engine.e_internalProxyBackend e) ctx p));
}.
Context {peer_env : PeerEnv}.

Lemma calm_quiet {A} (m : St W A) : EngineSpec.quiet view serving m -> calm (Engine.lift m).
Proof using Type.
  intros Hm s s' a. unfold Engine.lift. destruct (m _) as [w b] eqn:E. intros [= <- <-] Hs. cbn.
  destruct (Hm _ _ _ E Hs) as [Hs' Hv]. split; [done |]. intros p. by rewrite Hv.
Qed.
Lemma calm_adds {A} (m : St (Engine.EState W) A) : calm m -> adds m.
Proof using Type.
  intros Hm s s' a E Hs. destruct (Hm _ _ _ E Hs) as [Hs' Hp]. split; [done |]. split; [intros p; apply Hp |].
  intros Hc cs n Hn Hne H. apply Hp, (Hc cs n Hn Hne). by apply Hp.
Qed.
Lemma calm_spares {A} path (m : St (Engine.EState W) A) : calm m -> spares path m.
Proof using Type. intros Hm s s' a E Hs. destruct (Hm _ _ _ E Hs) as [Hs' Hp]. split; [done |]. intros p _. apply Hp. Qed.
Lemma calm_gets {A} (f : Engine.EState W -> A) : calm (gets f).
Proof using Type. by intros s s' a [= <- <-]. Qed.
Lemma calm_onCache f : calm (Engine.onCache (W := W) f).
Proof using Type. by intros s s' a [= <- <-]. Qed.
Lemma calm_Update md : calm (Engine.lift (st_Update (Engine.e_metadataStore e) md)).
Proof using store_spec.
  intros s s' a. unfold Engine.lift. destruct (st_Update _ _ _) as [w [md' r]] eqn:E. intros [= <- <-] Hs. cbn.
  apply spec_Update in E as (Hs' & _ & E); [| done]. split; [done |]. intros p.
  destruct (view_md _ !! md_Path md) eqn:El; [| by destruct E as [_ ->]]. destruct E as (_ & -> & _).
  rewrite lookup_insert_is_Some'. split; [intros [<- | H]; [by rewrite El | done] | by right].
Qed.

Lemma calm_Acquire k : calm (Engine.lift (lm_Acquire (Engine.e_lockManager e) k)).
Proof using env. apply calm_quiet, (EngineSpec.env_Acquire e view serving). Qed.
Lemma calm_Release k : calm (Engine.lift (lm_Release (Engine.e_lockManager e) k)).
Proof using env. apply calm_quiet, (EngineSpec.env_Release e view serving). Qed.

(** The storage calls are calm. *)
Record calm_storage (st : Storage W) : Prop := {
  cs_Open : forall ctx p, calm (Engine.lift (sg_Open st ctx p));
  cs_Create : forall ctx p rd n, calm (Engine.lift (sg_Create st ctx p rd n));
  cs_Update : forall ctx p rd n, calm (Engine.lift (sg_Update st ctx p rd n));
  cs_Delete : forall ctx p, calm (Engine.lift (sg_Delete st ctx p));
  cs_CreateDirectory : forall ctx p, calm (Engine.lift (sg_CreateDirectory st ctx p));
}.
Lemma byType_calm bt : calm_storage (Engine.selectBackendByType e bt).
Proof using env.
  destruct (EngineSpec.quiet_byType e view serving bt) as [H1 H2 H3 H4 H5].
  split; intros; by apply calm_quiet.
Qed.
Lemma selected_backend ctx md :
  let st := (Engine.selectBackend e ctx md).2 in
  (forall ctx p, calm (Engine.lift (sg_Open st ctx p))) /\
  (forall ctx p rd n, adds (Engine.lift (sg_Update st ctx p rd n))) /\
  (forall ctx p, spares ("/" +:+ p) (Engine.lift (sg_Delete st ctx p))).
Proof using All.
  destruct (EngineSpec.env_local e view serving) as [L1 L2 L3 L4 L5].
  destruct (EngineSpec.env_s3 e view serving) as [S1 S2 S3 S4 S5].
  pose proof (EngineSpec.env_proxy_Open e view serving) as P1.
  unfold Engine.selectBackend. destruct (md_CallFSInstanceID md) as [id |]; [destruct (String.eqb id _) |]; cbn [snd];
    repeat case_goal; (split; [| split]); intros;
    (apply peer_Update || apply peer_Delete || (try apply calm_adds; try apply calm_spares; by apply calm_quiet)).
Qed.

(** *** A record is created once *)

Definition createdPath (ev : Event) : option string := match ev with Created p => Some p | _ => None end.
Definition deletedPath (ev : Event) : option string := match ev with Deleted p => Some p | _ => None end.
Abbreviation alt := (each (@alternating (Engine.EState W) string (fun s => up s) (fun s p => there s p) createdPath deletedPath)).

Lemma alt_calm {A} (m : St (Engine.EState W) A) ev :
  calm m -> (forall x, (ev x ≫= createdPath) = None) -> alt (Act m ev Done).
Proof using Type.
  intros Hm He. split; [| done]. intros s s' x Hs E. destruct (Hm _ _ _ E Hs) as [Hs' Hp]. split; [done |].
  split; [intros p Hp' _; by apply Hp | by rewrite He].
Qed.

Lemma alt_storeCreate md : alt (storeCreate e md).
Proof using store_spec.
  split; [| done]. intros s s' [md' r] Hs. unfold Engine.lift. destruct (st_Create _ _ _) as [w [md'' r']] eqn:E.
  intros [= <- <- <-]. apply spec_Create in E as (Hs' & _ & E); [| done]. split; [done |]. cbn.
  destruct (view_md _ !! md_Path md) eqn:El.
  - destruct E as [-> ->]. by split.
  - destruct E as (-> & -> & _). cbn. split; [intros p Hp _; apply lookup_insert_is_Some'; by right |].
    intros p [= <-]. rewrite El, lookup_insert_eq. split; [by intros [? ?] | by eexists].
Qed.

Lemma alt_storeDelete path : alt (storeDelete e path).
Proof using store_spec.
  split; [| done]. intros s s' r Hs. unfold Engine.lift. destruct (st_Delete _ _ _) as [w r'] eqn:E.
  intros [= <- <-]. apply spec_Delete in E as (Hs' & _ & E); [| done]. split; [done |]. cbn.
  destruct (view_md _ !! path) eqn:El.
  - destruct E as [-> ->]. cbn. split; [| done]. intros p Hp Hne. rewrite lookup_delete_ne by congruence. done.
  - destruct E as [-> ->]. by split.
Qed.

Lemma alt_adds {A} (m : St (Engine.EState W) A) : adds m -> alt (atomic m).
Proof using Type.
  intros Hm. split; [| done]. intros s s' x Hs E. destruct (Hm _ _ _ E Hs) as (Hs' & Hp & _). split; [done |].
  split; [intros p Hp' _; by apply Hp | done].
Qed.
Lemma alt_backendDelete st ctx path :
  spares ("/" +:+ path) (Engine.lift (sg_Delete st ctx path)) -> alt (backendDelete st ctx path).
Proof using Type.
  intros Hm. split; [| done]. intros s s' x Hs E. destruct (Hm _ _ _ E Hs) as (Hs' & Hp). split; [done |].
  split; [intros p Hp' Hne; apply Hp; [intros ->; by apply Hne | done] | done].
Qed.
Lemma alt_atomic {A} (m : St (Engine.EState W) A) : calm m -> alt (atomic m).
Proof using Type. intros Hm. by apply alt_calm. Qed.
Lemma alt_bind {A B} (p : Prog (Engine.EState W) A) (k : A -> Prog (Engine.EState W) B) :
  alt p -> (forall a, alt (k a)) -> alt (pbind p k).
Proof using Type. apply each_bind. Qed.
Lemma alt_try {A B} (p : Prog (Engine.EState W) (Res A)) f (k : A -> Prog (Engine.EState W) (Res B)) :
  alt p -> (forall a, alt (k a)) -> alt (ptry p f k).
Proof using Type. intros Hp Hk. apply each_bind; [done |]. by intros [a | er]. Qed.

Lemma alt_acquire k : alt (acquire e k).
Proof using env. apply alt_calm; [apply calm_Acquire |]. by intros [[] |]. Qed.
Lemma alt_release k : alt (release e k).
Proof using env. by apply alt_calm; [apply calm_Release |]. Qed.
Lemma alt_cacheSet path md : alt (cacheSet e path md).
Proof using Type. apply alt_atomic. by intros s s' a [= <- <-]. Qed.

Lemma alt_storeUpdate md : alt (storeUpdate e md).
Proof using store_spec. apply alt_atomic, calm_Update. Qed.
Lemma alt_clock : alt (clock e).
Proof using Type. apply alt_atomic, calm_gets. Qed.
Lemma alt_storeGet path : alt (storeGet e path).
Proof using Type. apply alt_atomic, calm_gets. Qed.
Lemma alt_cacheGet path : alt (cacheGet e path).
Proof using Type. apply alt_atomic, calm_gets. Qed.
Lemma alt_invalidate path : alt (cacheInvalidate path).
Proof using Type. apply alt_atomic, calm_onCache. Qed.
Lemma alt_invalidatePrefix path : alt (cacheInvalidatePrefix e path).
Proof using Type. apply alt_atomic, calm_onCache. Qed.

Hint Resolve cs_Open cs_Create cs_Update cs_Delete cs_CreateDirectory byType_calm calm_gets : calms.
Hint Resolve alt_storeCreate alt_storeDelete alt_storeUpdate alt_clock alt_storeGet alt_cacheGet alt_cacheSet alt_invalidate
  alt_invalidatePrefix alt_acquire alt_release : alts.
Hint Extern 1 (alt (Done _)) => exact I : alts.
Hint Extern 1 (each _ (Done _)) => exact I : alts.
Hint Extern 1 (each _ (atomic _)) => apply alt_atomic; solve [eauto with calms] : alts.
Hint Extern 1 (each _ (call _)) => apply alt_atomic; solve [eauto with calms] : alts.
Hint Extern 2 (each _ (call _)) => apply alt_adds : alts.
Hint Resolve alt_backendDelete : alts.

Ltac alts := repeat first
  [ solve [eauto 4 with alts]
  | apply alt_bind; [| intros ?] | apply alt_try; [| intros ?]
  | progress cbv beta iota zeta
  | case_goal ].

Lemma withLock_alt {A} key msg (fail : gerr -> A) p : alt p -> alt (withLock e key msg fail p).
Proof using All. intros Hp. unfold withLock. alts. Qed.

Lemma CreateDirectoryWith_alt ens ctx path md : (forall bt, alt (ens bt)) -> alt (CreateDirectoryWith e ens ctx path md).
Proof using All. intros He. unfold CreateDirectoryWith. apply withLock_alt. alts. Qed.
Lemma ensureParents_alt ctx path bt : alt (ensureParents e ctx path bt).
Proof using All.
  revert path bt. refine (EngineThreadsSpec.thread_ensureParents_ind e ctx (fun _ ens => forall bt, alt (ens bt)) _ _); [intros path _ bt; alts |].
  intros path rec _ Hrec bt. pose proof (CreateDirectoryWith_alt rec ctx (filepath_Dir path)) as Hc. unfold ensureMissing. alts.
Qed.
Lemma replicate_alt ctx path size pb : alt (replicateFileToSecondaryBackend e ctx path size pb).
Proof using All. unfold replicateFileToSecondaryBackend. alts. Qed.
Lemma deleteReplicated_alt ctx path pb : alt (deleteReplicatedFile e ctx path pb).
Proof using All. unfold deleteReplicatedFile. alts. Qed.
Lemma GetMetadata_alt path : alt (GetMetadata e path).
Proof using All. unfold GetMetadata. alts. Qed.
Hint Resolve ensureParents_alt replicate_alt deleteReplicated_alt GetMetadata_alt : alts.

Lemma thread_alt o : alt (thread e o).
Proof using All.
  destruct o; cbn [thread]; apply alt_bind; try (intros ?; alts).
  - alts.
  - unfold GetFile. apply alt_try; [alts | intros md]. destruct (negb _); [alts |].
    pose proof (selected_backend ctx md) as Hs. destruct (Engine.selectBackend e ctx md) as [c st]. destruct Hs as (H1 & _ & _).
    pose proof (fun em H o l c p => calm_quiet _ (proj2 (EngineSpec.env_erasure e view serving em H) o l c p)) as Her.
    destruct (Engine.e_erasureManager e) as [em |]; [specialize (Her em eq_refl) |]; alts.
  - unfold CreateFile. apply withLock_alt. alts.
  - apply CreateDirectoryWith_alt, ensureParents_alt.
  - unfold UpdateFile. apply withLock_alt, alt_try; [alts | intros md]. destruct (negb _); [alts |].
    pose proof (selected_backend ctx md) as Hs. destruct (Engine.selectBackend e ctx md) as [c st]. destruct Hs as (_ & H2 & _). alts.
  - unfold DeleteFile, checkEmpty. apply withLock_alt, alt_try; [alts | intros md]. apply alt_try; [alts | intros _].
    pose proof (selected_backend ctx md) as Hs. destruct (Engine.selectBackend e ctx md) as [c st]. destruct Hs as (_ & _ & H3).
    pose proof (fun em H o c p => calm_quiet _ (proj1 (EngineSpec.env_erasure e view serving em H) o c p)) as Her.
    destruct (Engine.e_erasureManager e) as [em |]; [specialize (Her em eq_refl) |]; alts.
  - unfold CreateErasureMetadata. alts.
  - unfold UpdateMetadataOnly. alts.
  - unfold EnsureRootDirectory. alts.
Qed.

(** A creation that returns without error has created its record. *)
Definition good (a : Metadata * Res unit) : Prop := a.2 = Ok tt.
Definition created (a : Answer) : Prop := exists md, a = ARecord md (Ok tt).
Definition creates (o : EngineSpec.eop) : option string :=
  match o with
  | EngineSpec.OpCreateFile _ p _ _ _ | EngineSpec.OpCreateDirectory _ p _ | EngineSpec.OpCreateErasureMetadata _ p _ => Some p
  | _ => None
  end.

Lemma withLock_emits ev key msg fail p :
  (forall er, ~ good (fail er)) -> emits ev good False p -> emits ev good False (withLock e key msg fail p).
Proof using Type.
  intros Hf Hp. cbn. intros [[] | er]; [| by intros ?%Hf | by intros ?%Hf].
  apply (emits_bind ev good good); [by eapply emits_impl; [| exact Hp] |].
  intros r P' HP. cbn. intros _ Hr. left. by apply HP.
Qed.

Lemma storeCreate_emits {P : Prop} md path (k : Metadata * Res unit -> Prog (Engine.EState W) (Metadata * Res unit)) :
  md_Path md = path -> (forall md' er, emits (Created path) good False (k (md', Err er))) ->
  emits (Created path) good P (pbind (storeCreate e md) k).
Proof using Type.
  intros Hp Hk. cbn. intros [md' [[] | er]].
  - apply emits_true. right. by rewrite Hp.
  - eapply emits_impl; [| apply Hk]. done.
Qed.

(** Go on to the call of the store. *)
Ltac emit := repeat first
  [ progress cbv beta iota zeta
  | match goal with
    | |- emits _ _ _ (Done (_, Err _)) => intros [=]
    | |- emits _ _ _ (pbind (storeCreate _ _) _) => apply storeCreate_emits; [reflexivity | intros ? ?]
    | |- emits _ _ _ (pbind _ _) => apply emits_after; intros ?
    | |- emits _ _ _ (match ?x with _ => _ end) => destruct x
    end ].

Lemma create_emits o path : creates o = Some path -> emits (Created path) created False (thread e o).
Proof using Type.
  assert (Hk : forall (a : Metadata * Res unit) (P : Prop), (good a -> P) ->
    emits (Created path) created P (let (md, r) := a in Done (S := Engine.EState W) (ARecord md r))).
  { intros [md r] P HP. cbn. intros [md' [= <- ->]]. by apply HP. }
  destruct o; cbn [creates thread]; intros Ho; try discriminate Ho; injection Ho as ->; apply (emits_bind _ _ good);
    [| apply Hk | | apply Hk | | apply Hk].
  - unfold CreateFile. apply withLock_emits; [by intros er [=] |]. emit.
  - unfold CreateDirectory, CreateDirectoryWith. apply withLock_emits; [by intros er [=] |]. emit.
  - unfold CreateErasureMetadata. emit.
Qed.

(** Two different elements of a list come one after the other. *)
Lemma list_elem_of_order {A} (l : list A) x y :
  x ∈ l -> y ∈ l -> x <> y ->
  (exists a b c, l = (a ++ x :: b ++ y :: c)%list) \/ (exists a b c, l = (a ++ y :: b ++ x :: c)%list).
Proof using Type.
  intros (a & b & ->)%list_elem_of_split [Hy | [-> | Hy]%elem_of_cons]%elem_of_app Hne; [right | done | left].
  - apply list_elem_of_split in Hy as (c & d & ->). exists c, d, b. by rewrite <- app_assoc.
  - apply list_elem_of_split in Hy as (c & d & ->). by exists a, c, d.
Qed.

(** C13: A path is created once: when two requests that create the same path (as a
    file, as a directory or as an erasure-coded file, in any combination) have both
    returned without error, then some request deleted its record or had the instance
    that held the file delete it, whatever else ran, what the other instances that
    were asked to update a file created, and however all of them were interleaved. *)
Theorem engine_creates_once sched os s ps s' tr i j o1 o2 path md1 md2 :
  serving (Engine.es_world s) -> exec sched (thread e <$> os) s = (ps, s', tr) -> i <> j ->
  os !! i = Some o1 -> creates o1 = Some path -> ps !! i = Some (Done (ARecord md1 (Ok tt))) ->
  os !! j = Some o2 -> creates o2 = Some path -> ps !! j = Some (Done (ARecord md2 (Ok tt))) ->
  exists l, (l, Deleted path) ∈ tr.
Proof using All.
  intros Hs He Hij Ho1 Hc1 Hd1 Ho2 Hc2 Hd2.
  assert (Hin : forall n o md, os !! n = Some o -> creates o = Some path -> ps !! n = Some (Done (ARecord md (Ok tt))) -> (n, Created path) ∈ tr).
  { intros n o md Ho Hc Hd. eapply (exec_emits (Created path) created); [| by apply (create_emits o) | exact He | exact Hd | by exists md].
    by rewrite list_lookup_fmap, Ho. }
  assert (Ha : alternates createdPath deletedPath tr).
  { eapply (exec_alternates (fun s => up s) (fun s p => there s p) _ _); [exact Hs | | exact He]. apply Forall_fmap, Forall_true. intros o. apply thread_alt. }
  destruct (list_elem_of_order tr (i, Created path) (j, Created path)) as [(a & b & c & Htr) | (a & b & c & Htr)];
    [by eapply Hin | by eapply Hin | congruence | |];
    (destruct (Ha path _ _ _ _ _ _ _ Htr eq_refl eq_refl) as (l & ev & Hl & Hev); exists l;
     destruct ev as [| | | p]; try discriminate Hev; injection Hev as ->; rewrite Htr;
     apply elem_of_app; right; right; apply elem_of_app; by left).
Qed.

(** *** The tree of records without deletions *)

Abbreviation closed s := (EngineSpec.closed (mds s)).
Abbreviation parent cs s := (EngineSpec.has_parent cs (mds s)).
Abbreviation names := EngineSpec.names.
Abbreviation abs cs := (render_path true cs).

Definition sound (s : Engine.EState W) : Prop := up s /\ closed s.
(** What every action may do to a sound state: add records, not lose them. *)
Definition tree (s s' : Engine.EState W) : Prop := sound s -> sound s' /\ forall p, there s p -> there s' p.
#[local] Instance tree_preorder : PreOrder tree.
Proof using Type.
  split; [by intros s Hs |]. intros a b c Hab Hbc Ha. destruct (Hab Ha) as [Hb Hp]. destruct (Hbc Hb) as [Hc Hp']. eauto.
Qed.

Lemma stable_sound : stable tree sound.
Proof using Type. intros s s' H Hs. by apply H. Qed.
Lemma stable_there p : stable tree (fun s => sound s /\ there s p).
Proof using Type. intros s s' H [Hs Hp]. destruct (H Hs) as [? Hk]. auto. Qed.
Lemma stable_parent cs : stable tree (fun s => sound s /\ parent cs s).
Proof using Type.
  intros s s' H [Hs Hp]. destruct (H Hs) as [? Hk]. split; [done |]. destruct Hp as [-> | Hp]; [by left | right; auto].
Qed.
Lemma stable_imp (F : Prop) (P : Engine.EState W -> Prop) :
  stable tree (fun s => sound s /\ P s) -> stable tree (fun s => sound s /\ (F -> P s)).
Proof using Type. intros HP s s' H [Hs Hf]. split; [by apply H |]. intros HF. by destruct (HP s s' H (conj Hs (Hf HF))). Qed.

Lemma adds_tree {A} (m : St (Engine.EState W) A) s s' a : adds m -> m s = (s', a) -> tree s s'.
Proof using Type.
  intros Hm E [Hs Hc]. destruct (Hm _ _ _ E Hs) as (Hs' & Hp & Hc'). split; [split; [done | by apply Hc'] | exact Hp].
Qed.

Lemma guided_adds {A} P (m : St (Engine.EState W) A) ev :
  stable tree P -> adds m -> guided tree P (Act m ev Done) (fun _ => P).
Proof using Type.
  intros HP Hm. apply guided_act; [done |]. intros s s' a Hs E. pose proof (adds_tree m s s' a Hm E) as Ht. eauto.
Qed.
Lemma guided_calm {A} P (m : St (Engine.EState W) A) ev :
  stable tree P -> calm m -> guided tree P (Act m ev Done) (fun _ => P).
Proof using Type. intros HP Hm. by apply guided_adds, calm_adds. Qed.

Lemma guided_get path : guided tree sound (storeGet e path) (fun r s => sound s /\ (is_Ok r = true -> there s path)).
Proof using store_spec.
  apply guided_act; [apply stable_sound |]. intros s s' r Hs. unfold Engine.storeGet, gets. rewrite spec_Get by apply Hs.
  intros [= <- <-]. split; [done |]. split; [done |]. destruct (mds s !! path); [intros _; by eexists | done].
Qed.

(** A record may be stored below a parent that has one. *)
Lemma guided_store md cs n :
  names (cs ++ [n])%list -> md_Path md = abs (cs ++ [n])%list ->
  guided tree (fun s => sound s /\ parent cs s) (storeCreate e md)
    (fun a s => (sound s /\ parent cs s) /\ there s (abs (cs ++ [n])%list)).
Proof using store_spec.
  intros Hn Hp. apply guided_act; [apply stable_parent |]. intros s s' [md' r] [[Hs Hc] Hpar]. unfold Engine.lift.
  destruct (st_Create _ _ _) as [w [md'' r']] eqn:E. intros [= <- <- <-]. apply spec_Create in E as (Hs' & _ & E); [| done].
  rewrite Hp in E. assert (H : EngineSpec.closed (view_md (view w)) /\ (forall p, there s p -> is_Some (view_md (view w) !! p)) /\
    is_Some (view_md (view w) !! abs (cs ++ [n])%list)).
  { destruct (view_md _ !! abs (cs ++ [n])%list) eqn:El.
    - destruct E as [_ ->]. split; [done |]. split; [done | by eexists].
    - destruct E as (_ & -> & _). split; [by apply EngineSpec.closed_insert |]. rewrite lookup_insert_eq.
      split; [| by eexists]. intros p H. apply lookup_insert_is_Some'. by right. }
  destruct H as (Hc' & Hgrow & Hthere). split; [done |]. split; [| done]. split; [done |].
  destruct Hpar as [-> | Hpar]; [by left | right; by apply Hgrow].
Qed.

(** A lock around a body. *)
Lemma guided_lock {A} key msg (fail : gerr -> A) p (Q : A -> Engine.EState W -> Prop) :
  (forall a, stable tree (Q a)) -> (forall er s, er <> ErrAlreadyExists -> sound s -> Q (fail er) s) ->
  guided tree sound p Q -> guided tree sound (withLock e key msg fail p) Q.
Proof using env.
  intros HQ Hf Hp. unfold withLock. eapply guided_bind; [apply guided_calm; [apply stable_sound | apply calm_Acquire] |].
  intros [[] | er]; [| by apply guided_ret; intros s Hs; apply Hf | by apply guided_ret; intros s Hs; apply Hf].
  eapply guided_bind; [exact Hp |]. intros r. eapply guided_bind; [apply guided_calm; [apply HQ | apply calm_Release] |].
  intros ?. by apply guided_ret.
Qed.


(** Programs that keep whatever the others cannot break. *)
Definition safe {A} (p : Prog (Engine.EState W) A) : Prop := forall P, stable tree P -> guided tree P p (fun _ => P).
Lemma safe_ret {A} (a : A) : safe (Done a).
Proof using Type. intros P _. by apply guided_ret. Qed.
Lemma safe_bind {A B} (p : Prog (Engine.EState W) A) (k : A -> Prog (Engine.EState W) B) :
  safe p -> (forall a, safe (k a)) -> safe (pbind p k).
Proof using Type. intros Hp Hk P HP. eapply guided_bind; [by apply Hp | intros a; by apply Hk]. Qed.
Lemma safe_try {A B} (p : Prog (Engine.EState W) (Res A)) f (k : A -> Prog (Engine.EState W) (Res B)) :
  safe p -> (forall a, safe (k a)) -> safe (ptry p f k).
Proof using Type. intros Hp Hk. apply safe_bind; [done |]. intros [a | er]; [apply Hk | apply safe_ret]. Qed.
Lemma safe_calm {A} (m : St (Engine.EState W) A) : calm m -> safe (atomic m).
Proof using Type. intros Hm P HP. by apply guided_calm. Qed.
Lemma safe_adds {A} (m : St (Engine.EState W) A) : adds m -> safe (atomic m).
Proof using Type. intros Hm P HP. by apply guided_adds. Qed.
Lemma safe_invalidatePrefix path : safe (cacheInvalidatePrefix e path).
Proof using Type. apply safe_calm, calm_onCache. Qed.
Lemma safe_invalidate path : safe (cacheInvalidate path).
Proof using Type. apply safe_calm, calm_onCache. Qed.
Lemma safe_storeUpdate md : safe (storeUpdate e md).
Proof using store_spec. apply safe_calm, calm_Update. Qed.
Lemma safe_clock : safe (clock e).
Proof using Type. apply safe_calm, calm_gets. Qed.
Lemma safe_storeGet path : safe (storeGet e path).
Proof using Type. apply safe_calm, calm_gets. Qed.
Lemma safe_cacheGet path : safe (cacheGet e path).
Proof using Type. apply safe_calm, calm_gets. Qed.
Lemma safe_cacheSet path md : safe (cacheSet e path md).
Proof using Type. apply safe_calm. by intros s s' a [= <- <-]. Qed.
Lemma withLock_safe {A} key msg (fail : gerr -> A) p : safe p -> safe (withLock e key msg fail p).
Proof using env.
  intros Hp. apply safe_bind; [intros P HP; apply guided_calm; [done | apply calm_Acquire] |]. intros [[] | er]; try apply safe_ret.
  apply safe_bind; [done |]. intros r. apply safe_bind; [| intros ?; apply safe_ret].
  intros P HP. apply guided_calm; [done | apply calm_Release].
Qed.

Hint Resolve safe_ret safe_invalidatePrefix safe_invalidate safe_storeUpdate safe_clock safe_storeGet safe_cacheGet safe_cacheSet : safe.
Hint Extern 1 (safe (atomic _)) => apply safe_calm; solve [eauto with calms] : safe.
Hint Extern 1 (safe (call _)) => apply safe_calm; solve [eauto with calms] : safe.
Hint Extern 2 (safe (call _)) => apply safe_adds : safe.
Ltac safe := repeat first
  [ solve [eauto 4 with safe]
  | apply safe_bind; [| intros ?] | apply safe_try; [| intros ?]
  | progress cbv beta iota zeta
  | case_goal ].

Lemma replicate_safe ctx path size pb : safe (replicateFileToSecondaryBackend e ctx path size pb).
Proof using All. unfold replicateFileToSecondaryBackend. safe. Qed.
Lemma GetMetadata_safe path : safe (GetMetadata e path).
Proof using Type. unfold GetMetadata. safe. Qed.
Hint Resolve replicate_safe GetMetadata_safe : safe.

Lemma GetFile_safe ctx path : safe (GetFile e ctx path).
Proof using All.
  unfold GetFile. apply safe_try; [safe | intros md]. destruct (negb _); [safe |].
  pose proof (selected_backend ctx md) as Hs. destruct (Engine.selectBackend e ctx md) as [c st]. destruct Hs as (H1 & _ & _).
  pose proof (fun em H o l c p => calm_quiet _ (proj2 (EngineSpec.env_erasure e view serving em H) o l c p)) as Her.
  destruct (Engine.e_erasureManager e) as [em |]; [specialize (Her em eq_refl) |]; safe.
Qed.
Lemma UpdateFile_safe ctx path rd size : safe (UpdateFile e ctx path rd size).
Proof using All.
  unfold UpdateFile. apply withLock_safe, safe_try; [safe | intros md]. destruct (negb _); [safe |].
  pose proof (selected_backend ctx md) as Hs. destruct (Engine.selectBackend e ctx md) as [c st]. destruct Hs as (_ & H2 & _). safe.
Qed.

(** What a creation of [cs/n] has made. *)
Definition made cs n (a : Metadata * Res unit) (s : Engine.EState W) : Prop :=
  sound s /\ (a.2 = Ok tt \/ a.2 = Err ErrAlreadyExists -> there s (abs (cs ++ [n])%list)) /\ (a.2 = Ok tt -> parent cs s).
Lemma stable_made cs n a : stable tree (made cs n a).
Proof using Type.
  intros s s' H (Hs & Ht & Hp). split; [by apply H |].
  split; [intros Ha; apply (stable_there _ _ _ H); by split; [| apply Ht] | intros Ha; apply (stable_parent _ _ _ H); by split; [| apply Hp]].
Qed.
Lemma made_fail cs n md er s : er <> ErrAlreadyExists -> sound s -> made cs n (md, Err er) s.
Proof using Type. intros Hne Hs. split; [done |]. split; [| done]. cbn. by intros [? | [= ?]]. Qed.

Definition ens_sound cs (n : string) (ens : string -> Prog (Engine.EState W) (Res unit)) : Prop :=
  forall bt, guided tree sound (ens bt) (fun r s => sound s /\ (r = Ok tt -> parent cs s)).

(** The call of the store and what follows it, when the parent is there. *)
Lemma guided_stored md md0 cs n (k : Metadata * Res unit -> Prog (Engine.EState W) (Metadata * Res unit)) :
  names (cs ++ [n])%list -> md_Path md = abs (cs ++ [n])%list ->
  (forall a, guided tree (made cs n (md0, Ok tt)) (k a) (made cs n)) ->
  guided tree (fun s => sound s /\ parent cs s) (pbind (storeCreate e md) k) (made cs n).
Proof using store_spec.
  intros Hn Hp Hk. eapply guided_bind; [by apply guided_store |]. intros a.
  eapply guided_conseq; [| apply Hk | done]. intros s [[Hs Hpar] Ht]. by split.
Qed.

Lemma made_safe {A} cs n a (p : Prog (Engine.EState W) A) (k : A -> Prog (Engine.EState W) (Metadata * Res unit)) :
  safe p -> (forall x, guided tree (made cs n a) (k x) (made cs n)) -> guided tree (made cs n a) (pbind p k) (made cs n).
Proof using Type. intros Hp Hk. eapply guided_bind; [apply Hp, stable_made | done]. Qed.
Lemma made_ret cs n md0 a : guided tree (made cs n (md0, Ok tt)) (Done a) (made cs n).
Proof using Type. apply guided_ret. intros s (Hs & Ht & Hp). split; [done |]. cbn in *. auto. Qed.

Lemma CreateDirectoryWith_sound ens ctx cs n md :
  names (cs ++ [n])%list -> ens_sound cs n ens ->
  guided tree sound (CreateDirectoryWith e ens ctx (abs (cs ++ [n])%list) md) (made cs n).
Proof using All.
  intros Hn He. unfold CreateDirectoryWith. apply guided_lock; [apply stable_made | by intros; apply made_fail |].
  eapply guided_bind; [apply guided_get |]. intros [x | er0].
  { apply guided_ret. intros s [Hs Ht]. split; [done |]. split; [auto | done]. }
  apply (guided_weaken _ sound); [by intros s [Hs _] |]. eapply guided_bind; [apply He |].
  intros [[] | er]; [| apply guided_ret; intros s [Hs _]; by apply made_fail].
  apply (guided_weaken _ (fun s => sound s /\ parent cs s)); [by intros s [Hs Hp]; split; auto |].
  cbv zeta. eapply guided_bind; [apply guided_calm; [apply stable_parent | apply byType_calm] |].
  intros [[] | er]; [| apply guided_ret; intros s [Hs _]; by apply made_fail].
  eapply guided_bind; [apply guided_calm; [apply stable_parent | apply calm_gets] |]. intros t.
  apply (guided_stored _ md); [done | done |]. intros [md' [[] | er]].
  - apply made_ret.
  - apply made_safe; [apply safe_calm, byType_calm |]. intros ?. apply made_ret.
Qed.

Lemma ensureParents_sound ctx cs n : names (cs ++ [n])%list -> ens_sound cs n (ensureParents e ctx (abs (cs ++ [n])%list)).
Proof using All.
  revert cs n. refine (EngineThreadsSpec.thread_ensureParents_names_ind e ctx ens_sound _ _).
  - intros n bt. apply guided_ret. intros s Hs. split; [done |]. intros _. by left.
  - intros cs n0 n rec Hn Hrec bt. unfold ensureMissing. eapply guided_bind; [apply guided_get |]. intros [x | er0].
    { apply guided_ret. intros s [Hs Ht]. split; [done |]. intros _. right. by apply Ht. }
    apply (guided_weaken _ sound); [by intros s [Hs _] |].
    eapply guided_try; [apply Hrec | | intros er s [Hs _]; split; [done | discriminate]]. intros [].
    apply (guided_weaken _ sound); [by intros s [Hs _] |].
    eapply guided_bind; [by apply (CreateDirectoryWith_sound _ _ cs n0) |].
    intros [md' [[] | er]]; apply guided_ret; intros s (Hs & Ht & _); (split; [done |]); intros Hr; right; apply Ht; [by left |].
    right. cbn. by destruct (bool_decide_reflect (er = ErrAlreadyExists)) as [-> |].
Qed.

Lemma CreateFile_sound ctx cs n rd size md :
  names (cs ++ [n])%list -> guided tree sound (CreateFile e ctx (abs (cs ++ [n])%list) rd size md) (made cs n).
Proof using All.
  intros Hn. unfold CreateFile. apply guided_lock; [apply stable_made | by intros; apply made_fail |].
  eapply guided_bind; [apply guided_get |]. intros [x | er0].
  { apply guided_ret. intros s [Hs Ht]. split; [done |]. split; [auto | done]. }
  apply (guided_weaken _ sound); [by intros s [Hs _] |]. eapply guided_bind; [by apply ensureParents_sound |].
  intros [[] | er]; [| apply guided_ret; intros s [Hs _]; by apply made_fail].
  apply (guided_weaken _ (fun s => sound s /\ parent cs s)); [by intros s [Hs Hp]; split; auto |].
  cbv zeta. eapply guided_bind; [apply guided_calm; [apply stable_parent | apply byType_calm] |].
  intros [[] | er]; [| apply guided_ret; intros s [Hs _]; by apply made_fail].
  eapply guided_bind; [apply guided_calm; [apply stable_parent | apply calm_gets] |]. intros t.
  apply (guided_stored _ md); [done | done |]. intros [md' [[] | er]].
  - apply made_safe; [apply replicate_safe |]. intros [[] | er].
    + apply made_safe; [apply safe_invalidatePrefix |]. intros ?. apply made_ret.
    + apply made_ret.
  - apply made_safe; [apply safe_calm, byType_calm |]. intros ?. apply made_ret.
Qed.

Lemma CreateErasureMetadata_sound ctx cs n md :
  names (cs ++ [n])%list -> guided tree sound (CreateErasureMetadata e ctx (abs (cs ++ [n])%list) md) (made cs n).
Proof using All.
  intros Hn. unfold CreateErasureMetadata. eapply guided_bind; [by apply ensureParents_sound |].
  intros [[] | er]; [| apply guided_ret; intros s [Hs _]; by apply made_fail].
  apply (guided_weaken _ (fun s => sound s /\ parent cs s)); [by intros s [Hs Hp]; split; auto |].
  eapply guided_bind; [apply guided_calm; [apply stable_parent | apply calm_gets] |]. intros t.
  apply (guided_stored _ md); [done | done |]. intros [md' [[] | er]]; [| apply made_ret].
  apply made_safe; [apply safe_invalidatePrefix |]. intros ?. apply made_ret.
Qed.

(** The root has no parent to be closed under. *)
Lemma closed_root m md : EngineSpec.closed m -> EngineSpec.closed (<["/" := md]> m).
Proof using Type.
  intros Hc cs n Hn Hne [md' H]. apply lookup_insert_is_Some'. right.
  apply lookup_insert_Some in H as [[He _] | [_ H]]; [| apply (Hc cs n Hn Hne); by exists md'].
  apply (EngineSpec.abs_inj []) in He; [by destruct cs | constructor | done].
Qed.

Lemma EnsureRootDirectory_sound : guided tree sound (EnsureRootDirectory e) (fun _ => sound).
Proof using All.
  unfold EnsureRootDirectory. eapply guided_bind; [apply safe_storeGet, stable_sound |]. intros [x | er]; [by apply guided_ret |].
  eapply guided_bind; [apply safe_clock, stable_sound |]. intros t.
  eapply (guided_bind _ _ _ _ (fun _ => sound)); [| by intros [md r]; apply guided_ret].
  apply guided_act; [apply stable_sound |]. intros s s' [md' r] [Hs Hc]. unfold Engine.lift.
  destruct (st_Create _ _ _) as [w [md'' r']] eqn:E. intros [= <- <- <-]. apply spec_Create in E as (Hs' & _ & E); [| done].
  change (md_Path _) with "/" in E. assert (H : EngineSpec.closed (view_md (view w)) /\ forall p, there s p -> is_Some (view_md (view w) !! p)).
  { destruct (view_md _ !! "/"); [by destruct E as [_ ->] |]. destruct E as (_ & -> & _). split; [by apply closed_root |].
    intros p H. apply lookup_insert_is_Some'. by right. }
  destruct H as [Hc' Hp]. split; [intros _; split; [by split | done] | by split].
Qed.

(** The requests of the theorem: no deletions, creations of clean paths. *)
Definition growing (o : EngineSpec.eop) : Prop :=
  match o with
  | EngineSpec.OpDeleteFile _ _ => False
  | _ => forall p, creates o = Some p -> exists cs n, names (cs ++ [n])%list /\ p = abs (cs ++ [n])%list
  end.

(** A creation that returned without error has left its record, and one of its parent. *)
Definition kept (o : EngineSpec.eop) (a : Answer) (s : Engine.EState W) : Prop :=
  sound s /\ forall cs n, creates o = Some (abs (cs ++ [n])%list) -> names (cs ++ [n])%list -> created a ->
    there s (abs (cs ++ [n])%list) /\ parent cs s.
Lemma stable_kept o a : stable tree (kept o a).
Proof using Type.
  intros s s' H [Hs Hk]. split; [by apply H |]. intros cs n Hc Hn Ha. destruct (Hk cs n Hc Hn Ha) as [Ht Hp].
  split; [by apply (stable_there _ _ _ H) | by apply (stable_parent _ _ _ H)].
Qed.

Lemma kept_made o cs n md r s : creates o = Some (abs (cs ++ [n])%list) -> names (cs ++ [n])%list ->
  made cs n (md, r) s -> kept o (ARecord md r) s.
Proof using Type.
  intros Ho Hn (Hs & Ht & Hp). split; [done |]. intros cs' n' Ho' Hn' [md' [= <- ->]]. assert (He : abs (cs ++ [n])%list = abs (cs' ++ [n'])%list) by congruence.
  apply EngineSpec.abs_inj in He as [-> ->]%app_inj_tail; [| done | done]. cbn in *. auto.
Qed.

Lemma thread_kept o : growing o -> guided tree sound (thread e o) (kept o).
Proof using All.
  assert (Hr : forall a s, creates o = None -> sound s -> kept o a s) by (intros a s Ho Hs; split; [done | by rewrite Ho]).
  intros Hg. destruct o; cbn [thread growing creates] in *.
  - eapply guided_bind; [apply GetMetadata_safe, stable_sound |]. intros a. apply guided_ret. intros s. by apply Hr.
  - eapply guided_bind; [apply GetFile_safe, stable_sound |]. intros a. apply guided_ret. intros s. by apply Hr.
  - destruct (Hg _ eq_refl) as (cs & n & Hn & ->). eapply guided_bind; [by apply CreateFile_sound |].
    intros [md' r]. apply guided_ret. intros s. by apply kept_made.
  - destruct (Hg _ eq_refl) as (cs & n & Hn & ->). eapply guided_bind; [by apply CreateDirectoryWith_sound, ensureParents_sound |].
    intros [md' r]. apply guided_ret. intros s. by apply kept_made.
  - eapply guided_bind; [apply UpdateFile_safe, stable_sound |]. intros a. apply guided_ret. intros s. by apply Hr.
  - done.
  - destruct (Hg _ eq_refl) as (cs & n & Hn & ->). eapply guided_bind; [by apply CreateErasureMetadata_sound |].
    intros [md' r]. apply guided_ret. intros s. by apply kept_made.
  - assert (Hs : safe (UpdateMetadataOnly e md)) by (unfold UpdateMetadataOnly; safe).
    eapply guided_bind; [apply Hs, stable_sound |]. intros [md' r]. apply guided_ret. intros s. by apply Hr.
  - eapply guided_bind; [apply EnsureRootDirectory_sound |]. intros a. apply guided_ret. intros s. by apply Hr.
Qed.

(** C11: As long as nobody deletes, the tree of records stays closed under parents in every
    interleaving of any requests that create clean absolute paths, also when another
    instance that is asked to update a file creates its record anew: no record is lost, a missing parent directory is
    created once however many requests need it, and a creation that returns
    without error leaves its record and its parent's there to stay. *)
Theorem engine_tree_concurrent sched os s ps s' tr :
  serving (Engine.es_world s) -> EngineSpec.closed (mds s) -> Forall growing os ->
  exec sched (thread e <$> os) s = (ps, s', tr) ->
  EngineSpec.closed (mds s') /\ (forall p, is_Some (mds s !! p) -> is_Some (mds s' !! p)) /\
  forall i o cs n md, os !! i = Some o -> creates o = Some (abs (cs ++ [n])%list) -> names (cs ++ [n])%list ->
    ps !! i = Some (Done (ARecord md (Ok tt))) ->
    is_Some (mds s' !! abs (cs ++ [n])%list) /\ EngineSpec.has_parent cs (mds s').
Proof using All.
  intros Hs Hc Hg He.
  pose (Q := fun i a s => match os !! i with Some o => kept o a s | None => True end).
  assert (HQ : forall i a, stable tree (Q i a)) by (intros i a; unfold Q; destruct (os !! i); [apply stable_kept | done]).
  assert (Hps : forall i p, (thread e <$> os) !! i = Some p -> wp tree p (Q i) s).
  { intros i p Hp. rewrite list_lookup_fmap in Hp. unfold Q. destruct (os !! i) as [o |] eqn:Eo; [| done]. injection Hp as <-.
    apply thread_kept; [by eapply Forall_lookup_1 | by split]. }
  destruct (exec_guided tree Q _ _ _ _ _ _ HQ Hps He) as [Ht Hps'].
  destruct (Ht (conj Hs Hc)) as [[_ Hc'] Hp]. split; [done |]. split; [done |]. intros i o cs n md Ho Hcr Hn Hd.
  specialize (Hps' _ _ Hd). cbn in Hps'. unfold Q in Hps'. rewrite Ho in Hps'. apply Hps'; [done | done | by exists md].
Qed.

End Records.

(** ** Concrete requests *)

Abbreviation tw := (EngineSpec.twEngine false false).
Abbreviation tw_view := EngineSpec.tw_view.
#[global] Instance tw_peer b a : PeerEnv (EngineSpec.twEngine b a) tw_view (fun _ => True).
Proof.
  split; intros; [apply calm_adds | apply calm_spares]; apply (calm_quiet tw_view (fun _ => True)), (EngineSpec.tw_quiet_noop).
Qed.

Definition upload (path data : string) : EngineSpec.eop :=
  EngineSpec.OpCreateFile None path (bytesReader data) (Z.of_nat (String.length data)) EngineSpec.tw_md.
Definition recordOf {S} (p : option (Prog S Answer)) : Metadata :=
  match p with Some (Done (ARecord md _)) => md | _ => EngineSpec.tw_md end.

(** An upload, a deletion and another upload of one path, one after the other. *)
Definition replaced : list EngineSpec.eop := [upload "/d/f" "one"; EngineSpec.OpDeleteFile None "/d/f"; upload "/d/f" "two"].
Definition inTurn : list nat := (repeat 0 40 ++ repeat 1 40 ++ repeat 2 40)%list.

Lemma engine_creates_once_witness :
  exists l, (l, Deleted "/d/f") ∈ (exec inTurn (thread tw <$> replaced) EngineSpec.tw0).2.
Proof.
  pose (x := exec inTurn (thread tw <$> replaced) EngineSpec.tw0).
  refine (engine_creates_once tw tw_view (fun _ => True) inTurn replaced EngineSpec.tw0 x.1.1 x.1.2 x.2 0 2
    (upload "/d/f" "one") (upload "/d/f" "two") "/d/f" (recordOf (x.1.1 !! 0)) (recordOf (x.1.1 !! 2)) I _ _ eq_refl eq_refl _ eq_refl eq_refl _).
  - unfold x. by rewrite <- !surjective_pairing.
  - done.
  - vm_compute. reflexivity.
  - vm_compute. reflexivity.
Defined.

(** Two uploads below one directory that does not exist, step by step in turn. *)
Definition siblings : list EngineSpec.eop := [upload "/d/f" "one"; upload "/d/g" "two"].
Definition alternately : list nat := List.concat (repeat [0; 1] 40).

Lemma engine_tree_concurrent_witness :
  let x := exec alternately (thread tw <$> siblings) EngineSpec.tw0 in
  EngineSpec.closed (view_md (tw_view (Engine.es_world x.1.2))).
Proof.
  intros x. refine (proj1 (engine_tree_concurrent tw tw_view (fun _ => True) alternately siblings EngineSpec.tw0 x.1.1 x.1.2 x.2 I _ _ _)).
  - intros cs n _ _ [md H]. done.
  - repeat constructor; intros p [= <-]; [exists ["d"], "f" | exists ["d"], "g"]; split; repeat constructor.
  - unfold x. by rewrite <- !surjective_pairing.
Defined.

(** ** Interleavings that break what a request alone keeps *)

(** A reader that misses the cache reads the record, an update of the file runs, and
    only then the reader puts the old record into the cache: the update had
    invalidated an entry that was not there yet.  Later readers get the old
    record until the entry expires. *)
Definition readAndUpdate : list EngineSpec.eop :=
  [EngineSpec.OpGetMetadata "/d/x/f"; EngineSpec.OpUpdateFile None "/d/x/f" (bytesReader "bye") 3].

Theorem engine_stale_read :
  let '(ps, s, _) := exec ([0; 0] ++ repeat 1 12 ++ [0])%list (thread tw <$> readAndUpdate) (EngineSpec.tw_created false false) in
  finished <$> ps !! 1 = Some (Some (AUnit (Ok tt))) /\
  match st_Get (Engine.e_metadataStore tw) "/d/x/f" (Engine.es_world s), (Engine.GetMetadata tw "/d/x/f" s).2 with
  | Ok stored, Ok answered => md_Size stored = 3%Z /\ md_Size answered = 5%Z
  | _, _ => False
  end.
Proof. vm_compute. by repeat split. Qed.

(** An upload into an empty directory looks for its parent, the directory is
    deleted, and the upload goes on: its record has no parent.  The upload holds
    the lock of the file and the deletion that of the directory. *)
Definition uploadAndRemove : list EngineSpec.eop := [upload "/d/f" "one"; EngineSpec.OpDeleteFile None "/d"].
Definition emptyDirectory : Engine.EState EngineSpec.TW :=
  EngineSpec.run_op tw (EngineSpec.OpCreateDirectory None "/d" EngineSpec.tw_md) EngineSpec.tw0.

Theorem engine_orphan :
  let '(ps, s, _) := exec ([0; 0; 0] ++ repeat 1 12 ++ repeat 0 20)%list (thread tw <$> uploadAndRemove) emptyDirectory in
  created (default (AUnit (Ok tt)) (ps !! 0 ≫= finished)) /\ finished <$> ps !! 1 = Some (Some (AUnit (Ok tt))) /\
  is_Some (view_md (tw_view (Engine.es_world s)) !! "/d/f") /\ view_md (tw_view (Engine.es_world s)) !! "/d" = None.
Proof. vm_compute. split; [by eexists |]. split; [done |]. split; [by eexists | done]. Qed.

(** A bucket over the files of the concrete world, and the engine that stores in it. *)
Definition twBucket : S3.S3Client EngineSpec.TW :=
  let put k d w := EngineSpec.mkTW (EngineSpec.tw_view w) (EngineSpec.tw_locks w) (<[k := d]> (EngineSpec.tw_files w)) in
  S3.mkS3Client EngineSpec.TW
    (fun _ w => (w, Ok tt))
    (fun _ k w => (w, match EngineSpec.tw_files w !! k with Some d => Ok (bytesReader d) | None => Err (EMsg "NoSuchKey: missing") end))
    (fun i w => match rd_err (S3.ui_Body i) with Some er => (w, Err er) | None => (put (S3.ui_Key i) (rd_data (S3.ui_Body i)) w, Ok tt) end)
    (fun _ k rd w => match rd_err rd with Some er => (w, Err er) | None => (put k (rd_data rd) w, Ok tt) end)
    (fun _ k w => (EngineSpec.mkTW (EngineSpec.tw_view w) (EngineSpec.tw_locks w) (delete k (EngineSpec.tw_files w)), Ok tt))
    (fun _ _ w => (w, Err (EMsg "not used")))
    (fun _ w => (w, Err (EMsg "not used"))).
Definition bucketEngine : Engine.Engine EngineSpec.TW :=
  Engine.mkEngine EngineSpec.TW (Engine.e_metadataStore tw) (Noop.noopStorage _)
    (S3.s3Storage (S3.mkS3Adapter twBucket "files" "" "" "") 9 (fun _ => (0, 0, 0)%Z)) (Noop.noopStorage _) None
    (Engine.e_lockManager tw) "n1" ∅ false "" false None (Engine.e_clock tw) (Engine.e_sched tw).

(** A file and a directory of one path are created under different locks.  When
    the file's record is stored first, the directory's cleanup deletes the object of
    the file: the upload has succeeded, its record is there and its content is gone. *)
Definition s3_md : Metadata := newMetadata "x" "file" "0644" 1000 1000 "s3" 7.
Definition fileAndDirectory : list EngineSpec.eop :=
  [EngineSpec.OpCreateFile None "/x" (bytesReader "data") 4 s3_md; EngineSpec.OpCreateDirectory None "/x" s3_md].

Theorem engine_lost_content :
  let '(ps, s, _) := exec ([1; 1; 1; 1] ++ repeat 0 20 ++ repeat 1 20)%list (thread bucketEngine <$> fileAndDirectory) EngineSpec.tw0 in
  created (default (AUnit (Ok tt)) (ps !! 0 ≫= finished)) /\
  (Engine.GetMetadata bucketEngine "/x" s).2 = Ok (recordOf (ps !! 0)) /\ md_Type (recordOf (ps !! 0)) = "file" /\
  is_Ok (Engine.GetFile bucketEngine None "/x" s).2 = false.
Proof. vm_compute. split; [by eexists |]. by repeat split. Qed.

End EngineRecordsSpec.
