(* ===== verification/EngineReadsSpec.v ===== *)
(** * What interleaved reads answer

    The cache can lag behind the store when requests run at the same time, but it
    never invents a record: what a read answers was stored under its path at some
    moment of the schedule. *)
From S2P Require Import Prelude GoStrings PathUtil Metadata MemStore Cache Locks Backends Erasure Engine EngineSpec Threads EngineThreads EngineThreadsSpec EngineRecordsSpec.
From Stdlib Require Import Ascii String.
Open Scope string_scope.
Open Scope bool_scope.

Module EngineReadsSpec.
Import Threads EngineThreads EngineThreadsSpec EngineRecordsSpec.
Create HintDb reads.

Section Reads.
Context {W : Type} (e : Engine.Engine W) (view : W -> StoreView) (serving : W -> Prop)
        {store_spec : StoreSpec (Engine.e_metadataStore e) view serving} {env : EngineSpec.EngineEnv e view serving}
        {peer_env : PeerEnv e view serving}.

Abbreviation mds s := (view_md (view (Engine.es_world s))).
Abbreviation up s := (serving (Engine.es_world s)).
Abbreviation entries s := (Cache.mc_cache (Engine.es_cache s)).
Abbreviation calm := (EngineRecordsSpec.calm view serving).

Section Known.
(** The records that a path is known to have had. *)
Context (K : string -> Metadata -> Prop).

Definition storeKnown (s : Engine.EState W) : Prop := forall p md, mds s !! p = Some md -> K p md.
Definition cacheKnown (s : Engine.EState W) : Prop :=
  up s /\ forall p en, entries s !! p = Some en -> K p (Cache.ce_Metadata en).
Abbreviation reads p := (along storeKnown cacheKnown p (fun _ => True)).

Lemma reads_bind {A B} (p : Prog (Engine.EState W) A) (k : A -> Prog (Engine.EState W) B) :
  reads p -> (forall a, reads (k a)) -> reads (pbind p k).
Proof using Type. intros Hp Hk. eapply along_bind; [exact Hp |]. intros a _. apply Hk. Qed.
Lemma reads_try {A B} (p : Prog (Engine.EState W) (Res A)) f (k : A -> Prog (Engine.EState W) (Res B)) :
  reads p -> (forall a, reads (k a)) -> reads (ptry p f k).
Proof using Type. intros Hp Hk. eapply along_try; [exact Hp | | done]. intros a _. apply Hk. Qed.

(** An action that keeps the store up and adds nothing to the cache. *)
Lemma reads_act {A} (m : St (Engine.EState W) A) ev :
  (forall s s' a, m s = (s', a) -> up s -> up s' /\ entries s' ⊆ entries s) -> reads (Act m ev Done).
Proof using Type.
  intros Hm. apply along_act. intros s s' a _ [Hs Hc] E. destruct (Hm _ _ _ E Hs) as [Hs' Hsub]. split; [| done].
  split; [done |]. intros p en Hp. apply Hc. by eapply lookup_weaken.
Qed.

Lemma lift_cache {A} (m : St W A) s s' a : Engine.lift m s = (s', a) -> Engine.es_cache s' = Engine.es_cache s.
Proof using Type. unfold Engine.lift. destruct (m _). by intros [= <- _]. Qed.

Lemma reads_calm {A} (m : St W A) ev : calm (Engine.lift m) -> reads (Act (Engine.lift m) ev Done).
Proof using Type.
  intros Hm. apply reads_act. intros s s' a E Hs. destruct (Hm _ _ _ E Hs) as [Hs' _]. split; [done |].
  by rewrite (lift_cache _ _ _ _ E).
Qed.
Lemma reads_call {A} (m : St W A) : calm (Engine.lift m) -> reads (call m).
Proof using Type. apply reads_calm. Qed.
Lemma reads_adds {A} (m : St W A) : adds view serving (Engine.lift m) -> reads (call m).
Proof using Type.
  intros Hm. apply reads_act. intros s s' a E Hs. destruct (Hm _ _ _ E Hs) as [Hs' _]. split; [done |].
  by rewrite (lift_cache _ _ _ _ E).
Qed.
Lemma reads_backendDelete st ctx path :
  spares view serving ("/" +:+ path) (Engine.lift (sg_Delete st ctx path)) -> reads (backendDelete st ctx path).
Proof using Type.
  intros Hm. apply reads_act. intros s s' a E Hs. destruct (Hm _ _ _ E Hs) as [Hs' _]. split; [done |].
  by rewrite (lift_cache _ _ _ _ E).
Qed.
Lemma reads_gets {A} (f : Engine.EState W -> A) : reads (atomic (gets f)).
Proof using Type. apply reads_act. by intros s s' a [= <- _]. Qed.

Lemma reads_storeCreate md : reads (storeCreate e md).
Proof using store_spec.
  apply reads_act. intros s s' [md' r] E Hs. split; [| by rewrite (lift_cache _ _ _ _ E)].
  unfold Engine.lift in E. destruct (st_Create _ _ _) as [w [md'' r']] eqn:Ec. injection E as <- _ _.
  by apply spec_Create in Ec as [Hs' _].
Qed.
Lemma reads_storeDelete path : reads (storeDelete e path).
Proof using store_spec.
  apply reads_act. intros s s' r E Hs. split; [| by rewrite (lift_cache _ _ _ _ E)].
  unfold Engine.lift in E. destruct (st_Delete _ _ _) as [w r'] eqn:Ec. injection E as <- _.
  by apply spec_Delete in Ec as [Hs' _].
Qed.
Lemma reads_storeUpdate md : reads (storeUpdate e md).
Proof using store_spec. apply reads_call, calm_Update, store_spec. Qed.
Lemma reads_acquire k : reads (acquire e k).
Proof using env. apply reads_calm, calm_Acquire, env. Qed.
Lemma reads_release k : reads (release e k).
Proof using env. apply reads_calm, calm_Release, env. Qed.
Lemma reads_clock : reads (clock e).
Proof using Type. apply reads_gets. Qed.
Lemma reads_storeGet path : reads (storeGet e path).
Proof using Type. apply reads_gets. Qed.
Lemma reads_invalidate path : reads (cacheInvalidate path).
Proof using Type. apply reads_act. intros s s' a [= <- _] Hs. split; [done |]. apply delete_subseteq. Qed.
Lemma reads_invalidatePrefix path : reads (cacheInvalidatePrefix e path).
Proof using env. apply reads_act. intros s s' a [= <- _] Hs. split; [done |]. apply (EngineSpec.InvalidatePrefix_sub e view serving). Qed.

(** A read answers a known record. *)
Lemma GetMetadata_known path :
  along storeKnown cacheKnown (GetMetadata e path) (fun r => forall md, r = Ok md -> K path md).
Proof using store_spec.
  unfold GetMetadata. eapply along_bind with (Q := fun r => forall md, r = Some md -> K path md).
  { apply along_act. intros s s' a _ [Hs Hc] [= <- <-]. split; [done |]. intros md. unfold Cache.Get.
    destruct (entries s !! path) as [en |] eqn:E; [| done]. destruct (Cache.IsExpired _ en); [done |].
    intros [= <-]. by apply Hc. }
  intros [md |] Hmd; [by intros md' [= <-]; apply Hmd |].
  eapply along_try with (Q := fun r => forall md, r = Ok md -> K path md); [| | done].
  { apply along_act. intros s s' a Hg [Hs Hc] [= <- <-]. split; [done |]. intros md. rewrite spec_Get by done.
    destruct (mds s !! path) eqn:E; [intros [= <-]; by apply Hg | done]. }
  intros md Hk. eapply along_bind with (Q := fun _ => True); [| by intros [] _ md' [= <-]; apply Hk].
  apply along_act. intros s s' a _ [Hs Hc] [= <- _]. split; [| done]. split; [done |]. intros p en Hp. cbn [Engine.es_cache] in Hp.
  apply Cache.lookup_Set in Hp as [(-> & -> & _) | Hp]; [by apply Hk | by apply Hc].
Qed.
Lemma reads_GetMetadata path : reads (GetMetadata e path).
Proof using store_spec. by eapply along_conseq, GetMetadata_known. Qed.

Hint Resolve cs_Open cs_Create cs_Update cs_Delete cs_CreateDirectory byType_calm : calms.
Hint Resolve reads_storeCreate reads_storeDelete reads_storeUpdate reads_acquire reads_release reads_clock reads_storeGet
  reads_invalidate reads_invalidatePrefix reads_GetMetadata reads_gets : reads.
Hint Extern 1 (along _ _ (Done _) _) => exact I : reads.
Hint Extern 1 (along _ _ (call _) _) => apply reads_call; solve [eauto with calms] : reads.
Hint Extern 2 (along _ _ (call _) _) => apply reads_adds : reads.
Hint Resolve reads_backendDelete : reads.

Ltac reads := repeat first
  [ solve [eauto 4 with reads]
  | apply reads_bind; [| intros ?] | apply reads_try; [| intros ?]
  | progress cbv beta iota zeta
  | case_goal ].

Lemma withLock_reads {A} key msg (fail : gerr -> A) p : reads p -> reads (withLock e key msg fail p).
Proof using All. intros Hp. unfold withLock. reads. Qed.
Lemma CreateDirectoryWith_reads ens ctx path md :
  (forall bt, reads (ens bt)) -> reads (CreateDirectoryWith e ens ctx path md).
Proof using All. intros He. unfold CreateDirectoryWith. apply withLock_reads. reads. Qed.
Lemma ensureParents_reads ctx path bt : reads (ensureParents e ctx path bt).
Proof using All.
  revert path bt. refine (EngineThreadsSpec.thread_ensureParents_ind e ctx (fun _ ens => forall bt, reads (ens bt)) _ _); [intros path _ bt; reads |].
  intros path rec _ Hrec bt. pose proof (CreateDirectoryWith_reads rec ctx (filepath_Dir path)) as Hc. unfold ensureMissing. reads.
Qed.
Lemma replicate_reads ctx path size pb : reads (replicateFileToSecondaryBackend e ctx path size pb).
Proof using All. unfold replicateFileToSecondaryBackend. reads. Qed.
Lemma deleteReplicated_reads ctx path pb : reads (deleteReplicatedFile e ctx path pb).
Proof using All. unfold deleteReplicatedFile. reads. Qed.
Hint Resolve ensureParents_reads replicate_reads deleteReplicated_reads : reads.

Lemma thread_reads o : reads (thread e o).
Proof using All.
  destruct o; cbn [thread]; (apply reads_bind; [| intros ?; reads]).
  - reads.
  - unfold GetFile. apply reads_try; [reads | intros md]. destruct (negb _); [reads |].
    pose proof (selected_backend e view serving ctx md) as Hs. destruct (Engine.selectBackend e ctx md) as [c st]. destruct Hs as (H1 & _ & _).
    pose proof (fun em H o l c p => calm_quiet view serving _ (proj2 (EngineSpec.env_erasure e view serving em H) o l c p)) as Her.
    destruct (Engine.e_erasureManager e) as [em |]; [specialize (Her em eq_refl) |]; reads.
  - unfold CreateFile. apply withLock_reads. reads.
  - apply CreateDirectoryWith_reads, ensureParents_reads.
  - unfold UpdateFile. apply withLock_reads, reads_try; [reads | intros md]. destruct (negb _); [reads |].
    pose proof (selected_backend e view serving ctx md) as Hs. destruct (Engine.selectBackend e ctx md) as [c st]. destruct Hs as (_ & H2 & _). reads.
  - unfold DeleteFile, checkEmpty. apply withLock_reads, reads_try; [reads | intros md]. apply reads_try; [reads | intros _].
    pose proof (selected_backend e view serving ctx md) as Hs. destruct (Engine.selectBackend e ctx md) as [c st]. destruct Hs as (_ & _ & H3).
    pose proof (fun em H o c p => calm_quiet view serving _ (proj1 (EngineSpec.env_erasure e view serving em H) o c p)) as Her.
    destruct (Engine.e_erasureManager e) as [em |]; [specialize (Her em eq_refl) |]; reads.
  - unfold CreateErasureMetadata. reads.
  - unfold UpdateMetadataOnly. reads.
  - unfold EnsureRootDirectory. reads.
Qed.

(** What a thread's answer tells: of [GetMetadata], that the record is known. *)
Definition tells (o : EngineSpec.eop) (a : Answer) : Prop :=
  match o, a with EngineSpec.OpGetMetadata path, AMd (Ok md) => K path md | _, _ => True end.
Lemma thread_tells o : along storeKnown cacheKnown (thread e o) (tells o).
Proof using All.
  destruct o as [path | | | | | | | |]; try by (eapply along_conseq, thread_reads; intros [[]| | |]).
  eapply along_bind; [apply GetMetadata_known |]. intros [md | er] Hk; [by apply Hk | done].
Qed.

End Known.
(** C15: A read never answers a record that was not stored: in every interleaving of
    any requests, what [GetMetadata] answers is the record that the store held
    under the path in some state that the schedule passed, and so is every record
    that the cache holds at the end. *)
Theorem engine_reads_stored sched os s ps' s' tr :
  up s -> EngineSpec.coherent view s ->
  exec sched (thread e <$> os) s = (ps', s', tr) ->
  let held path md := exists s1, s1 ∈ passes sched (thread e <$> os) s /\ mds s1 !! path = Some md in
  (forall i path md, os !! i = Some (EngineSpec.OpGetMetadata path) -> ps' !! i = Some (Done (AMd (Ok md))) -> held path md) /\
  (forall path en, entries s' !! path = Some en -> held path (Cache.ce_Metadata en)).
Proof using All.
  intros Hs Hc E held.
  destruct (exec_along (storeKnown held) (cacheKnown held) (fun i a => forall o, os !! i = Some o -> tells held o a)
              sched (thread e <$> os) s ps' s' tr) as [[_ Hcache] Hps]; [| | | done |].
  - split; [done |]. intros p en Hen. exists s. split; [apply passes_first | by apply Hc].
  - intros s1 Hs1 p md Hm. by exists s1.
  - intros i p Hp. rewrite list_lookup_fmap in Hp. destruct (os !! i) as [o |]; [| done]. injection Hp as <-.
    eapply along_conseq, thread_tells. intros a Ha o' [= <-]. exact Ha.
  - split; [| exact Hcache]. intros i path md Ho Hp. by apply (Hps i _ Hp _ Ho).
Qed.

End Reads.
(** ** A concrete schedule *)

(** The read that leaves the old record behind: it answers the record from before
    the update. *)
Definition staleSchedule : list nat := ([0; 0] ++ repeat 1 12 ++ [0])%list.
Definition answerOf {S} (p : option (Prog S Answer)) : Metadata :=
  match p with Some (Done (AMd (Ok md))) => md | _ => EngineSpec.tw_md end.

Lemma engine_reads_stored_witness :
  let x := exec staleSchedule (thread tw <$> readAndUpdate) (EngineSpec.tw_created false false) in
  exists s1, s1 ∈ passes staleSchedule (thread tw <$> readAndUpdate) (EngineSpec.tw_created false false) /\
    view_md (tw_view (Engine.es_world s1)) !! "/d/x/f" = Some (answerOf (x.1.1 !! 0)).
Proof.
  intros x. refine (proj1 (engine_reads_stored tw tw_view (fun _ => True) staleSchedule readAndUpdate
    (EngineSpec.tw_created false false) x.1.1 x.1.2 x.2 I _ _) 0 "/d/x/f" _ eq_refl _).
  - exact (proj2 (proj2 (EngineSpec.CreateFile_good tw tw_view (fun _ => True) None "/d/x/f" (bytesReader "hello") 5 EngineSpec.tw_md
             EngineSpec.tw0 (EngineSpec.tw_created false false) _ (surjective_pairing _) EngineSpec.tw0_good))).
  - unfold x. by rewrite <- !surjective_pairing.
  - vm_compute. reflexivity.
Defined.

Example stale_answer :
  md_Size (answerOf ((exec staleSchedule (thread tw <$> readAndUpdate) (EngineSpec.tw_created false false)).1.1 !! 0)) = 5%Z.
Proof. by vm_compute. Qed.

End EngineReadsSpec.
