(* ===== verification/Cluster.v ===== *)
(** * Two instances: a request at one for a file of the other

    The second instance reaches the first as internalproxy does, over HTTP: its
    requests go through the router, the authentication and the handlers of the
    first.  The world of its engine is the whole state of the first instance,
    and the metadata store is the same for both. *)
From S2P Require Import Prelude GoStrings PathUtil Metadata MemStore Cache Locks Auth Backends InternalProxy Erasure Engine EngineSpec EngineThreadsSpec Handlers HandlerSpec Router.
From Stdlib Require Import Ascii String.
Open Scope string_scope.
Open Scope bool_scope.
Open Scope go_scope.

Module Cluster.
Import Engine PathUtils EngineSpec Handlers HandlerSpec Router.

(** ** The shared store *)

Section Shared.
Context {W : Type} (st : Store W).

(** A store in the world of one instance, seen from the other. *)
Definition sharedStore : Store (EState W) := mkStore (EState W)
  (fun p s => st_Get st p (es_world s))
  (fun md => lift (st_Create st md))
  (fun md => lift (st_Update st md))
  (fun p => lift (st_Delete st p))
  (fun p s => st_ListChildren st p (es_world s))
  (fun t s => st_GetSingleUseLink st t (es_world s))
  (fun l => lift (st_CreateSingleUseLink st l))
  (fun t status ua ip => lift (st_UpdateSingleUseLink st t status ua ip))
  (fun b => lift (st_CleanupExpiredLinks st b))
  (fun b => lift (st_CleanupUsedLinks st b)).

Lemma lift_world {A} (m : St W A) s s' a : lift m s = (s', a) -> m (es_world s) = (es_world s', a).
Proof. unfold lift. destruct (m (es_world s)). by intros [= <- <-]. Qed.

Lemma sharedStore_spec view serving :
  StoreSpec st view serving ->
  StoreSpec sharedStore (fun s => view (es_world s)) (fun s => serving (es_world s)).
Proof.
  intros H. split; cbn [sharedStore st_Get st_Create st_Update st_Delete st_ListChildren st_GetSingleUseLink
    st_CreateSingleUseLink st_UpdateSingleUseLink]; intros;
    repeat match goal with E : lift _ _ = _ |- _ => apply lift_world in E end.
  - by apply spec_Get.
  - by eapply spec_Create.
  - by eapply spec_Update.
  - by eapply spec_Delete.
  - by apply spec_ListChildren.
  - by apply spec_GetLink.
  - by eapply spec_CreateLink.
  - by eapply spec_UpdateLink.
Qed.

End Shared.

(** ** The way of a request to the peer *)

(** A relative path that needs neither cleaning nor escaping in a URL. *)
Definition plainChar (c : ascii) : bool :=
  let n := nat_of_ascii c in
  let between a b := Nat.leb (nat_of_ascii a) n && Nat.leb n (nat_of_ascii b) in
  between "a"%char "z"%char || between "A"%char "Z"%char || between "0"%char "9"%char ||
  existsb (Ascii.eqb c) ["-"; "_"; "."; "~"]%char.
Definition plainPath (p : string) : bool :=
  forallb (fun name => plain_name name && forallb plainChar (list_ascii_of_string name)) (split_on slash p).

(** The request as the server of the peer sees it.  An unknown length ([-1]) is
    what a body without a declared length arrives with. *)
Record arrives (req : HttpRequest) (p : string) (i : Incoming) : Prop := {
  ar_method : in_method i = hq_Method req;
  ar_path : in_path i = "/v1/files/" +:+ p;
  ar_auth : rq_header (in_request i) "Authorization" = hq_Auth req;
  ar_body : rq_body (in_request i) = default (bytesReader "") (hq_Body req);
  ar_length : rq_contentLength (in_request i) = hq_ContentLength req \/
              hq_ContentLength req = 0%Z /\ rq_contentLength (in_request i) = (-1)%Z;
}.

(** The response as the client sees it: the body is read whole when its length is the announced one. *)
Definition answers (resp : Response) (hresp : HttpResponse) : Prop :=
  hr_Status hresp = rs_status resp /\
  forall d, rs_body resp = BData (bytesReader d) ->
    ("Content-Length", Itoa (Z.of_nat (String.length d))) ∈ rs_headers resp -> hr_Body hresp = d.

(** A body that can be sent: it ends without error and has the declared length. *)
Definition sendable (body : option Reader) (len : Z) : Prop :=
  match body with
  | None => len = 0%Z
  | Some rd => rd_err rd = None /\ len = Z.of_nat (String.length (rd_data rd))
  end.

(** net/http between the instances, when the peer is up: what is sent to the URL
    of a plain path arrives, and the answer comes back. *)
Class Reachable {S} (client : HttpClient S) (codecs : InternalProxy.Codecs) (endpoint : string)
    (peer : Incoming -> St S Response) : Prop := {
  re_New : forall req p, hq_URL req = InternalProxy.buildProxyURL codecs endpoint p -> plainPath p = true ->
    hc_NewRequest client req = Ok tt;
  re_Do : forall req p s, hq_URL req = InternalProxy.buildProxyURL codecs endpoint p -> plainPath p = true ->
    sendable (hq_Body req) (hq_ContentLength req) ->
    exists i s' resp hresp, arrives req p i /\ peer i s = (s', resp) /\
      hc_Do client req s = (s', Ok hresp) /\ answers resp hresp;
}.

Lemma plainPath_split p : plainPath p = true -> Forall (fun name => plain_name name = true) (split_on slash p).
Proof.
  unfold plainPath. rewrite forallb_forall, Forall_forall. intros H x Hx. apply list_elem_of_In, H in Hx.
  by apply andb_true_iff in Hx as [Hx _].
Qed.

Lemma HasSuffix_inv (s p : string) : HasSuffix s p = true -> exists r, s = r +:+ p.
Proof.
  unfold HasSuffix. intros [_ H]%andb_true_iff. to_prop.
  exists (str_take (String.length s - String.length p) s). rewrite <- (str_take_drop (String.length s - String.length p) s) at 1. by rewrite H.
Qed.

Lemma plainPath_request p : plainPath p = true -> request_path p = p /\ HasSuffix p "/" = false /\ TrimPrefix p "/" = p.
Proof.
  intros Hp%plainPath_split. unfold request_path.
  assert (Hpre : TrimPrefix p "/" = p).
  { unfold TrimPrefix. destruct (HasPrefix p "/") eqn:E; [| done]. apply HasPrefix_inv in E as (q & ->).
    by apply Forall_inv in Hp. }
  assert (Hsuf : HasSuffix p "/" = false).
  { destruct (HasSuffix p "/") eqn:E; [| done]. apply HasSuffix_inv in E as (q & ->).
    change "/" with ("/" +:+ "") in Hp. rewrite split_on_app in Hp. apply Forall_app in Hp as [_ Hp]. by apply Forall_inv in Hp. }
  split; [| done]. rewrite Hpre. unfold TrimSuffix. by rewrite Hsuf.
Qed.

(** The path that reaches the peer denotes the same file there. *)
Lemma plainPath_engine u p :
  IsInvalid (ParseFilePath u) = false -> p = TrimPrefix (enginePath (ParseFilePath u)) "/" -> plainPath p = true ->
  enginePath (ParseFilePath u) = "/" +:+ p /\ enginePath (ParseFilePath p) = "/" +:+ p /\ IsInvalid (ParseFilePath p) = false.
Proof.
  intros Hv -> Hp. destruct (plainPath_request _ Hp) as (Hr & _ & _).
  destruct (ParseFilePath_cases u) as [[E _] | [[E _] | (_ & Hne & Hdot & Hval & _ & He)]];
    [rewrite E in Hp; discriminate Hp | by rewrite E in Hv |].
  rewrite He, (TrimPrefix_app "/") in Hp, Hr |- *. split; [done |].
  destruct (ParseFilePath_cases (request_path u)) as [[_ Hc] | [(_ & _ & Hc) | (Hv' & _ & _ & _ & _ & He')]]; rewrite Hr in *.
  - by destruct Hc.
  - exfalso. destruct Hc as [Hc | [er Hc]]; [| congruence]. unfold ParseFilePath in Hv.
    change (TrimSuffix (TrimPrefix u "/") "/") with (request_path u) in Hv. rewrite Hc in Hv.
    apply String.eqb_neq in Hne, Hdot. by rewrite Hne, Hdot in Hv.
  - done.
Qed.

(** ** The two instances *)

Section TwoInstances.
Context {W : Type} (e1 : Engine W) (view : W -> StoreView) (serving : W -> Prop)
        {store_spec : StoreSpec (e_metadataStore e1) view serving} {env : EngineEnv e1 view serving}
        (content : W -> string -> option string) {cenv : ContentEnv e1 "localfs" content}
        (authorizer1 : Authorizer W) (authn1 : Authenticator) (em1 : Erasure.Manager W)
        (fmtTime : Time -> string) (peerOrder : list string) (shardOrder : list nat)
        (other : HandlerName -> Request -> St (EState W) Response)
        (find : list Route -> string -> string -> option Route)
        (limit : HandlerName -> string -> St (EState W) bool) `{!RouterLaws find} (erasure : bool).

Abbreviation id1 := (e_currentInstanceID e1).

(** The server of the first instance. *)
Definition peer : Incoming -> St (EState W) Response :=
  dispatch authn1 find (handlers e1 authorizer1 em1 "localfs" fmtTime peerOrder shardOrder other) limit erasure.

Context (e2 : Engine (EState W)) (client : HttpClient (EState W)) (codecs : InternalProxy.Codecs)
        (instanceMap : gmap string string) (token endpoint proxyUser : string) (clock : EState W -> Time).

(** The engine of the second instance: it shares the store, reaches the first
    under its id, and the first knows its token. *)
Class Joined : Prop := {
  jo_store : e_metadataStore e2 = sharedStore (e_metadataStore e1);
  jo_proxy : e_internalProxyBackend e2 = InternalProxy.proxyStorage client codecs instanceMap token clock;
  jo_delete : exists a, e_internalProxyAdapter e2 = Some a /\
    pa_DeleteOnInstance a = InternalProxy.DeleteOnInstance client codecs instanceMap token;
  jo_ids : id1 <> e_currentInstanceID e2 /\ id1 <> "";
  jo_endpoint : instanceMap !! id1 = Some endpoint;
  jo_reach : Reachable client codecs endpoint peer;
  jo_auth : authn1 ("Bearer " +:+ token) = Ok proxyUser;
}.
Context {joined : Joined}.
#[local] Existing Instance jo_reach.
#[local] Instance e2_store_spec : StoreSpec (e_metadataStore e2) (fun s => view (es_world s)) (fun s => serving (es_world s)).
Proof. rewrite jo_store. by apply sharedStore_spec. Qed.

(** A request of the proxy runs the handler of its route at the peer, as the user
    that the token stands for. *)
Lemma proxyDo_asks route p ctype body len s :
  mountOf route = "/v1/files/" -> plainPath p = true -> (route = RGet -> HasPrefix p "ws/" = false) -> sendable body len ->
  exists r s' resp hresp,
    InternalProxy.proxyDo client codecs instanceMap token id1 p (methodOf route) ctype body len s = (s', Ok hresp) /\
    serve e1 authorizer1 em1 "localfs" fmtTime peerOrder shardOrder route r s = (s', resp) /\
    rq_urlPath r = p /\ rq_userID r = Some proxyUser /\ rq_body r = default (bytesReader "") body /\
    transferSize r = Z.of_nat (String.length (rd_data (rq_body r))) /\ answers resp hresp.
Proof.
  intros Hmount Hp Hws Hb. unfold InternalProxy.proxyDo. rewrite jo_endpoint.
  set (req := mkHttpRequest _ _ _ _ _ _). rewrite (re_New req p eq_refl Hp).
  destruct (re_Do req p s eq_refl Hp Hb) as (i & s' & resp & hresp & [Hm Hpath Ha Hbody Hlen] & Hpeer & -> & Hst & Hdata).
  unfold peer in Hpeer. rewrite (dispatch_files _ _ _ _ _ _ _ _ _ _ _ _ _ _ _ _ Hmount Hm Hpath Hws) in Hpeer.
  unfold routed, V1AuthMiddleware, bind in Hpeer. cbn [withPath rq_header] in Hpeer. rewrite Ha in Hpeer.
  cbn [req hq_Auth] in Hpeer. rewrite jo_auth in Hpeer. cbn [String.append String.eqb] in Hpeer.
  destruct (serve _ _ _ _ _ _ _ _ _ s) as [s1 resp1] eqn:Es. unfold ret in Hpeer.
  set (hs := commonHeaders i) in Hpeer. clearbody hs. injection Hpeer as <- <-.
  eexists _, s1, resp1, hresp. split; [done |]. split; [exact Es |]. cbn [withPath rq_urlPath rq_userID rq_body]. split; [done |]. split; [done |]. split; [done |].
  split; [| split; [done |]; intros d Hd Hin; apply Hdata; [done | apply elem_of_app; by right]].
  rewrite Hbody. unfold transferSize, BytesRead. cbn [rq_contentLength rq_body withPath].
  cbn [req hq_Body hq_ContentLength] in *. unfold sendable in Hb.
  assert (Hl : len = Z.of_nat (String.length (rd_data (default (bytesReader "") body)))) by (destruct body; [apply Hb | done]).
  destruct Hlen as [-> | [H0 ->]]; [rewrite <- Hl; destruct (Z.ltb_spec len 0); lia | cbn; lia].
Qed.

(** Records of plain files that the first instance keeps on its disk. *)
Definition here (o : option string) : Prop := o = Some id1.
#[export] Instance here_owners : Owners e1 "localfs" here.
Proof. split; [by right | done | done]. Qed.
Abbreviation homed := (plainRecord "localfs" here).
Abbreviation rel path := (TrimPrefix path "/").
Abbreviation mds2 s := (view_md (view (es_world (es_world s)))).
Definition size (d : string) : Z := Z.of_nat (String.length d).

(** The path holds the bytes, and no cache has a record of another length. *)
Definition available (path d : string) (s : EState (EState W)) : Prop :=
  holds view serving "localfs" content here path d (size d) (es_world s) /\
  cached (homed path (size d)) path (es_world s) /\ cached (homed path (size d)) path s.

(** A path that a request can name and the proxy can pass on. *)
Definition passable (u path : string) : Prop :=
  enginePath (ParseFilePath u) = path /\ IsInvalid (ParseFilePath u) = false /\
  plainPath (rel path) = true /\ HasPrefix (rel path) "ws/" = false.

Lemma passable_rel u path : passable u path ->
  enginePath (ParseFilePath (rel path)) = path /\ IsInvalid (ParseFilePath (rel path)) = false.
Proof.
  intros (<- & Hv & Hp & _). destruct (plainPath_engine u _ Hv eq_refl Hp) as (He & Hr & Hi). split; [congruence | done].
Qed.

Lemma proxied md path n : homed path n md -> otherInstance e2 md = Some id1 /\
  selectBackend e2 background md = (Some id1, e_internalProxyBackend e2).
Proof.
  intros (_ & _ & _ & _ & Ho & _). unfold otherInstance, selectBackend. rewrite Ho. destruct jo_ids as [Hne _].
  apply String.eqb_neq in Hne. by rewrite Hne.
Qed.

Lemma requireInstance_here {A} (k : string -> St (EState W) (Res A)) : InternalProxy.requireInstance (Some id1) k = k id1.
Proof. unfold InternalProxy.requireInstance. cbn. destruct jo_ids as [_ Hne]. by apply String.eqb_neq in Hne as ->. Qed.

(** Opening the file from the other instance. *)
Lemma GetFile_remote u path d u1 s :
  available path d s -> passable u path -> authorizer1 proxyUser path ReadPerm (es_world (es_world s)) = Ok u1 ->
  exists s', GetFile e2 background path s = (s', Ok (bytesReader d)).
Proof.
  intros (Hh & Hc1 & Hc2) Hpass Ha. pose proof Hh as (Hs & (md0 & Hm & Hp0) & _).
  destruct (passable_rel u path Hpass) as [He Hi]. destruct Hpass as (_ & _ & Hp & Hws).
  unfold GetFile, try_bind, bind.
  destruct (GetMetadata_reads e2 (fun s => view (es_world s)) (fun s => serving (es_world s)) (homed path (size d)) path s md0)
    as (s1 & md & -> & Hpm & Hw & _); [done .. |].
  pose proof Hpm as (_ & Ht & Her & _). rewrite Ht, Her. cbn [String.eqb Ascii.eqb Bool.eqb negb].
  destruct (proxied md path _ Hpm) as [_ ->].
  assert (Hopen : exists p', sg_Open (e_internalProxyBackend e2) (Some id1) (rel path) (es_world s1) = (p', Ok (bytesReader d))).
  { rewrite jo_proxy. cbn [InternalProxy.proxyStorage sg_Open]. unfold InternalProxy.Open. rewrite requireInstance_here.
    unfold InternalProxy.OpenFromInstance, try_bind.
    destruct (proxyDo_asks RGet (rel path) "" None 0 (es_world s1)) as (r & p' & resp & hresp & Hdo & Hserve & Hur & Hu & _ & _ & Hst & Hbody);
      [done .. |]. cbn [methodOf] in Hdo. rewrite Hdo.
    cbn [serve] in Hserve. rewrite Hw in Hserve.
    destruct (download e1 view serving "localfs" content here authorizer1 fmtTime r proxyUser path d (size d) (es_world s) u1)
      as (p2 & hdrs & Hget & Hcl); [done | done | by rewrite Hur | by rewrite Hur | done | done |].
    rewrite Hget in Hserve. injection Hserve as <- <-. cbn [rs_status rs_body rs_headers] in *.
    exists p2. unfold ret. rewrite Hst. cbn [Z.eqb Pos.eqb negb]. by rewrite (Hbody d). }
  destruct Hopen as [p' Hopen]. destruct (e_erasureManager e2); unfold lift; rewrite Hopen; by eexists.
Qed.

(** GET at either instance. *)
Lemma download_remote authorizer2 fmtTime2 g path d uid u u1 s :
  available path d s -> passable (rq_urlPath g) path -> rq_userID g = Some uid ->
  authorizer2 uid path ReadPerm (es_world s) = Ok u -> authorizer1 proxyUser path ReadPerm (es_world (es_world s)) = Ok u1 ->
  exists s' hdrs, V1GetFile e2 authorizer2 fmtTime2 g s = (s', mkResponse 200 hdrs (BData (bytesReader d))) /\
    ("Content-Length", Itoa (size d)) ∈ hdrs.
Proof.
  intros Hav Hpass Hu Ha Ha1. pose proof Hav as ((Hs & (md & Hm & Hp) & Hd) & Hc1 & Hc2).
  eapply (V1GetFile_plain e2 (fun s => view (es_world s)) (fun s => serving (es_world s)) (homed path (size d)) (size d) md);
    [| done | done | done | done | apply Hpass | apply Hpass | done | done |].
  - unfold plainRecord. tauto.
  - intros s1 Hw Hc. eapply GetFile_remote; [| exact Hpass | rewrite Hw; exact Ha1].
    destruct Hav as (Hh & Hc3 & _). unfold available. by rewrite Hw.
Qed.

(** C3: What one instance stores, the others serve: when the first instance
    answers 200 or 201 to an upload to its local disk, a GET of the path at the
    second one answers 200 with exactly the bytes of the upload and their number,
    fetched from the first by the internal proxy.  The second instance must hold no
    cached record of the path ([cluster_stale_length] shows what happens if it
    does) and the cache of the first must agree with the store; the declared
    length must be that of the body; the path must be of plain characters
    (letters, digits and - _ . ~), not below /ws/, no directory, and name no file
    that is erasure-coded or elsewhere than on the disk of the first; and both the
    user and the user of the proxy may read it. *)
Theorem cluster_upload_then_download authorizer2 fmtTime2 (put : bool) r g uid u u1 s p1 resp :
  let path := enginePath (ParseFilePath (rq_urlPath r)) in
  let s1 := mkEState p1 (es_cache s) in
  good view serving (es_world s) ->
  replaceable view "localfs" here path (es_world s) -> uncached path s ->
  IsDirectory (ParseFilePath (rq_urlPath r)) = false -> plainUpload e1 r -> transferSize r = size (rd_data (rq_body r)) ->
  upload e1 "localfs" authorizer1 peerOrder shardOrder put r (es_world s) = (p1, resp) -> succeeded resp ->
  passable (rq_urlPath g) path -> rq_userID g = Some uid ->
  authorizer2 uid path ReadPerm p1 = Ok u -> authorizer1 proxyUser path ReadPerm (es_world p1) = Ok u1 ->
  exists s2 hdrs, V1GetFile e2 authorizer2 fmtTime2 g s1 =
    (s2, mkResponse 200 hdrs (BData (bytesReader (rd_data (rq_body r))))) /\
    ("Content-Length", Itoa (size (rd_data (rq_body r)))) ∈ hdrs.
Proof.
  intros path s1 Hg Hrec Hun Hd Hplain Hlen H Hok Hpass Hu Ha Ha1.
  destruct (upload_arrives e1 view serving "localfs" content here authorizer1 peerOrder shardOrder put r _ _ _
              Hg Hrec Hd Hplain H Hok) as (_ & Hg1 & _ & Hh).
  rewrite Hlen in Hh. eapply download_remote; [| exact Hpass | exact Hu | exact Ha | exact Ha1].
  split; [exact Hh |]. split; [by eapply good_sees | by apply uncached_cached].
Qed.

(** The cached records of both instances are those of a plain file of the first,
    whatever they say of its size and times. *)
Definition known (path : string) (s : EState (EState W)) : Prop :=
  let P md := homed path (md_Size md) md in
  serving (es_world (es_world s)) /\ (exists md, mds2 s !! path = Some md /\ P md) /\
  cached P path (es_world s) /\ cached P path s.

(** What a handler of the second instance starts from. *)
Lemma known_reads path s : known path s -> exists s1 md, GetMetadata e2 path s = (s1, Ok md) /\
  homed path (md_Size md) md /\ known path s1.
Proof.
  intros (Hs & (md0 & Hm & Hp0) & Hc1 & Hc).
  destruct (GetMetadata_reads e2 (fun s => view (es_world s)) (fun s => serving (es_world s)) (fun md => homed path (md_Size md) md)
              path s md0 Hs Hm Hp0 Hc) as (s1 & md & E & Hp & Hw & Hc2).
  exists s1, md. split; [done |]. split; [done |]. unfold known. rewrite Hw. split; [done |]. split; [by exists md0 | done].
Qed.

(** PUT through the proxy. *)
Lemma UpdateFileOnInstance_stores u path body s s1 :
  known path s -> passable u path -> rd_err body = None ->
  UpdateFileOnInstance e2 background id1 path body (size (rd_data body)) s = (s1, Ok tt) ->
  holds view serving "localfs" content here path (rd_data body) (size (rd_data body)) (es_world s1) /\
  uncached path (es_world s1) /\ uncached path s1.
Proof.
  intros (Hs & (md0 & Hm & Hp0) & Hc1 & _) Hpass Hrd H.
  destruct (passable_rel u path Hpass) as [He Hi]. destruct Hpass as (_ & _ & Hp & _).
  unfold UpdateFileOnInstance, bind, lift in H. rewrite jo_proxy in H. cbn [InternalProxy.proxyStorage sg_Update] in H.
  unfold InternalProxy.Update, WithInstanceID in H. rewrite requireInstance_here in H.
  unfold InternalProxy.UpdateOnInstance, try_bind in H.
  replace (if (0 <? size (rd_data body))%Z then size (rd_data body) else 0%Z) with (size (rd_data body)) in H
    by (unfold size; destruct (Z.ltb_spec 0 (Z.of_nat (String.length (rd_data body)))); lia).
  destruct (proxyDo_asks RPut (rel path) "application/octet-stream" (Some body) (size (rd_data body)) (es_world s))
    as (r & p' & resp & hresp & Hdo & Hserve & Hur & Hu & Hb & Hl & Hst & _); [done | done | done | done |].
  cbn [methodOf] in Hdo. rewrite Hdo in H. unfold ret in H. cbn [serve default] in Hserve, Hb. rewrite Hb in Hl.
  assert (Hok : succeeded resp).
  { unfold succeeded. rewrite <- Hst. destruct (negb _ && negb _)%bool eqn:Es; [| apply andb_false_iff in Es as [Es | Es]; to_prop; auto].
    unfold InternalProxy.badStatus in H. by destruct (_ =? 404)%Z. }
  destruct (put_replaces e1 view serving "localfs" content here authorizer1 r md0 (md_Size md0) (es_world s) p' resp)
    as (_ & _ & Hh & Hun); [done | by rewrite Hur, He | by rewrite Hur, He | by rewrite Hur, He | done | done |].
  rewrite Hb, Hl, Hur, He in Hh. rewrite Hur, He in Hun.
  destruct (_ && _) in H; [unfold InternalProxy.badStatus in H; by destruct (_ =? 404)%Z |].
  unfold cacheInvalidate, onCache in H. injection H as <-. cbn [es_world]. split; [exact Hh |]. split; [exact Hun |].
  apply lookup_delete_eq.
Qed.

(** The record of the second instance, written into the shared store. *)
Lemma UpdateMetadataOnly_shared path d n md s s1 a :
  homed path (size d) md -> holds view serving "localfs" content here path d n (es_world s) ->
  uncached path (es_world s) -> uncached path s -> UpdateMetadataOnly e2 md s = (s1, a) -> available path d s1.
Proof.
  intros Hp Hh Hun1 Hun2 H. pose proof (UpdateMetadataOnly_uncached e2 path md _ _ _ H Hun2) as Hun3.
  unfold UpdateMetadataOnly, bind in H. rewrite jo_store in H. cbn [sharedStore st_Update] in H.
  destruct (lift (lift _) s) as [s2 [md2 r2]] eqn:El. apply lift_world in El as Ew.
  destruct (triple_update e1 view serving "localfs" content here path d n (size d) md Hp _ _ _ Ew Hh) as [-> Hh2].
  pose proof (uncached_lift path _ _ _ _ Ew Hun1) as Hun4.
  unfold cacheInvalidate, onCache, ret in H. injection H as <- _. cbn [es_world].
  split; [exact Hh2 |]. split; by apply uncached_cached.
Qed.

(** C4: A file can be updated through any instance: when the second instance
    answers 200 to a PUT of a file on the disk of the first, the first has
    stored exactly the bytes, and a GET of the path at either instance answers 200
    with them and their number; whatever their caches said before of the size, as
    long as what they hold is a record of a plain file of the first.  The body of
    the PUT must be readable and its length declared (a chunked PUT makes the
    record say zero) and at most the upload limit; the path must be of plain characters (letters,
    digits and - _ . ~), not below /ws/; and the users and the user of the proxy
    may read it. *)
Theorem cluster_update_then_download authorizer2 fmtTime2 bt2 r g1 g2 uid1 uid2 u u1 u2 s s1 resp :
  let path := enginePath (ParseFilePath (rq_urlPath r)) in
  let d := rd_data (rq_body r) in
  known path s -> passable (rq_urlPath r) path ->
  rd_err (rq_body r) = None -> rq_contentLength r = size d -> (size d <= maxUploadBytes)%Z ->
  V1PutFileEnhanced e2 authorizer2 bt2 r s = (s1, resp) -> succeeded resp ->
  rq_urlPath g1 = rq_urlPath r -> rq_userID g1 = Some uid1 -> authorizer1 uid1 path ReadPerm (es_world (es_world s1)) = Ok u1 ->
  rq_urlPath g2 = rq_urlPath r -> rq_userID g2 = Some uid2 -> authorizer2 uid2 path ReadPerm (es_world s1) = Ok u2 ->
  authorizer1 proxyUser path ReadPerm (es_world (es_world s1)) = Ok u ->
  (exists p2 hdrs, V1GetFile e1 authorizer1 fmtTime g1 (es_world s1) = (p2, mkResponse 200 hdrs (BData (bytesReader d))) /\
     ("Content-Length", Itoa (size d)) ∈ hdrs) /\
  (exists s2 hdrs, V1GetFile e2 authorizer2 fmtTime2 g2 s1 = (s2, mkResponse 200 hdrs (BData (bytesReader d))) /\
     ("Content-Length", Itoa (size d)) ∈ hdrs).
Proof.
  intros path d Hk Hpass Hrd Hlen Hmax H Hok Hg1 Hu1 Ha1 Hg2 Hu2 Ha2 Hap.
  enough (Hav : available path d s1).
  { split.
    - eapply (download e1 view serving "localfs" content here); [apply Hav | apply Hav | by rewrite Hg1; apply Hpass | by rewrite Hg1 | done | done].
    - eapply download_remote; [exact Hav | by rewrite Hg2 | exact Hu2 | exact Ha2 | exact Hap]. }
  unfold V1PutFileEnhanced in H. destruct (negb _ && _); [unfold ret in H; injection H as <- <-; by apply error_not_success in Hok |].
  apply guarded_success in H as [_ H]; [| done]. fold path in H.
  assert (Hb : maxBytes maxUploadBytes (rq_body r) = rq_body r).
  { unfold maxBytes. unfold size, d in Hmax. by rewrite (proj2 (Z.ltb_ge _ _) Hmax). }
  rewrite Hb, Hlen in H. replace (size d <? 0)%Z with false in H by (symmetry; apply Z.ltb_ge; unfold size; lia).
  unfold bind at 1 in H. destruct (known_reads path s Hk) as (s2 & md & E & Hp & Hk2). rewrite E in H.
  pose proof Hp as (_ & Ht & _). rewrite Ht in H. cbn [String.eqb Ascii.eqb Bool.eqb negb] in H.
  destruct (proxied md path _ Hp) as [Hoi _]. rewrite Hoi in H. unfold bind at 1 in H.
  destruct (UpdateFileOnInstance e2 background id1 path (rq_body r) (size d) s2) as [s3 r3] eqn:Eu.
  destruct r3 as [[] | er]; [| unfold ret in H; injection H as <- <-; by apply error_not_success in Hok].
  destruct (UpdateFileOnInstance_stores (rq_urlPath r) path (rq_body r) s2 s3 Hk2 Hpass Hrd Eu) as (Hh & Hun1 & Hun2).
  unfold bind at 1, gets in H. set (md' := set_UpdatedAt _ _) in H.
  assert (Hp' : homed path (size d) md') by (unfold plainRecord in *; cbn; tauto). clearbody md'.
  unfold bind at 1, ret in H. destruct (UpdateMetadataOnly e2 md' s3) as [s4 [md4 r4]] eqn:Em. injection H as <- _.
  by eapply UpdateMetadataOnly_shared.
Qed.


(** ** Locks that both instances share *)

(** Both managers work on the same locks, as two [RedisManager]s of one server do. *)
Class SharedLocks (held : W -> string -> Prop) : Prop := {
  sh_spec : LockSpec (e_lockManager e1) held;
  sh_lease : LeaseSpec (e_lockManager e2) (fun p => held (es_world p));
  sh_acquire1 : forall k, files_quiet content (lm_Acquire (e_lockManager e1) k);
  sh_acquire2 : forall k p p' r, lm_Acquire (e_lockManager e2) k p = (p', r) ->
    es_cache p' = es_cache p /\ (serving (es_world p) -> serving (es_world p') /\ view (es_world p') = view (es_world p)) /\
    forall q, content (es_world p') q = content (es_world p) q;
  sh_release2 : forall k p p' r, lm_Release (e_lockManager e2) k p = (p', r) ->
    forall q, content (es_world p') q = content (es_world p) q;
}.

(** PUT of a file whose lock is held fails and leaves the files alone. *)
Lemma put_locked held r md s s1 resp : SharedLocks held ->
  let path := enginePath (ParseFilePath (rq_urlPath r)) in
  serving (es_world s) -> mds2 (mkEState s newEngineCache) !! path = Some md -> homed path (md_Size md) md ->
  cached (fun md => homed path (md_Size md) md) path s -> held (es_world s) ("file:" +:+ path) ->
  V1PutFileEnhanced e1 authorizer1 "localfs" r s = (s1, resp) ->
  ~ succeeded resp /\ forall p, content (es_world s1) p = content (es_world s) p.
Proof.
  intros Hsh path Hs Hm Hp Hc Hheld H. unfold V1PutFileEnhanced in H.
  assert (Herr : forall er n, (400 <= n)%Z -> ret (SendErrorResponse er n) s = (s1, resp) ->
    ~ succeeded resp /\ forall p, content (es_world s1) p = content (es_world s) p).
  { intros er n Hn [= <- <-]. split; [by apply error_not_success | done]. }
  destruct (negb _ && _); [by eapply Herr in H |]. unfold guarded in H.
  destruct (IsInvalid _); [by eapply Herr in H |]. destruct (rq_userID r) as [uid |]; [| by eapply Herr in H].
  destruct (authorizer1 _ _ _ _) as [u | er]; [| by eapply (Herr er 403%Z) in H]. fold path in H. unfold bind at 1 in H.
  destruct (GetMetadata_reads e1 view serving (fun md => homed path (md_Size md) md) path s md Hs Hm Hp Hc) as (s2 & md2 & E & Hp2 & Hw & _).
  rewrite E in H. pose proof Hp2 as (_ & Ht & _ & _ & Ho & _). rewrite Ht in H. cbn [String.eqb Ascii.eqb Bool.eqb negb] in H.
  assert (Hoi : otherInstance e1 md2 = None) by (unfold otherInstance; by rewrite Ho, String.eqb_refl). rewrite Hoi in H.
  unfold bind at 1, UpdateFile, withLock, bind at 1, lift in H. rewrite Hw in H.
  destruct (lm_Acquire _ _ (es_world s)) as [w' ra] eqn:Ea. pose proof (sh_acquire1 _ _ _ _ Ea) as Hq.
  apply sh_spec in Ea as [Hfree _]. destruct ra as [[|] | er].
  - by destruct (Hfree eq_refl).
  - injection H as <- <-. split; [by apply error_not_success | exact Hq].
  - injection H as <- <-. split; [by apply error_not_success | exact Hq].
Qed.

(** A proxied update of such a file. *)
Lemma Update_locked held u path body md p p' r : SharedLocks held -> passable u path -> rd_err body = None ->
  serving (es_world p) -> view_md (view (es_world p)) !! path = Some md -> homed path (md_Size md) md ->
  cached (fun md => homed path (md_Size md) md) path p -> held (es_world p) ("file:" +:+ path) ->
  sg_Update (e_internalProxyBackend e2) (Some id1) (rel path) body (size (rd_data body)) p = (p', r) ->
  is_Ok r = false /\ forall q, content (es_world p') q = content (es_world p) q.
Proof.
  intros Hsh Hpass Hrd Hs Hm Hp Hc Hheld H. destruct (passable_rel _ path Hpass) as [He Hi]. destruct Hpass as (_ & _ & Hpl & _).
  rewrite jo_proxy in H. cbn [InternalProxy.proxyStorage sg_Update] in H. unfold InternalProxy.Update in H.
  rewrite requireInstance_here in H. unfold InternalProxy.UpdateOnInstance, try_bind, ret in H.
  replace (if (0 <? size (rd_data body))%Z then size (rd_data body) else 0%Z) with (size (rd_data body)) in H
    by (unfold size; destruct (Z.ltb_spec 0 (Z.of_nat (String.length (rd_data body)))); lia).
  destruct (proxyDo_asks RPut (rel path) "application/octet-stream" (Some body) (size (rd_data body)) p)
    as (q & p2 & presp & hresp & Hdo & Hserve & Hur & _ & _ & _ & Hst & _); [done .. |].
  cbn [methodOf serve] in Hdo, Hserve. rewrite Hdo in H. injection H as <- <-.
  destruct (put_locked held q md p p2 presp Hsh) as [Hbad Hcont]; rewrite ?Hur, ?He; [done .. |]. split; [| exact Hcont].
  rewrite Hst. unfold InternalProxy.badStatus. destruct (negb (rs_status presp =? 200)%Z && _)%bool eqn:Es; [by destruct (_ =? 404)%Z |].
  destruct Hbad. unfold succeeded. apply andb_false_iff in Es as [Es | Es]; to_prop; auto.
Qed.



End TwoInstances.

(** ** Two concrete instances *)

(** The first is the instance n1 of EngineSpec.v; both use its lock manager. *)
Definition n1 : Engine TW := twEngine false false.
Definition cwErasure : Erasure.Manager TW :=
  let m := Erasure.tnManager in
  Erasure.mkManager TW (Erasure.m_rs m) (Erasure.m_ShardChecksum m) (Erasure.m_hashPrefix m)
    (mkErasureStore TW (fun _ _ => ret (Err ErrNotFound)) (fun _ _ => Err ErrNotFound) (fun _ => ret (Err ErrNotFound)))
    twFiles (Erasure.m_config m) "n1" ∅ "" (mkHttpClient TW (fun _ => Ok tt) (fun _ => ret (Err (EMsg "no peer")))).

Definition cw_authn : Authenticator := fun header => if String.eqb header "Bearer s" then Ok "internal-proxy" else Err ErrAuthenticationFailed.
Definition cw_find : list Route -> string -> string -> option Route := fun rts m p => best m p rts.
Definition cw_limit : HandlerName -> string -> St (EState TW) bool := fun _ _ => ret true.
Definition cw_other : HandlerName -> Request -> St (EState TW) Response := fun _ _ => ret (status 500).
Definition cw_peer : Incoming -> St (EState TW) Response :=
  peer n1 tw_allow cw_authn cwErasure Itoa [] [] cw_other cw_find cw_limit false.

(** A network that carries everything that is sent to n1. *)
Definition cw_incoming (req : HttpRequest) : Incoming :=
  mkIncoming (hq_Method req) ("/v1/files/" +:+ TrimPrefix (hq_URL req) "https://n1/v1/files/") "10.0.0.2:4000" true
    (mkRequest "" None (fun h => if String.eqb h "Authorization" then hq_Auth req else "") (fun _ => "")
       (default (bytesReader "") (hq_Body req)) (hq_ContentLength req)) (Ok "01234567").
Definition cw_response (resp : Response) : HttpResponse :=
  mkHttpResponse (rs_status resp)
    (fun k => match List.find (fun kv => String.eqb kv.1 k) (rs_headers resp) with Some kv => kv.2 | None => "" end)
    (match rs_body resp with BData rd => rd_data rd | _ => "" end).
Definition cw_client : HttpClient (EState TW) :=
  mkHttpClient _ (fun _ => Ok tt) (fun req s => let '(s', resp) := cw_peer (cw_incoming req) s in (s', Ok (cw_response resp))).
Definition cw_map : gmap string string := {[ "n1" := "https://n1/" ]}.

Definition n2 : Engine (EState TW) :=
  let proxy := InternalProxy.proxyStorage cw_client InternalProxy.plainCodecs cw_map "s" (fun _ => 7%Z) in
  mkEngine (EState TW) (sharedStore (e_metadataStore n1)) (Noop.noopStorage _) (Noop.noopStorage _) proxy
    (Some (mkProxyAdapter _ (InternalProxy.DeleteOnInstance cw_client InternalProxy.plainCodecs cw_map "s")
             (InternalProxy.StatOnInstance cw_client InternalProxy.plainCodecs cw_map "s" (fun _ => 7%Z))))
    (mkLockManager _ (fun k => lift (lm_Acquire (e_lockManager n1) k)) (fun k => lift (lm_Release (e_lockManager n1) k)))
    "n2" cw_map false "" false None (fun _ => 7%Z) (mkSchedule (fun c => map_to_list (Cache.mc_cache c)) id (fun _ => false)).

Lemma TrimLeft_plain p : plainPath p = true -> TrimLeft p slash = p.
Proof.
  intros Hp. apply plainPath_split in Hp. destruct p as [| c p]; [done |]. cbn [split_on] in Hp. cbn [TrimLeft].
  destruct (Ascii.eqb c slash) eqn:E; [| done]. by apply Forall_inv in Hp.
Qed.

#[global] Instance cw_reachable : Reachable cw_client InternalProxy.plainCodecs "https://n1/" cw_peer.
Proof.
  split; [done |]. intros req p s Hurl Hp _. unfold cw_client. cbn [hc_Do].
  destruct (cw_peer (cw_incoming req) s) as [s' resp] eqn:E.
  exists (cw_incoming req), s', resp, (cw_response resp). split; [| split; [done |]; split; [done |]].
  - assert (Hu : hq_URL req = "https://n1/v1/files/" +:+ p).
    { rewrite Hurl. unfold InternalProxy.buildProxyURL. by rewrite TrimLeft_plain. }
    split; try done; [| by left]. unfold cw_incoming. rewrite Hu, TrimPrefix_app. done.
  - split; [done |]. intros d Hd _. unfold cw_response. cbn. by rewrite Hd.
Qed.

#[global] Instance cw_joined :
  Joined n1 tw_allow cw_authn cwErasure Itoa [] [] cw_other cw_find cw_limit false n2 cw_client InternalProxy.plainCodecs
    cw_map "s" "https://n1/" "internal-proxy" (fun _ => 7%Z).
Proof. split; try done; [by eexists | apply cw_reachable]. Qed.

Lemma lifted_lease {W} (lm : LockManager W) held : LeaseSpec lm held ->
  LeaseSpec (mkLockManager (EState W) (fun k => lift (lm_Acquire lm k)) (fun k => lift (lm_Release lm k)))
    (fun p => held (es_world p)).
Proof.
  intros H. split; cbn [lm_Acquire lm_Release]; intros k w w' r E%lift_world.
  - by eapply (lease_Acquire (LeaseSpec := H)).
  - by eapply (lease_Release (LeaseSpec := H)).
Qed.

#[global] Instance cw_locks : SharedLocks n1 tw_view (fun _ => True) tw_content n2 tw_held.
Proof.
  assert (Hq : forall k w w' r, lm_Acquire twLocks k w = (w', r) -> tw_view w' = tw_view w /\ tw_files w' = tw_files w).
  { intros k w w' r. cbn [twLocks lm_Acquire]. destruct (lm_Acquire _ k (tw_locks w)). by intros [= <- _]. }
  split; [apply _ | apply lifted_lease, (EngineThreadsSpec.tw_lease_spec false false) | | |].
  - intros k w w' r E p. apply Hq in E as [_ E]. unfold tw_content. by rewrite E.
  - intros k p p' r E. cbn [n2 e_lockManager lm_Acquire] in E. unfold lift in E. change (e_lockManager n1) with twLocks in E.
    destruct (lm_Acquire twLocks k (es_world p)) as [w' r'] eqn:Ea. injection E as <- _. cbn [es_cache es_world].
    apply Hq in Ea as [Ev Ef]. split; [done |]. split; [done |]. intros q. unfold tw_content. by rewrite Ef.
  - intros k p p' r E%lift_world. cbn [n1 twEngine e_lockManager twLocks lm_Release] in E.
    destruct (lm_Release _ k (tw_locks (es_world p))). by injection E as <- _.
Qed.

(** n1 stores /d/x/f, and n2 has cached nothing. *)
Definition cw_stored : EState (EState TW) := mkEState (tw_created false false) newEngineCache.
Definition cw_allow : Authorizer (EState TW) := fun uid path perm p => Ok tt.

Lemma cw_known : known n1 tw_view (fun _ => True) "/d/x/f" cw_stored.
Proof.
  split; [exact I |]. split; [| split; intros en Hen; vm_compute in Hen; discriminate].
  eexists. split; [vm_compute; reflexivity |]. vm_compute. repeat split; reflexivity.
Qed.
Lemma cw_passable : passable "d/x/f" "/d/x/f".
Proof. by vm_compute. Qed.

Lemma cluster_upload_then_download_witness :
  exists s2 hdrs, V1GetFile n2 cw_allow Itoa tw_get_request (mkEState tw_uploaded.1 newEngineCache) =
    (s2, mkResponse 200 hdrs (BData (bytesReader "goodbye"))) /\ ("Content-Length", "7") ∈ hdrs.
Proof.
  refine (cluster_upload_then_download n1 tw_view (fun _ => True) tw_content tw_allow cw_authn cwErasure Itoa [] []
    cw_other cw_find cw_limit false n2 cw_client InternalProxy.plainCodecs cw_map "s" "https://n1/" "internal-proxy" (fun _ => 7%Z)
    cw_allow Itoa true tw_put_request tw_get_request "root" tt tt cw_stored tw_uploaded.1 tw_uploaded.2 _ _ _ _ _ _ _ _ _ _ _ _).
  - exact (CreateFile_good (twEngine false false) tw_view (fun _ => True) None "/d/x/f" (bytesReader "hello") 5 tw_md
             tw0 (tw_created false false) _ (surjective_pairing _) tw0_good).
  - intros md Hmd. vm_compute in Hmd. injection Hmd as <-. repeat split; reflexivity.
  - reflexivity.
  - vm_compute. reflexivity.
  - left. reflexivity.
  - reflexivity.
  - apply surjective_pairing.
  - left. vm_compute. reflexivity.
  - exact cw_passable.
  - reflexivity.
  - reflexivity.
  - reflexivity.
Defined.

Definition cw_put : Request := tw_request (bytesReader "see you") 7.
Definition cw_updated : EState (EState TW) * Response := V1PutFileEnhanced n2 cw_allow "localfs" cw_put cw_stored.

Lemma cluster_update_then_download_witness :
  (exists p2 hdrs, V1GetFile n1 tw_allow Itoa tw_get_request (es_world cw_updated.1) =
     (p2, mkResponse 200 hdrs (BData (bytesReader "see you"))) /\ ("Content-Length", "7") ∈ hdrs) /\
  (exists s2 hdrs, V1GetFile n2 cw_allow Itoa tw_get_request cw_updated.1 =
     (s2, mkResponse 200 hdrs (BData (bytesReader "see you"))) /\ ("Content-Length", "7") ∈ hdrs).
Proof.
  refine (cluster_update_then_download n1 tw_view (fun _ => True) tw_content tw_allow cw_authn cwErasure Itoa [] []
    cw_other cw_find cw_limit false n2 cw_client InternalProxy.plainCodecs cw_map "s" "https://n1/" "internal-proxy" (fun _ => 7%Z)
    cw_allow Itoa "localfs" cw_put tw_get_request tw_get_request "root" "root" tt tt tt cw_stored cw_updated.1 cw_updated.2
    cw_known cw_passable eq_refl eq_refl _ (surjective_pairing _) _ eq_refl eq_refl eq_refl eq_refl eq_refl eq_refl eq_refl).
  - vm_compute. discriminate.
  - left. vm_compute. reflexivity.
Defined.

Definition cw_deleted : EState (EState TW) * Response := V1DeleteFileEnhanced n2 cw_allow tw_get_request cw_stored.


Definition cw_blocked : EState (EState TW) * Res unit := UpdateFile n2 background "/d/x/f" (bytesReader "see you") 7 cw_stored.


(** ** Caches are not told of updates elsewhere *)

(** n2 serves the file and caches its record; then n1 answers 200 to a PUT of
    longer content; the next GET at n2 announces the old length for the new
    bytes, so that the client receives only the first part of them. *)
Definition cw_served : EState (EState TW) := (V1GetFile n2 cw_allow Itoa tw_get_request cw_stored).1.
Definition cw_changed : EState TW * Response := V1PutFileEnhanced n1 tw_allow "localfs" cw_put (es_world cw_served).

Theorem cluster_stale_length :
  rs_status cw_changed.2 = 200%Z /\
  let resp := (V1GetFile n2 cw_allow Itoa tw_get_request (mkEState cw_changed.1 (es_cache cw_served))).2 in
  rs_status resp = 200%Z /\ rs_body resp = BData (bytesReader "see you") /\ ("Content-Length", "5") ∈ rs_headers resp.
Proof.
  split; [by vm_compute |]. cbv zeta. split; [by vm_compute |]. split; [by vm_compute |].
  apply list_elem_of_In. vm_compute. auto.
Qed.

End Cluster.
