(* ===== verification/Workers.v ===== *)
(** * Background workers

    The clean-up goroutines: of the metadata cache (core/cache.go), of the
    in-process lock manager (locks/local_manager.go), of the rate limiter
    (server/middleware/ratelimit.go) and of the single-use links
    (links/background_cleanup.go).  Each is a loop around a [select] of a ticker and
    of a channel that is closed to stop it. *)
From S2P Require Import Prelude GoStrings Metadata Cache Locks Links RateLimit.
From Stdlib Require Import Ascii String.
Open Scope bool_scope.

Module Workers.

Inductive Loop : Type := Waiting | Returned.
#[global] Instance Loop_eq_dec : EqDecision Loop.
Proof. solve_decision. Defined.

(** A worker and what it works on: the shared state, whether the ticker's channel
    (of capacity one) holds a tick, whether the stop channel is closed, and where
    the loop is. *)
Record Worker (S : Type) := mkWorker {
  wk_state : S;
  wk_tick : bool;
  wk_stopped : bool;
  wk_loop : Loop;
}.
Arguments mkWorker {S}. Arguments wk_state {S}. Arguments wk_tick {S}. Arguments wk_stopped {S}. Arguments wk_loop {S}.

(** The cases of a worker's [select], in the order of the code: a pass of work when
    the ticker's channel has a tick ([C] is what a pass depends on besides the state:
    clock and map order), and the return when the stop channel is closed. *)
Inductive Case (S C : Type) : Type :=
| OnTick (pass : C -> S -> S)
| OnStop.
Arguments OnTick {S C}. Arguments OnStop {S C}.

Section Select.
Context {S C : Type}.
Fixpoint tickCase (select : list (Case S C)) : option (C -> S -> S) :=
  match select with [] => None | OnTick pass :: _ => Some pass | OnStop :: rest => tickCase rest end.
Definition stopCase (select : list (Case S C)) : bool :=
  existsb (fun c => match c with OnStop => true | OnTick _ => false end) select.
End Select.

(** What happens: the ticker fires, the loop takes one of the two cases of its
    [select], somebody stops the worker, somebody else uses the shared state. *)
Inductive Action (S C : Type) : Type :=
| Tick
| Pass (c : C)
| Return
| Stop
| Use (f : S -> S).
Arguments Tick {S C}. Arguments Pass {S C}. Arguments Return {S C}. Arguments Stop {S C}. Arguments Use {S C}.

(** An action happens, cannot happen now, or panics: closing a closed channel does. *)
Inductive Outcome (S : Type) : Type := Went (w : Worker S) | Blocked | Panics.
Arguments Went {S}. Arguments Blocked {S}. Arguments Panics {S}.

Section Worker.
Context {S C : Type}.
(** The [select] of the loop, and what stopping does: a second [close] of the channel
    panics, a second [cancel] of a context does nothing; the second part of
    [stop] is what the closing function does to the shared state afterwards. *)
Context (select : list (Case S C)) (stopAgain : bool) (stop : S -> S).

Definition act (a : Action S C) (w : Worker S) : Outcome S :=
  match a, wk_loop w with
  | Tick, Waiting => Went (mkWorker (wk_state w) true (wk_stopped w) Waiting)
  | Tick, Returned => Blocked
  | Pass c, Waiting =>
      match tickCase select with
      | Some pass => if wk_tick w then Went (mkWorker (pass c (wk_state w)) false (wk_stopped w) Waiting) else Blocked
      | None => Blocked
      end
  | Pass _, Returned => Blocked
  | Return, Waiting => if stopCase select && wk_stopped w then Went (mkWorker (wk_state w) false true Returned) else Blocked
  | Return, Returned => Blocked
  | Stop, l =>
      if wk_stopped w then if stopAgain then Went w else Panics
      else Went (mkWorker (stop (wk_state w)) (wk_tick w) true l)
  | Use f, l => Went (mkWorker (f (wk_state w)) (wk_tick w) (wk_stopped w) l)
  end.

Fixpoint acts (l : list (Action S C)) (w : Worker S) : Outcome S :=
  match l with
  | [] => Went w
  | a :: rest => match act a w with Went w' => acts rest w' | Blocked => Blocked | Panics => Panics end
  end.

(** A worker as it is started. *)
Definition started (s : S) : Worker S := mkWorker s false false Waiting.

Definition isTick (a : Action S C) : bool := match a with Tick => true | _ => false end.
Definition isPass (a : Action S C) : bool := match a with Pass _ => true | _ => false end.
(** The steps of the goroutine itself. *)
Definition isTurn (a : Action S C) : bool := match a with Pass _ | Return => true | _ => false end.
Definition isStop (a : Action S C) : bool := match a with Stop => true | _ => false end.
Definition count (p : Action S C -> bool) (l : list (Action S C)) : nat := List.length (List.filter p l).
Definition pending (w : Worker S) : nat := if wk_tick w then 1 else 0.

Lemma count_cons p a l : count p (a :: l) = (if p a then 1 else 0) + count p l.
Proof. unfold count. cbn. by destruct (p a). Qed.

Lemma acts_app l l' w : acts (l ++ l') w = match acts l w with Went w' => acts l' w' | Blocked => Blocked | Panics => Panics end.
Proof. revert w. induction l as [| a l IH]; intros w; cbn; [done |]. destruct (act a w); [apply IH | done | done]. Qed.

(** What one action does to the worker, whatever it does to the state. *)
Lemma act_facts a w w' : act a w = Went w' ->
  (if isPass a then 1 else 0) + pending w' <= (if isTick a then 1 else 0) + pending w /\
  (wk_loop w' = Waiting -> wk_loop w = Waiting /\ isTurn a = isPass a) /\
  (wk_loop w = Returned -> isTurn a = false) /\
  wk_stopped w' = wk_stopped w || isStop a /\
  (wk_loop w = Waiting -> wk_loop w' = Returned -> wk_stopped w = true).
Proof.
  destruct w as [s t b lp]. unfold pending, act. intros H.
  destruct a, lp; cbn in H; [| | destruct (tickCase select) | | destruct (stopCase select) | | | | |];
    cbn in H; repeat case_if_in H; try discriminate H; injection H as <-; cbn; destruct t;
    (split; [lia |]); by rewrite ?orb_false_r, ?orb_true_r.
Qed.

Lemma acts_cons a l w w' : acts (a :: l) w = Went w' -> exists w1, act a w = Went w1 /\ acts l w1 = Went w'.
Proof. cbn. destruct (act a w) as [w1 | |]; [by exists w1 | done | done]. Qed.

(** There are no more passes than ticks. *)
Lemma acts_passes l w w' : acts l w = Went w' -> count isPass l + pending w' <= count isTick l + pending w.
Proof.
  revert w. induction l as [| a l IH]; intros w; [by intros [= <-] |].
  intros (w1 & Ha & Hl%IH)%acts_cons. apply act_facts in Ha as (Ha & _). rewrite !count_cons. lia.
Qed.

Lemma acts_waiting l w w' : acts l w = Went w' -> wk_loop w' = Waiting -> wk_loop w = Waiting /\ count isTurn l = count isPass l.
Proof.
  revert w. induction l as [| a l IH]; intros w; [by intros [= <-] |].
  intros (w1 & Ha & Hl)%acts_cons Hw. destruct (IH _ Hl Hw) as [Hw1 He].
  apply act_facts in Ha as (_ & Ha & _). destruct (Ha Hw1) as [Hw0 Ht]. split; [done |]. by rewrite !count_cons, Ht, He.
Qed.

Lemma acts_stopped l w w' : acts l w = Went w' -> wk_stopped w' = wk_stopped w || existsb isStop l.
Proof.
  revert w. induction l as [| a l IH]; intros w; [intros [= <-]; by rewrite orb_false_r |].
  intros (w1 & Ha & Hl%IH)%acts_cons. apply act_facts in Ha as (_ & _ & _ & Ha & _). cbn. by rewrite Hl, Ha, orb_assoc.
Qed.

(** After it has returned, a worker does nothing. *)
Lemma acts_returned l w w' : acts l w = Went w' -> wk_loop w = Returned ->
  wk_loop w' = Returned /\ count isTurn l = 0.
Proof.
  revert w. induction l as [| a l IH]; intros w; [by intros [= <-] |].
  intros (w1 & Ha & Hl)%acts_cons Hw. pose proof (act_facts _ _ _ Ha) as (_ & Hwait & Hturn & _).
  destruct (wk_loop w1) eqn:E1; [destruct (Hwait eq_refl); congruence |].
  destruct (IH _ Hl E1) as [Hw' Hc]. split; [done |]. by rewrite count_cons, Hc, Hturn.
Qed.

(** A worker that nobody stops does not return. *)
Lemma acts_unstopped l w w' :
  acts l w = Went w' -> wk_loop w = Waiting -> wk_stopped w = false -> existsb isStop l = false ->
  wk_loop w' = Waiting /\ wk_stopped w' = false.
Proof.
  revert w. induction l as [| a l IH]; intros w; [by intros [= <-] |].
  intros (w1 & Ha & Hl)%acts_cons Hw Hs [Hna Hnl]%orb_false_iff.
  apply act_facts in Ha as (_ & _ & _ & Hst & Hret). rewrite Hs, Hna in Hst. cbn in Hst.
  eapply IH; [exact Hl | | done | done]. destruct (wk_loop w1); [done |]. by rewrite Hret in Hs.
Qed.

(** A worker whose [select] has the case, and that is stopped, ends: from then on its goroutine is never blocked, and
    it has returned at the latest when it has taken two turns more than the
    ticker fired, however the rest of the program interleaves with it; then it
    never touches the shared state again. *)
Theorem worker_stops l w w' :
  stopCase select = true -> acts l w = Went w' -> wk_stopped w = true -> wk_loop w = Waiting ->
  (wk_loop w' = Returned \/ exists w'', act Return w' = Went w'') /\
  (count isTick l + 2 <= count isTurn l -> wk_loop w' = Returned) /\
  (wk_loop w' = Returned -> forall l2 w2, acts l2 w' = Went w2 -> count isTurn l2 = 0).
Proof.
  intros Hsel Hl Hs Hw. pose proof (acts_stopped _ _ _ Hl) as Hs'. rewrite Hs in Hs'. cbn in Hs'. split; [| split].
  - unfold act. rewrite Hs', Hsel. destruct (wk_loop w'); [right; by eexists | by left].
  - intros Hc. destruct (wk_loop w') eqn:E; [| done]. destruct (acts_waiting _ _ _ Hl E) as [_ He].
    pose proof (acts_passes _ _ _ Hl) as Hp. unfold pending in Hp. exfalso. destruct (wk_tick w), (wk_tick w'); lia.
  - intros E l2 w2 Hl2. by destruct (acts_returned _ _ _ Hl2 E).
Qed.

End Worker.

(** ** The metadata cache *)

Module CacheWorker.
Import Cache.

(** A pass of [performCleanup]: its clock and the order of the map. *)
Definition cachePass : Time * list (string * CacheEntry) -> MetadataCache -> MetadataCache :=
  fun '(now, order) => performCleanup now order.
(** The loop of [cleanupExpiredEntries], and [Close]. *)
Definition cacheSelect : list (Case MetadataCache (Time * list (string * CacheEntry))) := [OnTick cachePass; OnStop].
Definition cleanupExpiredEntries := acts cacheSelect false (fun c => c).
Definition closeCache : Action MetadataCache (Time * list (string * CacheEntry)) := Stop.
Definition startCache (ttl : Duration) (maxSize : Z) : Worker MetadataCache := started (Cache.NewMetadataCache ttl maxSize).

(** A pass takes no answer away: what [Get] answers later is what it would have answered. *)
Lemma pass_unseen now order c now' p : range_of order c -> (now <= now')%Z -> Get now' p (cachePass (now, order) c) = Get now' p c.
Proof.
  intros Hr Hle. unfold Get, cachePass. rewrite lookup_performCleanup by done. destruct (mc_cache c !! p) as [e |]; [| done].
  unfold IsExpired, After. destruct (Z.ltb_spec (ce_ExpiresAt e) now) as [H | H]; [| done].
  by destruct (Z.ltb_spec (ce_ExpiresAt e) now'); [| lia].
Qed.
End CacheWorker.

(** ** The in-process lock manager *)

Module LockWorker.
Import LocalLocks.

(** [LocalManager]: its map and the id made at its start. *)
Record LocalManager := mkLocalManager { lm_locks : gmap string lockEntry; lm_instanceID : string }.

Definition NewLocalManager (hexEncode : string -> string) (randRead : Res string) : Worker LocalManager :=
  started (mkLocalManager ∅ (mustGenerateID hexEncode randRead)).
Definition lockPass : Time * list (string * lockEntry) -> LocalManager -> LocalManager :=
  fun '(now, order) m => mkLocalManager (cleanup now order (lm_locks m)) (lm_instanceID m).
Definition clear (m : LocalManager) : LocalManager := mkLocalManager (LocalLocks.Close (lm_locks m)).1 (lm_instanceID m).
Definition lockSelect : list (Case LocalManager (Time * list (string * lockEntry))) := [OnTick lockPass; OnStop].
Definition lockCleanupLoop := acts lockSelect false clear.
(** [Close] closes the channel before it clears the map. *)
Definition closeLocks : Action LocalManager (Time * list (string * lockEntry)) := Stop.
End LockWorker.

(** ** The links *)

Module LinkWorker.
Section LinkWorker.
Context {W : Type} (store : Store W).

(** A pass of [cleanupLinks], with its two readings of the clock. *)
Definition linkPass : Time * Time -> W -> W := fun '(now, now') w => (Links.cleanupLinks store now now' w).1.
(** The loop ends with its context, which may be cancelled again. *)
Definition linkSelect : list (Case W (Time * Time)) := [OnTick linkPass; OnStop].
Definition linkLoop := acts linkSelect true (fun w : W => w).
End LinkWorker.

(** [StartCleanupWorker]: without a store there is no worker. *)
Definition StartCleanupWorker {W} (metadataStore : option (Store W)) (w : W) : option (Worker W) :=
  match metadataStore with None => None | Some _ => Some (started w) end.
End LinkWorker.

(** ** The rate limiter *)

Module LimitWorker.
Section LimitWorker.
Context {L : Type}.
Definition limitPass : Time -> @RateLimit.perIPRateLimiter L -> @RateLimit.perIPRateLimiter L := RateLimit.cleanup.
(** Nothing closes the channel of [cleanupLoop]. *)
Definition limitSelect : list (Case (@RateLimit.perIPRateLimiter L) Time) := [OnTick limitPass; OnStop].
Definition limitCleanupLoop := acts limitSelect false (fun p => p).
End LimitWorker.

(** Without anything to close its channel the goroutine of a rate limiter runs until
    the program ends. *)
Theorem limiter_never_returns {L} l (p : @RateLimit.perIPRateLimiter L) w :
  existsb isStop l = false -> limitCleanupLoop l (started p) = Went w -> wk_loop w = Waiting.
Proof. intros Hn Hl. by eapply (acts_unstopped _ _ _ l (started p) w). Qed.
End LimitWorker.

(** ** Concrete runs *)

Definition w_cache : Cache.MetadataCache :=
  Cache.mkCache {[ "/a"%string := Cache.mkEntry (newMetadata "a" "file" "0644" 0 0 "localfs" 0) 5 ]} 5 10.

(** The cache is closed while a tick is pending: one more pass may run, then the goroutine returns. *)
Lemma worker_stops_witness :
  let l := [Use (Cache.Invalidate "/b"); Pass (9%Z, map_to_list (Cache.mc_cache w_cache)); Return] in
  match CacheWorker.cleanupExpiredEntries l (mkWorker w_cache true true Waiting) with
  | Went w' => wk_loop w' = Returned /\ Cache.mc_cache (wk_state w') = ∅
  | _ => False
  end.
Proof.
  intros l. split; [| vm_compute; reflexivity].
  refine (proj1 (proj2 (worker_stops CacheWorker.cacheSelect false (fun c => c) l (mkWorker w_cache true true Waiting) _ eq_refl eq_refl eq_refl eq_refl)) _).
  cbn. lia.
Defined.

Example closed_twice : CacheWorker.cleanupExpiredEntries [CacheWorker.closeCache; CacheWorker.closeCache] (started w_cache) = Panics.
Proof. reflexivity. Qed.

End Workers.
