(* ===== verification/Migrations.v ===== *)
(** * Schema migrations and the command line: metadata/schema/migrations.go, cmd/main.go

    [RunMigrations] over database/sql and golang-migrate, which are parameters: it
    opens the database, runs what is pending and closes it; and the command tree of
    the program with [main]. *)
From S2P Require Import Prelude GoStrings Config Startup.
From Stdlib Require Import Ascii String.
Import Startup.
Open Scope string_scope.
Open Scope bool_scope.

Module Migrations.

(** ** RunMigrations *)

Inductive Handle : Type := Database (dsn : string).
Inductive Event : Type :=
| Opened (h : Handle)
| Closed (h : Handle)
| Pinged
| WentUp (r : Res unit).

(** What the libraries answer: [sql.Open], [db.Ping], [iofs.New], [postgres.WithInstance],
    [migrate.NewWithInstance] and [m.Up]. *)
Record Env := mkEnv {
  sql_Open : string -> Res unit;
  db_Ping : Res unit;
  iofs_New : Res unit;
  postgres_WithInstance : Res unit;
  migrate_NewWithInstance : Res unit;
  m_Up : Res unit;
}.

(** [migrate.ErrNoChange]. *)
Definition ErrNoChange : gerr := EMsg "no change".

Section Run.
Context (env : Env).
Abbreviation B := (Body Event Handle).

Definition RunMigrationsBody (dsn : string) : B unit :=
  run _ <- check_err "failed to open database" (sql_Open env dsn);
  run _ <- emit (Opened (Database dsn));
  run _ <- defer (Database dsn);
  run _ <- check_err "failed to ping database" (db_Ping env);
  run _ <- emit Pinged;
  run _ <- check_err "failed to open migration source" (iofs_New env);
  run _ <- check_err "failed to create database driver" (postgres_WithInstance env);
  run _ <- check_err "failed to create migrator" (migrate_NewWithInstance env);
  run _ <- emit (WentUp (m_Up env));
  match m_Up env with
  | Err er => if bool_decide (er = ErrNoChange) then b_ret tt else b_stop (Return (Err (EWrap "failed to run migrations" er)))
  | Ok _ => b_ret tt
  end.

(** The deferred [db.Close()] runs on every return. *)
Definition RunMigrations (dsn : string) : list Event * Res unit :=
  match RunMigrationsBody dsn (mkRun [] []) with
  | (s, inl _) => ((trace s ++ map Closed (defers s))%list, Ok tt)
  | (s, inr (Return r)) => ((trace s ++ map Closed (defers s))%list, r)
  | (s, inr (Fatal _ er)) => (trace s, Err er)
  end.

(** [RunMigrations] closes the database it has opened on every way out, runs the
    migrations only on a database that answers, and succeeds exactly when everything
    before succeeded and the migrations ran or there was nothing to run. *)
Theorem migrations_exact dsn :
  let '(tr, r) := RunMigrations dsn in
  (tr = [] \/ exists mid, tr = (Opened (Database dsn) :: mid ++ [Closed (Database dsn)])%list) /\
  (forall u, WentUp u ∈ tr -> db_Ping env = Ok tt /\ u = m_Up env) /\
  (r = Ok tt <-> sql_Open env dsn = Ok tt /\ db_Ping env = Ok tt /\ iofs_New env = Ok tt /\
     postgres_WithInstance env = Ok tt /\ migrate_NewWithInstance env = Ok tt /\
     (m_Up env = Ok tt \/ m_Up env = Err ErrNoChange)).
Proof.
  unfold RunMigrations, RunMigrationsBody, check_err, b_bind, b_ret, b_stop, emit, defer.
  destruct (sql_Open env dsn) as [[] | e1], (db_Ping env) as [[] | e2], (iofs_New env) as [[] | e3],
    (postgres_WithInstance env) as [[] | e4], (migrate_NewWithInstance env) as [[] | e5]; cbn;
    try (split; [first [by left | right; by eexists [] | right; by eexists [_]] |];
         split; [intros u Hu; repeat (apply elem_of_cons in Hu as [Hu | Hu]; [done |]); by apply elem_of_nil in Hu |];
         split; [done | intros (? & ? & ? & ? & ? & ?); done]).
  destruct (m_Up env) as [[] | er] eqn:Eu; [| case_bool_decide as Hno]; cbn;
    (split; [right; by eexists [_; _] |];
     split; [intros u Hu; repeat (apply elem_of_cons in Hu as [Hu | Hu]; [first [done | by injection Hu as ->] |]); by apply elem_of_nil in Hu |]);
    (split; [intros Hr; repeat split; first [by left | right; congruence | discriminate Hr] |
             intros (_ & _ & _ & _ & _ & [H | H]); first [done | congruence]]).
Qed.
End Run.

(** ** The command line *)

Inductive RunE : Type := RunServer | RunClusterJoin | ValidateConfig.
Record Flag := mkFlag { fg_Name : string; fg_Shorthand : string; fg_Persistent : bool; fg_Required : bool }.

(** [cobra.Command], the fields that the code sets. *)
#[warnings="-register-all"]
Inductive Command : Type :=
  mkCommand (use short : string) (runE : option RunE) (flags : list Flag) (commands : list Command).
Definition cm_Use (c : Command) : string := let '(mkCommand u _ _ _ _) := c in u.
Definition cm_RunE (c : Command) : option RunE := let '(mkCommand _ _ r _ _) := c in r.
Definition cm_Flags (c : Command) : list Flag := let '(mkCommand _ _ _ f _) := c in f.
Definition cm_Commands (c : Command) : list Command := let '(mkCommand _ _ _ _ l) := c in l.

Definition configFlag (persistent : bool) : Flag := mkFlag "config" "c" persistent false.
Definition serverCmd : Command := mkCommand "server" "Start the CallFS server" (Some RunServer) [configFlag false] [].
Definition validateCmd : Command := mkCommand "validate" "Validate configuration" (Some ValidateConfig) [] [].
Definition configCmd : Command :=
  mkCommand "config" "Configuration management commands" None [configFlag true] [validateCmd].
Definition clusterJoinCmd : Command :=
  mkCommand "join" "Join this node to a Raft metadata cluster" (Some RunClusterJoin)
    [mkFlag "leader" "" false true; mkFlag "node-id" "" false false; mkFlag "raft-addr" "" false false;
     mkFlag "api-endpoint" "" false false; mkFlag "internal-secret" "" false false] [].
Definition clusterCmd : Command :=
  mkCommand "cluster" "Cluster management commands" None [configFlag true] [clusterJoinCmd].
Definition rootCmd : Command :=
  mkCommand "callfs" "CallFS - Ultra-lightweight REST API filesystem" None [] [serverCmd; configCmd; clusterCmd].

(** [main]: without a command the server is started; [execute] is cobra's
    [Execute] of a command tree on the arguments.  The result is the exit status. *)
Definition main {W} (execute : Command -> list string -> St W (Res unit)) (args : list string) : St W Z := fun w =>
  let args := if Nat.eqb (List.length args) 1 then (args ++ ["server"])%list else args in
  match execute rootCmd (List.tl args) w with
  | (w', Err _) => (w', 1%Z)
  | (w', Ok _) => (w', 0%Z)
  end.

End Migrations.
